(** * Negative-test fixture generator: field mutation engine and
      specification extraction

    A shallow embedding of the Python sources

      - [Replit/test_generator.py]           (unified generator, five format strategies)
      - [Generating_MISS-RE_Tests/Required.py]   (legacy required-field generator)
      - [Generating_MISS-OE_Tests/Optional2.py]  (legacy optional-field generator)
      - [SPEC_TO_JSON/extractor4.py], [SPEC_TO_JSON/extractor2.py]
      - [SPEC_TO_JSON/detector.py], [SPEC_TO_JSON/processExcel4.py]

    Conventions.  A Python [str] is a Rocq [string]; each [ascii] is read as
    the code point of that number, so the model covers the strings whose
    code points are below 256.  Python exceptions are values of [pyexn]
    carried by [result].  Python dictionaries keep insertion order, so a
    dictionary is an association list with distinct keys.  The legacy
    generators open their output files without a handler: what [open]
    answers for a file name is a parameter of their runs. *)

From Stdlib Require Import ZArith NArith Ascii String Bool Lia.
From Stdlib Require Import DecimalString.
From Stdlib Require DecimalZ DecimalFacts.
From stdpp Require Import base tactics option list relations.

Local Open Scope list_scope.
Local Open Scope string_scope.

(** ** Exceptions *)

Inductive pyexn : Type :=
| ValueError
| IndexError
| TypeError
| KeyError
| AttributeError
| RecursionError
| SyntaxError
| JSONDecodeError
| ParseError
| FileNotFoundError.

Inductive result (A : Type) : Type :=
| Ok (a : A)
| Raise (e : pyexn).
Arguments Ok {A} a.
Arguments Raise {A} e.

Definition rbind {A B} (r : result A) (k : A -> result B) : result B :=
  match r with
  | Ok a => k a
  | Raise e => Raise e
  end.

Notation "'do' x <- r ;; k" := (rbind r (fun x => k))
  (at level 10, x name, r at level 99, k at level 200).

Definition rmap {A B} (f : A -> B) (r : result A) : result B :=
  do a <- r ;; Ok (f a).

Infix "<$$>" := rmap (at level 61, left associativity).

(** ** Python built-ins on [str] and [list] *)

Module Py.

Definition code (c : ascii) : N := N_of_ascii c.

Definition in_range (lo hi : N) (c : ascii) : bool :=
  (lo <=? code c)%N && (code c <=? hi)%N.

Definition is_code (n : N) (c : ascii) : bool := (code c =? n)%N.

(** [str.isspace] on one character (code points below 256). *)
Definition isspace (c : ascii) : bool :=
  in_range 9 13 c || in_range 28 32 c || is_code 133 c || is_code 160 c.

(** The characters [int()] skips at both ends of its argument. *)
Definition int_space (c : ascii) : bool :=
  in_range 9 13 c || is_code 32 c || is_code 133 c || is_code 160 c.

Definition is_decimal (c : ascii) : bool := in_range 48 57 c.

(** [str.isdigit] on one character: the decimal digits and the
    superscripts 2, 3 and 1. *)
Definition isdigit_char (c : ascii) : bool :=
  is_decimal c || is_code 178 c || is_code 179 c || is_code 185 c.

(** The characters matched by the regular expression [\w] on a [str]
    pattern: alphanumerics of the first 256 code points and the underscore. *)
Definition is_word (c : ascii) : bool :=
  in_range 48 57 c || in_range 65 90 c || in_range 97 122 c || is_code 95 c
  || is_code 170 c || is_code 178 c || is_code 179 c || is_code 181 c
  || is_code 185 c || is_code 186 c || in_range 188 190 c
  || in_range 192 214 c || in_range 216 246 c || in_range 248 255 c.

Fixpoint all_chars (p : ascii -> bool) (s : string) : bool :=
  match s with
  | EmptyString => true
  | String c r => p c && all_chars p r
  end.

(** [c in s] for a one-character [c]. *)
Fixpoint contains (c : ascii) (s : string) : bool :=
  match s with
  | EmptyString => false
  | String d r => Ascii.eqb d c || contains c r
  end.

Definition is_empty (s : string) : bool :=
  match s with EmptyString => true | _ => false end.

(** [not s.strip()]: the string holds only whitespace. *)
Definition strip_is_empty (s : string) : bool := all_chars isspace s.

(** [s.isdigit()] *)
Definition isdigit (s : string) : bool :=
  negb (is_empty s) && all_chars isdigit_char s.

(** [s.startswith(p)] *)
Fixpoint startswith (s p : string) : bool :=
  match p, s with
  | EmptyString, _ => true
  | String a p', String b s' => Ascii.eqb a b && startswith s' p'
  | String _ _, EmptyString => false
  end.

(** [s[n:]] and [s[:n]] for [n >= 0]. *)
Fixpoint drop (n : nat) (s : string) : string :=
  match n, s with
  | O, _ => s
  | S n', String _ r => drop n' r
  | S _, EmptyString => EmptyString
  end.

Fixpoint take (n : nat) (s : string) : string :=
  match n, s with
  | O, _ => EmptyString
  | S n', String c r => String c (take n' r)
  | S _, EmptyString => EmptyString
  end.

(** [s.split(sep)] for a one-character separator. *)
Fixpoint split (sep : ascii) (s : string) : list string :=
  match s with
  | EmptyString => [EmptyString]
  | String c r =>
      if Ascii.eqb c sep then EmptyString :: split sep r
      else match split sep r with
           | h :: t => String c h :: t
           | [] => [String c EmptyString]
           end
  end.

(** [sep.join(l)] *)
Fixpoint join (sep : string) (l : list string) : string :=
  match l with
  | [] => EmptyString
  | x :: t =>
      match t with
      | [] => x
      | _ :: _ => x ++ sep ++ join sep t
      end
  end.

(** [s.replace(old, new)] for a one-character [old]. *)
Fixpoint replace_char (old : ascii) (new : string) (s : string) : string :=
  match s with
  | EmptyString => EmptyString
  | String c r =>
      if Ascii.eqb c old then new ++ replace_char old new r
      else String c (replace_char old new r)
  end.

Fixpoint lstrip (p : ascii -> bool) (s : string) : string :=
  match s with
  | EmptyString => EmptyString
  | String c r => if p c then lstrip p r else s
  end.

Fixpoint rstrip (p : ascii -> bool) (s : string) : string :=
  match s with
  | EmptyString => EmptyString
  | String c r =>
      let r' := rstrip p r in
      if is_empty r' && p c then EmptyString else String c r'
  end.

Definition strip_with (p : ascii -> bool) (s : string) : string :=
  rstrip p (lstrip p s).

(** [s.strip()] *)
Definition strip (s : string) : string := strip_with isspace s.

(** [s.strip(c)] for a one-character [c]. *)
Definition strip_char (c : ascii) (s : string) : string :=
  strip_with (fun d => Ascii.eqb d c) s.

(** [s.endswith(p)] *)
Fixpoint endswith (s p : string) : bool :=
  String.eqb s p ||
  match s with
  | EmptyString => false
  | String _ r => endswith r p
  end.

(** [p in s] for strings. *)
Fixpoint infix (p s : string) : bool :=
  startswith s p ||
  match s with
  | EmptyString => false
  | String _ r => infix p r
  end.

(** [s.replace(old, new)] for a non-empty [old]; [skip] counts the
    characters of a match still to be passed over. *)
Fixpoint replace_from (old new : string) (skip : nat) (s : string) : string :=
  match s with
  | EmptyString => EmptyString
  | String c r =>
      match skip with
      | S k => replace_from old new k r
      | O =>
          if startswith s old then new ++ replace_from old new (String.length old - 1) r
          else String c (replace_from old new 0 r)
      end
  end.

Definition replace (old new s : string) : string := replace_from old new 0 s.

(** [s.lower()] on one character (code points below 256). *)
Definition lower_char (c : ascii) : ascii :=
  if in_range 65 90 c || in_range 192 214 c || in_range 216 222 c
  then ascii_of_N (code c + 32) else c.

Fixpoint lower (s : string) : string :=
  match s with
  | EmptyString => EmptyString
  | String c r => String (lower_char c) (lower r)
  end.

Fixpoint map_chars (f : ascii -> ascii) (s : string) : string :=
  match s with
  | EmptyString => EmptyString
  | String c r => String (f c) (map_chars f r)
  end.

Definition digit_value (c : ascii) : Z := Z.of_N (code c) - 48.

(** The digit part of an integer literal given to [int()]: decimal digits,
    single underscores allowed between two digits. *)
Fixpoint int_digits (s : string) (acc : Z) (after_digit : bool) : option Z :=
  match s with
  | EmptyString => if after_digit then Some acc else None
  | String c r =>
      if is_decimal c then int_digits r (10 * acc + digit_value c)%Z true
      else if is_code 95 c then
             if after_digit then int_digits r acc false else None
      else None
  end.

(** [int(s)]: surrounding whitespace, an optional sign, digits. *)
Definition int (s : string) : result Z :=
  let body := strip_with int_space s in
  let parsed :=
    match body with
    | String c r =>
        if is_code 45 c then Z.opp <$> int_digits r 0%Z false
        else if is_code 43 c then int_digits r 0%Z false
        else int_digits body 0%Z false
    | EmptyString => None
    end in
  match parsed with
  | Some z => Ok z
  | None => Raise ValueError
  end.

(** [len(l)] as a Python integer. *)
Definition len {A} (l : list A) : Z := Z.of_nat (length l).

(** The position an index denotes: negative indices count from the end. *)
Definition norm_index {A} (l : list A) (i : Z) : option nat :=
  if (0 <=? i)%Z && (i <? len l)%Z then Some (Z.to_nat i)
  else if (i <? 0)%Z && (0 <=? i + len l)%Z then Some (Z.to_nat (i + len l))
  else None.

(** [l[i]] *)
Definition getitem {A} (l : list A) (i : Z) : result A :=
  match norm_index l i with
  | Some n => match l !! n with Some x => Ok x | None => Raise IndexError end
  | None => Raise IndexError
  end.

(** [l[i] = x] *)
Definition setitem {A} (l : list A) (i : Z) (x : A) : result (list A) :=
  match norm_index l i with
  | Some n => Ok (<[n := x]> l)
  | None => Raise IndexError
  end.

(** [l.pop(i)]: the list without position [i]. *)
Definition pop {A} (l : list A) (i : Z) : result (list A) :=
  match norm_index l i with
  | Some n => Ok (delete n l)
  | None => Raise IndexError
  end.

End Py.

(** The marker put in front of a commented key or value. *)
Definition commented (s : string) : string := "commented-" ++ s.

(** ** EDI-X12 strategy ([process_edi_field_removal]) *)

Module Edi.

(** The element and sub-element numbers read from the part of the field
    path after the segment identifier. *)
Definition parse_numbers (field_part : string) : result (Z * option Z) :=
  if Py.contains "." field_part then
    match Py.split "." field_part with
    | [a; b] =>
        do element_num <- Py.int a ;;
        do subelement_num <- Py.int b ;;
        Ok (element_num, Some subelement_num)
    | _ => Raise ValueError
    end
  else
    do element_num <-
      (if Py.isdigit field_part then Py.int field_part
       else Py.int (Py.take 2 field_part)) ;;
    Ok (element_num, None).

Definition subelements_of (target : string) : list string :=
  if Py.contains ":" target then Py.split ":" target else [target].

(** The assignment made at index [i] of [l]: blank in remove mode, the
    marker put in front in comment mode. *)
Definition modify (modification_mode : string) (l : list string) (i : Z)
  : result (list string) :=
  if String.eqb modification_mode "remove" then Py.setitem l i ""
  else if String.eqb modification_mode "comment" then
    do old <- Py.getitem l i ;;
    Py.setitem l i (commented old)
  else Ok l.

(** The body of the [try] block: from the elements of the line and the part
    of the field path after the segment identifier to the elements that are
    joined into the new line. *)
Definition try_block (elements : list string) (field_part modification_mode : string)
  : result (list string) :=
  do nums <- parse_numbers field_part ;;
  let '(element_num, subelement_num) := nums in
  if (element_num <? Py.len elements)%Z then
    match subelement_num with
    | Some subelement_num =>
        do target <- Py.getitem elements element_num ;;
        let subelements := subelements_of target in
        if (subelement_num - 1 <? Py.len subelements)%Z then
          do subelements' <- modify modification_mode subelements (subelement_num - 1) ;;
          Py.setitem elements element_num (Py.join ":" subelements')
        else Ok elements
    | None => modify modification_mode elements element_num
    end
  else Ok elements.

(** One iteration of the loop over the lines: the line appended to
    [modified_lines]. *)
(** [elements[0] if elements else ""] *)
Definition segment_id_of (elements : list string) : string :=
  match elements with e :: _ => e | [] => "" end.

(** The part of the field path after the segment identifier, without a
    leading dot. *)
Definition field_part_of (field_path segment_id : string) : string :=
  let field_part := Py.drop (String.length segment_id) field_path in
  if Py.startswith field_part "." then Py.drop 1 field_part else field_part.

Definition process_line (field_path modification_mode line : string) : string :=
  if Py.strip_is_empty line then line
  else if Py.contains "~" line then
    let elements := Py.split "*" line in
    let segment_id := segment_id_of elements in
    if Py.startswith field_path segment_id then
      let field_part := field_part_of field_path segment_id in
      match try_block elements field_part modification_mode with
      | Ok elements' => Py.join "*" elements'
      | Raise _ => line
      end
    else line
  else line.

Definition process_edi_field_removal (edi_content field_path modification_mode : string)
  : string :=
  Py.join (String "010" "")
    (map (process_line field_path modification_mode) (Py.split "010" edi_content)).

End Edi.


(** ** EDIFACT strategy ([process_edifact_field_removal]) *)

Module Edifact.

Definition try_block (elements : list string) (field_part modification_mode : string)
  : result (list string) :=
  do element_num <-
    (if Py.isdigit field_part then Py.int field_part
     else Py.int (Py.take 2 field_part)) ;;
  if (element_num <? Py.len elements)%Z then
    Edi.modify modification_mode elements element_num
  else Ok elements.

Definition process_line (field_path modification_mode line : string) : string :=
  if Py.strip_is_empty line then line
  else if Py.contains "+" line then
    let elements := Py.split "+" line in
    let segment_id := Edi.segment_id_of elements in
    if Py.startswith field_path segment_id then
      let field_part := Edi.field_part_of field_path segment_id in
      match try_block elements field_part modification_mode with
      | Ok elements' => Py.join "+" elements'
      | Raise _ => line
      end
    else line
  else line.

Definition process_edifact_field_removal
  (edifact_content field_path modification_mode : string) : string :=
  Py.join "'"
    (map (process_line field_path modification_mode) (Py.split "'" edifact_content)).

End Edifact.

(** ** IDOC strategy ([process_idoc_field_removal]) *)

Module Idoc.

Fixpoint spaces (n : nat) : string :=
  match n with
  | O => EmptyString
  | S n' => String " " (spaces n')
  end.

(** [re.sub(r'(\w+)', repl, s)]: every maximal run of word characters is
    replaced by [repl] of the run; [run] is the run read so far. *)
Fixpoint sub_word_runs (repl : string -> string) (run s : string) : string :=
  let flush := if Py.is_empty run then EmptyString else repl run in
  match s with
  | EmptyString => flush
  | String c r =>
      if Py.is_word c then sub_word_runs repl (run ++ String c EmptyString) r
      else flush ++ String c (sub_word_runs repl EmptyString r)
  end.

Definition re_sub_words (repl : string -> string) (s : string) : string :=
  sub_word_runs repl EmptyString s.

Definition process_line (field_path modification_mode line : string) : string :=
  if Py.startswith line "E1" || Py.startswith line "E2" then
    let segment_type := Py.take 6 line in
    if Py.startswith field_path segment_type then
      if String.eqb modification_mode "remove" then
        re_sub_words (fun m => spaces (String.length m)) line
      else if String.eqb modification_mode "comment" then
        "* commented: " ++ line
      else line
    else line
  else line.

Definition process_idoc_field_removal
  (idoc_content field_path modification_mode : string) : string :=
  Py.join (String "010" "")
    (map (process_line field_path modification_mode) (Py.split "010" idoc_content)).

End Idoc.

(** ** Insertion-ordered dictionaries *)

Module Dict.
Section Ops.
Context {A : Type}.

(** [d.get(k)] *)
Fixpoint get (k : string) (d : list (string * A)) : option A :=
  match d with
  | [] => None
  | (k', v) :: t => if String.eqb k k' then Some v else get k t
  end.

(** [k in d] *)
Definition has (k : string) (d : list (string * A)) : bool :=
  match get k d with Some _ => true | None => false end.

(** [del d[k]] *)
Fixpoint del (k : string) (d : list (string * A)) : list (string * A) :=
  match d with
  | [] => []
  | (k', v) :: t => if String.eqb k k' then t else (k', v) :: del k t
  end.

(** [d[k] = v]: an existing key keeps its position, a new key goes last. *)
Fixpoint set (k : string) (v : A) (d : list (string * A)) : list (string * A) :=
  match d with
  | [] => [(k, v)]
  | (k', v') :: t => if String.eqb k k' then (k', v) :: t else (k', v') :: set k v t
  end.

(** [d.update(src)] *)
Definition update (src d : list (string * A)) : list (string * A) :=
  fold_left (fun acc kv => set (fst kv) (snd kv) acc) src d.

(** [d[commented-k] = d.pop(k)], for a key [k] of [d]. *)
Definition comment_key (k : string) (d : list (string * A)) : list (string * A) :=
  match get k d with
  | Some v => set (commented k) v (del k d)
  | None => d
  end.

Definition keys (d : list (string * A)) : list string := map fst d.

End Ops.
End Dict.

(** ** JSON values as [json.load] returns them

    A float is carried by the text [repr] gives for it. *)

#[warnings="-register-all"]
Inductive json : Type :=
| JNull
| JBool (b : bool)
| JInt (z : Z)
| JFloat (repr : string)
| JStr (s : string)
| JList (l : list json)
| JDict (d : list (string * json)).

(** ** [str()] and [repr()] of a JSON value *)

Module PyStr.

Definition hex_digit (n : N) : ascii :=
  if (n <? 10)%N then ascii_of_N (48 + n) else ascii_of_N (87 + n).

Definition hex_escape (c : ascii) : string :=
  String "\" (String "x"
    (String (hex_digit (Py.code c / 16)) (String (hex_digit (Py.code c mod 16)) ""))).

(** [str.isprintable] beyond ASCII, below 256. *)
Definition latin1_printable (c : ascii) : bool :=
  Py.in_range 161 172 c || Py.in_range 174 255 c.

Definition repr_char (quote c : ascii) : string :=
  if Ascii.eqb c quote || Py.is_code 92 c then String "\" (String c "")
  else if Py.is_code 9 c then "\t"
  else if Py.is_code 10 c then "\n"
  else if Py.is_code 13 c then "\r"
  else if (Py.code c <? 32)%N || Py.is_code 127 c then hex_escape c
  else if (Py.code c <? 127)%N then String c ""
  else if latin1_printable c then String c ""
  else hex_escape c.

Fixpoint repr_body (quote : ascii) (s : string) : string :=
  match s with
  | EmptyString => EmptyString
  | String c r => repr_char quote c ++ repr_body quote r
  end.

(** [repr(s)] for a [str]. *)
Definition repr_str (s : string) : string :=
  let quote : ascii :=
    if Py.contains "'" s && negb (Py.contains "034" s) then "034"%char else "'"%char in
  String quote (repr_body quote s ++ String quote "").

Definition str_int (z : Z) : string := NilZero.string_of_int (Z.to_int z).

Fixpoint repr (j : json) : string :=
  match j with
  | JNull => "None"
  | JBool true => "True"
  | JBool false => "False"
  | JInt z => str_int z
  | JFloat r => r
  | JStr s => repr_str s
  | JList l => "[" ++ Py.join ", " (map repr l) ++ "]"
  | JDict d =>
      "{" ++ Py.join ", " (map (fun kv => repr_str (fst kv) ++ ": " ++ repr (snd kv)) d) ++ "}"
  end.

(** [str(j)], what an f-string puts for [{j}]. *)
Definition str (j : json) : string :=
  match j with
  | JStr s => s
  | _ => repr j
  end.

End PyStr.

(** ** Tree-of-maps strategy ([process_json_field_removal])

    The Python code mutates [obj] in place and returns a flag; here a call
    returns the flag together with the object after the call. *)

Definition outcome (A : Type) : Type := result (bool * A).

Module Tree.

Section Combinators.
Context {A : Type}.
Variable f : A -> outcome A.

(** Run [f] on the value bound to [k]; [None] when [k] is not a key. *)
Fixpoint on_key (k : string) (d : list (string * A))
  : option (outcome (list (string * A))) :=
  match d with
  | [] => None
  | (k', v) :: t =>
      if String.eqb k k' then
        Some (do r <- f v ;; Ok (fst r, (k', snd r) :: t))
      else
        match on_key k t with
        | Some o => Some (do r <- o ;; Ok (fst r, (k', v) :: snd r))
        | None => None
        end
  end.

(** Run [f] on the element at position [n]. *)
Fixpoint on_index (n : nat) (l : list A) {struct l} : outcome (list A) :=
  match l with
  | [] => Raise IndexError
  | x :: t =>
      match n with
      | O => do r <- f x ;; Ok (fst r, snd r :: t)
      | S n' => do r <- on_index n' t ;; Ok (fst r, x :: snd r)
      end
  end.

(** [for item in obj: if f(item): return True] *)
Fixpoint first_success (l : list A) : outcome (list A) :=
  match l with
  | [] => Ok (false, [])
  | x :: t =>
      do r <- f x ;;
      if fst r then Ok (true, snd r :: t)
      else do r' <- first_success t ;; Ok (fst r', snd r :: snd r')
  end.

End Combinators.

Definition wrap {A B} (c : A -> B) (o : outcome A) : outcome B :=
  do r <- o ;; Ok (fst r, c (snd r)).

(** The index written between the brackets of [current_key]. *)
Definition parse_index (current_key : string) : result Z :=
  do inner <- Py.getitem (Py.split "[" current_key) 1 ;;
  do digits <- Py.getitem (Py.split "]" inner) 0 ;;
  Py.int digits.

Fixpoint navigate_and_modify (modification_mode : string) (obj : json)
  (path_parts : list string) {struct obj} : outcome json :=
  match path_parts with
  | [] => Ok (false, obj)
  | current_key :: remaining_parts =>
      if Py.contains "[" current_key && Py.contains "]" current_key then
        let key_name := hd "" (Py.split "[" current_key) in
        match parse_index current_key with
        | Raise _ => Ok (false, obj)
        | Ok index =>
            match obj with
            | JDict d =>
                match
                  on_key
                    (fun target =>
                       match target with
                       | JList l =>
                           if (index <? Py.len l)%Z then
                             match remaining_parts with
                             | [] =>
                                 if String.eqb modification_mode "remove" then
                                   do l' <- Py.pop l index ;; Ok (true, JList l')
                                 else if String.eqb modification_mode "comment" then
                                   do original_value <- Py.getitem l index ;;
                                   do l' <- Py.setitem l index
                                              (JStr (commented (PyStr.str original_value))) ;;
                                   Ok (true, JList l')
                                 else Ok (true, target)
                             | _ :: _ =>
                                 match Py.norm_index l index with
                                 | Some n =>
                                     wrap JList
                                       (on_index
                                          (fun item =>
                                             navigate_and_modify modification_mode item
                                               remaining_parts) n l)
                                 | None => Raise IndexError
                                 end
                             end
                           else Ok (false, target)
                       | _ => Ok (false, target)
                       end) key_name d
                with
                | Some o => wrap JDict o
                | None => Ok (false, obj)
                end
            | _ => Ok (false, obj)
            end
        end
      else
        match obj with
        | JDict d =>
            match remaining_parts with
            | [] =>
                if Dict.has current_key d then
                  if String.eqb modification_mode "remove" then
                    Ok (true, JDict (Dict.del current_key d))
                  else if String.eqb modification_mode "comment" then
                    Ok (true, JDict (Dict.comment_key current_key d))
                  else Ok (true, obj)
                else Ok (false, obj)
            | _ :: _ =>
                match
                  on_key
                    (fun child =>
                       navigate_and_modify modification_mode child remaining_parts)
                    current_key d
                with
                | Some o => wrap JDict o
                | None => Ok (false, obj)
                end
            end
        | JList l =>
            wrap JList
              (first_success
                 (fun item => navigate_and_modify modification_mode item path_parts) l)
        | _ => Ok (false, obj)
        end
  end.

Definition process_json_field_removal (data : json) (field_path modification_mode : string)
  : outcome json :=
  if Py.is_empty field_path || Py.is_empty (Py.strip field_path) then Ok (false, data)
  else
    let clean_path :=
      Py.strip_char "." (Py.replace_char "/" "." (Py.strip field_path)) in
    if Py.is_empty clean_path then Ok (false, data)
    else
      let path_parts :=
        filter (fun part => Is_true (negb (Py.is_empty part))) (Py.split "." clean_path) in
      navigate_and_modify modification_mode data path_parts.

End Tree.

(** ** XML strategy ([process_xml_field_removal])

    [xml.etree.ElementTree] is a library: its operations on the parsed
    document are the fields of [ElementTree].  [doc] is the state of the
    tree under [root], [elem] an element object. *)

Record ElementTree : Type := {
  doc : Type;
  elem : Type;
  (** [ET.fromstring(text)] *)
  fromstring : string -> result doc;
  (** [root.findall(path)] *)
  findall : doc -> string -> result (list elem);
  (** [root.find(path)] *)
  find : doc -> string -> result (option elem);
  (** [element.tag] and [str(element.text)] *)
  tag : doc -> elem -> string;
  text_str : doc -> elem -> string;
  (** [parent.remove(element)] *)
  remove : doc -> elem -> elem -> result doc;
  (** [parent.insert(list(parent).index(element), ET.Comment(text))] *)
  insert_comment_before : doc -> elem -> elem -> string -> result doc;
  (** [ET.tostring(root, encoding='unicode')] *)
  tostring : doc -> string
}.

Module Xml.
Section Strategy.
Variable ET : ElementTree.

(** The body of the loop over [elements]. *)
Definition process_element (modification_mode : string)
  (st : doc ET * bool) (element : elem ET) : result (doc ET * bool) :=
  let root := fst st in
  do parent <- find ET root (".//" ++ tag ET root element ++ "/..") ;;
  match parent with
  | Some parent =>
      do root' <-
        (if String.eqb modification_mode "remove" then remove ET root parent element
         else if String.eqb modification_mode "comment" then
           let comment_text :=
             " commented-" ++ tag ET root element ++ ": " ++ text_str ET root element ++ " " in
           do root1 <- insert_comment_before ET root parent element comment_text ;;
           remove ET root1 parent element
         else Ok root) ;;
      Ok (root', true)
  | None => Ok st
  end.

Fixpoint process_elements (modification_mode : string)
  (st : doc ET * bool) (elements : list (elem ET)) : result (doc ET * bool) :=
  match elements with
  | [] => Ok st
  | element :: rest =>
      do st' <- process_element modification_mode st element ;;
      process_elements modification_mode st' rest
  end.

Definition last_component (field_path : string) : string :=
  List.last (Py.split "/" field_path) "".

Definition try_block (xml_content field_path modification_mode : string)
  : result string :=
  do root <- fromstring ET xml_content ;;
  do elements <- findall ET root (".//" ++ last_component field_path) ;;
  do st <- process_elements modification_mode (root, false) elements ;;
  if snd st then Ok (tostring ET (fst st)) else Ok xml_content.

Definition process_xml_field_removal (xml_content field_path modification_mode : string)
  : result string :=
  match try_block xml_content field_path modification_mode with
  | Raise ParseError => Ok xml_content
  | r => r
  end.

End Strategy.
End Xml.

(** ** The unified generator ([test_generator.py]) *)

(** One entry of [target_fields]. *)
Record field : Type := {
  element : string;
  path : json;
  output_element : json;
  attributes : list (string * json)
}.

Inductive test_type : Type := required | optional.

Record config : Type := {
  max_file : string;
  modification_mode : option string;
  output_prefix : option string
}.

Module Generator.

(** [d.get(k, "")] *)
Definition get_default (k : string) (d : list (string * json)) : json :=
  match Dict.get k d with Some v => v | None => JStr "" end.

Fixpoint find_fields_by_occurrence_items (items : list (string * json))
  (target_occurrence : string) : result (list field) :=
  match items with
  | [] => Ok []
  | (element_name, attributes) :: rest =>
      if String.eqb element_name "format" then
        find_fields_by_occurrence_items rest target_occurrence
      else
        match attributes with
        | JDict attrs =>
            do fields <- find_fields_by_occurrence_items rest target_occurrence ;;
            match get_default "Source Occurs" attrs with
            | JStr source_occurs =>
                if String.eqb source_occurs target_occurrence then
                  Ok ({| element := element_name;
                         path := get_default "Output Path" attrs;
                         output_element := get_default "Output Element" attrs;
                         attributes := attrs |} :: fields)
                else Ok fields
            | _ => Ok fields
            end
        | _ => Raise AttributeError
        end
  end.

Definition find_fields_by_occurrence (spec_data : json) (target_occurrence : string)
  : result (list field) :=
  match spec_data with
  | JDict items => find_fields_by_occurrence_items items target_occurrence
  | _ => Raise AttributeError
  end.

Definition detect_file_format (file_path content : string) : string :=
  if Py.endswith file_path ".json" then "JSON"
  else if Py.endswith file_path ".xml" then "XML"
  else if Py.endswith file_path ".edi" then "EDI-X12"
  else if Py.endswith file_path ".txt" then
    let content := Py.take 100 content in
    if Py.startswith content "UNA" || Py.startswith content "UNB" then "EDIFACT"
    else if Py.infix "ISA" content || Py.infix "GS" content then "EDI-X12"
    else if Py.startswith content "E1" || Py.infix "E1EDK" content
            || Py.infix "E1EDP" content then "IDOC"
    else "UNKNOWN"
  else "UNKNOWN".

(** Truth value of a JSON value in a condition. *)
Definition truthy (j : json) : bool :=
  match j with
  | JNull => false
  | JBool b => b
  | JInt z => negb (z =? 0)%Z
  | JFloat r => negb (String.eqb r "0.0" || String.eqb r "-0.0")
  | JStr s => negb (Py.is_empty s)
  | JList l => match l with [] => false | _ => true end
  | JDict d => match d with [] => false | _ => true end
  end.

(** A method of [str] called on a value: [AttributeError] on anything else. *)
Definition as_str (j : json) : result string :=
  match j with
  | JStr s => Ok s
  | _ => Raise AttributeError
  end.

(** [re.sub(r'[^\w\-_]', '_', name)] *)
Definition safe_name (name : string) : string :=
  Py.map_chars
    (fun c => if Py.is_word c || Py.is_code 45 c || Py.is_code 95 c then c else "_"%char)
    name.

(** [f"{i:03d}"] for a positive [i]. *)
Definition format_03d (i : nat) : string :=
  let digits := PyStr.str_int (Z.of_nat i) in
  match String.length digits with
  | 1 => "00" ++ digits
  | 2 => "0" ++ digits
  | _ => digits
  end.

Definition upper_name (t : test_type) : string :=
  match t with required => "REQUIRED" | optional => "OPTIONAL" end.

Definition target_occurrence_of (t : test_type) : string :=
  match t with required => "1...1" | optional => "0...1" end.

Section Run.
Variable ET : ElementTree.
(** [json.loads(text)] and [json.dumps(data, indent=2)] *)
Variable json_loads : string -> result json.
Variable json_dumps : json -> string.

(** The JSON branch up to the call of the strategy: the field path. *)
Definition json_field_path (f : field) : result json :=
  do p <- as_str (path f) ;;
  let field_path := Py.replace "JSON/" "" (Py.replace "/JSON/" "" p) in
  if truthy (output_element f) then
    if Py.is_empty field_path then Ok (output_element f)
    else Ok (JStr (field_path ++ "." ++ PyStr.str (output_element f)))
  else Ok (JStr field_path).

(** [modified_content] of one iteration: [None] stands for [continue]. *)
Definition modified_content (file_format modification_mode max_content : string)
  (f : field) : result (option string) :=
  if String.eqb file_format "JSON" then
    do data <- json_loads max_content ;;
    do field_path <- json_field_path f ;;
    do success <-
      (if truthy field_path then
         do field_path <- as_str field_path ;;
         Tree.process_json_field_removal data field_path modification_mode
       else Ok (false, data)) ;;
    if fst success then Ok (Some (json_dumps (snd success))) else Ok None
  else if String.eqb file_format "XML" then
    let field_path :=
      if truthy (output_element f) then output_element f else JStr (element f) in
    match field_path with
    | JStr field_path =>
        Some <$$> Xml.process_xml_field_removal ET max_content field_path modification_mode
    | _ =>
        match fromstring ET max_content with
        | Raise ParseError => Ok (Some max_content)
        | Raise e => Raise e
        | Ok _ => Raise AttributeError
        end
    end
  else if String.eqb file_format "EDI-X12" then
    Ok (Some (Edi.process_edi_field_removal max_content (element f) modification_mode))
  else if String.eqb file_format "EDIFACT" then
    Ok (Some (Edifact.process_edifact_field_removal max_content (element f) modification_mode))
  else if String.eqb file_format "IDOC" then
    Ok (Some (Idoc.process_idoc_field_removal max_content (element f) modification_mode))
  else Ok None.

Definition output_filename (cfg : config) (prefix : string) (i : nat) (f : field) : string :=
  prefix ++ safe_name (element f) ++ "_" ++ format_03d i ++ "."
  ++ List.last (Py.split "." (max_file cfg)) "".

(** The loop over [enumerate(target_fields, 1)]: the files written, as
    (name in the output directory, content), in the order of writing.  An
    exception raised in an iteration is caught there and the loop goes on. *)
Fixpoint generate_loop (cfg : config) (file_format modification_mode prefix max_content : string)
  (i : nat) (target_fields : list field) : list (string * string) :=
  match target_fields with
  | [] => []
  | f :: rest =>
      match modified_content file_format modification_mode max_content f with
      | Ok (Some content) => [(output_filename cfg prefix i f, content)]
      | Ok None => []
      | Raise _ => []
      end ++ generate_loop cfg file_format modification_mode prefix max_content (S i) rest
  end.

Definition generate_test_files (cfg : config) (spec_data : json) (max_content : string)
  (t : test_type) : result (list (string * string)) :=
  let file_format := detect_file_format (max_file cfg) max_content in
  do target_fields <- find_fields_by_occurrence spec_data (target_occurrence_of t) ;;
  let modification_mode := default "comment" (modification_mode cfg) in
  let prefix := default ("MISS-" ++ upper_name t ++ "_") (output_prefix cfg) in
  Ok (generate_loop cfg file_format modification_mode prefix max_content 1 target_fields).

End Run.

End Generator.

(** ** The object store of the legacy generators

    [Required.py] and [Optional2.py] keep the parsed sample [max_data] alive
    across the iterations and mutate dictionaries in place.  Mutable objects
    therefore live in a store: a location is an index in the list of the
    objects allocated so far, a value is a scalar or a reference. *)

Module Heap.

Abbreviation loc := nat (only parsing).

Inductive hval : Type :=
| HNull
| HBool (b : bool)
| HInt (z : Z)
| HFloat (repr : string)
| HStr (s : string)
| HRef (l : loc).

Inductive hobj : Type :=
| HList (vs : list hval)
| HDict (d : list (string * hval)).

Abbreviation heap := (list hobj) (only parsing).

Section Build.
Variable build : json -> nat -> list hobj * hval.

Fixpoint build_list (l : list json) (base : nat) : list hobj * list hval :=
  match l with
  | [] => ([], [])
  | j :: t =>
      let r1 := build j base in
      let r2 := build_list t (base + length (fst r1)) in
      (fst r1 ++ fst r2, snd r1 :: snd r2)%list
  end.

Fixpoint build_items (d : list (string * json)) (base : nat)
  : list hobj * list (string * hval) :=
  match d with
  | [] => ([], [])
  | (k, j) :: t =>
      let r1 := build j base in
      let r2 := build_items t (base + length (fst r1)) in
      (fst r1 ++ fst r2, (k, snd r1) :: snd r2)%list
  end.

End Build.

(** The objects created for [j] when [base] objects exist already, and the
    value that stands for [j]. *)
Fixpoint build (j : json) (base : nat) {struct j} : list hobj * hval :=
  match j with
  | JNull => ([], HNull)
  | JBool b => ([], HBool b)
  | JInt z => ([], HInt z)
  | JFloat r => ([], HFloat r)
  | JStr s => ([], HStr s)
  | JList l =>
      let r := build_list build l base in
      (fst r ++ [HList (snd r)], HRef (base + length (fst r)))%list
  | JDict d =>
      let r := build_items build d base in
      (fst r ++ [HDict (snd r)], HRef (base + length (fst r)))%list
  end.

(** [json.load] / [json.loads]: fresh objects for the parsed value. *)
Definition alloc (j : json) (h : heap) : heap * hval :=
  let r := build j (length h) in ((h ++ fst r)%list, snd r).

Section Read.
Variable read : hval -> result json.

Fixpoint read_list (vs : list hval) : result (list json) :=
  match vs with
  | [] => Ok []
  | v :: t => do j <- read v ;; do js <- read_list t ;; Ok (j :: js)
  end.

Fixpoint read_items (d : list (string * hval)) : result (list (string * json)) :=
  match d with
  | [] => Ok []
  | (k, v) :: t => do j <- read v ;; do js <- read_items t ;; Ok ((k, j) :: js)
  end.

End Read.

(** The JSON value [json.dumps] writes for [v].  [fuel] bounds the nesting;
    a reference to no object does not occur in a Python state. *)
Fixpoint read (fuel : nat) (h : heap) (v : hval) : result json :=
  match v with
  | HNull => Ok JNull
  | HBool b => Ok (JBool b)
  | HInt z => Ok (JInt z)
  | HFloat r => Ok (JFloat r)
  | HStr s => Ok (JStr s)
  | HRef l =>
      match fuel with
      | O => Raise RecursionError
      | S n =>
          match h !! l with
          | Some (HList vs) => JList <$$> read_list (read n h) vs
          | Some (HDict d) => JDict <$$> read_items (read n h) d
          | None => Raise KeyError
          end
      end
  end.

(** [json.dumps(v)] in the store [h]. *)
Definition dumps (h : heap) (v : hval) : result json := read (length h) h v.

End Heap.

(** What the legacy generators print. *)
Inductive event : Type :=
| Checking (key : string)
| Found (key : string)
| Removed (key : string)
| Commented (key : string)
| Generating (file : string)
| Skipping (key : string)
| LogSaved (file : string)
| NoModifications.

(** The state of a run of a legacy generator. *)
Record run_state : Type := {
  store : Heap.heap;
  modified_keys : list string;
  found : bool;
  files : list (string * json);
  out : list event
}.

(** How a run ends, and the state it leaves: what was written before an
    exception stays written. *)
Inductive ending : Type :=
| Returns (st : run_state)
| Raises (e : pyexn) (st : run_state).

Definition final (r : ending) : run_state :=
  match r with
  | Returns st => st
  | Raises _ st => st
  end.

(** [r] evaluated in the state [st]: an exception ends the run there. *)
Definition attempt {A} (r : result A) (st : run_state) (k : A -> ending) : ending :=
  match r with
  | Ok a => k a
  | Raise e => Raises e st
  end.

(** The rest of a run after [r]. *)
Definition and_then (r : ending) (k : run_state -> ending) : ending :=
  match r with
  | Returns st => k st
  | Raises e st => Raises e st
  end.

Definition in_class (occurrence : option json) (a b : string) : bool :=
  match occurrence with
  | Some (JStr s) => String.eqb s a || String.eqb s b
  | _ => false
  end.

(** ** [Required.py] *)

Module Required.
Import Heap.

Section Loop.
Variable rec : heap -> hval -> result (heap * bool * list event).

(** [for x in data: if find_and_modify_keys(x, ...): return True] *)
Fixpoint first_true (vs : list hval) (h : heap) : result (heap * bool * list event) :=
  match vs with
  | [] => Ok (h, false, [])
  | v :: t =>
      do r <- rec h v ;;
      let '(h1, b, evs) := r in
      if b then Ok r
      else do r' <- first_true t h1 ;;
           let '(h2, b', evs') := r' in Ok (h2, b', (evs ++ evs')%list)
  end.

End Loop.

(** The call mutates the store and returns a flag and what it printed.  The
    loops run over the entries read when they start: a dictionary is only
    changed by the call that returns [True] at once. *)
Fixpoint find_and_modify_keys (fuel : nat) (key_to_find modification_mode : string)
  (h : heap) (data : hval) : result (heap * bool * list event) :=
  match data with
  | HRef l =>
      match fuel with
      | O => Raise RecursionError
      | S n =>
          match h !! l with
          | Some (HDict d) =>
              if Dict.has key_to_find d then
                if String.eqb modification_mode "remove" then
                  Ok (<[l := HDict (Dict.del key_to_find d)]> h, true, [Removed key_to_find])
                else if String.eqb modification_mode "comment" then
                  Ok (<[l := HDict (Dict.comment_key key_to_find d)]> h, true,
                      [Commented key_to_find])
                else Ok (h, true, [])
              else
                first_true (find_and_modify_keys n key_to_find modification_mode)
                  (map snd d) h
          | Some (HList vs) =>
              first_true (find_and_modify_keys n key_to_find modification_mode) vs h
          | None => Raise KeyError
          end
      end
  | _ => Ok (h, false, [])
  end.

Definition output_file (output_prefix key : string) : string :=
  output_prefix ++ "MissRE-" ++ key ++ ".json".

Section Run.

(** [open(os.path.join(CONFIG["output_directory"], name), "w")] in the file
    system of the run: [Raise] is the exception [open] raises for the
    name.  What is written to a file that was opened is taken to reach
    it. *)
Variable open_w : string -> result unit.

(** The body of the loop over [spec_data.items()].  The key is recorded and
    the file announced before the file is opened; nothing handles an
    exception, so the first one ends the run. *)
Definition step (modification_mode output_prefix : string) (max_data : hval)
  (st : run_state) (item : string * json) : ending :=
  let '(key, details) := item in
  match details with
  | JDict details =>
      let out1 := (out st ++ [Checking key])%list in
      if in_class (Dict.get "Source Occurs" details) "1...1" "1...*" then
        let out2 := (out1 ++ [Found key])%list in
        attempt (dumps (store st) max_data)
          {| store := store st; modified_keys := modified_keys st; found := found st;
             files := files st; out := out2 |}
          (fun text =>
             let '(h1, modified_data) := alloc text (store st) in
             attempt (find_and_modify_keys (length h1) key modification_mode h1 modified_data)
               {| store := h1; modified_keys := modified_keys st; found := found st;
                  files := files st; out := out2 |}
               (fun r =>
                  let '(h2, b, evs) := r in
                  if b then
                    let st2 :=
                      {| store := h2;
                         modified_keys := (modified_keys st ++ [key])%list;
                         found := true;
                         files := files st;
                         out := (out2 ++ evs
                                   ++ [Generating (output_file output_prefix key)])%list |} in
                    attempt (open_w (output_file output_prefix key)) st2
                      (fun _ =>
                         attempt (dumps h2 modified_data) st2
                           (fun content =>
                              Returns
                                {| store := h2;
                                   modified_keys := modified_keys st2;
                                   found := true;
                                   files := (files st
                                               ++ [(output_file output_prefix key,
                                                    content)])%list;
                                   out := out st2 |}))
                  else
                    Returns {| store := h2;
                               modified_keys := modified_keys st;
                               found := found st;
                               files := files st;
                               out := (out2 ++ evs ++ [Skipping key])%list |}))
      else
        Returns {| store := store st; modified_keys := modified_keys st;
                   found := found st; files := files st; out := out1 |}
  | _ => Returns st
  end.

Fixpoint loop (modification_mode output_prefix : string) (max_data : hval)
  (st : run_state) (items : list (string * json)) : ending :=
  match items with
  | [] => Returns st
  | item :: rest =>
      and_then (step modification_mode output_prefix max_data st item)
        (fun st' => loop modification_mode output_prefix max_data st' rest)
  end.

(** The end of the run: the manifest [_modified_keys.txt] is written when
    [found]. *)
Definition finish (st : run_state) : ending :=
  if found st then
    attempt (open_w "_modified_keys.txt") st
      (fun _ =>
         Returns {| store := store st; modified_keys := modified_keys st;
                    found := found st; files := files st;
                    out := (out st ++ [LogSaved "_modified_keys.txt"])%list |})
  else
    Returns {| store := store st; modified_keys := modified_keys st; found := found st;
               files := files st; out := (out st ++ [NoModifications])%list |}.

(** [spec_data] and [max_json] are the values [json.load] reads from the
    two files. *)
Definition modify_json_and_generate_files (modification_mode output_prefix : string)
  (spec_data : list (string * json)) (max_json : json) : ending :=
  let '(h0, max_data) := alloc max_json [] in
  and_then
    (loop modification_mode output_prefix max_data
       {| store := h0; modified_keys := []; found := false; files := []; out := [] |}
       spec_data)
    finish.

End Run.

(** The manifest a run leaves: the keys recorded, when the run got to
    write it. *)
Definition manifest (r : ending) : option (list string) :=
  match r with
  | Returns st => if found st then Some (modified_keys st) else None
  | Raises _ _ => None
  end.

End Required.

(** ** [Optional2.py] *)

Module Optional2.
Import Heap.

Section Loop.
Variable rec : heap -> hval -> result (heap * list string * list event).

(** [for x in data: find_and_modify_keys(x, ...)] *)
Fixpoint each (vs : list hval) (h : heap) : result (heap * list string * list event) :=
  match vs with
  | [] => Ok (h, [], [])
  | v :: t =>
      do r <- rec h v ;;
      let '(h1, ks, evs) := r in
      do r' <- each t h1 ;;
      let '(h2, ks', evs') := r' in Ok (h2, (ks ++ ks')%list, (evs ++ evs')%list)
  end.

End Loop.

(** The call mutates the store; it returns the keys it appends to
    [modified_keys] and what it printed.  The loop over a dictionary runs
    over its entries after the change made to it. *)
Fixpoint find_and_modify_keys (fuel : nat) (key_to_find modification_mode : string)
  (h : heap) (data : hval) : result (heap * list string * list event) :=
  match data with
  | HRef l =>
      match fuel with
      | O => Raise RecursionError
      | S n =>
          match h !! l with
          | Some (HDict d) =>
              let '(h1, d1, ks, evs) :=
                if Dict.has key_to_find d then
                  if String.eqb modification_mode "remove" then
                    let d1 := Dict.del key_to_find d in
                    (<[l := HDict d1]> h, d1, [key_to_find], [Removed key_to_find])
                  else if String.eqb modification_mode "comment" then
                    let d1 := Dict.comment_key key_to_find d in
                    (<[l := HDict d1]> h, d1, [key_to_find], [Commented key_to_find])
                  else (h, d, [key_to_find], [])
                else (h, d, [], []) in
              do r <- each (find_and_modify_keys n key_to_find modification_mode)
                        (map snd d1) h1 ;;
              let '(h2, ks', evs') := r in Ok (h2, (ks ++ ks')%list, (evs ++ evs')%list)
          | Some (HList vs) =>
              each (find_and_modify_keys n key_to_find modification_mode) vs h
          | None => Raise KeyError
          end
      end
  | _ => Ok (h, [], [])
  end.

Definition output_file (output_prefix key : string) : string :=
  output_prefix ++ "MissOE-" ++ key ++ ".json".

(** [key in modified_keys] *)
Definition mem (key : string) (l : list string) : bool := existsb (String.eqb key) l.

Section Run.

(** [open(os.path.join(CONFIG["output_directory"], name), "w")] in the file
    system of the run, as in [Required.py]. *)
Variable open_w : string -> result unit.

(** The body of the loop over [spec_data.items()]: the mutator has appended
    to [modified_keys] when the file is opened. *)
Definition step (modification_mode output_prefix : string) (max_data : hval)
  (st : run_state) (item : string * json) : ending :=
  let '(key, details) := item in
  match details with
  | JDict details =>
      let out1 := (out st ++ [Checking key])%list in
      if in_class (Dict.get "Source Occurs" details) "0...1" "0...*" then
        let out2 := (out1 ++ [Found key])%list in
        attempt (dumps (store st) max_data)
          {| store := store st; modified_keys := modified_keys st; found := found st;
             files := files st; out := out2 |}
          (fun text =>
             let '(h1, modified_data) := alloc text (store st) in
             attempt (find_and_modify_keys (length h1) key modification_mode h1 modified_data)
               {| store := h1; modified_keys := modified_keys st; found := found st;
                  files := files st; out := out2 |}
               (fun r =>
                  let '(h2, ks, evs) := r in
                  let keys := (modified_keys st ++ ks)%list in
                  if mem key keys then
                    let st2 :=
                      {| store := h2;
                         modified_keys := keys;
                         found := true;
                         files := files st;
                         out := (out2 ++ evs
                                   ++ [Generating (output_file output_prefix key)])%list |} in
                    attempt (open_w (output_file output_prefix key)) st2
                      (fun _ =>
                         attempt (dumps h2 modified_data) st2
                           (fun content =>
                              Returns
                                {| store := h2;
                                   modified_keys := keys;
                                   found := true;
                                   files := (files st
                                               ++ [(output_file output_prefix key,
                                                    content)])%list;
                                   out := out st2 |}))
                  else
                    Returns {| store := h2;
                               modified_keys := keys;
                               found := found st;
                               files := files st;
                               out := (out2 ++ evs ++ [Skipping key])%list |}))
      else
        Returns {| store := store st; modified_keys := modified_keys st;
                   found := found st; files := files st; out := out1 |}
  | _ => Returns st
  end.

Fixpoint loop (modification_mode output_prefix : string) (max_data : hval)
  (st : run_state) (items : list (string * json)) : ending :=
  match items with
  | [] => Returns st
  | item :: rest =>
      and_then (step modification_mode output_prefix max_data st item)
        (fun st' => loop modification_mode output_prefix max_data st' rest)
  end.

(** The end of the run: the manifest [_optional_missing_keys.txt] is written
    when [found]. *)
Definition finish (st : run_state) : ending :=
  if found st then
    attempt (open_w "_optional_missing_keys.txt") st
      (fun _ =>
         Returns {| store := store st; modified_keys := modified_keys st;
                    found := found st; files := files st;
                    out := (out st ++ [LogSaved "_optional_missing_keys.txt"])%list |})
  else
    Returns {| store := store st; modified_keys := modified_keys st; found := found st;
               files := files st; out := (out st ++ [NoModifications])%list |}.

Definition modify_json_and_generate_files (modification_mode output_prefix : string)
  (spec_data : list (string * json)) (max_json : json) : ending :=
  let '(h0, max_data) := alloc max_json [] in
  and_then
    (loop modification_mode output_prefix max_data
       {| store := h0; modified_keys := []; found := false; files := []; out := [] |}
       spec_data)
    finish.

End Run.

(** The manifest a run leaves. *)
Definition manifest (r : ending) : option (list string) :=
  match r with
  | Returns st => if found st then Some (modified_keys st) else None
  | Raises _ _ => None
  end.

End Optional2.

(** ** Specification extraction ([extractor4.py], [extractor2.py])

    A data frame is its column labels and its rows, one cell per column; a
    cell is a string or the missing value ([None], printed [nan]). *)

Definition cell : Type := option string.

Record dataframe : Type := {
  columns : list string;
  rows : list (list cell)
}.

Module Extractor.

(** [str(row[col])] and [pd.notna(row[header])] *)
Definition str_cell (c : cell) : string := default "nan" c.
Definition notna (c : cell) : bool := match c with Some _ => true | None => false end.

Definition one_of (s : string) (l : list string) : bool := existsb (String.eqb s) l.

(** The index of the first header that contains [Source Occurs]. *)
Fixpoint source_occurs_idx (headers : list string) : option nat :=
  match headers with
  | [] => None
  | header :: rest =>
      if Py.infix "Source Occurs" header then Some O
      else S <$> source_occurs_idx rest
  end.

(** The values of the input columns that count as hierarchy parts. *)
Definition hierarchy_value (c : cell) : option string :=
  let value := Py.strip (str_cell c) in
  if negb (Py.is_empty value) && negb (String.eqb value "nan")
     && negb (one_of (Py.lower value) [""; "null"])
  then Some value else None.

Definition hierarchy_parts (input_cells : list cell) : list string :=
  omap hierarchy_value input_cells.

(** The attribute of one attribute column, if the cell gives one.  The
    replacement of the ellipsis character (code point 8230) changes no
    string of the model. *)
Definition attribute_value (c : cell) : option string :=
  if notna c && negb (Py.is_empty (Py.strip (str_cell c))) then
    let clean_value := Py.strip (str_cell c) in
    if negb (one_of (Py.lower clean_value) [""; "null"; "nan"]) then Some clean_value
    else None
  else None.

Fixpoint extract_attributes (value : cell -> option string)
  (attribute_columns : list string) (cells : list cell) (acc : list (string * string))
  : list (string * string) :=
  match attribute_columns, cells with
  | header :: hs, c :: cs =>
      extract_attributes value hs cs
        (match value c with Some v => Dict.set header v acc | None => acc end)
  | _, _ => acc
  end.

(** [HierarchyBuilder]: the counter of the unique keys seen. *)
Record HierarchyBuilder : Type := { element_counter : list (string * Z) }.

Definition unique_key (hierarchy_path : list string) (element_name : string) : string :=
  match hierarchy_path with
  | [] => element_name
  | _ :: _ => Py.join "/" hierarchy_path ++ "/" ++ element_name
  end.

Definition count_of (b : HierarchyBuilder) (key : string) : Z :=
  default 0%Z (Dict.get key (element_counter b)).

(** The navigation to the level of [hierarchy_path] and the update made
    there; a string met where a dictionary is expected raises. *)
Fixpoint insert_at (hierarchy_path : list string) (final_element_name : string)
  (attributes : list (string * string)) (source_path : string) (current_level : json)
  : result json :=
  match current_level with
  | JDict d =>
      match hierarchy_path with
      | level :: rest =>
          let child := default (JDict []) (Dict.get level d) in
          do child' <- insert_at rest final_element_name attributes source_path child ;;
          Ok (JDict (Dict.set level child' d))
      | [] =>
          match default (JDict []) (Dict.get final_element_name d) with
          | JDict e =>
              let e1 := Dict.set "source_path" (JStr source_path) e in
              let e2 := Dict.update (map (fun kv => (fst kv, JStr (snd kv))) attributes) e1 in
              Ok (JDict (Dict.set final_element_name (JDict e2) d))
          | _ => Raise TypeError
          end
      end
  | _ => Raise TypeError
  end.

(** [add_element]: the builder and [result] after the call, and the name
    returned. *)
Definition add_element (b : HierarchyBuilder) (result_ : json)
  (hierarchy_path : list string) (element_name : string)
  (attributes : list (string * string)) (source_path : string)
  : result (HierarchyBuilder * json * string) :=
  let unique_key := unique_key hierarchy_path element_name in
  let count := (count_of b unique_key + 1)%Z in
  let b' := {| element_counter := Dict.set unique_key count (element_counter b) |} in
  let final_element_name :=
    if (1 <? count)%Z then element_name ++ "_occurrence_" ++ PyStr.str_int count
    else element_name in
  do result' <- insert_at hierarchy_path final_element_name attributes source_path result_ ;;
  Ok (b', result', final_element_name).

Definition last_part (parts : list string) : string := List.last parts "".

(** The loop body of [extract_json_hierarchy]. *)
Definition json_row (idx : nat) (headers : list string)
  (st : HierarchyBuilder * json) (row : list cell) : result (HierarchyBuilder * json) :=
  let hierarchy_parts := hierarchy_parts (take idx row) in
  match hierarchy_parts with
  | [] => Ok st
  | _ :: _ =>
      let source_path := "/" ++ Py.join "/" hierarchy_parts in
      let element_name := last_part hierarchy_parts in
      let hierarchy_path := removelast hierarchy_parts in
      let attributes :=
        extract_attributes attribute_value (drop idx headers) (drop idx row) [] in
      do r <- add_element (fst st) (snd st) hierarchy_path element_name attributes
                source_path ;;
      Ok (fst (fst r), snd (fst r))
  end.

(** The loop body of [extract_universal_hierarchy] of [extractor4.py]. *)
Definition universal_row (idx : nat) (headers : list string)
  (st : HierarchyBuilder * json) (row : list cell) : result (HierarchyBuilder * json) :=
  let element_parts := hierarchy_parts (take idx row) in
  match element_parts with
  | [] => Ok st
  | _ :: _ =>
      let source_path := "/" ++ Py.join "/" element_parts in
      let element_name := last_part element_parts in
      let hierarchy_path :=
        if (1 <? Py.len element_parts)%Z then removelast element_parts else [] in
      let attributes :=
        extract_attributes attribute_value (drop idx headers) (drop idx row) [] in
      match attributes with
      | _ :: _ =>
          do r <- add_element (fst st) (snd st) hierarchy_path element_name attributes
                    source_path ;;
          Ok (fst (fst r), snd (fst r))
      | [] => Ok st
      end
  end.

(** The loop body of [extract_edi_x12_hierarchy] ([sep] is [*]) and of
    [extract_idoc_hierarchy] ([sep] is [/]). *)
Definition segment_row (sep : string) (idx : nat) (headers : list string)
  (st : HierarchyBuilder * json) (row : list cell) : result (HierarchyBuilder * json) :=
  let segment_parts := hierarchy_parts (take idx row) in
  match segment_parts with
  | [] => Ok st
  | segment_id :: _ =>
      let source_path := Py.join sep segment_parts in
      let attributes :=
        extract_attributes attribute_value (drop idx headers) (drop idx row) [] in
      let element_name :=
        if (1 <? Py.len segment_parts)%Z then Py.join "_" segment_parts else segment_id in
      do r <- add_element (fst st) (snd st) [segment_id] element_name attributes
                source_path ;;
      Ok (fst (fst r), snd (fst r))
  end.

Fixpoint iterrows (body : HierarchyBuilder * json -> list cell -> result (HierarchyBuilder * json))
  (st : HierarchyBuilder * json) (rows : list (list cell))
  : result (HierarchyBuilder * json) :=
  match rows with
  | [] => Ok st
  | row :: rest => do st' <- body st row ;; iterrows body st' rest
  end.

Definition extract_with
  (body : nat -> list string -> HierarchyBuilder * json -> list cell
          -> result (HierarchyBuilder * json))
  (df : dataframe) : result json :=
  match source_occurs_idx (columns df) with
  | None => Ok (JDict [])
  | Some idx =>
      snd <$$> iterrows (body idx (columns df)) ({| element_counter := [] |}, JDict [])
                 (rows df)
  end.

Definition extract_json_hierarchy : dataframe -> result json := extract_with json_row.
Definition extract_universal_hierarchy : dataframe -> result json :=
  extract_with universal_row.
Definition extract_edi_x12_hierarchy : dataframe -> result json :=
  extract_with (segment_row "*").
Definition extract_edifact_hierarchy : dataframe -> result json := extract_edi_x12_hierarchy.
Definition extract_idoc_hierarchy : dataframe -> result json :=
  extract_with (segment_row "/").

End Extractor.

(** ** [extractor2.py] *)

Module Extractor2.

Definition element_value (c : cell) : option string :=
  let value := Py.strip (Extractor.str_cell c) in
  if negb (Py.is_empty value) && negb (String.eqb value "nan") then Some value else None.

(** As in [extractor4.py], the replacement of the ellipsis character changes
    no string of the model. *)
Definition attribute_value (c : cell) : option string :=
  let value := Py.strip (Extractor.str_cell c) in
  if negb (Py.is_empty value) && negb (String.eqb value "nan")
     && negb (String.eqb value "")
  then Some value else None.

Definition universal_row (idx : nat) (headers : list string)
  (result_ : list (string * json)) (row : list cell) : list (string * json) :=
  let element_parts := omap element_value (take idx row) in
  match element_parts with
  | [] => result_
  | _ :: _ =>
      let element_name :=
        if (Py.len element_parts =? 1)%Z then Extractor.last_part element_parts
        else Py.join "/" element_parts in
      let attributes :=
        Extractor.extract_attributes attribute_value (drop idx headers) (drop idx row) [] in
      match attributes with
      | _ :: _ =>
          Dict.set element_name
            (JDict (map (fun kv => (fst kv, JStr (snd kv))) attributes)) result_
      | [] => result_
      end
  end.

Definition extract_universal_hierarchy (df : dataframe) : list (string * json) :=
  match Extractor.source_occurs_idx (columns df) with
  | None => []
  | Some idx => fold_left (universal_row idx (columns df)) (rows df) []
  end.

End Extractor2.

(** ** Format detection of the sheet ([detector.py]) *)

Module Detector.

Definition JSON_FIELDS : list string := ["data"; "messageBody"; "transactionSet"; "document"].
Definition EDI_X12_FIELDS : list string := ["ISA01"; "GS01"; "ST01"].
Definition EDIFACT_FIELDS : list string := ["UNB01"; "UNH01"; "UNT01"].
Definition IDOC_FIELDS : list string := ["E1EDK01"; "E1EDP01"].

(** [Series.unique()]: the values in the order of their first appearance. *)
Fixpoint unique (seen l : list string) : list string :=
  match l with
  | [] => []
  | x :: t =>
      if Extractor.one_of x seen then unique seen t else x :: unique (x :: seen) t
  end.

(** [df.iloc[:, :10].dropna().stack().unique()]: the first ten columns, the
    rows without a missing value among them, their values row by row. *)
Definition row_values (df : dataframe) : list string :=
  unique []
    (concat
       (map (fun row => omap id row)
          (List.filter (fun row => forallb Extractor.notna row)
             (map (take 10) (rows df))))).

(** [any(field in row_values for field in fields)] *)
Definition any_in (fields row_values : list string) : bool :=
  existsb (fun field => Extractor.one_of field row_values) fields.

Definition detection (df : dataframe) : string :=
  let row_values := row_values df in
  if any_in EDI_X12_FIELDS row_values then "EDI-X12"
  else if any_in EDIFACT_FIELDS row_values then "EDIFACT"
  else if any_in IDOC_FIELDS row_values then "IDOC"
  else "JSON".

(** [detect_format(df, input_path)], with the value of [FORMAT_OVERRIDE]
    read from the configuration.  [input_path in FORMAT_OVERRIDE] is a key
    test on a dictionary, a membership test on a list, a substring test on
    a string and a [TypeError] on anything else; the subscript that follows
    succeeds on a dictionary only. *)
Definition detect_format (FORMAT_OVERRIDE : json) (df : dataframe) (input_path : string)
  : result json :=
  match FORMAT_OVERRIDE with
  | JDict d =>
      match Dict.get input_path d with
      | Some v => Ok v
      | None => Ok (JStr (detection df))
      end
  | JList l =>
      if existsb (fun x => match x with JStr s => String.eqb s input_path | _ => false end) l
      then Raise TypeError
      else Ok (JStr (detection df))
  | JStr s =>
      if Py.infix input_path s then Raise TypeError else Ok (JStr (detection df))
  | _ => Raise TypeError
  end.

End Detector.

(** ** The sheet processor ([processExcel4.py])

    A workbook is its sheets in order, each with its name and what
    [pd.read_excel(..., header=None)] gives for it: the rows, a cell being
    the text [str] gives for it or the missing value, or an exception. *)

Inductive sheet_ref : Type :=
| SheetName (name : string)
| SheetIndex (i : nat).

Module ProcessExcel.

Definition workbook : Type := list (string * result (list (list cell))).

Definition keywords : list string := ["tocanonical"; "mapping"; "transform"; "(t)"].

(** [any(keyword in sheet_name.lower() for keyword in [...])] *)
Definition is_mapping_sheet (sheet_name : string) : bool :=
  existsb (fun keyword => Py.infix keyword (Py.lower sheet_name)) keywords.

(** [any('Source Occurs' in str(cell) for cell in row if pd.notna(cell))] *)
Definition row_has_marker (row : list cell) : bool :=
  existsb (fun c => match c with
                    | Some s => Py.infix "Source Occurs" s
                    | None => false
                    end) row.

(** The loop over [full_df.iterrows()], from row [i] on. *)
Fixpoint find_row (i : nat) (rows : list (list cell)) : option nat :=
  match rows with
  | [] => None
  | row :: rest => if row_has_marker row then Some i else find_row (S i) rest
  end.

(** The loop over [mapping_sheets]; a sheet that cannot be read is passed
    over. *)
Fixpoint search (sheets : workbook) : option (string * nat) :=
  match sheets with
  | [] => None
  | (sheet_name, Ok full_df) :: rest =>
      match find_row 0 full_df with
      | Some i => Some (sheet_name, i)
      | None => search rest
      end
  | (_, Raise _) :: rest => search rest
  end.

Definition find_data_sheet_and_row (xls : workbook) : sheet_ref * nat :=
  let mapping_sheets := List.filter (fun sheet => is_mapping_sheet (fst sheet)) xls in
  let mapping_sheets := match mapping_sheets with [] => xls | _ :: _ => mapping_sheets end in
  match search mapping_sheets with
  | Some (sheet_name, i) => (SheetName sheet_name, i)
  | None => (SheetIndex 2, 13)
  end.

(** [df.fillna("", inplace=True)] *)
Definition fillna (df : dataframe) : dataframe :=
  {| columns := columns df;
     rows := map (map (fun c : cell => Some (default "" c))) (rows df) |}.

(** [extractors[detected_format](df)] under [if detected_format in
    extractors], else the universal extractor; a list or a dictionary is
    not hashable. *)
Definition specific_extractor (detected_format : json) (df : dataframe) : result json :=
  match detected_format with
  | JStr name =>
      if String.eqb name "JSON" then Extractor.extract_json_hierarchy df
      else if String.eqb name "EDI-X12" then Extractor.extract_edi_x12_hierarchy df
      else if String.eqb name "EDIFACT" then Extractor.extract_edifact_hierarchy df
      else if String.eqb name "IDOC" then Extractor.extract_idoc_hierarchy df
      else Extractor.extract_universal_hierarchy df
  | JList _ | JDict _ => Raise TypeError
  | _ => Extractor.extract_universal_hierarchy df
  end.

(** [len(hierarchy)] *)
Definition len_json (j : json) : result Z :=
  match j with
  | JDict d => Ok (Py.len d)
  | JList l => Ok (Py.len l)
  | JStr s => Ok (Z.of_nat (String.length s))
  | _ => Raise TypeError
  end.

(** [process_excel()] from the data frame read from the sheet: the name of
    the file written in the output directory and the value dumped in it. *)
Definition process_excel (FORMAT_OVERRIDE : json) (input_path : string) (df : dataframe)
  : result (string * json) :=
  let df := fillna df in
  do detected_format <- Detector.detect_format FORMAT_OVERRIDE df input_path ;;
  do hierarchy <-
    (match specific_extractor detected_format df with
     | Ok hierarchy => Ok hierarchy
     | Raise _ => Extractor.extract_universal_hierarchy df
     end) ;;
  do total_elements <- len_json hierarchy ;;
  Ok (PyStr.str detected_format ++ "_structure.json",
      JDict [("format", detected_format);
             ("total_elements", JInt total_elements);
             ("hierarchy", hierarchy)]).

End ProcessExcel.

(** * Vocabulary of the properties *)

Module PySpec.
Import Py.

(** The number of occurrences of [c] in [s]. *)
Fixpoint count_char (c : ascii) (s : string) : nat :=
  match s with
  | EmptyString => 0
  | String d r => (if Ascii.eqb d c then 1 else 0) + count_char c r
  end.

Definition sep_of (c : ascii) : string := String c EmptyString.

End PySpec.

Module IdocSpec.
Import Py.

(** The condition under which [process_idoc_field_removal] mutates a line:
    it starts with [E1] or [E2] and its first six characters are a prefix of
    the field path. *)
Definition selected (field_path line : string) : bool :=
  (startswith line "E1" || startswith line "E2")
  && startswith field_path (take 6 line).

(** Blanking as the specification words it: every character that is not
    whitespace becomes a space. *)
Definition blank_non_whitespace (line : string) : string :=
  map_chars (fun c => if isspace c then c else " "%char) line.

(** Blanking as the regular expression does it: every word character becomes
    a space. *)
Definition blank_word_chars (line : string) : string :=
  map_chars (fun c => if is_word c then " "%char else c) line.

End IdocSpec.

Module TreeSpec.
Import Tree.

Fixpoint json_size (j : json) : nat :=
  match j with
  | JList l => S (list_sum (map json_size l))
  | JDict d => S (list_sum (map (fun kv => json_size (snd kv)) d))
  | _ => 1
  end.

(** A segment [name[index]]. *)
Definition is_indexed (current_key : string) : bool :=
  Py.contains "[" current_key && Py.contains "]" current_key.

(** What the final step does to the dictionary that holds the key. *)
Definition key_op {A} (modification_mode k : string) (d : list (string * A))
  : list (string * A) :=
  if String.eqb modification_mode "remove" then Dict.del k d
  else if String.eqb modification_mode "comment" then Dict.comment_key k d
  else d.

(** The place of a value in a document: under a key of a dictionary or at
    a position of a list. *)
Inductive frame : Type :=
| InDict (before : list (string * json)) (k : string) (after : list (string * json))
| InList (before after : list json).

Definition plug1 (f : frame) (j : json) : json :=
  match f with
  | InDict before k after => JDict (before ++ (k, j) :: after)%list
  | InList before after => JList (before ++ j :: after)%list
  end.

(** The document that holds [j] at the place [C] (outermost frame first). *)
Definition plug (C : list frame) (j : json) : json := fold_right plug1 j C.

(** The path ends in the key [k] of a mapping that stands at the place [C]
    of the document.  A segment before [k] is the key under which the way
    goes on; a segment [name[index]] goes on in the item [index] of the list
    under the key [name], counted from the front or, when negative, from the
    end; where the way goes through an item of a list without an index, the
    path leads to no field in the items before it. *)
Inductive leads (k : string) : list string -> list frame -> Prop :=
| leads_here : leads k [k] []
| leads_dict (current_key : string) (rest : list string)
    (before after : list (string * json)) (C : list frame) :
    is_indexed current_key = false ->
    Dict.get current_key before = None ->
    leads k rest C ->
    leads k (current_key :: rest) (InDict before current_key after :: C)
| leads_index (current_key : string) (index : Z) (rest : list string)
    (before after : list (string * json)) (items_before items_after : list json)
    (C : list frame) :
    is_indexed current_key = true ->
    parse_index current_key = Ok index ->
    Dict.get (hd "" (Py.split "[" current_key)) before = None ->
    index = Py.len items_before \/ index = (- Py.len items_after - 1)%Z ->
    leads k rest C ->
    leads k (current_key :: rest)
      (InDict before (hd "" (Py.split "[" current_key)) after
         :: InList items_before items_after :: C)
| leads_list (current_key : string) (rest : list string) (before after : list json)
    (C : list frame) :
    is_indexed current_key = false ->
    Forall (fun y => forall mode,
                navigate_and_modify mode y (current_key :: rest) = Ok (false, y)) before ->
    leads k (current_key :: rest) C ->
    leads k (current_key :: rest) (InList before after :: C).

(** The step made below an indexed segment that is not the last one. *)
Definition indexed_step (mode : string) (index : Z) (remaining : list string)
  (target : json) : outcome json :=
  match target with
  | JList l =>
      if (index <? Py.len l)%Z then
        match Py.norm_index l index with
        | Some n =>
            wrap JList
              (on_index (fun item => navigate_and_modify mode item remaining) n l)
        | None => Raise IndexError
        end
      else Ok (false, target)
  | _ => Ok (false, target)
  end.

(** The step made at an indexed segment that is the last one. *)
Definition indexed_last (mode : string) (index : Z) (target : json) : outcome json :=
  match target with
  | JList l =>
      if (index <? Py.len l)%Z then
        if String.eqb mode "remove" then
          do l' <- Py.pop l index ;; Ok (true, JList l')
        else if String.eqb mode "comment" then
          do original_value <- Py.getitem l index ;;
          do l' <- Py.setitem l index (JStr (commented (PyStr.str original_value))) ;;
          Ok (true, JList l')
        else Ok (true, target)
      else Ok (false, target)
  | _ => Ok (false, target)
  end.

End TreeSpec.

Module EdiSpec.
Import Py.

(** The position a field path addresses in a segment line: the index of the
    element and, when the path has a sub-element number, the index of the
    sub-element.  [None] when the line is not a segment of the path or a
    number is malformed or out of range. *)
Definition locate (field_path line : string) : option (nat * option nat) :=
  if strip_is_empty line || negb (contains "~" line) then None
  else
    let elements := split "*" line in
    let segment_id := Edi.segment_id_of elements in
    if startswith field_path segment_id then
      match Edi.parse_numbers (Edi.field_part_of field_path segment_id) with
      | Ok (n, None) =>
          match norm_index elements n with
          | Some i => Some (i, None)
          | None => None
          end
      | Ok (n, Some m) =>
          match norm_index elements n with
          | Some i =>
              match elements !! i with
              | Some target =>
                  match norm_index (split ":" target) (m - 1) with
                  | Some j => Some (i, Some j)
                  | None => None
                  end
              | None => None
              end
          | None => None
          end
      | Raise _ => None
      end
    else None.

(** [f] applied to the addressed element or sub-element. *)
Definition edit_at (f : string -> string) (i : nat) (j : option nat)
  (elements : list string) : list string :=
  match j with
  | None => alter f i elements
  | Some j => alter (fun target => join ":" (alter f j (split ":" target))) i elements
  end.

(** The two modes as functions on the addressed string. *)
Definition mode_fun (modification_mode : string) (old : string) : string :=
  if String.eqb modification_mode "remove" then ""
  else if String.eqb modification_mode "comment" then commented old
  else old.

End EdiSpec.

Module GeneratorSpec.
Import Generator.

(** The entries of the specification a run of the unified generator
    selects: not the entry named [format], occurrence string equal to the
    target. *)
Definition selects (target_occurrence : string) (item : string * json) : bool :=
  negb (String.eqb (fst item) "format")
  && match snd item with
     | JDict attrs =>
         match get_default "Source Occurs" attrs with
         | JStr source_occurs => String.eqb source_occurs target_occurrence
         | _ => false
         end
     | _ => false
     end.

(** Every entry of the specification other than [format] is a mapping. *)
Definition mappings_apart_from_format (items : list (string * json)) : bool :=
  forallb
    (fun item =>
       String.eqb (fst item) "format"
       || match snd item with JDict _ => true | _ => false end)
    items.

Fixpoint select (p : string * json -> bool) (items : list (string * json))
  : list (string * json) :=
  match items with
  | [] => []
  | item :: rest => if p item then item :: select p rest else select p rest
  end.

End GeneratorSpec.

Module HeapSpec.
Import Heap.

(** Moving the locations of a value, an object, a block of objects. *)
Definition shift_val (k : nat) (v : hval) : hval :=
  match v with
  | HRef l => HRef (k + l)
  | _ => v
  end.

Definition shift_obj (k : nat) (o : hobj) : hobj :=
  match o with
  | HList vs => HList (map (shift_val k) vs)
  | HDict d => HDict (map (fun kv => (fst kv, shift_val k (snd kv))) d)
  end.

Definition shift_heap (k : nat) (g : heap) : heap := map (shift_obj k) g.

Definition shifted_build (j : json) : Prop :=
  forall k base,
    build j (k + base)
    = (shift_heap k (fst (build j base)), shift_val k (snd (build j base))).

Definition reads_back (j : json) : Prop :=
  forall (a : heap) n,
    length (fst (build j (length a))) <= n ->
    read n (a ++ fst (build j (length a)))%list (snd (build j (length a))) = Ok j.

Definition readable (n : nat) (h : heap) (v : hval) : Prop :=
  exists j, read n h v = Ok j.

(** One dictionary is replaced by one whose values are values of the old
    one. *)
Inductive upd : heap -> heap -> Prop :=
| upd_intro (h : heap) l d d' :
    h !! l = Some (HDict d) ->
    (forall v, v ∈ map snd d' -> v ∈ map snd d) ->
    upd h (<[l := HDict d']> h).

End HeapSpec.

Module RequiredSpec.
Import Heap HeapSpec Required.

(** A result obtained in a block, seen behind the store [h]. *)
Definition lift (h : heap) (r : result (heap * bool * list event))
  : result (heap * bool * list event) :=
  match r with
  | Ok (g', b, evs) => Ok ((h ++ shift_heap (length h) g')%list, b, evs)
  | Raise e => Raise e
  end.

(** The outcome of a call on a store in which the argument can be read. *)
Definition runs_well (n : nat) (rec : heap -> hval -> result (heap * bool * list event))
  : Prop :=
  forall h v,
    readable n h v ->
    exists h' b evs,
      rec h v = Ok (h', b, evs) /\ (h' = h \/ upd h h') /\ (b = false -> h' = h).

(** The sample reads as it was loaded. *)
Definition sample_intact (max_json : json) (h : heap) : Prop :=
  dumps h (snd (build max_json 0)) = Ok max_json.

(** The files written for one entry of the specification, computed from
    the sample alone. *)
Definition fixture (open_w : string -> result unit) (mode prefix : string)
  (max_json : json) (item : string * json) : list (string * json) :=
  let B := fst (build max_json 0) in
  let v0 := snd (build max_json 0) in
  match snd item with
  | JDict details =>
      if in_class (Dict.get "Source Occurs" details) "1...1" "1...*" then
        match find_and_modify_keys (length B) (fst item) mode B v0 with
        | Ok (B', true, _) =>
            match open_w (output_file prefix (fst item)) with
            | Ok _ =>
                match read (length B') B' v0 with
                | Ok content => [(output_file prefix (fst item), content)]
                | Raise _ => []
                end
            | Raise _ => []
            end
        | _ => []
        end
      else []
  | _ => []
  end.

End RequiredSpec.

Module Occurrence.

(** The occurrence string of an entry of the specification. *)
Definition occurrence_string (details : json) : option string :=
  match details with
  | JDict d =>
      match Dict.get "Source Occurs" d with
      | Some (JStr s) => Some s
      | _ => None
      end
  | _ => None
  end.

Definition required_class : list string := ["1...1"; "1...*"].
Definition optional_class : list string := ["0...1"; "0...*"].

(** The occurrence string of the entry belongs to the class. *)
Definition has_class (class : list string) (item : string * json) : bool :=
  match occurrence_string (snd item) with
  | Some s => existsb (String.eqb s) class
  | None => false
  end.

(** The keys for which a run printed that it found a field to process. *)
Definition found_keys (evs : list event) : list string :=
  omap (fun e => match e with Found key => Some key | _ => None end) evs.

End Occurrence.

Module Optional2Spec.
Import Heap HeapSpec Optional2 Occurrence.

Definition optional_runs_well (n : nat)
  (rec : heap -> hval -> result (heap * list string * list event)) : Prop :=
  forall h v,
    readable n h v ->
    exists h' ks evs,
      rec h v = Ok (h', ks, evs) /\ rtc upd h h' /\ found_keys evs = [].

End Optional2Spec.

Module ExtractorSpec.
Import Extractor.

(** The dictionary found at the level of a hierarchy path. *)
Fixpoint level_at (hierarchy_path : list string) (r : json)
  : option (list (string * json)) :=
  match r with
  | JDict d =>
      match hierarchy_path with
      | [] => Some d
      | level :: rest =>
          match Dict.get level d with
          | Some child => level_at rest child
          | None => None
          end
      end
  | _ => None
  end.

End ExtractorSpec.

Module PathSpec.

(** [/] read as [.] *)
Definition dot_for_slash (c : ascii) : ascii := if Ascii.eqb c "/" then "."%char else c.

End PathSpec.

Module NameSpec.

(** The character [0], which [lstrip] drops from a padded index. *)
Definition is_zero (c : ascii) : bool := Ascii.eqb c "0".

End NameSpec.

Module LegacySpec.

(** [k] is a key of some dictionary of the document, at any depth. *)
Fixpoint holds_key (k : string) (j : json) : bool :=
  match j with
  | JDict d => Dict.has k d || existsb (fun kv => holds_key k (snd kv)) d
  | JList l => existsb (holds_key k) l
  | _ => false
  end.

(** The entries of the specification for which [Required.py] writes a file:
    required occurrence, key present in the sample. *)
Definition required_and_present (max_json : json) (item : string * json) : bool :=
  Occurrence.has_class Occurrence.required_class item && holds_key (fst item) max_json.

Definition not_empty {A} (l : list A) : bool :=
  match l with [] => false | _ :: _ => true end.

(** The exception with which the file system refuses a file name, if it
    does. *)
Definition refusal (open_w : string -> result unit) (name : string) : option pyexn :=
  match open_w name with
  | Ok _ => None
  | Raise e => Some e
  end.

(** The exception that ends a run of [Required.py] at an entry: the entry
    is one for which a file is written, and the file system refuses the
    file. *)
Definition required_exception (open_w : string -> result unit) (prefix : string)
  (max_json : json) (item : string * json) : option pyexn :=
  if required_and_present max_json item
  then refusal open_w (Required.output_file prefix (fst item))
  else None.

(** The entries a run gets to: those before the first entry that ends it,
    and that entry. *)
Fixpoint reached (exception : string * json -> option pyexn)
  (items : list (string * json)) : list (string * json) :=
  match items with
  | [] => []
  | item :: rest =>
      match exception item with
      | Some _ => [item]
      | None => item :: reached exception rest
      end
  end.

(** The exception that ends the loop over the entries, if one does. *)
Definition first_exception (exception : string * json -> option pyexn)
  (items : list (string * json)) : option pyexn :=
  head (omap exception items).

(** How a run that came to the state [st] ends. *)
Definition ends (e : option pyexn) (st : run_state) : ending :=
  match e with
  | Some e => Raises e st
  | None => Returns st
  end.

(** An output directory without subdirectories: [open] raises [ValueError]
    for a name that holds a NUL character and [FileNotFoundError] for a
    name that holds a slash, and takes any other name. *)
Definition flat_directory (name : string) : result unit :=
  if Py.contains "000" name then Raise ValueError
  else if Py.contains "/" name then Raise FileNotFoundError
  else Ok tt.

End LegacySpec.

Module ShapeSpec.

Definition is_dict (j : json) : bool :=
  match j with JDict _ => true | _ => false end.

(** A segment: a dictionary whose values are dictionaries (the elements). *)
Definition segment_shape (j : json) : bool :=
  match j with
  | JDict seg => forallb (fun e => is_dict (snd e)) seg
  | _ => false
  end.

(** A specification made of segments. *)
Definition segments_shape (r : json) : bool :=
  match r with
  | JDict d => forallb (fun kv => segment_shape (snd kv)) d
  | _ => false
  end.

End ShapeSpec.

Module DetectorSpec.

(** The values format detection looks at: in the rows that have no missing
    value among their first ten cells, these cells. *)
Definition complete_values (df : dataframe) : list string :=
  concat
    (map (fun row => omap id row)
       (List.filter (fun row => forallb Extractor.notna row) (map (take 10) (rows df)))).

End DetectorSpec.

Module EnvelopeSpec.

(** A dictionary whose values are dictionaries. *)
Definition top_dicts (r : json) : bool :=
  match r with
  | JDict d => forallb (fun kv => ShapeSpec.is_dict (snd kv)) d
  | _ => false
  end.

(** A loop body that keeps this shape of the result. *)
Definition keeps_top_dicts
  (body : Extractor.HierarchyBuilder * json -> list cell
          -> result (Extractor.HierarchyBuilder * json)) : Prop :=
  forall st row st', body st row = Ok st' -> top_dicts (snd st) = true ->
                     top_dicts (snd st') = true.

End EnvelopeSpec.

Module KeySpec.
Import Heap.

(** One step of the mutators: a dictionary that holds the key is replaced
    by the one without it (remove) or with the key renamed (comment). *)
Definition kupd (key mode : string) (h h' : heap) : Prop :=
  exists l d,
    h !! l = Some (HDict d) /\ Dict.has key d = true
    /\ h' = <[l := HDict (TreeSpec.key_op mode key d)]> h.

(** The dictionaries of the store have distinct keys, as Python
    dictionaries do. *)
Definition distinct_keys (o : hobj) : Prop :=
  match o with
  | HDict d => NoDup (map fst d)
  | HList _ => True
  end.

Definition heap_wf (h : heap) : Prop := Forall distinct_keys h.

(** The modes that change a document. *)
Definition changes (mode : string) : Prop := mode = "remove" \/ mode = "comment".

(** The value reads as a document in which no dictionary holds the key. *)
Definition clean (key : string) (n : nat) (h : heap) (v : hval) : Prop :=
  exists j, read n h v = Ok j /\ LegacySpec.holds_key key j = false.

End KeySpec.

Module OptionalSpec.
Import Heap HeapSpec.

(** The dictionaries of the document have distinct keys. *)
Fixpoint wf_json (j : json) : Prop :=
  match j with
  | JDict d =>
      NoDup (map fst d) /\ fold_right (fun kv acc => wf_json (snd kv) /\ acc) True d
  | JList l => fold_right (fun x acc => wf_json x /\ acc) True l
  | _ => True
  end.

(** A result obtained in a block, seen behind the store [h]. *)
Definition olift (h : heap) (r : result (heap * list string * list event))
  : result (heap * list string * list event) :=
  match r with
  | Ok (g', ks, evs) => Ok ((h ++ shift_heap (length h) g')%list, ks, evs)
  | Raise e => Raise e
  end.

(** The entries of the specification for which [Optional2.py] writes a
    file: optional occurrence, key present in the sample. *)
Definition optional_and_present (max_json : json) (item : string * json) : bool :=
  Occurrence.has_class Occurrence.optional_class item
  && LegacySpec.holds_key (fst item) max_json.

(** The exception that ends a run of [Optional2.py] at an entry. *)
Definition optional_exception (open_w : string -> result unit) (prefix : string)
  (max_json : json) (item : string * json) : option pyexn :=
  if optional_and_present max_json item
  then LegacySpec.refusal open_w (Optional2.output_file prefix (fst item))
  else None.

(** The files written for one entry of the specification, computed from
    the sample alone. *)
Definition fixture (open_w : string -> result unit) (mode prefix : string)
  (max_json : json) (item : string * json) : list (string * json) :=
  let B := fst (build max_json 0) in
  let v0 := snd (build max_json 0) in
  match snd item with
  | JDict details =>
      if in_class (Dict.get "Source Occurs" details) "0...1" "0...*" then
        match Optional2.find_and_modify_keys (length B) (fst item) mode B v0 with
        | Ok (B', ks, _) =>
            if LegacySpec.not_empty ks then
              match open_w (Optional2.output_file prefix (fst item)) with
              | Ok _ =>
                  match read (length B') B' v0 with
                  | Ok content => [(Optional2.output_file prefix (fst item), content)]
                  | Raise _ => []
                  end
              | Raise _ => []
              end
            else []
        | Raise _ => []
        end
      else []
  | _ => []
  end.

(** The keys recorded so far are keys of the sample. *)
Definition recorded_hold (max_json : json) (st : run_state) : Prop :=
  Forall (fun k => LegacySpec.holds_key k max_json = true) (modified_keys st).

(** The file written for an entry: its name, and a content in which no
    dictionary holds the key of the entry. *)
Definition file_of_entry (prefix : string) (item : string * json) (file : string * json)
  : Prop :=
  fst file = Optional2.output_file prefix (fst item)
  /\ LegacySpec.holds_key (fst item) (snd file) = false.

End OptionalSpec.

Module FlatSpec.

(** An entry of a flat specification: a dictionary of at least one
    attribute, every attribute a string. *)
Definition attribute_entry (item : string * json) : Prop :=
  exists attributes : list (string * string),
    attributes <> []
    /\ snd item = JDict (map (fun kv => (fst kv, JStr (snd kv))) attributes).

End FlatSpec.

(** * Properties *)

(** ** Strings: [split], [join] and character counts *)

Module PyFacts.
Import Py PySpec.

Lemma split_not_nil sep s : split sep s <> [].
Proof.
  destruct s as [|c r]; simpl; [discriminate|].
  destruct (Ascii.eqb c sep); [discriminate|].
  destruct (split sep r); discriminate.
Qed.

Lemma join_cons sep x y t :
  join sep (x :: y :: t) = x ++ sep ++ join sep (y :: t).
Proof. reflexivity. Qed.

Lemma join_split sep s : join (sep_of sep) (split sep s) = s.
Proof.
  induction s as [|c r IH]; simpl; [reflexivity|].
  destruct (Ascii.eqb_spec c sep) as [->|Hne].
  - pose proof (split_not_nil sep r) as Hnil.
    destruct (split sep r) as [|y t] eqn:E; [congruence|].
    rewrite join_cons, IH. reflexivity.
  - pose proof (split_not_nil sep r) as Hnil.
    destruct (split sep r) as [|y t] eqn:E; [congruence|].
    destruct t as [|z t'].
    + simpl in IH. simpl. congruence.
    + rewrite join_cons in *. simpl. rewrite <- IH. reflexivity.
Qed.

Lemma contains_app c s1 s2 :
  contains c (s1 ++ s2) = contains c s1 || contains c s2.
Proof.
  induction s1 as [|d r IH]; simpl; [reflexivity|].
  rewrite IH. apply orb_assoc.
Qed.

Lemma count_char_app c s1 s2 :
  count_char c (s1 ++ s2) = count_char c s1 + count_char c s2.
Proof.
  induction s1 as [|d r IH]; simpl; [reflexivity|]. rewrite IH. lia.
Qed.

Lemma count_char_free c s : contains c s = false -> count_char c s = 0.
Proof.
  induction s as [|d r IH]; simpl; [reflexivity|].
  intros H. apply orb_false_iff in H as [H1 H2]. rewrite H1. auto.
Qed.

(** Every part of a split is free of the separator. *)
Lemma split_free sep s : Forall (fun e => contains sep e = false) (split sep s).
Proof.
  induction s as [|c r IH]; simpl.
  - constructor; [reflexivity|constructor].
  - destruct (Ascii.eqb_spec c sep) as [->|Hne].
    + constructor; [reflexivity|assumption].
    + destruct (split sep r) as [|y t]; [repeat constructor|].
      * simpl. apply Ascii.eqb_neq in Hne. rewrite Hne. reflexivity.
      * inversion IH; subst. constructor; [|assumption].
        simpl. apply Ascii.eqb_neq in Hne. rewrite Hne. assumption.
Qed.

Lemma split_cons_free sep c r :
  Ascii.eqb c sep = false ->
  split sep (String c r) =
  match split sep r with h :: t => String c h :: t | [] => [String c EmptyString] end.
Proof. intros H. simpl. rewrite H. reflexivity. Qed.

Lemma split_app_free sep e s :
  contains sep e = false ->
  split sep (e ++ String sep s) = e :: split sep s.
Proof.
  induction e as [|c r IH]; simpl; intros H.
  - rewrite Ascii.eqb_refl. reflexivity.
  - apply orb_false_iff in H as [H1 H2]. rewrite H1, IH by assumption. reflexivity.
Qed.

Lemma split_free_id sep e : contains sep e = false -> split sep e = [e].
Proof.
  induction e as [|c r IH]; simpl; intros H; [reflexivity|].
  apply orb_false_iff in H as [H1 H2]. rewrite H1, IH by assumption. reflexivity.
Qed.

(** Splitting a join of separator-free parts gives the parts back. *)
Lemma split_join sep l :
  l <> [] -> Forall (fun e => contains sep e = false) l ->
  split sep (join (sep_of sep) l) = l.
Proof.
  induction l as [|x t IH]; [congruence|]. intros _ HF.
  inversion HF as [|? ? Hx Ht]; subst.
  destruct t as [|y t'].
  - simpl. apply split_free_id. assumption.
  - rewrite join_cons.
    change (x ++ sep_of sep ++ join (sep_of sep) (y :: t'))
      with (x ++ String sep (join (sep_of sep) (y :: t'))).
    rewrite split_app_free by assumption.
    rewrite IH; [reflexivity|discriminate|assumption].
Qed.

(** A join of [n + 1] separator-free parts holds [n] separators. *)
Lemma count_char_join sep l :
  Forall (fun e => contains sep e = false) l ->
  count_char sep (join (sep_of sep) l) = length l - 1.
Proof.
  induction l as [|x t IH]; [reflexivity|]. intros HF.
  inversion HF as [|? ? Hx Ht]; subst.
  destruct t as [|y t'].
  - simpl. rewrite count_char_free by assumption. reflexivity.
  - rewrite join_cons, !count_char_app, IH by assumption.
    rewrite count_char_free by assumption. simpl. rewrite Ascii.eqb_refl. lia.
Qed.

Lemma contains_join c sep l :
  contains c sep = false -> Forall (fun e => contains c e = false) l ->
  contains c (join sep l) = false.
Proof.
  intros Hs. induction l as [|x t IH]; [reflexivity|]. intros HF.
  inversion HF as [|? ? Hx Ht]; subst.
  destruct t as [|y t']; [assumption|].
  rewrite join_cons, !contains_app, Hx, Hs, IH by assumption. reflexivity.
Qed.

(** The parts of a split do not hold a character the string does not hold. *)
Lemma split_preserves_free c sep s :
  contains c s = false -> Forall (fun e => contains c e = false) (split sep s).
Proof.
  induction s as [|d r IH]; simpl; intros H.
  - repeat constructor.
  - apply orb_false_iff in H as [H1 H2]. specialize (IH H2).
    destruct (Ascii.eqb d sep).
    + constructor; [reflexivity|assumption].
    + destruct (split sep r) as [|y t]; [repeat constructor; simpl; rewrite H1; reflexivity|].
      inversion IH; subst. constructor; [|assumption]. simpl. rewrite H1. assumption.
Qed.

Lemma norm_index_lt {A} (l : list A) (i : Z) (n : nat) :
  norm_index l i = Some n -> n < length l.
Proof.
  unfold norm_index, len. intros H.
  destruct ((0 <=? i)%Z && (i <? Z.of_nat (length l))%Z) eqn:E1.
  - apply andb_true_iff in E1 as [? ?]. inversion H; subst. lia.
  - destruct ((i <? 0)%Z && (0 <=? i + Z.of_nat (length l))%Z) eqn:E2; [|discriminate].
    apply andb_true_iff in E2 as [? ?]. inversion H; subst. lia.
Qed.

Lemma norm_index_nat {A} (l : list A) (n : nat) :
  n < length l -> norm_index l (Z.of_nat n) = Some n.
Proof.
  intros H. unfold norm_index, len.
  replace ((0 <=? Z.of_nat n)%Z) with true by (symmetry; apply Z.leb_le; lia).
  replace ((Z.of_nat n <? Z.of_nat (length l))%Z) with true
    by (symmetry; apply Z.ltb_lt; lia).
  simpl. rewrite Nat2Z.id. reflexivity.
Qed.

Lemma getitem_nat {A} (l : list A) (n : nat) (x : A) :
  l !! n = Some x -> getitem l (Z.of_nat n) = Ok x.
Proof.
  intros H. unfold getitem.
  rewrite norm_index_nat by (eapply lookup_lt_Some; eassumption).
  rewrite H. reflexivity.
Qed.

Lemma setitem_nat {A} (l : list A) (n : nat) (x : A) :
  n < length l -> setitem l (Z.of_nat n) x = Ok (<[n := x]> l).
Proof. intros H. unfold setitem. rewrite norm_index_nat by assumption. reflexivity. Qed.

End PyFacts.

(** ** The EDI-X12 strategy *)

Module EdiFacts.
Import Py PySpec PyFacts.

Lemma setitem_Forall {A} (P : A -> Prop) l i x l' :
  setitem l i x = Ok l' -> Forall P l -> P x -> Forall P l'.
Proof.
  unfold setitem. destruct (norm_index l i); [|discriminate].
  intros H HF Hx. inversion H; subst. apply Forall_insert; assumption.
Qed.

Lemma getitem_Forall {A} (P : A -> Prop) (l : list A) i x :
  getitem l i = Ok x -> Forall P l -> P x.
Proof.
  unfold getitem. destruct (norm_index l i); [|discriminate].
  destruct (l !! n) eqn:E; [|discriminate].
  intros H HF. inversion H; subst. eapply Forall_lookup_1; eassumption.
Qed.

Lemma setitem_length {A} (l : list A) i x l' :
  setitem l i x = Ok l' -> length l' = length l.
Proof.
  unfold setitem. destruct (norm_index l i); [|discriminate].
  intros H. inversion H; subst. apply length_insert.
Qed.

Section Free.
Variable c : ascii.
Hypothesis c_marker : contains c "commented-" = false.
Hypothesis c_colon : contains c ":" = false.
Hypothesis c_star : contains c "*" = false.

Let free (s : string) : Prop := contains c s = false.

Lemma commented_free s : free s -> free (commented s).
Proof.
  unfold free, commented. intros H. rewrite contains_app, c_marker, H. reflexivity.
Qed.

Lemma subelements_of_split target : Edi.subelements_of target = split ":" target.
Proof.
  unfold Edi.subelements_of. destruct (contains ":" target) eqn:E; [reflexivity|].
  symmetry. apply split_free_id. assumption.
Qed.

Lemma modify_free modification_mode l i l' :
  Edi.modify modification_mode l i = Ok l' -> Forall free l -> Forall free l'.
Proof.
  unfold Edi.modify. intros H HF.
  destruct (String.eqb modification_mode "remove").
  - eapply setitem_Forall; [eassumption|assumption|reflexivity].
  - destruct (String.eqb modification_mode "comment").
    + destruct (getitem l i) as [old|] eqn:Eo; [|discriminate].
      simpl in H. eapply setitem_Forall; [eassumption|assumption|].
      apply commented_free. eapply getitem_Forall; eassumption.
    + inversion H; subst. assumption.
Qed.

Lemma try_block_free elements field_part modification_mode elements' :
  Edi.try_block elements field_part modification_mode = Ok elements' ->
  Forall free elements -> Forall free elements'.
Proof.
  unfold Edi.try_block. intros H HF.
  destruct (Edi.parse_numbers field_part) as [[element_num sub]|]; [|discriminate].
  simpl in H.
  destruct (element_num <? len elements)%Z; [|inversion H; subst; assumption].
  destruct sub as [subelement_num|]; [|eapply modify_free; eassumption].
  destruct (getitem elements element_num) as [target|] eqn:Et; [|discriminate].
  simpl in H.
  assert (Ht : free target) by (eapply getitem_Forall; eassumption).
  assert (Hs : Forall free (Edi.subelements_of target)).
  { rewrite subelements_of_split. apply split_preserves_free. assumption. }
  destruct (subelement_num - 1 <? len (Edi.subelements_of target))%Z;
    [|inversion H; subst; assumption].
  destruct (Edi.modify _ _ _) as [subelements'|] eqn:Es; [|discriminate].
  simpl in H.
  eapply setitem_Forall; [eassumption|assumption|].
  apply contains_join; [assumption|]. eapply modify_free; eassumption.
Qed.

(** A line that does not hold [c] does not hold it after the mutation. *)
Lemma process_line_free field_path modification_mode line :
  free line -> free (Edi.process_line field_path modification_mode line).
Proof.
  intros H. unfold Edi.process_line.
  destruct (strip_is_empty line); [assumption|].
  destruct (contains "~" line); [|assumption].
  destruct (startswith field_path _); [|assumption].
  destruct (Edi.try_block _ _ _) as [elements'|] eqn:E; [|assumption].
  apply contains_join; [assumption|].
  eapply try_block_free; [eassumption|].
  apply split_preserves_free. assumption.
Qed.

End Free.

(** The mutated document, line by line. *)
Lemma process_edi_lines content field_path modification_mode :
  split "010" (Edi.process_edi_field_removal content field_path modification_mode)
  = map (Edi.process_line field_path modification_mode) (split "010" content).
Proof.
  unfold Edi.process_edi_field_removal.
  apply (split_join "010").
  - pose proof (split_not_nil "010" content).
    destruct (split "010" content); [congruence|discriminate].
  - apply Forall_map. eapply Forall_impl; [apply split_free|].
    intros line H. simpl. apply process_line_free; [reflexivity..|assumption].
Qed.

(** What the strategy does to a line [ISA*...~] for the field path [ISA06]
    in comment mode. *)
Lemma process_line_isa06 line :
  split "*" line !! 0 = Some "ISA" ->
  split "*" line !! 6 = Some "SENDER" ->
  contains "~" line = true ->
  Edi.process_line "ISA06" "comment" line
  = join "*" (<[6 := "commented-SENDER"]> (split "*" line)).
Proof.
  intros H0 H6 Ht. unfold Edi.process_line.
  assert (Hline : line = join "*" (split "*" line)) by (symmetry; apply (join_split "*")).
  destruct (split "*" line) as [|e0 t] eqn:Es; [discriminate|].
  simpl in H0. inversion H0; subst e0.
  assert (Hblank : strip_is_empty line = false).
  { rewrite Hline. destruct t; reflexivity. }
  rewrite Hblank, Ht.
  change (Edi.segment_id_of ("ISA" :: t)) with "ISA".
  change (startswith "ISA06" "ISA") with true. cbv iota.
  change (Edi.field_part_of "ISA06" "ISA") with "06".
  unfold Edi.try_block.
  change (Edi.parse_numbers "06") with (@Ok (Z * option Z) (6%Z, None)).
  unfold rbind at 1.
  assert (Hlen : 6 < length ("ISA" :: t)) by (eapply lookup_lt_Some; eassumption).
  replace ((6 <? len ("ISA" :: t))%Z) with true
    by (symmetry; apply Z.ltb_lt; unfold len; lia).
  unfold Edi.modify.
  change (String.eqb "comment" "remove") with false.
  change (String.eqb "comment" "comment") with true. cbv iota.
  change 6%Z with (Z.of_nat 6).
  rewrite (getitem_nat ("ISA" :: t) 6 "SENDER" H6).
  unfold rbind. rewrite (setitem_nat ("ISA" :: t) 6 _ Hlen).
  reflexivity.
Qed.

End EdiFacts.

(** C5. End-to-end EDI-X12 CommentOut: in a document, take a segment line
    (it holds the terminator [~]) whose leading [*]-separated element is
    [ISA] and whose element 6 (the segment identifier being element 0) is
    [SENDER].  Mutating the document with field path [ISA06] in comment mode
    yields, at the same line number, a line whose [*]-separated elements are
    those of the original with element 6 replaced by [commented-SENDER] and
    every other element unchanged; the number of [*] separators is the
    same. *)
Theorem edi_isa06_comment_out (content line : string) (i : nat) :
  Py.split "010" content !! i = Some line ->
  Py.split "*" line !! 0 = Some "ISA" ->
  Py.split "*" line !! 6 = Some "SENDER" ->
  Py.contains "~" line = true ->
  exists line',
    Py.split "010" (Edi.process_edi_field_removal content "ISA06" "comment") !! i
      = Some line'
    /\ Py.split "*" line' = <[6 := "commented-SENDER"]> (Py.split "*" line)
    /\ PySpec.count_char "*" line' = PySpec.count_char "*" line.
Proof.
  intros Hi H0 H6 Ht.
  exists (Edi.process_line "ISA06" "comment" line).
  rewrite EdiFacts.process_edi_lines, list_lookup_fmap, Hi.
  split; [reflexivity|].
  rewrite (EdiFacts.process_line_isa06 line H0 H6 Ht).
  assert (HF : Forall (fun e => Py.contains "*" e = false)
                 (<[6 := "commented-SENDER"]> (Py.split "*" line))).
  { apply Forall_insert; [apply PyFacts.split_free|reflexivity]. }
  split.
  - apply (PyFacts.split_join "*"); [|assumption].
    intros E. apply (f_equal length) in E. rewrite length_insert in E.
    apply lookup_lt_Some in H6. simpl in E. lia.
  - rewrite (PyFacts.count_char_join "*") by assumption.
    rewrite length_insert.
    rewrite <- (PyFacts.join_split "*" line) at 2.
    rewrite (PyFacts.count_char_join "*") by apply PyFacts.split_free.
    reflexivity.
Qed.

Lemma edi_isa06_comment_out_witness :
  exists line',
    Py.split "010"
      (Edi.process_edi_field_removal
         "ISA*00*          *00*          *ZZ*SENDER*ZZ*RECEIVER~" "ISA06" "comment") !! 0
      = Some line'
    /\ Py.split "*" line'
       = <[6 := "commented-SENDER"]>
           (Py.split "*" "ISA*00*          *00*          *ZZ*SENDER*ZZ*RECEIVER~")
    /\ PySpec.count_char "*" line'
       = PySpec.count_char "*" "ISA*00*          *00*          *ZZ*SENDER*ZZ*RECEIVER~".
Proof.
  apply (edi_isa06_comment_out
           "ISA*00*          *00*          *ZZ*SENDER*ZZ*RECEIVER~"
           "ISA*00*          *00*          *ZZ*SENDER*ZZ*RECEIVER~" 0);
    reflexivity.
Defined.

(** ** The IDOC strategy *)

Module IdocFacts.
Import Py IdocSpec.

Lemma length_app (s1 s2 : string) :
  String.length (s1 ++ s2) = String.length s1 + String.length s2.
Proof. induction s1 as [|c r IH]; simpl; [reflexivity|]. rewrite IH. reflexivity. Qed.

Lemma spaces_add n m : Idoc.spaces (n + m) = Idoc.spaces n ++ Idoc.spaces m.
Proof. induction n as [|n IH]; simpl; [reflexivity|]. rewrite IH. reflexivity. Qed.

Lemma append_assoc (s1 s2 s3 : string) : (s1 ++ s2) ++ s3 = s1 ++ (s2 ++ s3).
Proof. induction s1 as [|c r IH]; simpl; [reflexivity|]. rewrite IH. reflexivity. Qed.

Lemma append_nil_r (s : string) : s ++ EmptyString = s.
Proof. induction s as [|c r IH]; simpl; [reflexivity|]. rewrite IH. reflexivity. Qed.

Lemma flush_spaces run :
  (if is_empty run then EmptyString else Idoc.spaces (String.length run))
  = Idoc.spaces (String.length run).
Proof. destruct run; reflexivity. Qed.

(** Replacing each run of word characters by as many spaces is blanking the
    word characters one by one. *)
Lemma sub_word_runs_blank run s :
  Idoc.sub_word_runs (fun m => Idoc.spaces (String.length m)) run s
  = Idoc.spaces (String.length run) ++ blank_word_chars s.
Proof.
  unfold blank_word_chars.
  revert run. induction s as [|c r IH]; intros run; simpl.
  - rewrite flush_spaces. symmetry. apply append_nil_r.
  - destruct (is_word c) eqn:E.
    + rewrite IH, length_app. simpl String.length.
      rewrite spaces_add, append_assoc. reflexivity.
    + rewrite flush_spaces, IH. reflexivity.
Qed.

Lemma length_map_chars f s : String.length (map_chars f s) = String.length s.
Proof. induction s as [|c r IH]; simpl; [reflexivity|]. rewrite IH. reflexivity. Qed.

Lemma get_map_chars f s i :
  String.get i (map_chars f s) = f <$> String.get i s.
Proof.
  revert i. induction s as [|c r IH]; intros i; simpl; [reflexivity|].
  destruct i; [reflexivity|]. apply IH.
Qed.

End IdocFacts.

(** C8, as stated, fails: on the line [E1EDK01 2024-01-01], selected by the
    field path [E1EDK01], Remove leaves the two hyphens of the run
    [2024-01-01] in place, so the result is not the line with its runs of
    non-whitespace characters blanked. *)
Lemma idoc_remove_keeps_punctuation :
  IdocSpec.selected "E1EDK01" "E1EDK01 2024-01-01" = true
  /\ Idoc.process_line "E1EDK01" "remove" "E1EDK01 2024-01-01" = "            -  -  "
  /\ Idoc.process_line "E1EDK01" "remove" "E1EDK01 2024-01-01"
     <> IdocSpec.blank_non_whitespace "E1EDK01 2024-01-01".
Proof.
  split; [reflexivity|]. split; [reflexivity|].
  vm_compute. discriminate.
Qed.

(** C8, amended.  For every IDOC line selected by the field path, Remove
    replaces every run of word characters (letters, digits, underscore) by
    spaces of equal length: the mutated line has the length of the original,
    holds a space wherever the original holds a word character, and holds
    the original character everywhere else. *)
Theorem idoc_remove_blanks_word_runs (field_path line : string) :
  IdocSpec.selected field_path line = true ->
  Idoc.process_line field_path "remove" line = IdocSpec.blank_word_chars line
  /\ String.length (Idoc.process_line field_path "remove" line) = String.length line
  /\ forall i c, String.get i line = Some c ->
       String.get i (Idoc.process_line field_path "remove" line)
       = Some (if Py.is_word c then " "%char else c).
Proof.
  intros Hsel. unfold IdocSpec.selected in Hsel.
  apply andb_true_iff in Hsel as [H1 H2].
  assert (E : Idoc.process_line field_path "remove" line = IdocSpec.blank_word_chars line).
  { unfold Idoc.process_line. rewrite H1, H2.
    change (String.eqb "remove" "remove") with true. cbv iota.
    unfold Idoc.re_sub_words. rewrite IdocFacts.sub_word_runs_blank. reflexivity. }
  rewrite E. split; [reflexivity|]. split.
  - apply IdocFacts.length_map_chars.
  - intros i c Hc. unfold IdocSpec.blank_word_chars.
    rewrite IdocFacts.get_map_chars, Hc. reflexivity.
Qed.

Lemma idoc_remove_blanks_word_runs_witness :
  Idoc.process_line "E1EDK01" "remove" "E1EDK01 2024-01-01"
  = IdocSpec.blank_word_chars "E1EDK01 2024-01-01"
  /\ String.length (Idoc.process_line "E1EDK01" "remove" "E1EDK01 2024-01-01")
     = String.length "E1EDK01 2024-01-01"
  /\ forall i c, String.get i "E1EDK01 2024-01-01" = Some c ->
       String.get i (Idoc.process_line "E1EDK01" "remove" "E1EDK01 2024-01-01")
       = Some (if Py.is_word c then " "%char else c).
Proof.
  apply (idoc_remove_blanks_word_runs "E1EDK01" "E1EDK01 2024-01-01"). reflexivity.
Defined.

(** ** Dictionaries *)

Module DictFacts.
Section Facts.
Context {A : Type}.
Implicit Types (d : list (string * A)) (k : string) (v : A).

Lemma has_get k d : Dict.has k d = true <-> exists v, Dict.get k d = Some v.
Proof.
  unfold Dict.has. destruct (Dict.get k d) as [v|].
  - split; [eauto|reflexivity].
  - split; [discriminate|]. intros [v H]. discriminate.
Qed.

(** A key of a dictionary splits it at its entry. *)
Lemma get_split k d v :
  Dict.get k d = Some v ->
  exists d1 d2, d = (d1 ++ (k, v) :: d2)%list /\ Dict.get k d1 = None.
Proof.
  induction d as [|[k' v'] t IH]; simpl; [discriminate|].
  destruct (String.eqb_spec k k') as [->|Hne].
  - intros H. inversion H; subst. exists [], t. split; reflexivity.
  - intros H. destruct (IH H) as (d1 & d2 & -> & Hd1).
    exists ((k', v') :: d1), d2. split; [reflexivity|].
    simpl. destruct (String.eqb_spec k k'); [contradiction|assumption].
Qed.




Lemma set_middle k d1 v v' d2 :
  Dict.get k d1 = None ->
  Dict.set k v' (d1 ++ (k, v) :: d2)%list = (d1 ++ (k, v') :: d2)%list.
Proof.
  induction d1 as [|[k' v''] t IH]; simpl.
  - rewrite String.eqb_refl. reflexivity.
  - destruct (String.eqb k k'); [discriminate|]. intros H. rewrite IH by assumption.
    reflexivity.
Qed.


Lemma get_set_eq k v d : Dict.get k (Dict.set k v d) = Some v.
Proof.
  induction d as [|[k' v'] t IH]; simpl.
  - rewrite String.eqb_refl. reflexivity.
  - destruct (String.eqb k k') eqn:E; simpl; rewrite E; [reflexivity|assumption].
Qed.

Lemma get_set_ne k k' v d :
  k <> k' -> Dict.get k (Dict.set k' v d) = Dict.get k d.
Proof.
  intros Hne. induction d as [|[k'' v'] t IH]; simpl.
  - destruct (String.eqb_spec k k'); [contradiction|reflexivity].
  - destruct (String.eqb_spec k' k'') as [->|Hne'']; simpl.
    + destruct (String.eqb_spec k k''); [contradiction|reflexivity].
    + destruct (String.eqb k k''); [reflexivity|assumption].
Qed.


(** Deleting a key forgets the value it had. *)
Lemma del_set k v d : Dict.del k (Dict.set k v d) = Dict.del k d.
Proof.
  induction d as [|[k' v'] t IH]; simpl.
  - rewrite String.eqb_refl. reflexivity.
  - destruct (String.eqb k k') eqn:E; simpl; rewrite E; [reflexivity|].
    rewrite IH. reflexivity.
Qed.

Lemma has_set k v d : Dict.has k (Dict.set k v d) = true.
Proof. unfold Dict.has. rewrite get_set_eq. reflexivity. Qed.

Lemma commented_ne k : commented k <> k.
Proof.
  unfold commented. intros H. apply (f_equal String.length) in H.
  rewrite IdocFacts.length_app in H. simpl in H. lia.
Qed.

(** The commented key holds the value of the original key. *)
Lemma get_comment_key k d v :
  Dict.get k d = Some v -> Dict.get (commented k) (Dict.comment_key k d) = Some v.
Proof. intros H. unfold Dict.comment_key. rewrite H. apply get_set_eq. Qed.



End Facts.
End DictFacts.

(** Stripping the marker gives the key or value back. *)
Lemma strip_marker (s : string) : Py.drop 10 (commented s) = s.
Proof. reflexivity. Qed.

(** ** The tree-of-maps strategy *)

Module TreeFacts.
Import Tree TreeSpec.

Lemma size_in_list l1 x l2 : json_size x < json_size (JList (l1 ++ x :: l2)%list).
Proof.
  simpl. rewrite map_app, list_sum_app. simpl. lia.
Qed.

Lemma size_in_dict d1 k v d2 : json_size v < json_size (JDict (d1 ++ (k, v) :: d2)%list).
Proof.
  simpl. rewrite map_app, list_sum_app. simpl. lia.
Qed.

(** *** The combinators *)

Section CombinatorFacts.
Context {A : Type}.
Variable f : A -> outcome A.

Lemma on_key_middle k d1 v d2 :
  Dict.get k d1 = None ->
  on_key f k (d1 ++ (k, v) :: d2)%list
  = Some (do r <- f v ;; Ok (fst r, (d1 ++ (k, snd r) :: d2)%list)).
Proof.
  induction d1 as [|[k' v'] t IH]; simpl.
  - rewrite String.eqb_refl. reflexivity.
  - destruct (String.eqb k k'); [discriminate|]. intros H. rewrite IH by assumption.
    simpl. f_equal. destruct (f v) as [[b x]|]; reflexivity.
Qed.

Lemma on_key_None k d : Dict.get k d = None -> on_key f k d = None.
Proof.
  induction d as [|[k' v'] t IH]; simpl; [reflexivity|].
  destruct (String.eqb k k'); [discriminate|]. intros H. rewrite IH by assumption.
  reflexivity.
Qed.

Lemma on_key_inv k d o :
  on_key f k d = Some o ->
  exists d1 v d2, d = (d1 ++ (k, v) :: d2)%list /\ Dict.get k d1 = None
    /\ o = (do r <- f v ;; Ok (fst r, (d1 ++ (k, snd r) :: d2)%list)).
Proof.
  intros H. destruct (Dict.get k d) as [v|] eqn:E.
  - destruct (DictFacts.get_split k d v E) as (d1 & d2 & -> & Hd1).
    rewrite on_key_middle in H by assumption. inversion H; subst.
    exists d1, v, d2. auto.
  - rewrite on_key_None in H by assumption. discriminate.
Qed.

Lemma on_index_middle l1 x l2 :
  on_index f (length l1) (l1 ++ x :: l2)%list
  = do r <- f x ;; Ok (fst r, (l1 ++ snd r :: l2)%list).
Proof.
  induction l1 as [|y t IH]; simpl; [reflexivity|].
  rewrite IH. destruct (f x) as [[b x']|]; reflexivity.
Qed.

Lemma first_success_middle l1 x l2 x' :
  Forall (fun y => f y = Ok (false, y)) l1 ->
  f x = Ok (true, x') ->
  first_success f (l1 ++ x :: l2)%list = Ok (true, (l1 ++ x' :: l2)%list).
Proof.
  intros HF Hx. induction HF as [|y t Hy _ IH]; simpl.
  - rewrite Hx. reflexivity.
  - rewrite Hy. simpl. rewrite IH. reflexivity.
Qed.

Lemma first_success_inv l b l' :
  Forall (fun y => forall y', f y = Ok (false, y') -> y' = y) l ->
  first_success f l = Ok (b, l') ->
  if b then
    exists l1 x l2 x', l = (l1 ++ x :: l2)%list
      /\ Forall (fun y => f y = Ok (false, y)) l1
      /\ f x = Ok (true, x') /\ l' = (l1 ++ x' :: l2)%list
  else l' = l.
Proof.
  intros HF. revert b l'. induction HF as [|y t Hy _ IH]; simpl; intros b l' H.
  - inversion H; subst. reflexivity.
  - destruct (f y) as [[by' y']|] eqn:Ey; [|discriminate]. simpl in H.
    destruct by'.
    + inversion H; subst. exists [], y, t, y'. repeat split; auto.
    + specialize (Hy y' eq_refl). subst y'.
      destruct (first_success f t) as [[bt t']|] eqn:Et; [|discriminate].
      simpl in H. inversion H; subst. specialize (IH b t' eq_refl).
      destruct b.
      * destruct IH as (l1 & x & l2 & x' & -> & HF1 & Hx & ->).
        exists (y :: l1), x, l2, x'. repeat split; auto.
      * subst. reflexivity.
Qed.

End CombinatorFacts.

(** *** One step of [navigate_and_modify] *)

Lemma nav_nil mode obj : navigate_and_modify mode obj [] = Ok (false, obj).
Proof. destruct obj; reflexivity. Qed.

Lemma nav_key_last mode k d :
  is_indexed k = false ->
  navigate_and_modify mode (JDict d) [k]
  = if Dict.has k d then Ok (true, JDict (key_op mode k d)) else Ok (false, JDict d).
Proof.
  unfold is_indexed, key_op. intros H. simpl. rewrite H.
  destruct (Dict.has k d); [|reflexivity].
  destruct (String.eqb mode "remove"); [reflexivity|].
  destruct (String.eqb mode "comment"); reflexivity.
Qed.

Lemma nav_key_more mode ck r rs d :
  is_indexed ck = false ->
  navigate_and_modify mode (JDict d) (ck :: r :: rs)
  = match on_key (fun child => navigate_and_modify mode child (r :: rs)) ck d with
    | Some o => wrap JDict o
    | None => Ok (false, JDict d)
    end.
Proof. unfold is_indexed. intros H. simpl. rewrite H. reflexivity. Qed.

Lemma nav_list mode ck rest l :
  is_indexed ck = false ->
  navigate_and_modify mode (JList l) (ck :: rest)
  = wrap JList (first_success (fun item => navigate_and_modify mode item (ck :: rest)) l).
Proof. unfold is_indexed. intros H. simpl. rewrite H. reflexivity. Qed.

Lemma nav_scalar mode obj path :
  (forall l, obj <> JList l) -> (forall d, obj <> JDict d) ->
  navigate_and_modify mode obj path = Ok (false, obj).
Proof.
  intros Hl Hd. destruct path as [|ck rest]; [apply nav_nil|].
  destruct obj; simpl;
    try (destruct (Py.contains "[" ck && Py.contains "]" ck);
         [destruct (parse_index ck)|]; reflexivity).
  - exfalso. eapply Hl. reflexivity.
  - exfalso. eapply Hd. reflexivity.
Qed.

Lemma nav_indexed_not_dict mode ck rest obj :
  is_indexed ck = true -> (forall d, obj <> JDict d) ->
  navigate_and_modify mode obj (ck :: rest) = Ok (false, obj).
Proof.
  unfold is_indexed. intros H Hd.
  destruct obj; simpl; rewrite H; try (destruct (parse_index ck); reflexivity).
  exfalso. eapply Hd. reflexivity.
Qed.

Lemma nav_indexed_bad mode ck rest obj e :
  is_indexed ck = true -> parse_index ck = Raise e ->
  navigate_and_modify mode obj (ck :: rest) = Ok (false, obj).
Proof.
  unfold is_indexed. intros H He. destruct obj; simpl; rewrite H, He; reflexivity.
Qed.

Lemma nav_indexed_more mode ck r rs d index :
  is_indexed ck = true -> parse_index ck = Ok index ->
  navigate_and_modify mode (JDict d) (ck :: r :: rs)
  = match on_key (indexed_step mode index (r :: rs)) (hd "" (Py.split "[" ck)) d with
    | Some o => wrap JDict o
    | None => Ok (false, JDict d)
    end.
Proof. unfold is_indexed. intros H Hi. simpl. rewrite H, Hi. reflexivity. Qed.

Lemma nav_indexed_last mode ck d index :
  is_indexed ck = true -> parse_index ck = Ok index ->
  navigate_and_modify mode (JDict d) [ck]
  = match on_key (indexed_last mode index) (hd "" (Py.split "[" ck)) d with
    | Some o => wrap JDict o
    | None => Ok (false, JDict d)
    end.
Proof. unfold is_indexed. intros H Hi. simpl. rewrite H, Hi. reflexivity. Qed.

(** *** A call that returns [False] leaves the object as it is *)

Lemma elem_size_list x (l : list json) : x ∈ l -> json_size x < json_size (JList l).
Proof.
  intros H. apply list_elem_of_split in H as (l1 & l2 & ->). apply size_in_list.
Qed.

Lemma split_at {A} (l : list A) (n : nat) :
  n < length l -> exists l1 x l2, l = (l1 ++ x :: l2)%list /\ length l1 = n.
Proof.
  intros H. apply lookup_lt_is_Some_2 in H as [x Hx].
  exists (take n l), x, (drop (S n) l). split.
  - symmetry. apply take_drop_middle. assumption.
  - apply length_take_le. apply lookup_lt_Some in Hx. lia.
Qed.

Lemma indexed_last_false mode index target target' :
  indexed_last mode index target = Ok (false, target') -> target' = target.
Proof.
  unfold indexed_last. destruct target; try (intros H; inversion H; reflexivity).
  destruct (index <? Py.len l)%Z; [|intros H; inversion H; reflexivity].
  destruct (String.eqb mode "remove").
  { destruct (Py.pop l index); simpl; discriminate. }
  destruct (String.eqb mode "comment"); [|discriminate].
  destruct (Py.getitem l index); simpl; [|discriminate].
  destruct (Py.setitem l index _); simpl; discriminate.
Qed.

Lemma wrap_inv {A B} (c : A -> B) (o : outcome A) b y :
  wrap c o = Ok (b, y) -> exists x, o = Ok (b, x) /\ y = c x.
Proof.
  unfold wrap. destruct o as [[b' x]|]; simpl; [|discriminate].
  intros H. inversion H; subst. eauto.
Qed.

Lemma bind_inv {A B} (r : result A) (k : A -> result B) y :
  (do x <- r ;; k x) = Ok y -> exists x, r = Ok x /\ k x = Ok y.
Proof. destruct r as [x|]; simpl; [eauto|discriminate]. Qed.

Lemma navigate_false_sized mode n :
  forall obj path obj',
    json_size obj < n ->
    navigate_and_modify mode obj path = Ok (false, obj') -> obj' = obj.
Proof.
  induction n as [|n IH]; [lia|]. intros obj path obj' Hsz H.
  destruct path as [|ck rest]; [rewrite nav_nil in H; congruence|].
  destruct (is_indexed ck) eqn:Ei.
  - destruct (parse_index ck) as [index|e] eqn:Ep;
      [|rewrite (nav_indexed_bad mode ck rest obj e Ei Ep) in H; congruence].
    destruct obj as [| | | | | l|d];
      try (rewrite nav_indexed_not_dict in H by (auto; discriminate); congruence).
    destruct rest as [|r rs].
    + rewrite (nav_indexed_last mode ck d index Ei Ep) in H.
      destruct (on_key _ _ d) as [o|] eqn:Eo; [|congruence].
      apply on_key_inv in Eo as (d1 & v & d2 & -> & Hd1 & ->).
      apply wrap_inv in H as (d' & H & ->).
      apply bind_inv in H as ([b v'] & Hv & H). simpl in H. inversion H; subst.
      apply indexed_last_false in Hv. subst. reflexivity.
    + rewrite (nav_indexed_more mode ck r rs d index Ei Ep) in H.
      destruct (on_key _ _ d) as [o|] eqn:Eo; [|congruence].
      apply on_key_inv in Eo as (d1 & v & d2 & -> & Hd1 & ->).
      apply wrap_inv in H as (d' & H & ->).
      apply bind_inv in H as ([b v'] & Hv & H). simpl in H. inversion H; subst.
      assert (v' = v); [|subst; reflexivity].
      unfold indexed_step in Hv.
      destruct v as [| | | | | l|]; try (inversion Hv; reflexivity).
      destruct (index <? Py.len l)%Z; [|inversion Hv; reflexivity].
      destruct (Py.norm_index l index) as [m|] eqn:Em; [|discriminate].
      apply PyFacts.norm_index_lt in Em.
      destruct (split_at l m Em) as (l1 & x & l2 & -> & <-).
      rewrite on_index_middle in Hv.
      apply wrap_inv in Hv as (l' & Hv & ->).
      apply bind_inv in Hv as ([b x'] & Hx & Hv). simpl in Hv. inversion Hv; subst.
      apply IH in Hx.
      * subst. reflexivity.
      * pose proof (size_in_list l1 x l2).
        pose proof (size_in_dict d1 (hd "" (Py.split "[" ck)) (JList (l1 ++ x :: l2)) d2).
        lia.
  - destruct obj as [| | | | | l|d];
      try (rewrite nav_scalar in H by (intros; discriminate); congruence).
    + rewrite (nav_list mode ck rest l Ei) in H.
      apply wrap_inv in H as (l' & H & ->).
      apply first_success_inv in H; [subst; reflexivity|].
      apply Forall_forall. intros y Hy y' Hy'. eapply IH; [|eassumption].
      apply elem_size_list in Hy. lia.
    + destruct rest as [|r rs].
      * rewrite (nav_key_last mode ck d Ei) in H.
        destruct (Dict.has ck d); congruence.
      * rewrite (nav_key_more mode ck r rs d Ei) in H.
        destruct (on_key _ _ d) as [o|] eqn:Eo; [|congruence].
        apply on_key_inv in Eo as (d1 & v & d2 & -> & Hd1 & ->).
        apply wrap_inv in H as (d' & H & ->).
        apply bind_inv in H as ([b v'] & Hv & H). simpl in H. inversion H; subst.
        apply IH in Hv; [subst; reflexivity|].
        pose proof (size_in_dict d1 ck v d2). lia.
Qed.

(** A call that reports no change made none. *)
Lemma navigate_false mode obj path obj' :
  navigate_and_modify mode obj path = Ok (false, obj') -> obj' = obj.
Proof. apply (navigate_false_sized mode (S (json_size obj))). lia. Qed.

(** *** A call that returns [True] on a path that ends in a key *)

Lemma len_middle {A} (l1 l2 : list A) (a b : A) :
  Py.len (l1 ++ a :: l2)%list = Py.len (l1 ++ b :: l2)%list.
Proof. unfold Py.len. rewrite !length_app. reflexivity. Qed.

Lemma norm_index_len {A} (l l' : list A) i :
  Py.len l = Py.len l' -> Py.norm_index l i = Py.norm_index l' i.
Proof. unfold Py.norm_index. intros ->. reflexivity. Qed.

Lemma norm_index_middle {A} (l1 l2 : list A) (a b : A) i :
  Py.norm_index (l1 ++ a :: l2)%list i = Py.norm_index (l1 ++ b :: l2)%list i.
Proof. apply norm_index_len, len_middle. Qed.

(** The mutation happens in one dictionary [d] of the document, which holds
    the key; the rest of the document, and the way to [d], do not depend on
    what [d] holds beside the key. *)
Lemma plug_cons f C j : plug (f :: C) j = plug1 f (plug C j).
Proof. reflexivity. Qed.

Lemma navigate_true_sized mode k n :
  is_indexed k = false ->
  forall obj path obj',
    json_size obj < n -> last path = Some k ->
    navigate_and_modify mode obj path = Ok (true, obj') ->
    exists C d,
      obj = plug C (JDict d) /\ Dict.has k d = true
      /\ obj' = plug C (JDict (key_op mode k d))
      /\ forall d2, Dict.has k d2 = true ->
           navigate_and_modify mode (plug C (JDict d2)) path
           = Ok (true, plug C (JDict (key_op mode k d2))).
Proof.
  intros Hk. induction n as [|n IH]; [lia|]. intros obj path obj' Hsz Hlast H.
  destruct path as [|ck rest]; [discriminate|].
  destruct (is_indexed ck) eqn:Ei.
  - destruct (parse_index ck) as [index|e] eqn:Ep;
      [|rewrite (nav_indexed_bad mode ck rest obj e Ei Ep) in H; congruence].
    destruct obj as [| | | | | l|d];
      try (rewrite nav_indexed_not_dict in H by (auto; discriminate); congruence).
    destruct rest as [|r rs]; [simpl in Hlast; congruence|].
    rewrite (nav_indexed_more mode ck r rs d index Ei Ep) in H.
    destruct (on_key _ _ d) as [o|] eqn:Eo; [|congruence].
    apply on_key_inv in Eo as (d1 & v & d2 & -> & Hd1 & ->).
    apply wrap_inv in H as (d' & H & ->).
    apply bind_inv in H as ([b v'] & Hv & H). simpl in H. inversion H; subst.
    unfold indexed_step in Hv.
    destruct v as [| | | | | l|]; try discriminate.
    destruct (index <? Py.len l)%Z eqn:El; [|discriminate].
    destruct (Py.norm_index l index) as [m|] eqn:Em; [|discriminate].
    pose proof (PyFacts.norm_index_lt _ _ _ Em) as Hm.
    destruct (split_at l m Hm) as (l1 & x & l2 & -> & <-).
    rewrite on_index_middle in Hv.
    apply wrap_inv in Hv as (l' & Hv & ->).
    apply bind_inv in Hv as ([b x'] & Hx & Hv). simpl in Hv. inversion Hv; subst.
    apply IH in Hx as (C0 & d0 & -> & Hhas & -> & Hall); [| |exact Hlast].
    + exists (InDict d1 (hd "" (Py.split "[" ck)) d2 :: InList l1 l2 :: C0), d0.
      repeat split; [assumption|]. intros dd Hdd. rewrite ?plug_cons; cbn [plug1].
      rewrite (nav_indexed_more mode ck r rs _ index Ei Ep).
      rewrite on_key_middle by assumption.
      unfold indexed_step.
      rewrite (len_middle l1 l2 _ (plug C0 (JDict d0))), El.
      rewrite (norm_index_middle l1 l2 _ (plug C0 (JDict d0))), Em.
      rewrite on_index_middle. cbv beta. rewrite (Hall dd Hdd). reflexivity.
    + pose proof (size_in_list l1 x l2).
      pose proof (size_in_dict d1 (hd "" (Py.split "[" ck)) (JList (l1 ++ x :: l2)) d2).
      lia.
  - destruct obj as [| | | | | l|d];
      try (rewrite nav_scalar in H by (intros; discriminate); congruence).
    + rewrite (nav_list mode ck rest l Ei) in H.
      apply wrap_inv in H as (l' & H & ->).
      apply first_success_inv in H.
      2:{ apply Forall_forall. intros y _ y'. apply navigate_false. }
      destruct H as (l1 & x & l2 & x' & -> & HF & Hx & ->).
      apply IH in Hx as (C0 & d0 & -> & Hhas & -> & Hall); [| |exact Hlast].
      * exists (InList l1 l2 :: C0), d0.
        repeat split; [assumption|]. intros dd Hdd. rewrite ?plug_cons; cbn [plug1].
        rewrite (nav_list mode ck rest _ Ei).
        rewrite (first_success_middle _ l1 _ l2 _ HF (Hall dd Hdd)). reflexivity.
      * pose proof (size_in_list l1 x l2). lia.
    + destruct rest as [|r rs].
      * simpl in Hlast. inversion Hlast; subst ck.
        rewrite (nav_key_last mode k d Ei) in H.
        destruct (Dict.has k d) eqn:Eh; [|congruence]. inversion H; subst.
        exists [], d. repeat split; [assumption|]. intros dd Hdd.
        change (plug [] (JDict dd)) with (JDict dd).
        rewrite (nav_key_last mode k dd Ei), Hdd. reflexivity.
      * rewrite (nav_key_more mode ck r rs d Ei) in H.
        destruct (on_key _ _ d) as [o|] eqn:Eo; [|congruence].
        apply on_key_inv in Eo as (d1 & v & d2 & -> & Hd1 & ->).
        apply wrap_inv in H as (d' & H & ->).
        apply bind_inv in H as ([b v'] & Hv & H). simpl in H. inversion H; subst.
        apply IH in Hv as (C0 & d0 & -> & Hhas & -> & Hall); [| |exact Hlast].
        -- exists (InDict d1 ck d2 :: C0), d0.
           repeat split; [assumption|]. intros dd Hdd. rewrite ?plug_cons; cbn [plug1].
           rewrite (nav_key_more mode ck r rs _ Ei).
           rewrite on_key_middle by assumption. cbv beta.
           rewrite (Hall dd Hdd). reflexivity.
        -- pose proof (size_in_dict d1 ck v d2). lia.
Qed.

Lemma navigate_true mode k obj path obj' :
  is_indexed k = false -> last path = Some k ->
  navigate_and_modify mode obj path = Ok (true, obj') ->
  exists C d,
    obj = plug C (JDict d) /\ Dict.has k d = true
    /\ obj' = plug C (JDict (key_op mode k d))
    /\ forall d2, Dict.has k d2 = true ->
         navigate_and_modify mode (plug C (JDict d2)) path
         = Ok (true, plug C (JDict (key_op mode k d2))).
Proof.
  intros Hk Hlast H.
  eapply (navigate_true_sized mode k (S (json_size obj))); eauto.
Qed.

(** *** A path that leads to a key of a mapping *)

Lemma leads_head k path C :
  leads k path C -> exists current_key rest, path = current_key :: rest.
Proof. induction 1; eauto. Qed.

Lemma index_position {A} (l1 l2 : list A) (x : A) (index : Z) :
  index = Py.len l1 \/ index = (- Py.len l2 - 1)%Z ->
  (index <? Py.len (l1 ++ x :: l2)%list)%Z = true
  /\ Py.norm_index (l1 ++ x :: l2)%list index = Some (length l1).
Proof.
  unfold Py.norm_index, Py.len. rewrite length_app. cbn [length].
  intros [-> | ->].
  - split; [apply Z.ltb_lt; lia|].
    replace (0 <=? Z.of_nat (length l1))%Z with true by (symmetry; apply Z.leb_le; lia).
    replace (Z.of_nat (length l1) <? Z.of_nat (length l1 + S (length l2)))%Z with true
      by (symmetry; apply Z.ltb_lt; lia).
    cbn [andb]. rewrite Nat2Z.id. reflexivity.
  - split; [apply Z.ltb_lt; lia|].
    replace (0 <=? - Z.of_nat (length l2) - 1)%Z with false
      by (symmetry; apply Z.leb_gt; lia).
    replace (- Z.of_nat (length l2) - 1 <? 0)%Z with true
      by (symmetry; apply Z.ltb_lt; lia).
    replace (0 <=? - Z.of_nat (length l2) - 1 + Z.of_nat (length l1 + S (length l2)))%Z
      with true by (symmetry; apply Z.leb_le; lia).
    cbn [andb]. f_equal. lia.
Qed.

(** The call finds the key, reports the change, and changes the mapping and
    nothing else. *)
Lemma navigate_leads mode k path C d :
  leads k path C -> is_indexed k = false -> Dict.has k d = true ->
  navigate_and_modify mode (plug C (JDict d)) path
  = Ok (true, plug C (JDict (key_op mode k d))).
Proof.
  intros Hl Hk Hhas.
  induction Hl as [|ck rest before after C Hck Hbefore Hl IH
                   |ck index rest before after ib ia C Hck Hi Hbefore Hpos Hl IH
                   |ck rest before after C Hck Hbefore Hl IH].
  - change (plug [] (JDict d)) with (JDict d). rewrite (nav_key_last mode k d Hk), Hhas.
    reflexivity.
  - destruct (leads_head _ _ _ Hl) as (r & rs & ->).
    rewrite !plug_cons. cbn [plug1].
    rewrite (nav_key_more mode ck r rs _ Hck), on_key_middle by assumption.
    cbv beta. rewrite IH. reflexivity.
  - destruct (leads_head _ _ _ Hl) as (r & rs & ->).
    rewrite !plug_cons. cbn [plug1].
    rewrite (nav_indexed_more mode ck r rs _ index Hck Hi), on_key_middle by assumption.
    destruct (index_position ib ia (plug C (JDict d)) index Hpos) as [Hlt Hn].
    unfold indexed_step. rewrite Hlt, Hn, on_index_middle, IH. reflexivity.
  - rewrite !plug_cons. cbn [plug1].
    rewrite (nav_list mode ck rest _ Hck).
    rewrite (first_success_middle _ before _ after _ (Forall_impl _ _ _ Hbefore
               (fun y H => H mode)) IH).
    reflexivity.
Qed.

End TreeFacts.

(** ** The field a path addresses in an EDI line *)

Module EdiLocate.
Import Py PySpec PyFacts EdiFacts EdiSpec.

Lemma norm_index_ltb {A} (l : list A) n i :
  norm_index l n = Some i -> (n <? len l)%Z = true.
Proof.
  unfold norm_index. intros H. apply Z.ltb_lt.
  destruct ((0 <=? n)%Z && (n <? len l)%Z) eqn:E1.
  - apply andb_true_iff in E1 as [_ E]. apply Z.ltb_lt in E. assumption.
  - destruct ((n <? 0)%Z && (0 <=? n + len l)%Z) eqn:E2; [|discriminate].
    apply andb_true_iff in E2 as [E _]. apply Z.ltb_lt in E. unfold len. lia.
Qed.

Lemma getitem_located {A} (l : list A) n i x :
  norm_index l n = Some i -> l !! i = Some x -> getitem l n = Ok x.
Proof. unfold getitem. intros -> ->. reflexivity. Qed.

Lemma alter_insert {A} (f : A -> A) (l : list A) i x :
  l !! i = Some x -> alter f i l = <[i := f x]> l.
Proof.
  intros H. rewrite list_insert_alter. apply list_alter_ext; [|reflexivity].
  intros y Hy. congruence.
Qed.

Lemma modify_located modification_mode (l : list string) n i :
  norm_index l n = Some i ->
  Edi.modify modification_mode l n = Ok (alter (mode_fun modification_mode) i l).
Proof.
  intros Hn. pose proof (norm_index_lt _ _ _ Hn) as Hlt.
  apply lookup_lt_is_Some_2 in Hlt as [old Hold].
  rewrite (alter_insert _ _ _ _ Hold).
  unfold Edi.modify, mode_fun.
  destruct (String.eqb modification_mode "remove").
  - unfold setitem. rewrite Hn. reflexivity.
  - destruct (String.eqb modification_mode "comment").
    + rewrite (getitem_located _ _ _ _ Hn Hold). simpl.
      unfold setitem. rewrite Hn. reflexivity.
    + rewrite list_insert_id by assumption. reflexivity.
Qed.

(** The mutated line when the path addresses a field of the line. *)
Lemma process_line_located field_path modification_mode line i j :
  locate field_path line = Some (i, j) ->
  Edi.process_line field_path modification_mode line
  = join "*" (edit_at (mode_fun modification_mode) i j (split "*" line)).
Proof.
  unfold locate, Edi.process_line. intros H.
  destruct (strip_is_empty line); [discriminate|].
  destruct (contains "~" line); [|discriminate]. simpl in H.
  destruct (startswith field_path _); [|discriminate].
  unfold Edi.try_block.
  destruct (Edi.parse_numbers _) as [[n [m|]]|]; [| |discriminate]; simpl.
  - destruct (norm_index (split "*" line) n) as [i'|] eqn:En; [|discriminate].
    destruct (split "*" line !! i') as [target|] eqn:Et; [|discriminate].
    destruct (norm_index (split ":" target) (m - 1)) as [j'|] eqn:Em; [|discriminate].
    inversion H; subst i' j.
    rewrite (norm_index_ltb _ _ _ En), (getitem_located _ _ _ _ En Et). simpl.
    rewrite subelements_of_split, (norm_index_ltb _ _ _ Em).
    rewrite (modify_located _ _ _ _ Em). simpl.
    unfold setitem. rewrite En. unfold edit_at.
    rewrite (alter_insert _ _ _ _ Et). reflexivity.
  - destruct (norm_index (split "*" line) n) as [i'|] eqn:En; [|discriminate].
    inversion H; subst i' j.
    rewrite (norm_index_ltb _ _ _ En), (modify_located _ _ _ _ En). reflexivity.
Qed.

Lemma commented_free_of c s :
  contains c "commented-" = false -> contains c s = false ->
  contains c (commented s) = false.
Proof. intros Hc H. unfold commented. rewrite contains_app, Hc, H. reflexivity. Qed.

Lemma mode_fun_free c modification_mode s :
  contains c "commented-" = false -> contains c s = false ->
  contains c (mode_fun modification_mode s) = false.
Proof.
  intros Hc H. unfold mode_fun.
  destruct (String.eqb modification_mode "remove"); [reflexivity|].
  destruct (String.eqb modification_mode "comment"); [|assumption].
  apply commented_free_of; assumption.
Qed.

(** The edited elements do not hold the element separator. *)
Lemma edit_at_free modification_mode i j elements :
  Forall (fun e => contains "*" e = false) elements ->
  Forall (fun e => contains "*" e = false)
    (edit_at (mode_fun modification_mode) i j elements).
Proof.
  intros HF. unfold edit_at. destruct j as [j|]; apply Forall_alter; try assumption.
  - intros target _ Ht. apply contains_join; [reflexivity|].
    apply Forall_alter; [apply split_preserves_free; assumption|].
    intros sub _ Hs. apply mode_fun_free; [reflexivity|assumption].
  - intros e _ He. apply mode_fun_free; [reflexivity|assumption].
Qed.

Lemma edit_at_not_nil f i j elements : elements <> [] -> edit_at f i j elements <> [].
Proof.
  intros Hne E. apply Hne. apply (f_equal length) in E.
  unfold edit_at in E. destruct j; rewrite length_alter in E;
    destruct elements; [reflexivity|discriminate|reflexivity|discriminate].
Qed.

(** The elements of the mutated line. *)
Lemma split_process_line field_path modification_mode line i j :
  locate field_path line = Some (i, j) ->
  split "*" (Edi.process_line field_path modification_mode line)
  = edit_at (mode_fun modification_mode) i j (split "*" line).
Proof.
  intros H. rewrite (process_line_located _ _ _ _ _ H).
  apply (split_join "*").
  - apply edit_at_not_nil, split_not_nil.
  - apply edit_at_free, split_free.
Qed.

(** Stripping the marker at the addressed position undoes the comment. *)
Lemma edit_at_strip_commented i j elements :
  edit_at (drop 10) i j (edit_at commented i j elements) = elements.
Proof.
  unfold edit_at. destruct j as [j|]; rewrite list_alter_alter_eq.
  - apply list_alter_id. intros target. simpl.
    rewrite (split_join ":").
    + rewrite list_alter_alter_eq, list_alter_id by reflexivity.
      apply (join_split ":").
    + intros E. apply (f_equal length) in E. rewrite length_alter in E.
      pose proof (split_not_nil ":" target). destruct (split ":" target);
        [congruence|discriminate].
    + apply Forall_alter; [apply split_free|].
      intros sub _ Hs. apply commented_free_of; [reflexivity|assumption].
  - apply list_alter_id. reflexivity.
Qed.

End EdiLocate.

(** C6, as stated, fails for a field that is an element of an array:
    CommentOut puts the string [commented-<str of the element>] in its
    place, and the number [5] and the string [5] leave the same document, so
    that stripping the marker does not give the original value back. *)
Lemma comment_out_array_element_not_recoverable :
  Tree.process_json_field_removal (JDict [("items", JList [JInt 5])]) "items[0]" "comment"
  = Ok (true, JDict [("items", JList [JStr "commented-5"])])
  /\ Tree.process_json_field_removal (JDict [("items", JList [JStr "5"])]) "items[0]"
       "comment"
     = Ok (true, JDict [("items", JList [JStr "commented-5"])]).
Proof. split; reflexivity. Qed.

(** C6, amended.  Tree-of-maps strategy, for a path that leads to the key
    [k] of a mapping [d] of the document, where [k] has the value [v]: the
    call reports a change; CommentOut puts into the place of [d] the mapping
    in which [v] stands under the key [commented-k], and stripping the
    marker from that key gives [k]; Remove puts the mapping without [k]
    there, and yields the same document whatever value [k] had.  Any change
    reported on a path that ends in a key is of this kind.  EDI strategy,
    for a line in which the field path addresses an element or sub-element:
    CommentOut puts the marker in front of the addressed value, and
    stripping it there gives the elements of the original line back; Remove
    blanks the addressed value, so two lines that agree outside it have the
    same mutated line. *)
Theorem mode_symmetry :
  (forall C path k d v,
      TreeSpec.leads k path C -> TreeSpec.is_indexed k = false ->
      Dict.get k d = Some v ->
      Tree.navigate_and_modify "comment" (TreeSpec.plug C (JDict d)) path
      = Ok (true, TreeSpec.plug C (JDict (Dict.comment_key k d)))
      /\ Dict.get (commented k) (Dict.comment_key k d) = Some v
      /\ Py.drop 10 (commented k) = k)
  /\ (forall C path k d v,
      TreeSpec.leads k path C -> TreeSpec.is_indexed k = false ->
      Dict.get k d = Some v ->
      Tree.navigate_and_modify "remove" (TreeSpec.plug C (JDict d)) path
      = Ok (true, TreeSpec.plug C (JDict (Dict.del k d)))
      /\ forall v',
           Tree.navigate_and_modify "remove"
             (TreeSpec.plug C (JDict (Dict.set k v' d))) path
           = Ok (true, TreeSpec.plug C (JDict (Dict.del k d))))
  /\ (forall mode obj path k obj',
      TreeSpec.is_indexed k = false -> last path = Some k ->
      Tree.navigate_and_modify mode obj path = Ok (true, obj') ->
      exists C d v,
        obj = TreeSpec.plug C (JDict d) /\ Dict.get k d = Some v
        /\ obj' = TreeSpec.plug C (JDict (TreeSpec.key_op mode k d)))
  /\ (forall field_path line i j,
      EdiSpec.locate field_path line = Some (i, j) ->
      Py.split "*" (Edi.process_line field_path "comment" line)
      = EdiSpec.edit_at commented i j (Py.split "*" line)
      /\ EdiSpec.edit_at (Py.drop 10) i j
           (Py.split "*" (Edi.process_line field_path "comment" line))
         = Py.split "*" line)
  /\ (forall field_path line i j,
      EdiSpec.locate field_path line = Some (i, j) ->
      Py.split "*" (Edi.process_line field_path "remove" line)
      = EdiSpec.edit_at (fun _ => "") i j (Py.split "*" line)
      /\ forall line2,
           EdiSpec.locate field_path line2 = Some (i, j) ->
           EdiSpec.edit_at (fun _ => "") i j (Py.split "*" line2)
           = EdiSpec.edit_at (fun _ => "") i j (Py.split "*" line) ->
           Edi.process_line field_path "remove" line2
           = Edi.process_line field_path "remove" line).
Proof.
  split; [|split; [|split; [|split]]].
  - intros C path k d v Hl Hk Hv.
    assert (Hhas : Dict.has k d = true) by (unfold Dict.has; rewrite Hv; reflexivity).
    rewrite (TreeFacts.navigate_leads "comment" k path C d Hl Hk Hhas).
    split; [reflexivity|].
    split; [apply DictFacts.get_comment_key; assumption|reflexivity].
  - intros C path k d v Hl Hk Hv.
    assert (Hhas : Dict.has k d = true) by (unfold Dict.has; rewrite Hv; reflexivity).
    rewrite (TreeFacts.navigate_leads "remove" k path C d Hl Hk Hhas).
    split; [reflexivity|]. intros v'.
    rewrite (TreeFacts.navigate_leads "remove" k path C _ Hl Hk (DictFacts.has_set k v' d)).
    unfold TreeSpec.key_op. simpl. rewrite DictFacts.del_set. reflexivity.
  - intros mode obj path k obj' Hk Hlast H.
    destruct (TreeFacts.navigate_true mode k obj path obj' Hk Hlast H)
      as (C & d & -> & Hhas & -> & _).
    apply DictFacts.has_get in Hhas as [v Hv].
    exists C, d, v. auto.
  - intros field_path line i j H.
    rewrite (EdiLocate.split_process_line _ "comment" _ _ _ H).
    change (EdiSpec.mode_fun "comment") with commented.
    split; [reflexivity|apply EdiLocate.edit_at_strip_commented].
  - intros field_path line i j H.
    rewrite (EdiLocate.split_process_line _ "remove" _ _ _ H).
    change (EdiSpec.mode_fun "remove") with (fun _ : string => "").
    split; [reflexivity|]. intros line2 H2 E.
    rewrite (EdiLocate.process_line_located _ "remove" _ _ _ H).
    rewrite (EdiLocate.process_line_located _ "remove" _ _ _ H2).
    change (EdiSpec.mode_fun "remove") with (fun _ : string => "").
    rewrite E. reflexivity.
Qed.

Lemma mode_symmetry_witness :
  (Tree.navigate_and_modify "comment"
     (TreeSpec.plug
        [TreeSpec.InDict [] "order" []; TreeSpec.InDict [] "items" [];
         TreeSpec.InList [] []]
        (JDict [("sku", JStr "X1"); ("qty", JStr "2")]))
     ["order"; "items[0]"; "sku"]
   = Ok (true,
         TreeSpec.plug
           [TreeSpec.InDict [] "order" []; TreeSpec.InDict [] "items" [];
            TreeSpec.InList [] []]
           (JDict (Dict.comment_key "sku" [("sku", JStr "X1"); ("qty", JStr "2")])))
   /\ Dict.get (commented "sku")
        (Dict.comment_key "sku" [("sku", JStr "X1"); ("qty", JStr "2")])
      = Some (JStr "X1")
   /\ Py.drop 10 (commented "sku") = "sku")
  /\ (Py.split "*" (Edi.process_line "ISA06" "remove" "ISA*00*  *00*  *ZZ*SENDER*ZZ~")
      = EdiSpec.edit_at (fun _ => "") 6 None (Py.split "*" "ISA*00*  *00*  *ZZ*SENDER*ZZ~")
      /\ forall line2,
           EdiSpec.locate "ISA06" line2 = Some (6, None) ->
           EdiSpec.edit_at (fun _ => "") 6 None (Py.split "*" line2)
           = EdiSpec.edit_at (fun _ => "") 6 None
               (Py.split "*" "ISA*00*  *00*  *ZZ*SENDER*ZZ~") ->
           Edi.process_line "ISA06" "remove" line2
           = Edi.process_line "ISA06" "remove" "ISA*00*  *00*  *ZZ*SENDER*ZZ~").
Proof.
  split.
  - apply (proj1 mode_symmetry
             [TreeSpec.InDict [] "order" []; TreeSpec.InDict [] "items" [];
              TreeSpec.InList [] []]
             ["order"; "items[0]"; "sku"] "sku"
             [("sku", JStr "X1"); ("qty", JStr "2")] (JStr "X1")).
    + apply TreeSpec.leads_dict; [reflexivity|reflexivity|].
      apply (TreeSpec.leads_index "sku" "items[0]" 0 ["sku"] [] [] [] [] []);
        [reflexivity|reflexivity|reflexivity|left; reflexivity|apply TreeSpec.leads_here].
    + reflexivity.
    + reflexivity.
  - apply (proj2 (proj2 (proj2 (proj2 mode_symmetry))) "ISA06"
             "ISA*00*  *00*  *ZZ*SENDER*ZZ~").
    reflexivity.
Defined.


(** ** The unified generator *)

Module GeneratorFacts.
Import Generator GeneratorSpec.

Lemma find_fields_elements items target fields :
  find_fields_by_occurrence_items items target = Ok fields ->
  map element fields = map fst (select (selects target) items).
Proof.
  revert fields. induction items as [|[name attrs] rest IH]; intros fields H.
  - inversion H. reflexivity.
  - simpl in H. cbn [select]. unfold selects at 1. cbn [fst snd].
    destruct (String.eqb name "format") eqn:En; cbn [negb andb].
    + apply IH. assumption.
    + destruct attrs as [| | | | | |attrs]; try discriminate.
      destruct (find_fields_by_occurrence_items rest target) as [fs|]; [|discriminate].
      simpl in H.
      destruct (get_default "Source Occurs" attrs) as [| | | |s| |];
        try (inversion H; subst; apply IH; reflexivity).
      destruct (String.eqb s target).
      * inversion H; subst. simpl. f_equal. apply IH. reflexivity.
      * inversion H; subst. apply IH. reflexivity.
Qed.

(** The run goes through when every entry, [format] apart, is a mapping. *)
Lemma find_fields_total items target :
  Forall (fun item => String.eqb (fst item) "format" = true
                      \/ exists attrs, snd item = JDict attrs) items ->
  exists fields, find_fields_by_occurrence_items items target = Ok fields.
Proof.
  induction 1 as [|[name attrs] rest Hitem _ IH]; simpl; [eauto|].
  destruct IH as [fs IH].
  destruct (String.eqb name "format") eqn:En; [eauto|].
  destruct Hitem as [Hf|[a Ha]]; [simpl in Hf; congruence|].
  simpl in Ha. subst attrs. rewrite IH. simpl.
  destruct (get_default "Source Occurs" a); eauto.
  destruct (String.eqb s target); eauto.
Qed.

End GeneratorFacts.

(** C2, the unified generator on a sample that does not hold the field: the
    EDI-X12 sample has no [REF] segment, the strategy returns it unchanged,
    and the generator still writes a fixture for [REF02], whose content is
    the sample itself. *)
Theorem generator_writes_unchanged_sample
  (ET : ElementTree) (json_loads : string -> result json) (json_dumps : json -> string) :
  Edi.process_edi_field_removal "ISA*00*SENDER~" "REF02" "remove" = "ISA*00*SENDER~"
  /\ Generator.generate_test_files ET json_loads json_dumps
       {| max_file := "sampleMax.edi"; modification_mode := Some "remove";
          output_prefix := None |}
       (JDict [("REF02", JDict [("Source Occurs", JStr "1...1")])])
       "ISA*00*SENDER~" required
     = Ok [("MISS-REQUIRED_REF02_001.edi", "ISA*00*SENDER~")].
Proof. split; reflexivity. Qed.

(** In the JSON family the unified generator does skip the field: a call
    that reports no change gives no content to write. *)
Lemma generator_json_skips_absent_field
  (ET : ElementTree) (json_loads : string -> result json) (json_dumps : json -> string)
  modification_mode max_content f data p data' :
  json_loads max_content = Ok data ->
  Generator.json_field_path f = Ok (JStr p) ->
  Tree.process_json_field_removal data p modification_mode = Ok (false, data') ->
  Generator.modified_content ET json_loads json_dumps "JSON" modification_mode
    max_content f = Ok None.
Proof.
  intros Hl Hp Hr. unfold Generator.modified_content. simpl.
  rewrite Hl, Hp. simpl.
  destruct (Py.is_empty p) eqn:Ep; simpl; [reflexivity|].
  rewrite Hr. reflexivity.
Qed.

(** C9, the tree-of-maps strategy on a negative index: [items[-1]] passes
    the bounds test [len(...) > index] on the empty list, and the removal
    raises [IndexError] out of the strategy. *)
Theorem json_strategy_raises_on_negative_index :
  Tree.process_json_field_removal (JDict [("items", JList [])]) "items[-1]" "remove"
  = Raise IndexError
  /\ Tree.process_json_field_removal (JDict [("items", JList [JStr "a"])]) "items[-2]" "comment"
     = Raise IndexError.
Proof. split; reflexivity. Qed.

(** What does hold of C9.  An XML document that fails to parse is returned
    unchanged. *)
Lemma xml_parse_failure_unchanged (ET : ElementTree) xml_content field_path mode :
  fromstring ET xml_content = Raise ParseError ->
  Xml.process_xml_field_removal ET xml_content field_path mode = Ok xml_content.
Proof.
  intros H. unfold Xml.process_xml_field_removal, Xml.try_block. rewrite H. reflexivity.
Qed.

(** A field path whose numbers do not parse leaves an EDI line as it is. *)
Lemma edi_malformed_number_unchanged field_path mode line e :
  Edi.parse_numbers
    (Edi.field_part_of field_path (Edi.segment_id_of (Py.split "*" line))) = Raise e ->
  Edi.process_line field_path mode line = line.
Proof.
  intros H. unfold Edi.process_line, Edi.try_block. rewrite H. simpl.
  destruct (Py.strip_is_empty line); [reflexivity|].
  destruct (Py.contains "~" line); [|reflexivity].
  destruct (Py.startswith _ _); reflexivity.
Qed.

(** An element number at or beyond the number of elements leaves an EDI line
    as it is. *)
Lemma edi_index_out_of_range_unchanged field_path mode line n sub :
  Edi.parse_numbers
    (Edi.field_part_of field_path (Edi.segment_id_of (Py.split "*" line))) = Ok (n, sub) ->
  (Py.len (Py.split "*" line) <= n)%Z ->
  Edi.process_line field_path mode line = line.
Proof.
  intros H Hn. unfold Edi.process_line, Edi.try_block. rewrite H. simpl.
  replace ((n <? Py.len (Py.split "*" line))%Z) with false
    by (symmetry; apply Z.ltb_ge; assumption).
  destruct (Py.strip_is_empty line); [reflexivity|].
  destruct (Py.contains "~" line); [|reflexivity].
  destruct (Py.startswith _ _); [|reflexivity].
  apply (PyFacts.join_split "*").
Qed.

(** ** The object store: copies are disjoint from their source *)

Module HeapFacts.
Import Heap HeapSpec.

Lemma length_shift_heap k g : length (shift_heap k g) = length g.
Proof. apply length_map. Qed.

Lemma shift_heap_app k g1 g2 :
  shift_heap k (g1 ++ g2)%list = (shift_heap k g1 ++ shift_heap k g2)%list.
Proof. apply map_app. Qed.

(** *** Building *)

Lemma build_list_shift l :
  Forall shifted_build l ->
  forall k base,
    build_list build l (k + base)
    = (shift_heap k (fst (build_list build l base)),
       map (shift_val k) (snd (build_list build l base))).
Proof.
  induction 1 as [|j t Hj _ IH]; intros k base; simpl; [reflexivity|].
  rewrite (Hj k base). cbn [fst snd].
  rewrite length_shift_heap, <- Nat.add_assoc, IH. cbn [fst snd].
  rewrite shift_heap_app. reflexivity.
Qed.

Lemma build_items_shift d :
  Forall (fun kv => shifted_build (snd kv)) d ->
  forall k base,
    build_items build d (k + base)
    = (shift_heap k (fst (build_items build d base)),
       map (fun kv => (fst kv, shift_val k (snd kv))) (snd (build_items build d base))).
Proof.
  induction 1 as [|[key j] t Hj _ IH]; intros k base; simpl; [reflexivity|].
  simpl in Hj. rewrite (Hj k base). cbn [fst snd].
  rewrite length_shift_heap, <- Nat.add_assoc, IH. cbn [fst snd].
  rewrite shift_heap_app. reflexivity.
Qed.

Lemma json_rect_sized (P : json -> Prop) :
  (forall j, (forall x, TreeSpec.json_size x < TreeSpec.json_size j -> P x) -> P j) ->
  forall j, P j.
Proof.
  intros H j. remember (S (TreeSpec.json_size j)) as n eqn:En.
  assert (Hlt : TreeSpec.json_size j < n) by lia. clear En.
  revert j Hlt. induction n as [|n IH]; intros j Hlt; [lia|].
  apply H. intros x Hx. apply IH. lia.
Qed.

Lemma elem_size_dict (kv : string * json) d :
  kv ∈ d -> TreeSpec.json_size (snd kv) < TreeSpec.json_size (JDict d).
Proof.
  intros H. apply list_elem_of_split in H as (d1 & d2 & ->).
  destruct kv as [k v]. apply TreeFacts.size_in_dict.
Qed.

(** Building at a higher base gives the same block, moved. *)
Lemma build_shift j : shifted_build j.
Proof.
  induction j as [j IH] using json_rect_sized.
  intros k base. destruct j as [| | | | | l|d]; try reflexivity.
  - simpl. rewrite build_list_shift.
    + cbn [fst snd]. rewrite length_shift_heap, shift_heap_app, Nat.add_assoc.
      reflexivity.
    + apply Forall_forall. intros x Hx. apply IH. apply TreeFacts.elem_size_list.
      assumption.
  - simpl. rewrite build_items_shift.
    + cbn [fst snd]. rewrite length_shift_heap, shift_heap_app, Nat.add_assoc.
      reflexivity.
    + apply Forall_forall. intros kv Hkv. apply IH. apply elem_size_dict.
      assumption.
Qed.

(** A copy made in the store [h] is the copy made in the empty store, moved
    behind [h]. *)
Lemma alloc_shift j h :
  alloc j h
  = ((h ++ shift_heap (length h) (fst (build j 0)))%list,
     shift_val (length h) (snd (build j 0))).
Proof.
  unfold alloc. rewrite <- (Nat.add_0_r (length h)) at 1 2.
  rewrite build_shift. reflexivity.
Qed.

(** *** Reading *)

Lemma read_list_ext (f g : hval -> result json) vs :
  Forall (fun v => f v = g v) vs -> read_list f vs = read_list g vs.
Proof.
  induction 1 as [|v t Hv _ IH]; simpl; [reflexivity|]. rewrite Hv, IH. reflexivity.
Qed.

Lemma read_items_ext (f g : hval -> result json) d :
  Forall (fun kv => f (snd kv) = g (snd kv)) d -> read_items f d = read_items g d.
Proof.
  induction 1 as [|[k v] t Hv _ IH]; simpl; [reflexivity|].
  simpl in Hv. rewrite Hv, IH. reflexivity.
Qed.

Lemma read_list_map (f : hval -> result json) (s : hval -> hval) vs :
  read_list f (map s vs) = read_list (fun v => f (s v)) vs.
Proof.
  induction vs as [|v t IH]; simpl; [reflexivity|]. rewrite IH. reflexivity.
Qed.

Lemma read_items_map (f : hval -> result json) (s : hval -> hval) d :
  read_items f (map (fun kv => (fst kv, s (snd kv))) d)
  = read_items (fun v => f (s v)) d.
Proof.
  induction d as [|[k v] t IH]; simpl; [reflexivity|]. rewrite IH. reflexivity.
Qed.

Lemma lookup_shifted (h g : heap) l :
  (h ++ shift_heap (length h) g)%list !! (length h + l)
  = shift_obj (length h) <$> g !! l.
Proof.
  rewrite lookup_app_r by lia.
  replace (length h + l - length h) with l by lia.
  unfold shift_heap. apply list_lookup_fmap.
Qed.

(** Reading a moved value in a moved block gives what reading the value in
    the block gives. *)
Lemma read_shift n h g v :
  read n (h ++ shift_heap (length h) g)%list (shift_val (length h) v) = read n g v.
Proof.
  revert v. induction n as [|n IH]; intros v; destruct v; try reflexivity.
  cbn [read shift_val]. rewrite lookup_shifted.
  destruct (g !! l) as [[vs|d]|]; cbn [fmap option_fmap option_map shift_obj];
    [| |reflexivity].
  - rewrite read_list_map. f_equal. apply read_list_ext.
    apply Forall_forall. intros v _. apply IH.
  - rewrite read_items_map. f_equal. apply read_items_ext.
    apply Forall_forall. intros kv _. apply IH.
Qed.

Lemma read_list_mono (f g : hval -> result json) vs js :
  (forall v j, f v = Ok j -> g v = Ok j) ->
  read_list f vs = Ok js -> read_list g vs = Ok js.
Proof.
  intros Hfg. revert js. induction vs as [|v t IH]; simpl; intros js H; [assumption|].
  destruct (f v) as [j|] eqn:Ev; [|discriminate]. simpl in H.
  destruct (read_list f t) as [js'|] eqn:Et; [|discriminate].
  rewrite (Hfg _ _ Ev), (IH _ eq_refl). assumption.
Qed.

Lemma read_items_mono (f g : hval -> result json) d js :
  (forall v j, f v = Ok j -> g v = Ok j) ->
  read_items f d = Ok js -> read_items g d = Ok js.
Proof.
  intros Hfg. revert js. induction d as [|[k v] t IH]; simpl; intros js H; [assumption|].
  destruct (f v) as [j|] eqn:Ev; [|discriminate]. simpl in H.
  destruct (read_items f t) as [js'|] eqn:Et; [|discriminate].
  rewrite (Hfg _ _ Ev), (IH _ eq_refl). assumption.
Qed.

Lemma rmap_inv {A B} (c : A -> B) (r : result A) y :
  c <$$> r = Ok y -> exists x, r = Ok x /\ y = c x.
Proof. destruct r as [x|]; simpl; [|discriminate]. intros H. inversion H. eauto. Qed.

(** More fuel and more objects do not change what is read. *)
Lemma read_mono n m h x v j :
  n <= m -> read n h v = Ok j -> read m (h ++ x)%list v = Ok j.
Proof.
  revert m v j. induction n as [|n IH]; intros m v j Hle H.
  - destruct v; try discriminate; destruct m; assumption.
  - destruct v; try (destruct m; assumption).
    destruct m as [|m]; [lia|]. simpl in *.
    destruct (h !! l) as [o|] eqn:El; [|discriminate].
    rewrite (lookup_app_l_Some _ _ _ _ El).
    destruct o as [vs|d].
    + apply rmap_inv in H as (js & H & ->).
      rewrite (read_list_mono _ (read m (h ++ x)%list) _ _ (fun v j => IH m v j ltac:(lia)) H).
      reflexivity.
    + apply rmap_inv in H as (js & H & ->).
      rewrite (read_items_mono _ (read m (h ++ x)%list) _ _ (fun v j => IH m v j ltac:(lia)) H).
      reflexivity.
Qed.

Lemma read_fuel n m h v j : n <= m -> read n h v = Ok j -> read m h v = Ok j.
Proof.
  intros Hle H. rewrite <- (app_nil_r h). eapply read_mono; eassumption.
Qed.

(** *** Reading what was built *)

Lemma build_list_read l :
  Forall reads_back l ->
  forall (a x : heap) n,
    length (fst (build_list build l (length a))) <= n ->
    read_list (read n (a ++ fst (build_list build l (length a)) ++ x)%list)
      (snd (build_list build l (length a)))
    = Ok l.
Proof.
  induction 1 as [|j t Hj _ IH]; intros a x n Hn; [reflexivity|].
  cbn [build_list fst snd] in *. rewrite length_app in Hn.
  set (B1 := fst (build j (length a))) in *.
  cbn [read_list].
  replace (a ++ (B1 ++ fst (build_list build t (length a + length B1))) ++ x)%list
    with ((a ++ B1) ++ (fst (build_list build t (length a + length B1)) ++ x))%list
    by (rewrite <- !app_assoc; reflexivity).
  assert (HB1 : length B1 <= n) by lia.
  rewrite (read_mono n n (a ++ B1)%list _ _ j (le_n n) (Hj a n HB1)).
  cbn [rbind].
  rewrite <- (length_app a B1).
  rewrite (IH (a ++ B1)%list x n) by (rewrite length_app; lia).
  reflexivity.
Qed.

Lemma build_items_read d :
  Forall (fun kv => reads_back (snd kv)) d ->
  forall (a x : heap) n,
    length (fst (build_items build d (length a))) <= n ->
    read_items (read n (a ++ fst (build_items build d (length a)) ++ x)%list)
      (snd (build_items build d (length a)))
    = Ok d.
Proof.
  induction 1 as [|[k j] t Hj _ IH]; intros a x n Hn; [reflexivity|].
  cbn [build_items fst snd] in *. rewrite length_app in Hn.
  set (B1 := fst (build j (length a))) in *.
  cbn [read_items].
  replace (a ++ (B1 ++ fst (build_items build t (length a + length B1))) ++ x)%list
    with ((a ++ B1) ++ (fst (build_items build t (length a + length B1)) ++ x))%list
    by (rewrite <- !app_assoc; reflexivity).
  assert (HB1 : length B1 <= n) by lia.
  rewrite (read_mono n n (a ++ B1)%list _ _ j (le_n n) (Hj a n HB1)).
  cbn [rbind].
  rewrite <- (length_app a B1).
  rewrite (IH (a ++ B1)%list x n) by (rewrite length_app; lia).
  reflexivity.
Qed.

(** Reading a freshly built value gives the JSON value it was built from. *)
Lemma read_build j : reads_back j.
Proof.
  induction j as [j IH] using json_rect_sized.
  intros a n Hn. destruct j as [| | | | | l|d]; try (destruct n; reflexivity).
  - cbn [build fst snd] in *. rewrite length_app in Hn. simpl in Hn.
    destruct n as [|n]; [lia|]. cbn [read].
    rewrite app_assoc, <- length_app, list_lookup_middle by reflexivity.
    rewrite <- app_assoc, build_list_read; [reflexivity| |lia].
    apply Forall_forall. intros x Hx. apply IH, TreeFacts.elem_size_list. assumption.
  - cbn [build fst snd] in *. rewrite length_app in Hn. simpl in Hn.
    destruct n as [|n]; [lia|]. cbn [read].
    rewrite app_assoc, <- length_app, list_lookup_middle by reflexivity.
    rewrite <- app_assoc, build_items_read; [reflexivity| |lia].
    apply Forall_forall. intros kv Hkv. apply IH, elem_size_dict. assumption.
Qed.

(** [json.dumps] of what [json.loads] made gives the value loaded. *)
Lemma dumps_alloc j h : dumps (fst (alloc j h)) (snd (alloc j h)) = Ok j.
Proof.
  unfold dumps, alloc. cbn [fst snd]. apply read_build. rewrite length_app. lia.
Qed.

(** *** Stores that differ by updates of dictionaries *)

Lemma read_list_ok (f : hval -> result json) vs :
  (exists js, read_list f vs = Ok js) <-> Forall (fun v => exists j, f v = Ok j) vs.
Proof.
  induction vs as [|v t IH]; simpl.
  - split; [constructor|eauto].
  - split.
    + intros [js H]. destruct (f v) as [j|] eqn:Ev; [|discriminate]. simpl in H.
      destruct (read_list f t) as [js'|] eqn:Et; [|discriminate].
      constructor; [eauto|]. apply IH. eauto.
    + intros H. inversion H as [|? ? [j Hj] Ht]; subst.
      apply IH in Ht as [js Hjs]. rewrite Hj, Hjs. simpl. eauto.
Qed.

Lemma read_items_ok (f : hval -> result json) d :
  (exists js, read_items f d = Ok js)
  <-> Forall (fun v => exists j, f v = Ok j) (map snd d).
Proof.
  induction d as [|[k v] t IH]; simpl.
  - split; [constructor|eauto].
  - split.
    + intros [js H]. destruct (f v) as [j|] eqn:Ev; [|discriminate]. simpl in H.
      destruct (read_items f t) as [js'|] eqn:Et; [|discriminate].
      constructor; [eauto|]. apply IH. eauto.
    + intros H. inversion H as [|? ? [j Hj] Ht]; subst.
      apply IH in Ht as [js Hjs]. rewrite Hj, Hjs. simpl. eauto.
Qed.

Lemma rmap_ok {A B} (c : A -> B) (r : result A) :
  (exists y, c <$$> r = Ok y) <-> (exists x, r = Ok x).
Proof.
  destruct r as [x|]; simpl; split; intros [y H]; eauto; discriminate.
Qed.

(** The values of an object that can be read can be read. *)
Lemma readable_ref n h l :
  readable (S n) h (HRef l) <->
  exists o, h !! l = Some o
    /\ Forall (readable n h)
         (match o with HList vs => vs | HDict d => map snd d end).
Proof.
  unfold readable. cbn [read]. destruct (h !! l) as [[vs|d]|].
  - rewrite rmap_ok, read_list_ok. split; [eauto|].
    intros (o & Ho & H). inversion Ho; subst. assumption.
  - rewrite rmap_ok, read_items_ok. split; [eauto|].
    intros (o & Ho & H). inversion Ho; subst. assumption.
  - split; [intros [j H]; discriminate|intros (o & Ho & _); discriminate].
Qed.

Lemma readable_scalar n h v : (forall l, v <> HRef l) -> readable n h v.
Proof.
  intros H. unfold readable.
  destruct v; try (destruct n; simpl; eauto; fail).
  exfalso. eapply H. reflexivity.
Qed.

(** What could be read before an update can be read after it. *)
Lemma read_upd h h' :
  upd h h' -> forall n w, readable n h w -> readable n h' w.
Proof.
  intros [h0 l d d' Hl Hsub]. induction n as [|n IH]; intros w Hw.
  - destruct w; try (apply readable_scalar; intros; discriminate).
    destruct Hw as [j Hj]. discriminate.
  - destruct w; try (apply readable_scalar; intros; discriminate).
    apply readable_ref in Hw as (o & Ho & Hvs). apply readable_ref.
    destruct (decide (l = l0)) as [->|Hne].
    + exists (HDict d').
      rewrite list_lookup_insert_eq by (eapply lookup_lt_Some; eassumption).
      split; [reflexivity|].
      rewrite Hl in Ho. inversion Ho; subst o.
      apply Forall_forall. intros v Hv. apply IH.
      rewrite Forall_forall in Hvs. apply Hvs, Hsub. assumption.
    + exists o. rewrite list_lookup_insert_ne by assumption.
      split; [assumption|]. eapply Forall_impl; [eassumption|]. apply IH.
Qed.

Lemma upd_length h h' : upd h h' -> length h' = length h.
Proof. intros [h0 l d d' _ _]. apply length_insert. Qed.

(** *** Dictionary operations and moved values *)

Section DictMap.
Context {A B : Type}.
Variable s : A -> B.

Let on_values (d : list (string * A)) : list (string * B) :=
  map (fun kv => (fst kv, s (snd kv))) d.

Lemma get_on_values k d : Dict.get k (on_values d) = s <$> Dict.get k d.
Proof.
  induction d as [|[k' v] t IH]; simpl; [reflexivity|].
  destruct (String.eqb k k'); [reflexivity|assumption].
Qed.

Lemma has_on_values k d : Dict.has k (on_values d) = Dict.has k d.
Proof. unfold Dict.has. rewrite get_on_values. destruct (Dict.get k d); reflexivity. Qed.

Lemma del_on_values k d : Dict.del k (on_values d) = on_values (Dict.del k d).
Proof.
  induction d as [|[k' v] t IH]; simpl; [reflexivity|].
  destruct (String.eqb k k'); [reflexivity|]. simpl. rewrite IH. reflexivity.
Qed.

Lemma set_on_values k v d : Dict.set k (s v) (on_values d) = on_values (Dict.set k v d).
Proof.
  induction d as [|[k' v'] t IH]; simpl; [reflexivity|].
  destruct (String.eqb k k'); [reflexivity|]. simpl. rewrite IH. reflexivity.
Qed.

Lemma comment_key_on_values k d :
  Dict.comment_key k (on_values d) = on_values (Dict.comment_key k d).
Proof.
  unfold Dict.comment_key. rewrite get_on_values.
  destruct (Dict.get k d) as [v|]; simpl; [|reflexivity].
  rewrite del_on_values, set_on_values. reflexivity.
Qed.

Lemma values_on_values d : map snd (on_values d) = map s (map snd d).
Proof. unfold on_values. rewrite !map_map. reflexivity. Qed.

End DictMap.

Lemma values_del {A} k (d : list (string * A)) v :
  v ∈ map snd (Dict.del k d) -> v ∈ map snd d.
Proof.
  induction d as [|[k' v'] t IH]; simpl; [auto|].
  destruct (String.eqb k k').
  - intros H. apply list_elem_of_further. assumption.
  - simpl. intros H. apply elem_of_cons in H as [->|H].
    + apply list_elem_of_here.
    + apply list_elem_of_further, IH. assumption.
Qed.

Lemma values_set {A} k (x : A) (d : list (string * A)) v :
  v ∈ map snd (Dict.set k x d) -> v = x \/ v ∈ map snd d.
Proof.
  induction d as [|[k' v'] t IH]; simpl.
  - intros H. apply elem_of_cons in H as [->|H]; [auto|]. right. assumption.
  - destruct (String.eqb k k'); simpl; intros H; apply elem_of_cons in H as [->|H]; auto.
    + right. apply list_elem_of_further. assumption.
    + right. apply list_elem_of_here.
    + destruct (IH H) as [->|H']; [auto|]. right. apply list_elem_of_further. assumption.
Qed.

Lemma values_get {A} k (d : list (string * A)) v :
  Dict.get k d = Some v -> v ∈ map snd d.
Proof.
  induction d as [|[k' v'] t IH]; simpl; [discriminate|].
  destruct (String.eqb k k').
  - intros H. inversion H. apply list_elem_of_here.
  - intros H. apply list_elem_of_further, IH. assumption.
Qed.

Lemma values_comment_key {A} k (d : list (string * A)) v :
  v ∈ map snd (Dict.comment_key k d) -> v ∈ map snd d.
Proof.
  unfold Dict.comment_key. destruct (Dict.get k d) as [x|] eqn:E; [|auto].
  intros H. apply values_set in H as [->|H].
  - eapply values_get. eassumption.
  - eapply values_del. eassumption.
Qed.

Lemma insert_shifted (h g : heap) l o :
  <[length h + l := shift_obj (length h) o]> (h ++ shift_heap (length h) g)%list
  = (h ++ shift_heap (length h) (<[l := o]> g))%list.
Proof.
  rewrite insert_app_r. unfold shift_heap. rewrite list_fmap_insert. reflexivity.
Qed.

End HeapFacts.

(** ** [Required.py]: the mutator on a copy *)

Module RequiredFacts.
Import Heap HeapSpec HeapFacts Required RequiredSpec.

Lemma first_true_shift (h : heap) rec rec' :
  (forall g v, rec' (h ++ shift_heap (length h) g)%list (shift_val (length h) v)
               = lift h (rec g v)) ->
  forall vs g,
    first_true rec' (map (shift_val (length h)) vs) (h ++ shift_heap (length h) g)%list
    = lift h (first_true rec vs g).
Proof.
  intros Hrec. induction vs as [|v t IH]; intros g; simpl; [reflexivity|].
  rewrite Hrec. destruct (rec g v) as [[[g1 b] evs]|]; simpl; [|reflexivity].
  destruct b; [reflexivity|]. rewrite IH.
  destruct (first_true rec t g1) as [[[g2 b'] evs']|]; reflexivity.
Qed.

(** The mutator run on a moved block behind [h] does to the block what it
    does to the block alone, and does not touch [h]. *)
Lemma find_shift key mode n (h : heap) :
  forall g v,
    find_and_modify_keys n key mode (h ++ shift_heap (length h) g)%list
      (shift_val (length h) v)
    = lift h (find_and_modify_keys n key mode g v).
Proof.
  induction n as [|n IH]; intros g v; destruct v; try reflexivity.
  cbn [find_and_modify_keys shift_val]. rewrite lookup_shifted.
  destruct (g !! l) as [[vs|d]|]; cbn [fmap option_fmap option_map shift_obj];
    [| |reflexivity].
  - apply first_true_shift. assumption.
  - rewrite has_on_values. destruct (Dict.has key d).
    + destruct (String.eqb mode "remove").
      { rewrite del_on_values. cbn [lift].
        rewrite <- (insert_shifted h g l (HDict (Dict.del key d))). reflexivity. }
      destruct (String.eqb mode "comment"); [|reflexivity].
      rewrite comment_key_on_values. cbn [lift].
      rewrite <- (insert_shifted h g l (HDict (Dict.comment_key key d))). reflexivity.
    + rewrite values_on_values. apply first_true_shift. assumption.
Qed.

Lemma first_true_mono rec rec' :
  (forall h v r, rec h v = Ok r -> rec' h v = Ok r) ->
  forall vs h r, first_true rec vs h = Ok r -> first_true rec' vs h = Ok r.
Proof.
  intros Hrec. induction vs as [|v t IH]; intros h r H; simpl in *; [assumption|].
  destruct (rec h v) as [[[h1 b] evs]|] eqn:Ev; [|discriminate].
  rewrite (Hrec _ _ _ Ev). simpl in *. destruct b; [assumption|].
  destruct (first_true rec t h1) as [r'|] eqn:Et; [|discriminate].
  rewrite (IH _ _ Et). assumption.
Qed.

(** More fuel does not change a result. *)
Lemma find_fuel key mode n m :
  n <= m -> forall h v r,
    find_and_modify_keys n key mode h v = Ok r ->
    find_and_modify_keys m key mode h v = Ok r.
Proof.
  revert m. induction n as [|n IH]; intros m Hle h v r H.
  - destruct v; try discriminate; destruct m; assumption.
  - destruct v; try (destruct m; assumption).
    destruct m as [|m]; [lia|]. cbn [find_and_modify_keys] in *.
    destruct (h !! l) as [[vs|d]|]; [| |discriminate].
    + eapply first_true_mono; [|eassumption]. apply IH. lia.
    + destruct (Dict.has key d); [assumption|].
      eapply first_true_mono; [|eassumption]. apply IH. lia.
Qed.

Lemma first_true_ok n rec :
  runs_well n rec ->
  forall vs h,
    Forall (readable n h) vs ->
    exists h' b evs,
      first_true rec vs h = Ok (h', b, evs) /\ (h' = h \/ upd h h')
      /\ (b = false -> h' = h).
Proof.
  intros Hrec. induction vs as [|v t IH]; intros h HF; simpl.
  - exists h, false, []. auto.
  - inversion HF as [|? ? Hv Ht]; subst.
    destruct (Hrec h v Hv) as (h1 & b & evs & -> & Hupd & Hb). simpl.
    destruct b.
    + exists h1, true, evs. split; [reflexivity|]. split; [assumption|discriminate].
    + rewrite (Hb eq_refl) in *.
      destruct (IH h Ht) as (h2 & b' & evs' & -> & Hupd' & Hb').
      exists h2, b', (evs ++ evs')%list. auto.
Qed.

(** The mutator returns, having changed at most one dictionary; when it
    returns [False] it has changed nothing. *)
Lemma find_ok key mode n : runs_well n (find_and_modify_keys n key mode).
Proof.
  induction n as [|n IH]; intros h v Hv.
  - destruct v; try (exists h, false, []; auto; fail).
    destruct Hv as [j Hj]. discriminate.
  - destruct v; try (exists h, false, []; auto; fail).
    apply readable_ref in Hv as (o & Ho & Hvs).
    cbn [find_and_modify_keys]. rewrite Ho. destruct o as [vs|d].
    + apply (first_true_ok n); assumption.
    + destruct (Dict.has key d); [|apply (first_true_ok n); assumption].
      destruct (String.eqb mode "remove").
      { eexists _, true, _. split; [reflexivity|]. split; [|discriminate].
        right. constructor 1 with (d := d); [assumption|]. apply values_del. }
      destruct (String.eqb mode "comment").
      { eexists _, true, _. split; [reflexivity|]. split; [|discriminate].
        right. constructor 1 with (d := d); [assumption|]. apply values_comment_key. }
      exists h, true, []. split; [reflexivity|]. split; [auto|discriminate].
Qed.

End RequiredFacts.

(** ** [Required.py]: the copy a step works on *)

Module RequiredRun.
Import Heap HeapSpec HeapFacts Required RequiredSpec RequiredFacts.

Section Run.
Variables (mode prefix : string) (max_json : json).

(** The objects [json.load] makes for the sample, and the sample. *)
Let B : heap := fst (build max_json 0).
Let v0 : hval := snd (build max_json 0).
Local Abbreviation sample_intact := (RequiredSpec.sample_intact max_json).

Lemma sample_intact_start : sample_intact B.
Proof.
  unfold RequiredSpec.sample_intact, dumps. fold B v0.
  apply (read_build max_json [] (length B)). reflexivity.
Qed.

Lemma sample_intact_app h x : sample_intact h -> sample_intact (h ++ x)%list.
Proof.
  unfold RequiredSpec.sample_intact, dumps. fold B v0. intros H.
  eapply read_mono; [|eassumption]. rewrite length_app. lia.
Qed.

(** The mutator on the copy of the sample: it returns, and the copy can
    still be read. *)
Lemma copy_mutated key :
  exists B' b evs content,
    find_and_modify_keys (length B) key mode B v0 = Ok (B', b, evs)
    /\ read (length B') B' v0 = Ok content
    /\ length B' = length B.
Proof.
  assert (Hr : readable (length B) B v0) by (eexists; apply sample_intact_start).
  destruct (find_ok key mode (length B) B v0 Hr) as (B' & b & evs & Hf & Hupd & _).
  assert (Hlen : length B' = length B).
  { destruct Hupd as [->|Hupd]; [reflexivity|apply upd_length; assumption]. }
  assert (Hr' : readable (length B) B' v0).
  { destruct Hupd as [->|Hupd]; [assumption|]. eapply read_upd; eassumption. }
  destruct Hr' as [content Hc].
  exists B', b, evs, content. rewrite Hlen. auto.
Qed.

End Run.
End RequiredRun.

(** ** Occurrence classes and what the legacy mutator prints *)

Module OccurrenceFacts.
Import Occurrence.

Lemma found_keys_app evs1 evs2 :
  found_keys (evs1 ++ evs2)%list = (found_keys evs1 ++ found_keys evs2)%list.
Proof. apply omap_app. Qed.

Lemma found_keys_cons e evs :
  found_keys (e :: evs)
  = (match e with Found key => [key] | _ => [] end ++ found_keys evs)%list.
Proof. destruct e; reflexivity. Qed.

Lemma has_class_in_class a b key details :
  has_class [a; b] (key, JDict details)
  = in_class (Dict.get "Source Occurs" details) a b.
Proof.
  unfold has_class, occurrence_string, in_class. cbn [snd].
  destruct (Dict.get "Source Occurs" details) as [[| | | |s| |]|]; try reflexivity.
  simpl. rewrite orb_false_r. reflexivity.
Qed.

End OccurrenceFacts.

Module RequiredEvents.
Import Heap HeapSpec HeapFacts Required RequiredSpec RequiredFacts Occurrence OccurrenceFacts GeneratorSpec GeneratorFacts.

Lemma first_true_events rec :
  (forall h v h' b evs, rec h v = Ok (h', b, evs) -> found_keys evs = []) ->
  forall vs h h' b evs,
    first_true rec vs h = Ok (h', b, evs) -> found_keys evs = [].
Proof.
  intros Hrec. induction vs as [|v t IH]; intros h h' b evs H; simpl in H.
  - inversion H. reflexivity.
  - destruct (rec h v) as [[[h1 b1] evs1]|] eqn:Ev; [|discriminate]. simpl in H.
    destruct b1; [inversion H; subst; eapply Hrec; eassumption|].
    destruct (first_true rec t h1) as [[[h2 b2] evs2]|] eqn:Et; [|discriminate].
    simpl in H. inversion H; subst. rewrite found_keys_app.
    rewrite (Hrec _ _ _ _ _ Ev), (IH _ _ _ _ Et). reflexivity.
Qed.

(** The mutator does not print that a field was found. *)
Lemma find_events key mode n :
  forall h v h' b evs,
    find_and_modify_keys n key mode h v = Ok (h', b, evs) -> found_keys evs = [].
Proof.
  induction n as [|n IH]; intros h v h' b evs H.
  - destruct v; inversion H; reflexivity.
  - destruct v; try (inversion H; reflexivity). cbn [find_and_modify_keys] in H.
    destruct (h !! l) as [[vs|d]|]; [| |discriminate].
    + eapply first_true_events; eassumption.
    + destruct (Dict.has key d); [|eapply first_true_events; eassumption].
      destruct (String.eqb mode "remove"); [inversion H; reflexivity|].
      destruct (String.eqb mode "comment"); inversion H; reflexivity.
Qed.

End RequiredEvents.

(** ** [Optional2.py]: the mutator returns *)

Module Optional2Facts.
Import Heap HeapSpec HeapFacts Optional2 Optional2Spec Occurrence OccurrenceFacts GeneratorSpec GeneratorFacts.

Lemma read_rtc_upd h h' :
  rtc upd h h' -> forall n w, readable n h w -> readable n h' w.
Proof.
  induction 1 as [|h1 h2 h3 H12 _ IH]; intros n w Hw; [assumption|].
  apply IH. eapply read_upd; eassumption.
Qed.

Lemma rtc_upd_length h h' : rtc upd h h' -> length h' = length h.
Proof.
  induction 1 as [|h1 h2 h3 H12 _ IH]; [reflexivity|].
  rewrite IH. apply upd_length. assumption.
Qed.

Lemma each_ok n rec :
  optional_runs_well n rec ->
  forall vs h,
    Forall (readable n h) vs ->
    exists h' ks evs,
      each rec vs h = Ok (h', ks, evs) /\ rtc upd h h' /\ found_keys evs = [].
Proof.
  intros Hrec. induction vs as [|v t IH]; intros h HF; simpl.
  - exists h, [], []. repeat split. constructor.
  - inversion HF as [|? ? Hv Ht]; subst.
    destruct (Hrec h v Hv) as (h1 & ks & evs & -> & Hupd & Hev). cbn [rbind].
    destruct (IH h1) as (h2 & ks' & evs' & -> & Hupd' & Hev').
    { eapply Forall_impl; [eassumption|]. intros w. apply read_rtc_upd. assumption. }
    cbn [rbind]. eexists _, _, _. split; [reflexivity|]. split.
    + etransitivity; eassumption.
    + rewrite found_keys_app, Hev, Hev'. reflexivity.
Qed.

(** The mutator returns, having only replaced dictionaries by dictionaries
    with fewer or renamed keys. *)
Lemma optional_find_ok key mode n : optional_runs_well n (find_and_modify_keys n key mode).
Proof.
  induction n as [|n IH]; intros h v Hv.
  - destruct v; try (exists h, [], []; repeat split; constructor; fail).
    destruct Hv as [j Hj]. discriminate.
  - destruct v; try (exists h, [], []; repeat split; constructor; fail).
    apply readable_ref in Hv as (o & Ho & Hvs).
    cbn [find_and_modify_keys]. rewrite Ho. destruct o as [vs|d].
    { apply (each_ok n); assumption. }
    assert (Hstep : forall h1 d1 ks evs,
               h1 = <[l := HDict d1]> h ->
               (forall w, w ∈ map snd d1 -> w ∈ map snd d) ->
               found_keys evs = [] ->
               exists h' ks' evs',
                 (do r <- each (find_and_modify_keys n key mode) (map snd d1) h1 ;;
                  let '(h2, ks2, evs2) := r in
                  Ok (h2, (ks ++ ks2)%list, (evs ++ evs2)%list))
                 = Ok (h', ks', evs')
                 /\ rtc upd h h' /\ found_keys evs' = []).
    { intros h1 d1 ks evs -> Hsub Hev.
      assert (Hupd : upd h (<[l := HDict d1]> h)) by (econstructor; eassumption).
      destruct (each_ok n _ IH (map snd d1) (<[l := HDict d1]> h))
        as (h2 & ks2 & evs2 & -> & Hupd2 & Hev2).
      { apply Forall_forall. intros w Hw. eapply read_upd; [eassumption|].
        rewrite Forall_forall in Hvs. apply Hvs, Hsub. assumption. }
      cbn [rbind]. eexists _, _, _. split; [reflexivity|]. split.
      - eapply rtc_l; eassumption.
      - rewrite found_keys_app, Hev, Hev2. reflexivity. }
    destruct (Dict.has key d).
    + destruct (String.eqb mode "remove");
        [apply Hstep; [reflexivity|apply values_del|reflexivity]|].
      destruct (String.eqb mode "comment");
        [apply Hstep; [reflexivity|apply values_comment_key|reflexivity]|].
      apply Hstep; [symmetry; apply list_insert_id; assumption|auto|reflexivity].
    + apply Hstep; [symmetry; apply list_insert_id; assumption|auto|reflexivity].
Qed.

End Optional2Facts.

Lemma generate_loop_contents ET json_loads json_dumps cfg file_format mode prefix
  max_content target_fields :
  forall i,
    map snd (Generator.generate_loop ET json_loads json_dumps cfg file_format mode prefix
               max_content i target_fields)
    = flat_map
        (fun f => map snd (Generator.generate_loop ET json_loads json_dumps cfg file_format
                             mode prefix max_content 1 [f]))
        target_fields.
Proof.
  induction target_fields as [|f rest IH]; intros i; [reflexivity|].
  cbn [Generator.generate_loop flat_map]. rewrite !map_app, IH, app_nil_r.
  destruct (Generator.modified_content _ _ _ _ _ _ _) as [[content|]|]; reflexivity.
Qed.

Lemma select_ext p q items :
  (forall item, p item = q item) ->
  GeneratorSpec.select p items = GeneratorSpec.select q items.
Proof.
  intros H. induction items as [|item rest IH]; [reflexivity|].
  cbn [GeneratorSpec.select]. rewrite H, IH. reflexivity.
Qed.

Lemma selects_has_class t item :
  GeneratorSpec.selects (Generator.target_occurrence_of t) item
  = negb (String.eqb (fst item) "format")
    && Occurrence.has_class [Generator.target_occurrence_of t] item.
Proof.
  unfold GeneratorSpec.selects, Occurrence.has_class, Occurrence.occurrence_string,
    Generator.get_default.
  f_equal. destruct (snd item) as [| | | | | |attrs]; try reflexivity.
  destruct (Dict.get "Source Occurs" attrs) as [[| | | |s| |]|]; try reflexivity.
  - simpl. rewrite orb_false_r. reflexivity.
  - destruct t; reflexivity.
Qed.

(** C1, as stated, fails for the unified generator: an entry whose
    occurrence string is [1...*] is in the required class, and a required
    run selects no field. *)
Lemma unified_required_run_skips_one_or_more :
  Occurrence.has_class Occurrence.required_class
    ("qty", JDict [("Source Occurs", JStr "1...*")]) = true
  /\ Generator.find_fields_by_occurrence
       (JDict [("qty", JDict [("Source Occurs", JStr "1...*")])])
       (Generator.target_occurrence_of required)
     = Ok [].
Proof. split; reflexivity. Qed.

(** ** Specification extraction *)

Module ExtractorFacts.
Import Extractor ExtractorSpec.

Lemma count_of_set b key c key' :
  count_of {| element_counter := Dict.set key c (element_counter b) |} key'
  = if String.eqb key' key then c else count_of b key'.
Proof.
  unfold count_of. cbn [element_counter].
  destruct (String.eqb_spec key' key) as [->|Hne].
  - rewrite DictFacts.get_set_eq. reflexivity.
  - rewrite DictFacts.get_set_ne by assumption. reflexivity.
Qed.

(** The name [add_element] returns and the counter it leaves. *)
Lemma add_element_name b r hierarchy_path element_name attrs source_path b' r' n :
  add_element b r hierarchy_path element_name attrs source_path = Ok (b', r', n) ->
  let key := unique_key hierarchy_path element_name in
  let c := (count_of b key + 1)%Z in
  n = (if (1 <? c)%Z then element_name ++ "_occurrence_" ++ PyStr.str_int c
       else element_name)
  /\ insert_at hierarchy_path n attrs source_path r = Ok r'
  /\ forall key', count_of b' key' = if String.eqb key' key then c else count_of b key'.
Proof.
  unfold add_element. intros H. cbn zeta.
  destruct (insert_at _ _ _ _ _) as [r1|] eqn:Ei; [|discriminate].
  simpl in H. inversion H; subst. split; [reflexivity|]. split; [assumption|].
  intros key'. apply count_of_set.
Qed.

Lemma insert_at_has hierarchy_path final attrs source_path :
  forall r r',
    insert_at hierarchy_path final attrs source_path r = Ok r' ->
    exists d', level_at hierarchy_path r' = Some d' /\ Dict.has final d' = true.
Proof.
  induction hierarchy_path as [|level rest IH]; intros r r' H.
  - destruct r as [| | | | | |d]; try discriminate. cbn [insert_at] in H.
    destruct (default (JDict []) (Dict.get final d)) as [| | | | | |e]; try discriminate.
    inversion H; subst. eexists. split; [reflexivity|]. apply DictFacts.has_set.
  - destruct r as [| | | | | |d]; try discriminate. cbn [insert_at] in H.
    destruct (insert_at rest final attrs source_path _) as [child'|] eqn:Ec;
      [|discriminate].
    simpl in H. inversion H; subst.
    destruct (IH _ _ Ec) as (d' & Hd' & Hhas).
    exists d'. split; [|assumption].
    destruct child'; try discriminate;
      cbn [level_at]; rewrite DictFacts.get_set_eq; assumption.
Qed.

Lemma has_set_other {A} k k' (v : A) d :
  Dict.has k d = true -> Dict.has k (Dict.set k' v d) = true.
Proof.
  unfold Dict.has. destruct (String.eqb_spec k k') as [->|Hne].
  - rewrite DictFacts.get_set_eq. reflexivity.
  - rewrite DictFacts.get_set_ne by assumption. auto.
Qed.

(** The keys of the level are kept by an insertion at that level. *)
Lemma insert_at_keeps hierarchy_path final attrs source_path :
  forall r r' d d' k,
    insert_at hierarchy_path final attrs source_path r = Ok r' ->
    level_at hierarchy_path r = Some d ->
    level_at hierarchy_path r' = Some d' ->
    Dict.has k d = true -> Dict.has k d' = true.
Proof.
  induction hierarchy_path as [|level rest IH]; intros r r' d d' k H Hd Hd' Hk.
  - destruct r as [| | | | | |d0]; try discriminate. cbn [insert_at] in H.
    destruct (default (JDict []) (Dict.get final d0)) as [| | | | | |e]; try discriminate.
    inversion H; subst. cbn [level_at] in *. inversion Hd; inversion Hd'; subst.
    apply has_set_other. assumption.
  - destruct r as [| | | | | |d0]; try discriminate. cbn [insert_at level_at] in *.
    destruct (Dict.get level d0) as [child|] eqn:El; [|discriminate].
    cbv beta iota delta [default from_option id] in H.
    destruct (insert_at rest final attrs source_path child) as [child'|] eqn:Ec;
      [|discriminate].
    simpl in H. inversion H; subst. cbn [level_at] in Hd'.
    rewrite DictFacts.get_set_eq in Hd'.
    eapply IH; eassumption.
Qed.

Lemma occurrence_suffix_ne name suffix : suffix <> "" -> name <> name ++ suffix.
Proof.
  intros Hs H. apply (f_equal String.length) in H.
  rewrite IdocFacts.length_app in H. destruct suffix; [congruence|]. simpl in H. lia.
Qed.

(** What holds of C4: two rows with the same hierarchy path and element
    name, the first being the first with their unique key, give the keys
    [name] and [name_occurrence_2], both found at the level of the path. *)
Lemma duplicates_disambiguated b r hierarchy_path element_name
  attrs1 source_path1 attrs2 source_path2 b1 r1 n1 b2 r2 n2 :
  count_of b (unique_key hierarchy_path element_name) = 0%Z ->
  add_element b r hierarchy_path element_name attrs1 source_path1 = Ok (b1, r1, n1) ->
  add_element b1 r1 hierarchy_path element_name attrs2 source_path2 = Ok (b2, r2, n2) ->
  n1 = element_name /\ n2 = element_name ++ "_occurrence_2" /\ n1 <> n2
  /\ exists d, level_at hierarchy_path r2 = Some d
       /\ Dict.has n1 d = true /\ Dict.has n2 d = true.
Proof.
  intros Hc H1 H2.
  apply add_element_name in H1 as (Hn1 & Hi1 & Hc1). rewrite Hc in *. simpl in Hn1.
  apply add_element_name in H2 as (Hn2 & Hi2 & Hc2).
  rewrite (Hc1 (unique_key hierarchy_path element_name)), String.eqb_refl in Hn2.
  simpl in Hn2. subst n1.
  split; [reflexivity|]. split; [assumption|]. split.
  { rewrite Hn2. apply occurrence_suffix_ne. discriminate. }
  destruct (insert_at_has _ _ _ _ _ _ Hi1) as (d1 & Hd1 & Hhas1).
  destruct (insert_at_has _ _ _ _ _ _ Hi2) as (d2 & Hd2 & Hhas2).
  exists d2. split; [assumption|]. split; [|assumption].
  eapply insert_at_keeps; eassumption.
Qed.

(** A third such row gives [name_occurrence_3]. *)
Lemma third_duplicate b r hierarchy_path element_name attrs source_path b' r' n :
  count_of b (unique_key hierarchy_path element_name) = 2%Z ->
  add_element b r hierarchy_path element_name attrs source_path = Ok (b', r', n) ->
  n = element_name ++ "_occurrence_3".
Proof.
  intros Hc H. apply add_element_name in H as (Hn & _ & _). rewrite Hc in Hn.
  exact Hn.
Qed.

(** The unique key is the join of the path and the name. *)
Lemma unique_key_join hierarchy_path element_name :
  unique_key hierarchy_path element_name
  = Py.join "/" (hierarchy_path ++ [element_name])%list.
Proof.
  unfold unique_key. destruct hierarchy_path as [|x t]; [reflexivity|].
  generalize x. clear x. induction t as [|y t IH]; intros x; [reflexivity|].
  change ((x :: y :: t) ++ [element_name])%list
    with (x :: ((y :: t) ++ [element_name]))%list.
  change (Py.join "/" (x :: y :: t)) with (x ++ "/" ++ Py.join "/" (y :: t)).
  change (Py.join "/" (x :: ((y :: t) ++ [element_name]))%list)
    with (x ++ "/" ++ Py.join "/" ((y :: t) ++ [element_name])%list).
  rewrite <- IH. rewrite !IdocFacts.append_assoc. reflexivity.
Qed.

(** When no value holds a slash, the unique key identifies the path and the
    name: the counter is then per path and name. *)
Lemma unique_key_injective path1 name1 path2 name2 :
  Forall (fun e => Py.contains "/" e = false) (path1 ++ [name1])%list ->
  Forall (fun e => Py.contains "/" e = false) (path2 ++ [name2])%list ->
  unique_key path1 name1 = unique_key path2 name2 ->
  path1 = path2 /\ name1 = name2.
Proof.
  intros H1 H2 E. rewrite !unique_key_join in E.
  apply (f_equal (Py.split "/")) in E.
  rewrite !(PyFacts.split_join "/") in E; try assumption;
    try (intros Hnil; apply app_eq_nil in Hnil as [_ Hnil]; discriminate).
  apply app_inj_tail in E. assumption.
Qed.

(** A row whose attribute columns give no attribute is not added by the
    universal extractor. *)
Lemma universal_row_without_attributes idx headers st row :
  extract_attributes attribute_value (drop idx headers) (drop idx row) [] = [] ->
  universal_row idx headers st row = Ok st.
Proof.
  intros H. unfold universal_row. rewrite H.
  destruct (hierarchy_parts (take idx row)); reflexivity.
Qed.

Lemma extract_attributes_none value attribute_columns cells acc :
  Forall (fun c => value c = None) cells ->
  extract_attributes value attribute_columns cells acc = acc.
Proof.
  intros HF. revert attribute_columns acc.
  induction HF as [|c cs Hc _ IH]; intros attribute_columns acc.
  - destruct attribute_columns; reflexivity.
  - destruct attribute_columns as [|header hs]; [reflexivity|].
    cbn [extract_attributes]. rewrite Hc. apply IH.
Qed.

End ExtractorFacts.

(** C4, the counter on two different hierarchy paths whose joins collide:
    the rows [a/b | c] and [a | b | c] have the hierarchy paths [a/b] and
    [a, b] and the element name [c]; both get the unique key [a/b/c], and the
    second is named [c_occurrence_2] although no [c] stands under [a], [b]. *)
Theorem duplicate_counter_collides_on_slash :
  Extractor.add_element {| Extractor.element_counter := [] |} (JDict [])
    ["a/b"] "c" [("Source Occurs", "1...1")] "/a/b/c"
  = Ok ({| Extractor.element_counter := [("a/b/c", 1%Z)] |},
        JDict [("a/b",
                JDict [("c", JDict [("source_path", JStr "/a/b/c");
                                    ("Source Occurs", JStr "1...1")])])],
        "c")
  /\ Extractor.add_element {| Extractor.element_counter := [("a/b/c", 1%Z)] |}
       (JDict [("a/b",
                JDict [("c", JDict [("source_path", JStr "/a/b/c");
                                    ("Source Occurs", JStr "1...1")])])])
       ["a"; "b"] "c" [("Source Occurs", "1...1")] "/a/b/c"
     = Ok ({| Extractor.element_counter := [("a/b/c", 2%Z)] |},
           JDict [("a/b",
                   JDict [("c", JDict [("source_path", JStr "/a/b/c");
                                       ("Source Occurs", JStr "1...1")])]);
                  ("a",
                   JDict [("b",
                           JDict [("c_occurrence_2",
                                   JDict [("source_path", JStr "/a/b/c");
                                          ("Source Occurs", JStr "1...1")])])])],
           "c_occurrence_2")
  /\ Extractor.extract_json_hierarchy
       {| columns := ["Level 1"; "Level 2"; "Level 3"; "Source Occurs"];
          rows := [[Some "a/b"; Some "c"; Some ""; Some "1...1"];
                   [Some "a"; Some "b"; Some "c"; Some "1...1"]] |}
     = Ok (JDict [("a/b",
                   JDict [("c", JDict [("source_path", JStr "/a/b/c");
                                       ("Source Occurs", JStr "1...1")])]);
                  ("a",
                   JDict [("b",
                           JDict [("c_occurrence_2",
                                   JDict [("source_path", JStr "/a/b/c");
                                          ("Source Occurs", JStr "1...1")])])])]).
Proof. split; [|split]; reflexivity. Qed.

(** C7, the JSON extractor of [extractor4.py] on a row with a hierarchy
    value and empty attribute cells: the entry [order] is added with its
    source path alone, while the universal extractors add nothing. *)
Theorem json_extractor_adds_row_without_attributes :
  Extractor.extract_json_hierarchy
    {| columns := ["Level 1"; "Level 2"; "Source Occurs"; "Output Path"];
       rows := [[Some "order"; Some ""; Some ""; Some ""]] |}
  = Ok (JDict [("order", JDict [("source_path", JStr "/order")])])
  /\ Extractor.extract_universal_hierarchy
       {| columns := ["Level 1"; "Level 2"; "Source Occurs"; "Output Path"];
          rows := [[Some "order"; Some ""; Some ""; Some ""]] |}
     = Ok (JDict [])
  /\ Extractor2.extract_universal_hierarchy
       {| columns := ["Level 1"; "Level 2"; "Source Occurs"; "Output Path"];
          rows := [[Some "order"; Some ""; Some ""; Some ""]] |}
     = [].
Proof. split; [|split]; reflexivity. Qed.

(** ** Line structure of the text strategies *)

Module TextFacts.
Import Py PySpec PyFacts EdiFacts.

Lemma modify_length modification_mode (l : list string) i l' :
  Edi.modify modification_mode l i = Ok l' -> length l' = length l.
Proof.
  unfold Edi.modify. intros H.
  destruct (String.eqb modification_mode "remove"); [eapply setitem_length; eassumption|].
  destruct (String.eqb modification_mode "comment"); [|congruence].
  destruct (getitem l i) as [old|]; [|discriminate].
  eapply setitem_length; eassumption.
Qed.

Lemma edi_try_block_length elements field_part modification_mode elements' :
  Edi.try_block elements field_part modification_mode = Ok elements' ->
  length elements' = length elements.
Proof.
  unfold Edi.try_block. intros H.
  destruct (Edi.parse_numbers field_part) as [[element_num sub]|]; [|discriminate].
  simpl in H.
  destruct (element_num <? len elements)%Z; [|congruence].
  destruct sub as [subelement_num|]; [|eapply modify_length; eassumption].
  destruct (getitem elements element_num) as [target|]; [|discriminate].
  simpl in H.
  destruct (subelement_num - 1 <? len (Edi.subelements_of target))%Z; [|congruence].
  destruct (Edi.modify _ _ _) as [subelements'|]; [|discriminate].
  eapply setitem_length; eassumption.
Qed.

Lemma edifact_try_block_length elements field_part modification_mode elements' :
  Edifact.try_block elements field_part modification_mode = Ok elements' ->
  length elements' = length elements.
Proof.
  unfold Edifact.try_block. intros H.
  destruct (if isdigit field_part then int field_part else int (take 2 field_part))
    as [element_num|]; [|discriminate].
  simpl in H.
  destruct (element_num <? len elements)%Z; [|congruence].
  eapply modify_length; eassumption.
Qed.

Lemma edifact_try_block_free c elements field_part modification_mode elements' :
  contains c "commented-" = false ->
  Edifact.try_block elements field_part modification_mode = Ok elements' ->
  Forall (fun e => contains c e = false) elements ->
  Forall (fun e => contains c e = false) elements'.
Proof.
  unfold Edifact.try_block. intros Hc H HF.
  destruct (if isdigit field_part then int field_part else int (take 2 field_part))
    as [element_num|]; [|discriminate].
  simpl in H.
  destruct (element_num <? len elements)%Z; [|congruence].
  eapply (modify_free c); eassumption.
Qed.

Lemma split_length_join sep (l : list string) :
  l <> [] -> Forall (fun e => contains sep e = false) l ->
  length (split sep (join (sep_of sep) l)) = length l.
Proof. intros Hn HF. rewrite split_join by assumption. reflexivity. Qed.

Lemma length_not_nil {A} (l l' : list A) : length l' = length l -> l <> [] -> l' <> [].
Proof. destruct l, l'; simpl; congruence. Qed.

(** A line has as many [*]-separated elements after the mutation as before. *)
Lemma edi_process_line_elements field_path modification_mode line :
  length (split "*" (Edi.process_line field_path modification_mode line))
  = length (split "*" line).
Proof.
  unfold Edi.process_line.
  destruct (strip_is_empty line); [reflexivity|].
  destruct (contains "~" line); [|reflexivity].
  destruct (startswith field_path _); [|reflexivity].
  destruct (Edi.try_block _ _ _) as [elements'|] eqn:E; [|reflexivity].
  pose proof (edi_try_block_length _ _ _ _ E) as Hlen.
  rewrite (split_length_join "*"); [assumption| |].
  - eapply length_not_nil; [eassumption|apply split_not_nil].
  - eapply (try_block_free "*"); [reflexivity|reflexivity|eassumption|apply split_free].
Qed.

Lemma edifact_process_line_elements field_path modification_mode line :
  length (split "+" (Edifact.process_line field_path modification_mode line))
  = length (split "+" line).
Proof.
  unfold Edifact.process_line.
  destruct (strip_is_empty line); [reflexivity|].
  destruct (contains "+" line); [|reflexivity].
  destruct (startswith field_path _); [|reflexivity].
  destruct (Edifact.try_block _ _ _) as [elements'|] eqn:E; [|reflexivity].
  pose proof (edifact_try_block_length _ _ _ _ E) as Hlen.
  rewrite (split_length_join "+"); [assumption| |].
  - eapply length_not_nil; [eassumption|apply split_not_nil].
  - eapply (edifact_try_block_free "+"); [reflexivity|eassumption|apply split_free].
Qed.

Lemma edifact_process_line_free c field_path modification_mode line :
  contains c "commented-" = false -> contains c "+" = false ->
  contains c line = false ->
  contains c (Edifact.process_line field_path modification_mode line) = false.
Proof.
  intros Hm Hp H. unfold Edifact.process_line.
  destruct (strip_is_empty line); [assumption|].
  destruct (contains "+" line); [|assumption].
  destruct (startswith field_path _); [|assumption].
  destruct (Edifact.try_block _ _ _) as [elements'|] eqn:E; [|assumption].
  apply contains_join; [assumption|].
  eapply edifact_try_block_free; [eassumption..|].
  apply split_preserves_free. assumption.
Qed.

(** The mutated EDIFACT document, segment by segment. *)
Lemma process_edifact_segments content field_path modification_mode :
  split "'" (Edifact.process_edifact_field_removal content field_path modification_mode)
  = map (Edifact.process_line field_path modification_mode) (split "'" content).
Proof.
  unfold Edifact.process_edifact_field_removal.
  apply (split_join "'").
  - pose proof (split_not_nil "'" content).
    destruct (split "'" content); [congruence|discriminate].
  - apply Forall_map. eapply Forall_impl; [apply split_free|].
    intros line H. simpl. apply edifact_process_line_free; [reflexivity..|assumption].
Qed.

Lemma map_id_on {A} (f : A -> A) (l : list A) :
  Forall (fun x => f x = x) l -> map f l = l.
Proof. induction 1; simpl; congruence. Qed.

End TextFacts.

(** X1. The EDI-X12 strategy works line by line and keeps the shape of the
    document: for every content, field path and mode, the mutated document
    has the same number of lines, and each line has the same number of
    [*]-separated elements as the line it comes from. *)
Theorem edi_keeps_line_and_element_counts (content field_path modification_mode : string) :
  map (fun line => length (Py.split "*" line))
    (Py.split "010" (Edi.process_edi_field_removal content field_path modification_mode))
  = map (fun line => length (Py.split "*" line)) (Py.split "010" content).
Proof.
  rewrite EdiFacts.process_edi_lines, map_map.
  apply map_ext. intros line. apply TextFacts.edi_process_line_elements.
Qed.

(** X2. A document in which no line holds the segment terminator [~] is
    returned as it is by the EDI-X12 strategy, whatever the field path and
    the mode. *)
Theorem edi_without_terminator_unchanged (content field_path modification_mode : string) :
  Py.contains "~" content = false ->
  Edi.process_edi_field_removal content field_path modification_mode = content.
Proof.
  intros H. unfold Edi.process_edi_field_removal.
  rewrite TextFacts.map_id_on; [apply (PyFacts.join_split "010")|].
  eapply Forall_impl; [apply (PyFacts.split_preserves_free "~" "010"); assumption|].
  intros line Hl. simpl in Hl. unfold Edi.process_line. rewrite Hl.
  destruct (Py.strip_is_empty line); reflexivity.
Qed.

Lemma edi_without_terminator_unchanged_witness :
  Edi.process_edi_field_removal
    (String.append "ISA*00*SENDER" (String "010" "GS*PO*1")) "ISA02" "remove"
  = String.append "ISA*00*SENDER" (String "010" "GS*PO*1").
Proof. apply edi_without_terminator_unchanged. reflexivity. Defined.

(** X3. The EDIFACT strategy works segment by segment and keeps the shape of
    the document: the mutated document has the same number of ['] separated
    segments, and each segment has the same number of [+]-separated elements
    as the segment it comes from. *)
Theorem edifact_keeps_segment_and_element_counts
  (content field_path modification_mode : string) :
  map (fun segment => length (Py.split "+" segment))
    (Py.split "'"
       (Edifact.process_edifact_field_removal content field_path modification_mode))
  = map (fun segment => length (Py.split "+" segment)) (Py.split "'" content).
Proof.
  rewrite TextFacts.process_edifact_segments, map_map.
  apply map_ext. intros line. apply TextFacts.edifact_process_line_elements.
Qed.

Module IdocLines.
Import Py PySpec PyFacts IdocSpec IdocFacts.

Lemma process_line_cases field_path modification_mode line :
  Idoc.process_line field_path modification_mode line
  = if selected field_path line then
      if String.eqb modification_mode "remove" then blank_word_chars line
      else if String.eqb modification_mode "comment" then "* commented: " ++ line
      else line
    else line.
Proof.
  unfold Idoc.process_line, selected.
  destruct (startswith line "E1" || startswith line "E2"); [|reflexivity].
  destruct (startswith field_path (take 6 line)); [|reflexivity].
  cbn [andb]. destruct (String.eqb modification_mode "remove"); [|reflexivity].
  unfold Idoc.re_sub_words. rewrite sub_word_runs_blank. reflexivity.
Qed.

Lemma selected_starts_with_E field_path line :
  selected field_path line = true -> exists r, line = String "E" r.
Proof.
  unfold selected. intros H. apply andb_true_iff in H as [H _].
  destruct line as [|c r]; [discriminate|].
  exists r. f_equal.
  apply orb_true_iff in H as [H|H]; cbn [startswith] in H;
    apply andb_true_iff in H as [H _]; apply Ascii.eqb_eq in H; congruence.
Qed.

Lemma not_selected_unless_E field_path c r :
  c <> "E"%char -> selected field_path (String c r) = false.
Proof.
  intros Hc. unfold selected. cbn [startswith].
  replace (Ascii.eqb "E" c) with false; [reflexivity|].
  symmetry. apply Ascii.eqb_neq. congruence.
Qed.

(** Mutating a mutated line changes nothing more. *)
Lemma process_line_idempotent field_path modification_mode line :
  Idoc.process_line field_path modification_mode
    (Idoc.process_line field_path modification_mode line)
  = Idoc.process_line field_path modification_mode line.
Proof.
  rewrite (process_line_cases field_path modification_mode line).
  destruct (selected field_path line) eqn:Hsel.
  - destruct (selected_starts_with_E _ _ Hsel) as [r ->].
    destruct (String.eqb modification_mode "remove") eqn:Hr.
    + rewrite process_line_cases.
      change (blank_word_chars (String "E" r)) with (String " " (blank_word_chars r)).
      rewrite not_selected_unless_E by discriminate. reflexivity.
    + destruct (String.eqb modification_mode "comment") eqn:Hc.
      * rewrite process_line_cases.
        change ("* commented: " ++ String "E" r)
          with (String "*" (" commented: " ++ String "E" r)).
        rewrite not_selected_unless_E by discriminate. reflexivity.
      * rewrite process_line_cases, Hsel, Hr, Hc. reflexivity.
  - rewrite process_line_cases, Hsel. reflexivity.
Qed.

Lemma contains_map_chars c f s :
  (forall d, d <> c -> f d <> c) ->
  contains c s = false -> contains c (map_chars f s) = false.
Proof.
  intros Hf. induction s as [|d r IH]; simpl; [reflexivity|].
  intros H. apply orb_false_iff in H as [H1 H2].
  rewrite IH by assumption.
  apply Ascii.eqb_neq in H1. apply Hf in H1. apply Ascii.eqb_neq in H1.
  rewrite H1. reflexivity.
Qed.

Lemma idoc_line_free field_path modification_mode line :
  contains "010" line = false ->
  contains "010" (Idoc.process_line field_path modification_mode line) = false.
Proof.
  intros H. rewrite process_line_cases.
  destruct (selected field_path line); [|assumption].
  destruct (String.eqb modification_mode "remove").
  - apply contains_map_chars; [|assumption].
    intros d Hd. destruct (is_word d); [discriminate|assumption].
  - destruct (String.eqb modification_mode "comment"); [|assumption].
    rewrite contains_app, H. reflexivity.
Qed.

(** The mutated document, line by line. *)
Lemma process_idoc_lines content field_path modification_mode :
  split "010" (Idoc.process_idoc_field_removal content field_path modification_mode)
  = map (Idoc.process_line field_path modification_mode) (split "010" content).
Proof.
  unfold Idoc.process_idoc_field_removal.
  apply (split_join "010").
  - pose proof (split_not_nil "010" content).
    destruct (split "010" content); [congruence|discriminate].
  - apply Forall_map. eapply Forall_impl; [apply split_free|].
    intros line H. simpl. apply idoc_line_free. assumption.
Qed.

End IdocLines.

(** X4. The IDOC strategy is idempotent: mutating an already mutated
    document with the same field path and mode gives the same document.  A
    blanked line and a commented line no longer start with [E1] or [E2], so
    the second pass leaves them alone. *)
Theorem idoc_mutation_idempotent (content field_path modification_mode : string) :
  Idoc.process_idoc_field_removal
    (Idoc.process_idoc_field_removal content field_path modification_mode)
    field_path modification_mode
  = Idoc.process_idoc_field_removal content field_path modification_mode.
Proof.
  unfold Idoc.process_idoc_field_removal at 1.
  rewrite IdocLines.process_idoc_lines, map_map.
  unfold Idoc.process_idoc_field_removal. f_equal.
  apply map_ext. intros line. apply IdocLines.process_line_idempotent.
Qed.

(** X5. The IDOC strategy compares the field path with the first six
    characters of a line only: two lines that start with the same six
    characters are both mutated or both left alone, so a path such as
    [E1EDK01] also mutates the lines of the segments [E1EDK02],
    [E1EDK03], ... *)
Theorem idoc_selection_reads_six_characters (field_path line1 line2 : string) :
  Py.take 6 line1 = Py.take 6 line2 ->
  IdocSpec.selected field_path line1 = IdocSpec.selected field_path line2
  /\ (IdocSpec.selected field_path line1 = false ->
      forall mode, Idoc.process_line field_path mode line1 = line1)
  /\ (IdocSpec.selected field_path line1 = true ->
      Idoc.process_line field_path "remove" line2 = IdocSpec.blank_word_chars line2
      /\ Idoc.process_line field_path "comment" line2 = "* commented: " ++ line2).
Proof.
  intros H.
  assert (Hs : forall p l, Py.startswith l p = Py.startswith (Py.take (String.length p) l) p).
  { induction p as [|a p IH]; intros l; [destruct l; reflexivity|].
    destruct l as [|b l]; [reflexivity|]. simpl. rewrite <- IH. reflexivity. }
  assert (Ht : forall n m l, n <= m -> Py.take n (Py.take m l) = Py.take n l).
  { induction n as [|n IH]; intros m l Hle; [reflexivity|].
    destruct m as [|m]; [lia|]. destruct l as [|b l]; [reflexivity|].
    simpl. rewrite IH by lia. reflexivity. }
  assert (Heq : IdocSpec.selected field_path line1 = IdocSpec.selected field_path line2).
  { unfold IdocSpec.selected. rewrite H.
    rewrite (Hs "E1" line1), (Hs "E2" line1), (Hs "E1" line2), (Hs "E2" line2).
    cbn [String.length].
    rewrite <- (Ht 2 6 line1), <- (Ht 2 6 line2), H by lia. reflexivity. }
  split; [assumption|]. split.
  - intros Hsel mode. rewrite IdocLines.process_line_cases, Hsel. reflexivity.
  - intros Hsel. rewrite Heq in Hsel.
    rewrite !IdocLines.process_line_cases, Hsel. split; reflexivity.
Qed.

Lemma idoc_selection_reads_six_characters_witness :
  IdocSpec.selected "E1EDK01" "E1EDK01 A" = IdocSpec.selected "E1EDK01" "E1EDK02 B"
  /\ (IdocSpec.selected "E1EDK01" "E1EDK01 A" = false ->
      forall mode, Idoc.process_line "E1EDK01" mode "E1EDK01 A" = "E1EDK01 A")
  /\ (IdocSpec.selected "E1EDK01" "E1EDK01 A" = true ->
      Idoc.process_line "E1EDK01" "remove" "E1EDK02 B"
      = IdocSpec.blank_word_chars "E1EDK02 B"
      /\ Idoc.process_line "E1EDK01" "comment" "E1EDK02 B" = "* commented: " ++ "E1EDK02 B").
Proof.
  apply (idoc_selection_reads_six_characters "E1EDK01" "E1EDK01 A" "E1EDK02 B").
  reflexivity.
Defined.

(** ** More on the tree-of-maps strategy *)

Module PathFacts.
Import Py PathSpec.

Lemma replace_char_map s : replace_char "/" "." s = map_chars dot_for_slash s.
Proof.
  induction s as [|c r IH]; simpl; [reflexivity|].
  unfold dot_for_slash at 1. destruct (Ascii.eqb c "/"); simpl; rewrite IH; reflexivity.
Qed.

Lemma is_empty_map f s : is_empty (map_chars f s) = is_empty s.
Proof. destruct s; reflexivity. Qed.

Lemma map_chars_twice f s :
  (forall c, f (f c) = f c) -> map_chars f (map_chars f s) = map_chars f s.
Proof.
  intros Hf. induction s as [|c r IH]; simpl; [reflexivity|]. rewrite Hf, IH. reflexivity.
Qed.

Lemma lstrip_map p f s :
  (forall c, p (f c) = p c) -> lstrip p (map_chars f s) = map_chars f (lstrip p s).
Proof.
  intros Hf. induction s as [|c r IH]; simpl; [reflexivity|].
  rewrite Hf. destruct (p c); [assumption|reflexivity].
Qed.

Lemma rstrip_map p f s :
  (forall c, p (f c) = p c) -> rstrip p (map_chars f s) = map_chars f (rstrip p s).
Proof.
  intros Hf. induction s as [|c r IH]; simpl; [reflexivity|].
  rewrite IH, is_empty_map, Hf.
  destruct (is_empty (rstrip p r) && p c); reflexivity.
Qed.

Lemma isspace_dot_for_slash c : isspace (dot_for_slash c) = isspace c.
Proof.
  unfold dot_for_slash. destruct (Ascii.eqb_spec c "/") as [->|]; reflexivity.
Qed.

Lemma strip_dot_for_slash s :
  strip (map_chars dot_for_slash s) = map_chars dot_for_slash (strip s).
Proof.
  unfold strip, strip_with.
  rewrite lstrip_map, rstrip_map by apply isspace_dot_for_slash. reflexivity.
Qed.

Lemma dot_for_slash_twice c : dot_for_slash (dot_for_slash c) = dot_for_slash c.
Proof.
  unfold dot_for_slash at 2. destruct (Ascii.eqb_spec c "/") as [->|Hne]; [reflexivity|].
  unfold dot_for_slash. apply Ascii.eqb_neq in Hne. rewrite Hne. reflexivity.
Qed.

Lemma norm_index_in_range {A} (l : list A) (i : Z) :
  (0 <= i < len l)%Z -> norm_index l i = Some (Z.to_nat i).
Proof.
  intros [H0 H1]. unfold norm_index.
  replace (0 <=? i)%Z with true by (symmetry; apply Z.leb_le; assumption).
  replace (i <? len l)%Z with true by (symmetry; apply Z.ltb_lt; assumption).
  reflexivity.
Qed.

End PathFacts.

(** X6. When the tree-of-maps strategy reports that it changed nothing, the
    document is the one it was given: a failed navigation leaves no partial
    edit behind. *)
Theorem json_failure_leaves_document (data data' : json) (field_path mode : string) :
  Tree.process_json_field_removal data field_path mode = Ok (false, data') ->
  data' = data.
Proof.
  unfold Tree.process_json_field_removal.
  destruct (Py.is_empty field_path || Py.is_empty (Py.strip field_path));
    [intros H; inversion H; reflexivity|].
  destruct (Py.is_empty _); [intros H; inversion H; reflexivity|].
  apply TreeFacts.navigate_false.
Qed.

Lemma json_failure_leaves_document_witness :
  Tree.process_json_field_removal (JDict [("order", JDict [("sku", JStr "X1")])])
    "order.qty" "remove"
  = Ok (false, JDict [("order", JDict [("sku", JStr "X1")])])
  /\ JDict [("order", JDict [("sku", JStr "X1")])]
     = JDict [("order", JDict [("sku", JStr "X1")])].
Proof.
  split; [reflexivity|].
  apply (json_failure_leaves_document
           (JDict [("order", JDict [("sku", JStr "X1")])])
           (JDict [("order", JDict [("sku", JStr "X1")])]) "order.qty" "remove").
  reflexivity.
Defined.

(** X7. In a field path of the tree-of-maps strategy [/] and [.] separate
    segments alike: replacing every [/] of the path by [.] changes neither
    the flag nor the mutated document. *)
Theorem json_path_slash_is_dot (data : json) (field_path mode : string) :
  Tree.process_json_field_removal data (Py.replace_char "/" "." field_path) mode
  = Tree.process_json_field_removal data field_path mode.
Proof.
  unfold Tree.process_json_field_removal.
  rewrite !PathFacts.replace_char_map, PathFacts.strip_dot_for_slash.
  rewrite !PathFacts.is_empty_map.
  rewrite PathFacts.map_chars_twice by apply PathFacts.dot_for_slash_twice.
  reflexivity.
Qed.

(** X8. Array elements addressed as [name[index]] at the end of a path, for
    a dictionary that maps [name] to a list.  An index at or beyond the
    length of the list changes nothing and reports no change, in every
    mode.  An index within [0 .. len - 1] is honoured: Remove deletes that
    element and no other, CommentOut puts the string [commented-<str of the
    element>] in its place; the dictionary keeps its other entries and the
    position of [name]. *)
Theorem json_array_index_bounds (d : list (string * json)) (current_key name : string)
  (index : Z) (l : list json) :
  TreeSpec.is_indexed current_key = true ->
  Tree.parse_index current_key = Ok index ->
  hd "" (Py.split "[" current_key) = name ->
  Dict.get name d = Some (JList l) ->
  ((Py.len l <= index)%Z ->
   forall mode, Tree.navigate_and_modify mode (JDict d) [current_key] = Ok (false, JDict d))
  /\ ((0 <= index < Py.len l)%Z ->
      Tree.navigate_and_modify "remove" (JDict d) [current_key]
      = Ok (true, JDict (Dict.set name (JList (delete (Z.to_nat index) l)) d))
      /\ exists x,
           l !! Z.to_nat index = Some x
           /\ Tree.navigate_and_modify "comment" (JDict d) [current_key]
              = Ok (true,
                    JDict (Dict.set name
                             (JList (<[Z.to_nat index := JStr (commented (PyStr.str x))]> l))
                             d))).
Proof.
  intros Hi Hp Hn Hg.
  destruct (DictFacts.get_split _ _ _ Hg) as (d1 & d2 & -> & Hd1).
  assert (Hnav : forall mode,
             Tree.navigate_and_modify mode (JDict (d1 ++ (name, JList l) :: d2)%list) [current_key]
             = Tree.wrap JDict
                 (do r <- TreeSpec.indexed_last mode index (JList l) ;;
                  Ok (fst r, (d1 ++ (name, snd r) :: d2)%list))).
  { intros mode. rewrite (TreeFacts.nav_indexed_last mode current_key _ index Hi Hp), Hn.
    rewrite TreeFacts.on_key_middle by assumption. reflexivity. }
  split.
  - intros Hle mode. rewrite Hnav. unfold TreeSpec.indexed_last.
    replace (index <? Py.len l)%Z with false by (symmetry; apply Z.ltb_ge; assumption).
    reflexivity.
  - intros Hin.
    pose proof (PathFacts.norm_index_in_range l index Hin) as Hnorm.
    assert (Hlt : (index <? Py.len l)%Z = true) by (apply Z.ltb_lt; lia).
    split.
    + rewrite Hnav. unfold TreeSpec.indexed_last. rewrite Hlt.
      change (String.eqb "remove" "remove") with true. cbv iota.
      unfold Py.pop. rewrite Hnorm. cbn [rbind Tree.wrap fst snd].
      rewrite DictFacts.set_middle by assumption. reflexivity.
    + assert (Hx : is_Some (l !! Z.to_nat index)).
      { apply lookup_lt_is_Some. unfold Py.len in Hin. lia. }
      destruct Hx as [x Hx]. exists x. split; [assumption|].
      rewrite Hnav. unfold TreeSpec.indexed_last. rewrite Hlt.
      change (String.eqb "comment" "remove") with false.
      change (String.eqb "comment" "comment") with true. cbv iota.
      unfold Py.getitem, Py.setitem. rewrite Hnorm, Hx. cbn [rbind Tree.wrap fst snd].
      rewrite DictFacts.set_middle by assumption. reflexivity.
Qed.

Lemma json_array_index_bounds_witness :
  ((Py.len [JStr "a"; JStr "b"] <= 1)%Z ->
   forall mode,
     Tree.navigate_and_modify mode (JDict [("items", JList [JStr "a"; JStr "b"])])
       ["items[1]"]
     = Ok (false, JDict [("items", JList [JStr "a"; JStr "b"])]))
  /\ ((0 <= 1 < Py.len [JStr "a"; JStr "b"])%Z ->
      Tree.navigate_and_modify "remove" (JDict [("items", JList [JStr "a"; JStr "b"])])
        ["items[1]"]
      = Ok (true,
            JDict (Dict.set "items" (JList (delete (Z.to_nat 1) [JStr "a"; JStr "b"]))
                     [("items", JList [JStr "a"; JStr "b"])]))
      /\ exists x,
           [JStr "a"; JStr "b"] !! Z.to_nat 1 = Some x
           /\ Tree.navigate_and_modify "comment"
                (JDict [("items", JList [JStr "a"; JStr "b"])]) ["items[1]"]
              = Ok (true,
                    JDict (Dict.set "items"
                             (JList (<[Z.to_nat 1 := JStr (commented (PyStr.str x))]>
                                       [JStr "a"; JStr "b"]))
                             [("items", JList [JStr "a"; JStr "b"])]))).
Proof.
  apply (json_array_index_bounds [("items", JList [JStr "a"; JStr "b"])] "items[1]" "items"
           1 [JStr "a"; JStr "b"]); reflexivity.
Defined.

(** X9. In a list, the tree-of-maps strategy mutates the first item in which
    the path leads to the field and stops: the items before it are left as
    they are, and so are the items after it, whether they hold the field or
    not. *)
Theorem json_list_first_match_only (mode current_key : string) (rest : list string)
  (l1 : list json) (x x' : json) (l2 : list json) :
  TreeSpec.is_indexed current_key = false ->
  Forall (fun y => exists y',
            Tree.navigate_and_modify mode y (current_key :: rest) = Ok (false, y')) l1 ->
  Tree.navigate_and_modify mode x (current_key :: rest) = Ok (true, x') ->
  Tree.navigate_and_modify mode (JList (l1 ++ x :: l2)%list) (current_key :: rest)
  = Ok (true, JList (l1 ++ x' :: l2)%list).
Proof.
  intros Hi Hl1 Hx.
  rewrite TreeFacts.nav_list by assumption.
  rewrite (TreeFacts.first_success_middle _ l1 x l2 x'); [reflexivity| |assumption].
  eapply Forall_impl; [eassumption|].
  intros y [y' Hy]. cbv beta.
  rewrite Hy. f_equal. f_equal. eapply TreeFacts.navigate_false; eassumption.
Qed.

Lemma json_list_first_match_only_witness :
  Tree.navigate_and_modify "remove"
    (JList ([JDict [("b", JInt 0)]] ++ JDict [("a", JInt 1)] :: [JDict [("a", JInt 2)]])%list)
    ("a" :: [])
  = Ok (true, JList ([JDict [("b", JInt 0)]] ++ JDict [] :: [JDict [("a", JInt 2)]])%list).
Proof.
  apply json_list_first_match_only.
  - reflexivity.
  - repeat constructor. exists (JDict [("b", JInt 0)]). reflexivity.
  - reflexivity.
Defined.

(** ** File names of the unified generator *)

Module NameFacts.
Import Py PySpec PyFacts NameSpec.

Lemma to_int_normal z : Decimal.norm (Z.to_int z) = Z.to_int z.
Proof. rewrite <- DecimalZ.to_of, DecimalZ.of_to. reflexivity. Qed.

Lemma str_int_inj z1 z2 : PyStr.str_int z1 = PyStr.str_int z2 -> z1 = z2.
Proof.
  unfold PyStr.str_int. intros H.
  assert (Hn : forall z, Z.to_int z <> Decimal.Pos Decimal.Nil
                         /\ Z.to_int z <> Decimal.Neg Decimal.Nil).
  { intros z. pose proof (to_int_normal z) as Hz.
    split; intros E; rewrite E in Hz; discriminate. }
  apply DecimalZ.to_int_inj.
  assert (E : Some (Z.to_int z1) = Some (Z.to_int z2)).
  { rewrite <- (NilZero.isi (Z.to_int z1)), <- (NilZero.isi (Z.to_int z2)) by apply Hn.
    rewrite H. reflexivity. }
  congruence.
Qed.

Lemma digits_of_uint u : all_chars is_decimal (NilZero.string_of_uint u) = true.
Proof.
  assert (H : forall d, all_chars is_decimal (NilEmpty.string_of_uint d) = true).
  { induction d; simpl; try rewrite IHd; reflexivity. }
  destruct u; try apply H. reflexivity.
Qed.

Lemma leading_zero u r :
  Decimal.unorm u = u -> NilZero.string_of_uint u = String "0" r -> r = "".
Proof.
  intros Hu H. destruct u as [|u'| | | | | | | | |]; try discriminate.
  simpl in H. injection H as <-.
  rewrite DecimalFacts.unorm_D0 in Hu.
  destruct (Decimal.nzhead u') eqn:E;
    try (exfalso; rewrite DecimalFacts.unorm_nzhead in Hu by congruence;
         eapply DecimalFacts.nzhead_nonzero; eassumption).
  assert (E0 : Decimal.unorm u' = Decimal.D0 Decimal.Nil)
    by (apply DecimalFacts.unorm_0; assumption).
  rewrite E0 in Hu. injection Hu as <-. reflexivity.
Qed.

(** The decimal text of a natural number: digits only, not empty, no
    leading zero but for [0] itself. *)
Lemma str_int_nat n :
  exists u, PyStr.str_int (Z.of_nat n) = NilZero.string_of_uint u
            /\ Decimal.unorm u = u.
Proof.
  unfold PyStr.str_int. pose proof (to_int_normal (Z.of_nat n)) as Hn.
  destruct (Z.of_nat n) eqn:E; try lia.
  - exists (Decimal.D0 Decimal.Nil). split; reflexivity.
  - exists (Pos.to_uint p). split; [reflexivity|].
    simpl in Hn. congruence.
Qed.

Lemma str_int_nat_digits n : all_chars is_decimal (PyStr.str_int (Z.of_nat n)) = true.
Proof. destruct (str_int_nat n) as (u & -> & _). apply digits_of_uint. Qed.

Lemma str_int_nat_not_empty n : PyStr.str_int (Z.of_nat n) <> "".
Proof.
  destruct (str_int_nat n) as (u & -> & Hu).
  destruct u; discriminate.
Qed.

Lemma strip_zeros_str_int n :
  lstrip is_zero (PyStr.str_int (Z.of_nat n))
  = if String.eqb (PyStr.str_int (Z.of_nat n)) "0" then ""
    else PyStr.str_int (Z.of_nat n).
Proof.
  pose proof (str_int_nat_not_empty n) as Hne.
  destruct (str_int_nat n) as (u & E & Hu). rewrite E in *.
  destruct (NilZero.string_of_uint u) as [|c r] eqn:Es; [congruence|].
  cbn [lstrip]. unfold is_zero at 1.
  destruct (Ascii.eqb_spec c "0") as [->|Hc].
  - rewrite (leading_zero u r Hu Es). reflexivity.
  - replace (String.eqb (String c r) "0") with false; [reflexivity|].
    symmetry. apply String.eqb_neq. congruence.
Qed.

Lemma strip_zeros_format n :
  lstrip is_zero (Generator.format_03d n) = lstrip is_zero (PyStr.str_int (Z.of_nat n)).
Proof.
  unfold Generator.format_03d.
  destruct (String.length _) as [|[|[|k]]]; reflexivity.
Qed.

Lemma format_03d_inj i j : Generator.format_03d i = Generator.format_03d j -> i = j.
Proof.
  intros H. apply (f_equal (lstrip is_zero)) in H.
  rewrite !strip_zeros_format, !strip_zeros_str_int in H.
  apply Nat2Z.inj, str_int_inj.
  pose proof (str_int_nat_not_empty i). pose proof (str_int_nat_not_empty j).
  destruct (String.eqb_spec (PyStr.str_int (Z.of_nat i)) "0") as [Ei|Ei];
    destruct (String.eqb_spec (PyStr.str_int (Z.of_nat j)) "0") as [Ej|Ej];
    congruence.
Qed.

Lemma all_chars_contains p c s :
  p c = false -> all_chars p s = true -> contains c s = false.
Proof.
  intros Hc. induction s as [|d r IH]; simpl; [reflexivity|].
  intros H. apply andb_true_iff in H as [Hd Hr]. rewrite IH by assumption.
  destruct (Ascii.eqb_spec d c) as [->|]; [congruence|reflexivity].
Qed.

Lemma all_chars_app p s1 s2 :
  all_chars p (s1 ++ s2) = all_chars p s1 && all_chars p s2.
Proof.
  induction s1 as [|c r IH]; simpl; [reflexivity|]. rewrite IH. apply andb_assoc.
Qed.

Lemma format_03d_digits n : all_chars is_decimal (Generator.format_03d n) = true.
Proof.
  unfold Generator.format_03d. pose proof (str_int_nat_digits n) as H.
  destruct (String.length _) as [|[|[|k]]]; try assumption;
    rewrite all_chars_app, H; reflexivity.
Qed.

Lemma append_inv_head (p s1 s2 : string) : p ++ s1 = p ++ s2 -> s1 = s2.
Proof. induction p as [|c r IH]; simpl; [auto|]. intros H. injection H. auto. Qed.

Lemma append_inv_tail (t s1 s2 : string) : s1 ++ t = s2 ++ t -> s1 = s2.
Proof.
  revert s2. induction s1 as [|a r IH]; intros s2 H.
  - destruct s2 as [|b r2]; [reflexivity|].
    apply (f_equal String.length) in H. rewrite !IdocFacts.length_app in H.
    simpl in H. lia.
  - destruct s2 as [|b r2].
    + apply (f_equal String.length) in H. rewrite !IdocFacts.length_app in H.
      simpl in H. lia.
    + simpl in H. injection H as -> H. f_equal. apply IH. assumption.
Qed.

(** The last part of a split is what follows the last separator. *)
Lemma split_snoc c s p :
  contains c p = false -> split c (s ++ String c p) = (split c s ++ [p])%list.
Proof.
  intros Hp. induction s as [|a r IH].
  - simpl. rewrite Ascii.eqb_refl, split_free_id by assumption. reflexivity.
  - cbn [String.append split]. rewrite IH.
    destruct (Ascii.eqb a c); [reflexivity|].
    pose proof (split_not_nil c r) as Hn.
    destruct (split c r) as [|h t]; [congruence|reflexivity].
Qed.

(** A file name determines the number it was given. *)
Lemma output_filename_index cfg prefix i f j g :
  Generator.output_filename cfg prefix i f = Generator.output_filename cfg prefix j g ->
  i = j.
Proof.
  unfold Generator.output_filename. intros H.
  apply append_inv_head in H.
  assert (E : forall s p t : string, s ++ "_" ++ p ++ t = (s ++ String "_" p) ++ t).
  { intros s p t. rewrite IdocFacts.append_assoc. reflexivity. }
  rewrite !E in H. apply append_inv_tail in H.
  apply (f_equal (split "_")) in H.
  rewrite !split_snoc in H
    by (eapply all_chars_contains; [|apply format_03d_digits]; reflexivity).
  apply app_inj_tail in H as [_ H].
  apply format_03d_inj. assumption.
Qed.

Section Loop.
Variable ET : ElementTree.
Variable json_loads : string -> result json.
Variable json_dumps : json -> string.
Variables (cfg : config) (file_format modification_mode prefix max_content : string).

Let loop := Generator.generate_loop ET json_loads json_dumps cfg file_format
              modification_mode prefix max_content.

Lemma loop_names target_fields :
  forall i name,
    name ∈ map fst (loop i target_fields) ->
    exists f j, i <= j /\ name = Generator.output_filename cfg prefix j f.
Proof.
  induction target_fields as [|f rest IH]; intros i name Hin.
  - inversion Hin.
  - unfold loop in Hin. cbn [Generator.generate_loop] in Hin.
    rewrite map_app in Hin. apply elem_of_app in Hin as [Hin|Hin].
    + destruct (Generator.modified_content _ _ _ _ _ _ _) as [[content|]|];
        try (inversion Hin; fail).
      apply list_elem_of_singleton in Hin. exists f, i. split; [lia|assumption].
    + destruct (IH (S i) name Hin) as (g & j & Hj & E).
      exists g, j. split; [lia|assumption].
Qed.

Lemma loop_names_distinct target_fields :
  forall i, NoDup (map fst (loop i target_fields)).
Proof.
  induction target_fields as [|f rest IH]; intros i; [constructor|].
  unfold loop. cbn [Generator.generate_loop]. rewrite map_app.
  destruct (Generator.modified_content _ _ _ _ _ _ _) as [[content|]|];
    try (apply IH).
  cbn [map app fst]. constructor; [|apply IH].
  intros Hin. apply loop_names in Hin as (g & j & Hj & E).
  apply output_filename_index in E. lia.
Qed.

Lemma loop_length target_fields :
  forall i, length (loop i target_fields) <= length target_fields.
Proof.
  induction target_fields as [|f rest IH]; intros i; [reflexivity|].
  unfold loop. cbn [Generator.generate_loop]. rewrite length_app.
  specialize (IH (S i)). unfold loop in IH.
  destruct (Generator.modified_content _ _ _ _ _ _ _) as [[content|]|];
    cbn [length]; lia.
Qed.

End Loop.

Lemma map_chars_all (p : ascii -> bool) f s :
  (forall c, p (f c) = true) -> all_chars p (map_chars f s) = true.
Proof.
  intros Hf. induction s as [|c r IH]; simpl; [reflexivity|]. rewrite Hf, IH. reflexivity.
Qed.

Lemma map_chars_fixed (p : ascii -> bool) f s :
  (forall c, p c = true -> f c = c) -> all_chars p s = true -> map_chars f s = s.
Proof.
  intros Hf. induction s as [|c r IH]; simpl; [reflexivity|].
  intros H. apply andb_true_iff in H as [Hc Hr]. rewrite Hf, IH by assumption. reflexivity.
Qed.

End NameFacts.

(** X10. No two files written by one run of the unified generator have the
    same name, so no fixture overwrites another; and a run writes at most
    one file per selected field. *)
Theorem generator_file_names_distinct (ET : ElementTree)
  (json_loads : string -> result json) (json_dumps : json -> string) (cfg : config)
  (file_format modification_mode prefix max_content : string) (i : nat)
  (target_fields : list field) :
  NoDup (map fst (Generator.generate_loop ET json_loads json_dumps cfg file_format
                    modification_mode prefix max_content i target_fields))
  /\ length (Generator.generate_loop ET json_loads json_dumps cfg file_format
               modification_mode prefix max_content i target_fields)
     <= length target_fields.
Proof.
  split; [apply NameFacts.loop_names_distinct|apply NameFacts.loop_length].
Qed.

(** X11. The sanitised field name used in a file name has the length of the
    element name and holds only word characters and hyphens (so neither a
    path separator nor a dot); an element name made of such characters is
    used as it is. *)
Theorem safe_name_is_safe (name : string) :
  String.length (Generator.safe_name name) = String.length name
  /\ Py.all_chars (fun c => Py.is_word c || Py.is_code 45 c) (Generator.safe_name name) = true
  /\ Py.contains "/" (Generator.safe_name name) = false
  /\ Py.contains "." (Generator.safe_name name) = false
  /\ (Py.all_chars (fun c => Py.is_word c || Py.is_code 45 c) name = true ->
      Generator.safe_name name = name).
Proof.
  assert (Hall : Py.all_chars (fun c => Py.is_word c || Py.is_code 45 c)
                   (Generator.safe_name name) = true).
  { apply NameFacts.map_chars_all. intros c.
    destruct (Py.is_word c || Py.is_code 45 c || Py.is_code 95 c) eqn:E; [|reflexivity].
    apply orb_true_iff in E as [E|E]; [assumption|].
    unfold Py.is_code in E. apply N.eqb_eq in E.
    unfold Py.is_word, Py.is_code, Py.in_range. rewrite E. reflexivity. }
  split; [apply IdocFacts.length_map_chars|].
  split; [assumption|].
  split; [eapply NameFacts.all_chars_contains; [|eassumption]; reflexivity|].
  split; [eapply NameFacts.all_chars_contains; [|eassumption]; reflexivity|].
  intros H. eapply NameFacts.map_chars_fixed; [|eassumption].
  intros c Hc. cbv beta in Hc. rewrite Hc. reflexivity.
Qed.

Module FormatFacts.

Ltac listed := repeat first [apply list_elem_of_here | apply list_elem_of_further].

Ltac not_listed H :=
  repeat (apply elem_of_cons in H as [H|H]; [discriminate H|]); inversion H.

Ltac settled :=
  repeat split;
  first [solve [listed] | reflexivity
        | let H := fresh in intros H; first [intros; reflexivity | solve [not_listed H]]].

Lemma take_take n s : Py.take n (Py.take n s) = Py.take n s.
Proof.
  revert s. induction n as [|n IH]; intros s; [reflexivity|].
  destruct s as [|c r]; [reflexivity|]. simpl. rewrite IH. reflexivity.
Qed.


End FormatFacts.


(** X13. Format detection of the sample.  The answer is one of six names;
    the content is read only for a path that ends in [.txt] and none of
    [.json], [.xml], [.edi], and then only its first hundred characters
    count; so [EDIFACT] and [IDOC] are only ever answered for a [.txt]
    file. *)
Theorem detect_file_format_reads_little (file_path content : string) :
  Generator.detect_file_format file_path content
    ∈ ["JSON"; "XML"; "EDI-X12"; "EDIFACT"; "IDOC"; "UNKNOWN"]
  /\ Generator.detect_file_format file_path (Py.take 100 content)
     = Generator.detect_file_format file_path content
  /\ (Py.endswith file_path ".json" || Py.endswith file_path ".xml"
      || Py.endswith file_path ".edi" || negb (Py.endswith file_path ".txt") = true ->
      forall content',
        Generator.detect_file_format file_path content'
        = Generator.detect_file_format file_path content)
  /\ (Generator.detect_file_format file_path content ∈ ["EDIFACT"; "IDOC"] ->
      Py.endswith file_path ".txt" = true).
Proof.
  unfold Generator.detect_file_format.
  rewrite FormatFacts.take_take.
  destruct (Py.endswith file_path ".json");
    [FormatFacts.settled|].
  destruct (Py.endswith file_path ".xml");
    [FormatFacts.settled|].
  destruct (Py.endswith file_path ".edi");
    [FormatFacts.settled|].
  destruct (Py.endswith file_path ".txt");
    [|FormatFacts.settled].
  split; [|split; [reflexivity|split; [discriminate|reflexivity]]].
  destruct (_ || _); [FormatFacts.listed|].
  destruct (_ || _); [FormatFacts.listed|].
  destruct (_ || _); FormatFacts.listed.
Qed.

(** ** [Required.py]: what the mutator answers and what it changes *)

Module LegacyFacts.
Import Heap HeapSpec HeapFacts Required RequiredSpec RequiredFacts LegacySpec.

Lemma read_items_inv (f : hval -> result json) d items :
  read_items f d = Ok items ->
  map fst items = map fst d /\ read_list f (map snd d) = Ok (map snd items).
Proof.
  revert items. induction d as [|[k v] t IH]; intros items H; simpl in *.
  - inversion H; subst. split; reflexivity.
  - destruct (f v) as [j|]; [|discriminate]. simpl in *.
    destruct (read_items f t) as [js|]; [|discriminate]. simpl in *.
    inversion H; subst. destruct (IH js eq_refl) as [E1 E2].
    simpl. rewrite E1, E2. split; reflexivity.
Qed.

Lemma has_same_keys {A B} k (d : list (string * A)) (d' : list (string * B)) :
  map fst d = map fst d' -> Dict.has k d = Dict.has k d'.
Proof.
  unfold Dict.has. revert d'. induction d as [|[k1 v1] t IH]; intros [|[k2 v2] t'] H;
    try discriminate; [reflexivity|].
  simpl in H. injection H as -> H. simpl.
  destruct (String.eqb k k2); [reflexivity|]. apply IH. assumption.
Qed.

Lemma existsb_values k (items : list (string * json)) :
  existsb (fun kv => holds_key k (snd kv)) items = existsb (holds_key k) (map snd items).
Proof. induction items as [|kv t IH]; simpl; [reflexivity|]. rewrite IH. reflexivity. Qed.

Lemma first_true_false rec :
  (forall h v h' evs, rec h v = Ok (h', false, evs) -> h' = h) ->
  forall vs h h' evs, first_true rec vs h = Ok (h', false, evs) -> h' = h.
Proof.
  intros Hrec. induction vs as [|v t IH]; intros h h' evs H; simpl in H.
  - inversion H; reflexivity.
  - destruct (rec h v) as [[[h1 b] evs1]|] eqn:Ev; [|discriminate]. simpl in H.
    destruct b; [discriminate|].
    apply Hrec in Ev. subst h1.
    destruct (first_true rec t h) as [[[h2 b'] evs2]|] eqn:Et; [|discriminate].
    simpl in H. inversion H; subst. eapply IH; eassumption.
Qed.

(** A call that answers [False] has changed nothing. *)
Lemma find_false_unchanged key mode n :
  forall h v h' evs, find_and_modify_keys n key mode h v = Ok (h', false, evs) -> h' = h.
Proof.
  induction n as [|n IH]; intros h v h' evs H; destruct v;
    try (inversion H; reflexivity); try discriminate.
  cbn [find_and_modify_keys] in H.
  destruct (h !! l) as [[vs|d]|]; [| |discriminate].
  - eapply first_true_false; eassumption.
  - destruct (Dict.has key d); [|eapply first_true_false; eassumption].
    destruct (String.eqb mode "remove"); [discriminate|].
    destruct (String.eqb mode "comment"); discriminate.
Qed.

Lemma first_true_flag key n rec :
  (forall h v h' evs, rec h v = Ok (h', false, evs) -> h' = h) ->
  (forall h v h' b evs j,
      rec h v = Ok (h', b, evs) -> read n h v = Ok j -> b = holds_key key j) ->
  forall vs h h' b evs js,
    first_true rec vs h = Ok (h', b, evs) ->
    read_list (read n h) vs = Ok js ->
    b = existsb (holds_key key) js.
Proof.
  intros Hfalse Hrec. induction vs as [|v t IH]; intros h h' b evs js H Hr; simpl in *.
  - inversion H; inversion Hr; subst. reflexivity.
  - destruct (rec h v) as [[[h1 b1] evs1]|] eqn:Ev; [|discriminate]. simpl in H.
    destruct (read n h v) as [j|] eqn:Ej; [|discriminate]. simpl in Hr.
    destruct (read_list (read n h) t) as [js'|] eqn:Ejs; [|discriminate]. simpl in Hr.
    inversion Hr; subst js. simpl.
    rewrite <- (Hrec _ _ _ _ _ _ Ev Ej).
    destruct b1; [inversion H; reflexivity|].
    apply Hfalse in Ev. subst h1.
    destruct (first_true rec t h) as [[[h2 b2] evs2]|] eqn:Et; [|discriminate].
    simpl in H. inversion H; subst. simpl. eapply IH; eassumption.
Qed.

Lemma required_find_flag key mode n :
  forall h v h' b evs j,
    find_and_modify_keys n key mode h v = Ok (h', b, evs) ->
    read n h v = Ok j ->
    b = holds_key key j.
Proof.
  induction n as [|n IH]; intros h v h' b evs j H Hr; destruct v;
    try (inversion H; inversion Hr; reflexivity); try discriminate.
  cbn [find_and_modify_keys] in H. cbn [read] in Hr.
  destruct (h !! l) as [[vs|d]|]; [| |discriminate].
  - apply rmap_inv in Hr as (js & Hjs & ->). simpl.
    eapply first_true_flag; [apply find_false_unchanged|apply IH|eassumption..].
  - apply rmap_inv in Hr as (items & Hitems & ->).
    apply read_items_inv in Hitems as [Hkeys Hvalues].
    cbn [holds_key]. rewrite (has_same_keys key items d Hkeys).
    destruct (Dict.has key d).
    + destruct (String.eqb mode "remove"); [inversion H; reflexivity|].
      destruct (String.eqb mode "comment"); inversion H; reflexivity.
    + rewrite existsb_values. simpl.
      eapply first_true_flag; [apply find_false_unchanged|apply IH|eassumption..].
Qed.

Lemma first_true_true (P : heap -> heap -> Prop) rec :
  (forall h v h' evs, rec h v = Ok (h', false, evs) -> h' = h) ->
  (forall h v h' evs, rec h v = Ok (h', true, evs) -> P h h') ->
  forall vs h h' evs, first_true rec vs h = Ok (h', true, evs) -> P h h'.
Proof.
  intros Hfalse Htrue. induction vs as [|v t IH]; intros h h' evs H; simpl in H.
  - discriminate.
  - destruct (rec h v) as [[[h1 b1] evs1]|] eqn:Ev; [|discriminate]. simpl in H.
    destruct b1; [inversion H; subst; eapply Htrue; eassumption|].
    apply Hfalse in Ev. subst h1.
    destruct (first_true rec t h) as [[[h2 b2] evs2]|] eqn:Et; [|discriminate].
    simpl in H. inversion H; subst. eapply IH; eassumption.
Qed.

Lemma find_true_effect key mode n :
  forall h v h' evs,
    find_and_modify_keys n key mode h v = Ok (h', true, evs) ->
    exists l d,
      h !! l = Some (HDict d) /\ Dict.has key d = true
      /\ h' = <[l := HDict (TreeSpec.key_op mode key d)]> h.
Proof.
  set (P := fun h h' : heap =>
              exists l d,
                h !! l = Some (HDict d) /\ Dict.has key d = true
                /\ h' = <[l := HDict (TreeSpec.key_op mode key d)]> h).
  induction n as [|n IH]; intros h v h' evs H; destruct v; try discriminate.
  cbn [find_and_modify_keys] in H.
  destruct (h !! l) as [[vs|d]|] eqn:El; [| |discriminate].
  - eapply (first_true_true P); [apply find_false_unchanged|apply IH|eassumption].
  - destruct (Dict.has key d) eqn:Ehas.
    + exists l, d. split; [assumption|]. split; [assumption|].
      unfold TreeSpec.key_op.
      destruct (String.eqb mode "remove"); [inversion H; reflexivity|].
      destruct (String.eqb mode "comment"); inversion H; subst; [reflexivity|].
      symmetry. apply list_insert_id. assumption.
    + eapply (first_true_true P); [apply find_false_unchanged|apply IH|eassumption].
Qed.

End LegacyFacts.

(** X14. What [find_and_modify_keys] of [Required.py] answers: on data that
    [json.dumps] can write, the call returns, and it returns [True] exactly
    when the key is a key of some dictionary of the data, at any depth; the
    mode plays no part in the answer. *)
Theorem required_flag_tells_key_present (fuel : nat) (key mode : string)
  (h : list Heap.hobj) (data : Heap.hval) (j : json) :
  Heap.read fuel h data = Ok j ->
  exists h' evs,
    Required.find_and_modify_keys fuel key mode h data
    = Ok (h', LegacySpec.holds_key key j, evs).
Proof.
  intros Hr.
  destruct (RequiredFacts.find_ok key mode fuel h data (ex_intro _ j Hr))
    as (h' & b & evs & Hf & _).
  exists h', evs. rewrite Hf.
  rewrite (LegacyFacts.required_find_flag _ _ _ _ _ _ _ _ _ Hf Hr). reflexivity.
Qed.

Lemma required_flag_tells_key_present_witness :
  exists h' evs,
    Required.find_and_modify_keys 2 "sku" "remove"
      [Heap.HDict [("sku", Heap.HStr "X1")]; Heap.HDict [("order", Heap.HRef 0)]]
      (Heap.HRef 1)
    = Ok (h', LegacySpec.holds_key "sku" (JDict [("order", JDict [("sku", JStr "X1")])]),
          evs).
Proof.
  apply (required_flag_tells_key_present 2 "sku" "remove"
           [Heap.HDict [("sku", Heap.HStr "X1")]; Heap.HDict [("order", Heap.HRef 0)]]
           (Heap.HRef 1)).
  reflexivity.
Defined.

(** X15. What [find_and_modify_keys] of [Required.py] changes: a call that
    returns [False] leaves every object as it was; a call that returns
    [True] has changed exactly one dictionary, one that holds the key: the
    key is deleted from it in remove mode, renamed to [commented-<key>] in
    comment mode, and in any other mode the dictionary is left as it was. *)
Theorem required_mutator_changes_one_dictionary (fuel : nat) (key mode : string)
  (h : list Heap.hobj) (data : Heap.hval) (h' : list Heap.hobj) (b : bool)
  (evs : list event) :
  Required.find_and_modify_keys fuel key mode h data = Ok (h', b, evs) ->
  if b then
    exists l d,
      h !! l = Some (Heap.HDict d) /\ Dict.has key d = true
      /\ h' = <[l := Heap.HDict (TreeSpec.key_op mode key d)]> h
  else h' = h.
Proof.
  intros H. destruct b.
  - eapply LegacyFacts.find_true_effect; eassumption.
  - eapply LegacyFacts.find_false_unchanged; eassumption.
Qed.

Lemma required_mutator_changes_one_dictionary_witness :
  exists l d,
    [Heap.HDict [("sku", Heap.HStr "X1")]; Heap.HDict [("order", Heap.HRef 0)]] !! l
    = Some (Heap.HDict d)
    /\ Dict.has "sku" d = true
    /\ [Heap.HDict [("commented-sku", Heap.HStr "X1")]; Heap.HDict [("order", Heap.HRef 0)]]
       = <[l := Heap.HDict (TreeSpec.key_op "comment" "sku" d)]>
           [Heap.HDict [("sku", Heap.HStr "X1")]; Heap.HDict [("order", Heap.HRef 0)]].
Proof.
  apply (required_mutator_changes_one_dictionary 2 "sku" "comment"
           [Heap.HDict [("sku", Heap.HStr "X1")]; Heap.HDict [("order", Heap.HRef 0)]]
           (Heap.HRef 1)
           [Heap.HDict [("commented-sku", Heap.HStr "X1")]; Heap.HDict [("order", Heap.HRef 0)]]
           true [Commented "sku"]).
  reflexivity.
Defined.

(** ** [Required.py]: the files and the manifest of a run *)

Module RequiredFiles.
Import Heap HeapSpec HeapFacts Required RequiredSpec RequiredFacts LegacySpec LegacyFacts.
Import Occurrence OccurrenceFacts GeneratorSpec.

Lemma not_empty_app {A} (l1 l2 : list A) :
  not_empty (l1 ++ l2)%list = not_empty l1 || not_empty l2.
Proof. destruct l1; reflexivity. Qed.

Lemma first_exception_cons exception item rest :
  first_exception exception (item :: rest)
  = match exception item with
    | Some e => Some e
    | None => first_exception exception rest
    end.
Proof. unfold first_exception. simpl. destruct (exception item); reflexivity. Qed.

(** A run that meets no exception gets to every entry. *)
Lemma reached_all exception items :
  Forall (fun item => exception item = None) items ->
  first_exception exception items = None /\ reached exception items = items.
Proof.
  induction 1 as [|item rest Hitem _ [IH1 IH2]]; [split; reflexivity|].
  rewrite first_exception_cons. cbn [reached]. rewrite Hitem, IH2. auto.
Qed.

(** A run that meets an exception gets to the entries before it. *)
Lemma reached_until exception before item after e :
  Forall (fun item => exception item = None) before ->
  exception item = Some e ->
  first_exception exception (before ++ item :: after)%list = Some e
  /\ reached exception (before ++ item :: after)%list = (before ++ [item])%list.
Proof.
  intros HF He. induction HF as [|x t Hx _ [IH1 IH2]]; cbn [app].
  - rewrite first_exception_cons. cbn [reached]. rewrite He. auto.
  - rewrite first_exception_cons. cbn [reached]. rewrite Hx, IH2. auto.
Qed.

Section Run.
Variable open_w : string -> result unit.
Variables (mode prefix : string) (max_json : json).

Let B : heap := fst (build max_json 0).
Let v0 : hval := snd (build max_json 0).
Local Abbreviation sample_intact := (RequiredSpec.sample_intact max_json).
Local Abbreviation fixture := (RequiredSpec.fixture open_w mode prefix max_json).
Local Abbreviation exception := (required_exception open_w prefix max_json).
Local Abbreviation present := (required_and_present max_json).

(** The mutator on the copy of the sample: it returns, it tells whether the
    key occurs in the sample, and the copy can still be read. *)
Lemma copy_flag key :
  exists B' evs content,
    find_and_modify_keys (length B) key mode B v0 = Ok (B', holds_key key max_json, evs)
    /\ read (length B') B' v0 = Ok content
    /\ length B' = length B
    /\ found_keys evs = [].
Proof.
  destruct (RequiredRun.copy_mutated mode max_json key)
    as (B' & b & evs & content & Hf & Hc & Hlen).
  fold B v0 in Hf, Hc, Hlen.
  pose proof (required_find_flag _ _ _ _ _ _ _ _ _ Hf
                (RequiredRun.sample_intact_start max_json)) as Hb.
  subst b. exists B', evs, content. repeat split; try assumption.
  eapply RequiredEvents.find_events. eassumption.
Qed.

(** The file written for an entry of the specification: none unless the
    entry is required, its key is in the sample and the file is taken. *)
Lemma fixture_shape item :
  exists content,
    fixture item
    = if present item
      then match open_w (output_file prefix (fst item)) with
           | Ok _ => [(output_file prefix (fst item), content)]
           | Raise _ => []
           end
      else [].
Proof.
  destruct item as [key details]. unfold RequiredSpec.fixture, required_and_present.
  cbn [fst snd].
  destruct details as [| | | | | |details]; try (exists JNull; reflexivity).
  unfold required_class. rewrite has_class_in_class.
  destruct (in_class _ _ _); [|exists JNull; reflexivity].
  destruct (copy_flag key) as (B' & evs & content & Hf & Hc & Hlen & _).
  cbv zeta. fold B v0. rewrite Hf, Hc. exists content. cbn [andb].
  destruct (holds_key key max_json); reflexivity.
Qed.

(** One iteration, from a state in which the sample is intact.  It ends as
    [required_exception] tells; the store grows behind what was there; the
    files written are those of [fixture]; the key is recorded when the
    entry is required and its key is in the sample. *)
Lemma step_spec st item :
  sample_intact (store st) ->
  exists st',
    step open_w mode prefix v0 st item = ends (exception item) st'
    /\ (exists x, store st' = (store st ++ x)%list)
    /\ files st' = (files st ++ fixture item)%list
    /\ modified_keys st'
       = (modified_keys st ++ (if present item then [fst item] else []))%list
    /\ found st' = found st || present item
    /\ found_keys (out st')
       = (found_keys (out st)
          ++ (if has_class required_class item then [fst item] else []))%list.
Proof.
  intros Hinv. destruct item as [key details].
  unfold RequiredSpec.fixture, required_exception, required_and_present.
  cbv zeta. fold B v0. cbn [fst snd step].
  assert (Hsame : forall st0 : run_state,
             store st0 = store st -> files st0 = files st ->
             modified_keys st0 = modified_keys st -> found st0 = found st ->
             found_keys (out st0) = found_keys (out st) ->
             exists st',
               Returns st0 = ends None st'
               /\ (exists x, store st' = (store st ++ x)%list)
               /\ files st' = (files st ++ [])%list
               /\ modified_keys st' = (modified_keys st ++ [])%list
               /\ found st' = found st || false
               /\ found_keys (out st') = (found_keys (out st) ++ [])%list).
  { intros st0 H1 H2 H3 H4 H5. exists st0. rewrite !app_nil_r, orb_false_r.
    repeat split; try assumption. exists []. rewrite app_nil_r. assumption. }
  destruct details as [| | | | | |details];
    try (apply Hsame; reflexivity).
  unfold required_class. rewrite has_class_in_class.
  destruct (in_class _ _ _); cbn [andb].
  2:{ apply Hsame; try reflexivity. cbn [out]. rewrite found_keys_app.
      apply app_nil_r. }
  unfold RequiredSpec.sample_intact in Hinv. fold v0 in Hinv. rewrite Hinv.
  cbn [attempt]. rewrite alloc_shift. fold B v0.
  destruct (copy_flag key) as (B' & evs & content & Hf & Hc & Hlen & Hev).
  rewrite find_shift.
  assert (Hle : length B <= length (store st ++ shift_heap (length (store st)) B)%list)
    by (rewrite length_app, length_shift_heap; lia).
  rewrite (find_fuel key mode (length B) _ Hle B v0 _ Hf).
  rewrite Hf, Hc. cbn [lift attempt].
  destruct (holds_key key max_json).
  - unfold refusal. destruct (open_w (output_file prefix key)) as [u|e]; cbn [attempt].
    + unfold dumps. rewrite read_shift.
      assert (Hle' : length B'
                     <= length (store st ++ shift_heap (length (store st)) B')%list)
        by (rewrite length_app, length_shift_heap; lia).
      rewrite (read_fuel (length B') _ B' v0 content Hle' Hc).
      cbn [attempt]. eexists. split; [reflexivity|].
      cbn [store files modified_keys found out].
      split; [eexists; reflexivity|]. split; [reflexivity|]. split; [reflexivity|].
      split; [rewrite orb_true_r; reflexivity|].
      repeat (rewrite found_keys_app || rewrite found_keys_cons).
      rewrite Hev. change (found_keys []) with (@nil string).
      cbn [app]. rewrite ?app_nil_r. reflexivity.
    + eexists. split; [reflexivity|].
      cbn [store files modified_keys found out].
      split; [eexists; reflexivity|]. split; [rewrite app_nil_r; reflexivity|].
      split; [reflexivity|]. split; [rewrite orb_true_r; reflexivity|].
      repeat (rewrite found_keys_app || rewrite found_keys_cons).
      rewrite Hev. change (found_keys []) with (@nil string).
      cbn [app]. rewrite ?app_nil_r. reflexivity.
  - eexists. split; [reflexivity|].
    cbn [store files modified_keys found out].
    split; [eexists; reflexivity|]. rewrite !app_nil_r, orb_false_r.
    split; [reflexivity|]. split; [reflexivity|]. split; [reflexivity|].
    repeat (rewrite found_keys_app || rewrite found_keys_cons).
    rewrite Hev. change (found_keys []) with (@nil string).
    cbn [app]. rewrite ?app_nil_r. reflexivity.
Qed.

(** The loop over the entries. *)
Lemma loop_spec items :
  forall st,
    sample_intact (store st) ->
    exists st',
      loop open_w mode prefix v0 st items = ends (first_exception exception items) st'
      /\ (exists x, store st' = (store st ++ x)%list)
      /\ files st' = (files st ++ flat_map fixture (reached exception items))%list
      /\ modified_keys st'
         = (modified_keys st ++ map fst (select present (reached exception items)))%list
      /\ found st' = found st || not_empty (select present (reached exception items))
      /\ found_keys (out st')
         = (found_keys (out st)
            ++ map fst (select (has_class required_class) (reached exception items)))%list.
Proof.
  induction items as [|item rest IH]; intros st Hinv.
  - exists st. cbn. rewrite !app_nil_r, orb_false_r.
    repeat split. exists []. rewrite app_nil_r. reflexivity.
  - cbn [loop reached]. rewrite first_exception_cons.
    destruct (step_spec st item Hinv)
      as (st1 & -> & [x Hx] & Hfiles & Hkeys & Hfound & Hout).
    destruct (exception item) as [e|] eqn:Ee; cbn [ends and_then].
    + exists st1. split; [reflexivity|]. split; [eauto|].
      cbn [flat_map select map]. rewrite app_nil_r.
      split; [assumption|].
      split; [rewrite Hkeys; destruct (present item); reflexivity|].
      split; [rewrite Hfound; destruct (present item); reflexivity|].
      rewrite Hout. destruct (has_class required_class item); reflexivity.
    + destruct (IH st1) as (st2 & -> & [y Hy] & Hfiles2 & Hkeys2 & Hfound2 & Hout2).
      { rewrite Hx. apply RequiredRun.sample_intact_app. assumption. }
      exists st2. split; [reflexivity|].
      split; [exists (x ++ y)%list; rewrite Hy, Hx, app_assoc; reflexivity|].
      cbn [flat_map select].
      split; [rewrite Hfiles2, Hfiles, app_assoc; reflexivity|].
      split.
      { rewrite Hkeys2, Hkeys, <- app_assoc. destruct (present item); reflexivity. }
      split.
      { rewrite Hfound2, Hfound, <- orb_assoc. destruct (present item); reflexivity. }
      rewrite Hout2, Hout, <- app_assoc.
      destruct (has_class required_class item); reflexivity.
Qed.

(** The whole run: after the loop, the manifest is written when a key was
    recorded. *)
Lemma run_spec spec_data :
  exists st,
    modify_json_and_generate_files open_w mode prefix spec_data max_json
    = ends (match first_exception exception spec_data with
            | Some e => Some e
            | None => if found st then refusal open_w "_modified_keys.txt" else None
            end) st
    /\ (exists x, store st = (B ++ x)%list)
    /\ files st = flat_map fixture (reached exception spec_data)
    /\ modified_keys st = map fst (select present (reached exception spec_data))
    /\ found st = not_empty (select present (reached exception spec_data))
    /\ found_keys (out st)
       = map fst (select (has_class required_class) (reached exception spec_data)).
Proof.
  unfold modify_json_and_generate_files, alloc. cbn [length app fst snd]. fold B v0.
  destruct (loop_spec spec_data
              {| store := B; modified_keys := []; found := false; files := []; out := [] |}
              (RequiredRun.sample_intact_start max_json))
    as (st & -> & Hx & Hfiles & Hkeys & Hfound & Hout).
  cbn [store files modified_keys found out app orb] in *.
  change (found_keys []) with (@nil string) in Hout. cbn [app] in Hout.
  destruct (first_exception exception spec_data) as [e|]; cbn [ends and_then].
  - exists st. auto 10.
  - unfold finish, refusal. destruct (found st) eqn:Ef.
    + destruct (open_w "_modified_keys.txt") as [u|e] eqn:Eo; cbn [attempt].
      * exists {| store := store st; modified_keys := modified_keys st; found := true;
                  files := files st;
                  out := (out st ++ [LogSaved "_modified_keys.txt"])%list |}.
        cbn [store files modified_keys found out ends].
        split; [reflexivity|]. split; [assumption|]. split; [assumption|].
        split; [assumption|]. split; [assumption|].
        rewrite found_keys_app, Hout. apply app_nil_r.
      * exists st. rewrite Ef. cbn [ends]. auto 10.
    + exists {| store := store st; modified_keys := modified_keys st; found := false;
                files := files st; out := (out st ++ [NoModifications])%list |}.
      cbn [store files modified_keys found out ends].
      split; [reflexivity|]. split; [assumption|]. split; [assumption|].
      split; [assumption|]. split; [assumption|].
      rewrite found_keys_app, Hout. apply app_nil_r.
Qed.

(** The names of the files, when no file is refused. *)
Lemma fixture_names items :
  Forall (fun item => exception item = None) items ->
  map fst (flat_map fixture items)
  = map (output_file prefix) (map fst (select present items)).
Proof.
  induction 1 as [|item rest Hitem _ IH]; [reflexivity|].
  cbn [flat_map select]. rewrite map_app, IH.
  destruct (fixture_shape item) as [content ->].
  unfold required_exception, refusal in Hitem.
  destruct (present item); [|reflexivity].
  destruct (open_w (output_file prefix (fst item))); [reflexivity|discriminate].
Qed.

(** With a mode that is neither [remove] nor [comment], the copy is written
    as it was read. *)
Lemma fixture_unknown_mode item :
  String.eqb mode "remove" = false -> String.eqb mode "comment" = false ->
  Forall (fun file => snd file = max_json) (fixture item).
Proof.
  intros Hr Hc. destruct item as [key details]. unfold RequiredSpec.fixture. cbn [fst snd].
  destruct details as [| | | | | |details]; try constructor.
  destruct (in_class _ _ _); [|constructor]. cbv zeta.
  destruct (find_and_modify_keys _ _ _ _ _) as [[[B' b] evs]|] eqn:Hf; [|constructor].
  destruct b; [|constructor].
  destruct (open_w _); [|constructor].
  apply find_true_effect in Hf as (l & d & Hl & _ & ->).
  unfold TreeSpec.key_op. rewrite Hr, Hc, list_insert_id by assumption.
  pose proof (RequiredRun.sample_intact_start max_json) as Hs.
  unfold RequiredSpec.sample_intact, dumps in Hs. rewrite Hs.
  constructor; [reflexivity|constructor].
Qed.

(** No file of the entries is refused. *)
Lemma accepted_no_exception items :
  (forall item, In item items -> present item = true ->
                open_w (output_file prefix (fst item)) = Ok tt) ->
  Forall (fun item => exception item = None) items.
Proof.
  intros H. apply Forall_forall. intros item Hin.
  unfold required_exception, refusal. destruct (present item) eqn:Ep; [|reflexivity].
  rewrite (H item); [reflexivity| |assumption].
  apply list_elem_of_In. assumption.
Qed.

End Run.

End RequiredFiles.

(** X16. A run of [Required.py], end to end, in a file system that takes
    every file of the run.  The run returns; the keys it records are exactly
    the keys of the entries of the specification that are required ([1...1]
    or [1...*]) and occur as a key somewhere in the sample, in the order of
    the specification; it writes one file [<prefix>MissRE-<key>.json] for
    each of them, in that order, and no other file; and it writes the
    manifest when, and only when, it wrote a file. *)
Theorem required_run_files_and_manifest (open_w : string -> result unit)
  (mode prefix : string) (spec_data : list (string * json)) (max_json : json) :
  (forall item,
      In item spec_data -> LegacySpec.required_and_present max_json item = true ->
      open_w (Required.output_file prefix (fst item)) = Ok tt) ->
  open_w "_modified_keys.txt" = Ok tt ->
  exists st,
    Required.modify_json_and_generate_files open_w mode prefix spec_data max_json
    = Returns st
    /\ modified_keys st
       = map fst (GeneratorSpec.select (LegacySpec.required_and_present max_json) spec_data)
    /\ map fst (files st) = map (Required.output_file prefix) (modified_keys st)
    /\ Required.manifest (Returns st)
       = if LegacySpec.not_empty (files st) then Some (modified_keys st) else None.
Proof.
  intros Hfiles Hmanifest.
  pose proof (RequiredFiles.accepted_no_exception open_w prefix max_json _ Hfiles) as Hnone.
  destruct (RequiredFiles.reached_all _ _ Hnone) as [Hfirst Hreached].
  destruct (RequiredFiles.run_spec open_w mode prefix max_json spec_data)
    as (st & Hrun & _ & Hf & Hkeys & Hfound & _).
  rewrite Hfirst in Hrun. rewrite Hreached in Hf, Hkeys, Hfound.
  unfold LegacySpec.refusal in Hrun. rewrite Hmanifest in Hrun.
  assert (Hnames : map fst (files st)
                   = map (Required.output_file prefix) (modified_keys st)).
  { rewrite Hf, Hkeys. apply RequiredFiles.fixture_names. assumption. }
  exists st. split; [destruct (found st); exact Hrun|].
  split; [assumption|]. split; [assumption|].
  unfold Required.manifest. rewrite Hfound.
  apply (f_equal (@length string)) in Hnames. rewrite !length_map in Hnames.
  rewrite Hkeys in Hnames |- *.
  destruct (GeneratorSpec.select _ spec_data), (files st); try discriminate; reflexivity.
Qed.

Lemma required_run_files_and_manifest_witness :
  exists st,
    Required.modify_json_and_generate_files LegacySpec.flat_directory "remove" "T_"
      [("sku", JDict [("Source Occurs", JStr "1...1")]);
       ("note", JDict [("Source Occurs", JStr "0...1")]);
       ("qty", JDict [("Source Occurs", JStr "1...*")]);
       ("tax", JDict [("Source Occurs", JStr "1...1")])]
      (JDict [("order", JDict [("sku", JStr "X1"); ("qty", JInt 2); ("note", JNull)])])
    = Returns st
    /\ modified_keys st
       = map fst (GeneratorSpec.select
                    (LegacySpec.required_and_present
                       (JDict [("order",
                                JDict [("sku", JStr "X1"); ("qty", JInt 2);
                                       ("note", JNull)])]))
                    [("sku", JDict [("Source Occurs", JStr "1...1")]);
                     ("note", JDict [("Source Occurs", JStr "0...1")]);
                     ("qty", JDict [("Source Occurs", JStr "1...*")]);
                     ("tax", JDict [("Source Occurs", JStr "1...1")])])
    /\ map fst (files st) = map (Required.output_file "T_") (modified_keys st)
    /\ Required.manifest (Returns st)
       = if LegacySpec.not_empty (files st) then Some (modified_keys st) else None.
Proof.
  apply (required_run_files_and_manifest LegacySpec.flat_directory "remove" "T_").
  - intros item Hin _.
    repeat (destruct Hin as [<-|Hin]; [reflexivity|]). destruct Hin.
  - reflexivity.
Defined.

(** X17. With a modification mode that is neither [remove] nor [comment],
    [Required.py] still writes a file for every required key found in the
    sample, and every file holds the sample unchanged (in a file system
    that takes every file of the run). *)
Theorem required_unknown_mode_writes_sample (open_w : string -> result unit)
  (mode prefix : string) (spec_data : list (string * json)) (max_json : json) :
  mode <> "remove" -> mode <> "comment" ->
  (forall item,
      In item spec_data -> LegacySpec.required_and_present max_json item = true ->
      open_w (Required.output_file prefix (fst item)) = Ok tt) ->
  open_w "_modified_keys.txt" = Ok tt ->
  exists st,
    Required.modify_json_and_generate_files open_w mode prefix spec_data max_json
    = Returns st
    /\ map fst (files st)
       = map (Required.output_file prefix)
           (map fst (GeneratorSpec.select (LegacySpec.required_and_present max_json)
                       spec_data))
    /\ Forall (fun file => snd file = max_json) (files st).
Proof.
  intros Hr Hc Hfiles Hmanifest. apply String.eqb_neq in Hr, Hc.
  pose proof (RequiredFiles.accepted_no_exception open_w prefix max_json _ Hfiles) as Hnone.
  destruct (RequiredFiles.reached_all _ _ Hnone) as [Hfirst Hreached].
  destruct (RequiredFiles.run_spec open_w mode prefix max_json spec_data)
    as (st & Hrun & _ & Hf & _).
  rewrite Hfirst in Hrun. rewrite Hreached in Hf.
  unfold LegacySpec.refusal in Hrun. rewrite Hmanifest in Hrun.
  exists st. split; [destruct (found st); exact Hrun|]. rewrite Hf. split.
  - apply RequiredFiles.fixture_names. assumption.
  - apply Forall_flat_map, Forall_forall. intros item _.
    apply RequiredFiles.fixture_unknown_mode; assumption.
Qed.

Lemma required_unknown_mode_writes_sample_witness :
  exists st,
    Required.modify_json_and_generate_files LegacySpec.flat_directory "delete" "T_"
      [("sku", JDict [("Source Occurs", JStr "1...1")])]
      (JDict [("order", JDict [("sku", JStr "X1")])]) = Returns st
    /\ map fst (files st)
       = map (Required.output_file "T_")
           (map fst (GeneratorSpec.select
                       (LegacySpec.required_and_present
                          (JDict [("order", JDict [("sku", JStr "X1")])]))
                       [("sku", JDict [("Source Occurs", JStr "1...1")])]))
    /\ Forall (fun file => snd file = JDict [("order", JDict [("sku", JStr "X1")])])
         (files st).
Proof.
  apply (required_unknown_mode_writes_sample LegacySpec.flat_directory "delete" "T_");
    try discriminate; try reflexivity.
  intros item Hin _. repeat (destruct Hin as [<-|Hin]; [reflexivity|]). destruct Hin.
Defined.

(** X29. [Required.py] stops at the first file it cannot open.  The file
    name holds the key as it is and [open] is not guarded: when the file of
    a required entry whose key is in the sample is refused (as for a key
    that holds a slash, in a directory without subdirectories), the run
    ends there with the exception of [open]; the key is recorded all the
    same, the files of the earlier entries are written, and no entry after
    it is looked at. *)
Theorem required_run_stops_at_refused_file (open_w : string -> result unit)
  (mode prefix : string) (before : list (string * json)) (item : string * json)
  (after : list (string * json)) (max_json : json) (e : pyexn) :
  (forall x,
      In x before -> LegacySpec.required_and_present max_json x = true ->
      open_w (Required.output_file prefix (fst x)) = Ok tt) ->
  LegacySpec.required_and_present max_json item = true ->
  open_w (Required.output_file prefix (fst item)) = Raise e ->
  exists st,
    Required.modify_json_and_generate_files open_w mode prefix
      (before ++ item :: after)%list max_json
    = Raises e st
    /\ modified_keys st
       = (map fst (GeneratorSpec.select (LegacySpec.required_and_present max_json) before)
          ++ [fst item])%list
    /\ map fst (files st)
       = map (Required.output_file prefix)
           (map fst (GeneratorSpec.select (LegacySpec.required_and_present max_json)
                       before))
    /\ Occurrence.found_keys (out st)
       = (map fst (GeneratorSpec.select (Occurrence.has_class Occurrence.required_class)
                     before)
          ++ [fst item])%list.
Proof.
  intros Hbefore Hitem Hopen.
  pose proof (RequiredFiles.accepted_no_exception open_w prefix max_json _ Hbefore) as Hnone.
  assert (He : LegacySpec.required_exception open_w prefix max_json item = Some e).
  { unfold LegacySpec.required_exception, LegacySpec.refusal. rewrite Hitem, Hopen.
    reflexivity. }
  destruct (RequiredFiles.reached_until _ before item after e Hnone He) as [Hfirst Hreached].
  destruct (RequiredFiles.run_spec open_w mode prefix max_json (before ++ item :: after)%list)
    as (st & Hrun & _ & Hf & Hkeys & _ & Hout).
  rewrite Hfirst in Hrun. rewrite Hreached in Hf, Hkeys, Hout.
  exists st. split; [exact Hrun|].
  assert (Hsel : forall p, p item = true ->
             GeneratorSpec.select p (before ++ [item])%list
             = (GeneratorSpec.select p before ++ [item])%list).
  { intros p Hp. clear -Hp. induction before as [|x t IH]; cbn [app GeneratorSpec.select].
    - rewrite Hp. reflexivity.
    - rewrite IH. destruct (p x); reflexivity. }
  split; [rewrite Hkeys, (Hsel _ Hitem), map_app; reflexivity|].
  split.
  - rewrite Hf, flat_map_app, map_app.
    rewrite (RequiredFiles.fixture_names open_w mode prefix max_json before Hnone).
    cbn [flat_map]. destruct (RequiredFiles.fixture_shape open_w mode prefix max_json item)
      as [content ->].
    rewrite Hitem, Hopen. cbn. rewrite !app_nil_r. reflexivity.
  - rewrite Hout, Hsel, map_app; [reflexivity|].
    unfold LegacySpec.required_and_present in Hitem.
    apply andb_true_iff in Hitem as [Hc _]. assumption.
Qed.

Lemma required_run_stops_at_refused_file_witness :
  exists st,
    Required.modify_json_and_generate_files LegacySpec.flat_directory "remove" "T_"
      ([("sku", JDict [("Source Occurs", JStr "1...1")])]
       ++ ("a/b", JDict [("Source Occurs", JStr "1...1")])
       :: [("qty", JDict [("Source Occurs", JStr "1...1")])])%list
      (JDict [("sku", JStr "X1"); ("a/b", JInt 1); ("qty", JInt 2)])
    = Raises FileNotFoundError st
    /\ modified_keys st
       = (map fst (GeneratorSpec.select
                     (LegacySpec.required_and_present
                        (JDict [("sku", JStr "X1"); ("a/b", JInt 1); ("qty", JInt 2)]))
                     [("sku", JDict [("Source Occurs", JStr "1...1")])])
          ++ [fst ("a/b", JDict [("Source Occurs", JStr "1...1")])])%list
    /\ map fst (files st)
       = map (Required.output_file "T_")
           (map fst (GeneratorSpec.select
                       (LegacySpec.required_and_present
                          (JDict [("sku", JStr "X1"); ("a/b", JInt 1); ("qty", JInt 2)]))
                       [("sku", JDict [("Source Occurs", JStr "1...1")])]))
    /\ Occurrence.found_keys (out st)
       = (map fst (GeneratorSpec.select (Occurrence.has_class Occurrence.required_class)
                     [("sku", JDict [("Source Occurs", JStr "1...1")])])
          ++ [fst ("a/b", JDict [("Source Occurs", JStr "1...1")])])%list.
Proof.
  apply (required_run_stops_at_refused_file LegacySpec.flat_directory "remove" "T_").
  - intros x Hin _. repeat (destruct Hin as [<-|Hin]; [reflexivity|]). destruct Hin.
  - reflexivity.
  - reflexivity.
Defined.


(** ** The segment extractors of [extractor4.py] *)

Module ShapeFacts.
Import Extractor ShapeSpec.

Lemma forallb_set {A} (p : A -> bool) k v (d : list (string * A)) :
  p v = true -> forallb (fun kv => p (snd kv)) d = true ->
  forallb (fun kv => p (snd kv)) (Dict.set k v d) = true.
Proof.
  intros Hv. induction d as [|[k' v'] t IH]; simpl; intros H.
  - rewrite Hv. reflexivity.
  - apply andb_true_iff in H as [H1 H2].
    destruct (String.eqb k k'); simpl; [rewrite Hv, H2|rewrite H1, IH by assumption];
      reflexivity.
Qed.

Lemma forallb_get {A} (p : A -> bool) k v (d : list (string * A)) :
  forallb (fun kv => p (snd kv)) d = true -> Dict.get k d = Some v -> p v = true.
Proof.
  induction d as [|[k' v'] t IH]; simpl; intros H Hg; [discriminate|].
  apply andb_true_iff in H as [H1 H2].
  destruct (String.eqb k k'); [inversion Hg; subst; assumption|auto].
Qed.

(** An insertion under a segment identifier succeeds on a specification made
    of segments, and gives one. *)
Lemma insert_at_segment segment_id final attrs source_path r :
  segments_shape r = true ->
  exists r', insert_at [segment_id] final attrs source_path r = Ok r'
             /\ segments_shape r' = true.
Proof.
  intros Hr. destruct r as [| | | | | |d]; try discriminate. cbn [insert_at].
  assert (Hchild : segment_shape (default (JDict []) (Dict.get segment_id d)) = true).
  { destruct (Dict.get segment_id d) as [c|] eqn:E; [|reflexivity].
    eapply (forallb_get segment_shape); eassumption. }
  destruct (default (JDict []) (Dict.get segment_id d)) as [| | | | | |seg];
    try discriminate.
  assert (He : is_dict (default (JDict []) (Dict.get final seg)) = true).
  { destruct (Dict.get final seg) as [e|] eqn:E; [|reflexivity].
    eapply (forallb_get is_dict); eassumption. }
  destruct (default (JDict []) (Dict.get final seg)) as [| | | | | |e]; try discriminate.
  cbn [rbind]. eexists. split; [reflexivity|].
  cbn [segments_shape]. apply (forallb_set segment_shape); [|assumption].
  cbn [segment_shape]. apply (forallb_set is_dict); [reflexivity|assumption].
Qed.

Lemma segment_row_shape sep idx headers st row :
  segments_shape (snd st) = true ->
  exists st', segment_row sep idx headers st row = Ok st'
              /\ segments_shape (snd st') = true.
Proof.
  intros Hst. unfold segment_row.
  destruct (hierarchy_parts (take idx row)) as [|segment_id rest]; [eauto|].
  unfold add_element.
  match goal with
  | |- context [insert_at [segment_id] ?n ?a ?s (snd st)] =>
      destruct (insert_at_segment segment_id n a s (snd st) Hst) as (r' & -> & Hr')
  end.
  cbn [rbind fst snd]. eauto.
Qed.

Lemma iterrows_shape sep idx headers rows :
  forall st,
    segments_shape (snd st) = true ->
    exists st', iterrows (segment_row sep idx headers) st rows = Ok st'
                /\ segments_shape (snd st') = true.
Proof.
  induction rows as [|row rest IH]; intros st Hst; cbn [iterrows]; [eauto|].
  destruct (segment_row_shape sep idx headers st row Hst) as (st1 & -> & H1).
  cbn [rbind]. apply IH. assumption.
Qed.

Lemma extract_segments sep df :
  exists r, extract_with (segment_row sep) df = Ok r /\ segments_shape r = true.
Proof.
  unfold extract_with.
  destruct (source_occurs_idx (columns df)) as [idx|]; [|exists (JDict []); auto].
  destruct (iterrows_shape sep idx (columns df) (rows df)
              ({| element_counter := [] |}, JDict []) eq_refl) as (st & -> & Hst).
  exists (snd st). split; [reflexivity|assumption].
Qed.

(** No entry of a specification made of segments has an occurrence string. *)
Lemma segments_have_no_field d target :
  target <> "" ->
  forallb (fun kv => segment_shape (snd kv)) d = true ->
  Generator.find_fields_by_occurrence_items d target = Ok [].
Proof.
  intros Ht. induction d as [|[name attrs] rest IH]; intros H; [reflexivity|].
  simpl in H. apply andb_true_iff in H as [Hseg Hrest].
  cbn [Generator.find_fields_by_occurrence_items].
  destruct (String.eqb name "format"); [auto|].
  destruct attrs as [| | | | | |seg]; try discriminate.
  rewrite IH by assumption. cbn [rbind].
  unfold Generator.get_default.
  destruct (Dict.get "Source Occurs" seg) as [v|] eqn:E.
  - pose proof (forallb_get is_dict _ _ _ Hseg E) as Hv.
    destruct v; try discriminate. reflexivity.
  - replace (String.eqb "" target) with false; [reflexivity|].
    symmetry. apply String.eqb_neq. congruence.
Qed.

Lemma segments_yield_no_field sep df t :
  exists r,
    extract_with (segment_row sep) df = Ok r
    /\ segments_shape r = true
    /\ Generator.find_fields_by_occurrence r (Generator.target_occurrence_of t) = Ok [].
Proof.
  destruct (extract_segments sep df) as (r & Hr & Hshape).
  exists r. split; [assumption|]. split; [assumption|].
  destruct r as [| | | | | |d]; try discriminate.
  apply segments_have_no_field; [destruct t; discriminate|assumption].
Qed.

End ShapeFacts.

(** X18. The EDI-X12, EDIFACT and IDOC extractors of [extractor4.py] never
    raise, and their result maps every segment identifier to a dictionary
    of elements, each element being a dictionary.  No entry of such a
    specification carries an occurrence string of its own, so the unified
    generator finds no target field in it, for a required run and for an
    optional run alike. *)
Theorem segment_specification_yields_no_field (df : dataframe) (t : test_type) :
  (exists r,
      Extractor.extract_edi_x12_hierarchy df = Ok r
      /\ ShapeSpec.segments_shape r = true
      /\ Generator.find_fields_by_occurrence r (Generator.target_occurrence_of t) = Ok [])
  /\ (exists r,
      Extractor.extract_edifact_hierarchy df = Ok r
      /\ ShapeSpec.segments_shape r = true
      /\ Generator.find_fields_by_occurrence r (Generator.target_occurrence_of t) = Ok [])
  /\ (exists r,
      Extractor.extract_idoc_hierarchy df = Ok r
      /\ ShapeSpec.segments_shape r = true
      /\ Generator.find_fields_by_occurrence r (Generator.target_occurrence_of t) = Ok []).
Proof.
  split; [|split]; apply ShapeFacts.segments_yield_no_field.
Qed.

(** ** What [add_element] stores *)

Module StoreFacts.
Import Extractor ExtractorSpec ExtractorFacts.

Lemma get_not_key {A} k (d : list (string * A)) : k ∉ map fst d -> Dict.get k d = None.
Proof.
  induction d as [|[k' v] t IH]; simpl; intros H; [reflexivity|].
  destruct (String.eqb_spec k k') as [->|Hne].
  - exfalso. apply H. left.
  - apply IH. intros Hin. apply H. right. assumption.
Qed.

(** [d.update(src)]: the values of [src] win, the other keys keep theirs. *)
Lemma get_update {A} k (src d : list (string * A)) :
  NoDup (map fst src) ->
  Dict.get k (Dict.update src d)
  = match Dict.get k src with Some v => Some v | None => Dict.get k d end.
Proof.
  unfold Dict.update. revert d.
  induction src as [|[k1 v1] t IH]; intros d Hnd; [reflexivity|].
  simpl in Hnd. apply NoDup_cons in Hnd as [Hk1 Hnd].
  cbn [fold_left fst snd Dict.get]. rewrite IH by assumption.
  destruct (String.eqb_spec k k1) as [->|Hne].
  - rewrite (get_not_key k1 t Hk1), DictFacts.get_set_eq. reflexivity.
  - rewrite DictFacts.get_set_ne by assumption. reflexivity.
Qed.

Lemma get_json_attributes k (attrs : list (string * string)) :
  Dict.get k (map (fun kv => (fst kv, JStr (snd kv))) attrs) = JStr <$> Dict.get k attrs.
Proof.
  induction attrs as [|[k' v] t IH]; simpl; [reflexivity|].
  destruct (String.eqb k k'); [reflexivity|assumption].
Qed.

Lemma keys_json_attributes (attrs : list (string * string)) :
  map fst (map (fun kv => (fst kv, JStr (snd kv))) attrs) = map fst attrs.
Proof. rewrite map_map. reflexivity. Qed.

(** The entry found under the name after an insertion. *)
Lemma insert_at_get hierarchy_path final attrs source_path :
  forall r r',
    insert_at hierarchy_path final attrs source_path r = Ok r' ->
    exists d' e,
      level_at hierarchy_path r' = Some d'
      /\ Dict.get final d'
         = Some (JDict (Dict.update (map (fun kv => (fst kv, JStr (snd kv))) attrs)
                          (Dict.set "source_path" (JStr source_path) e))).
Proof.
  induction hierarchy_path as [|level rest IH]; intros r r' H.
  - destruct r as [| | | | | |d]; try discriminate. cbn [insert_at] in H.
    destruct (default (JDict []) (Dict.get final d)) as [| | | | | |e]; try discriminate.
    inversion H; subst. eexists _, e. split; [reflexivity|]. apply DictFacts.get_set_eq.
  - destruct r as [| | | | | |d]; try discriminate. cbn [insert_at] in H.
    destruct (insert_at rest final attrs source_path _) as [child'|] eqn:Ec;
      [|discriminate].
    simpl in H. inversion H; subst.
    destruct (IH _ _ Ec) as (d' & e & Hd' & Hget).
    exists d', e. split; [|assumption].
    destruct child'; try discriminate;
      cbn [level_at]; rewrite DictFacts.get_set_eq; assumption.
Qed.

End StoreFacts.

(** X19. What [add_element] stores can be looked up: after a call that
    returns, the dictionary at the level of the hierarchy path holds, under
    the name returned, an entry with every attribute passed (as given) and,
    unless an attribute is itself named [source_path], the source path. *)
Theorem add_element_stores_attributes (b : Extractor.HierarchyBuilder) (r : json)
  (hierarchy_path : list string) (element_name : string)
  (attrs : list (string * string)) (source_path : string)
  (b' : Extractor.HierarchyBuilder) (r' : json) (name : string) :
  NoDup (map fst attrs) ->
  Extractor.add_element b r hierarchy_path element_name attrs source_path
  = Ok (b', r', name) ->
  exists d e,
    ExtractorSpec.level_at hierarchy_path r' = Some d
    /\ Dict.get name d = Some (JDict e)
    /\ (forall k v, Dict.get k attrs = Some v -> Dict.get k e = Some (JStr v))
    /\ (Dict.get "source_path" attrs = None ->
        Dict.get "source_path" e = Some (JStr source_path)).
Proof.
  intros Hnd H.
  apply ExtractorFacts.add_element_name in H as (_ & Hi & _).
  destruct (StoreFacts.insert_at_get _ _ _ _ _ _ Hi) as (d & e & Hd & Hget).
  eexists d, _. split; [assumption|]. split; [eassumption|].
  assert (Hnd' : NoDup (map fst (map (fun kv : string * string => (fst kv, JStr (snd kv)))
                                   attrs)))
    by (rewrite StoreFacts.keys_json_attributes; assumption).
  split.
  - intros k v Hk.
    rewrite StoreFacts.get_update, StoreFacts.get_json_attributes, Hk by assumption.
    reflexivity.
  - intros Hk.
    rewrite StoreFacts.get_update, StoreFacts.get_json_attributes, Hk by assumption.
    apply DictFacts.get_set_eq.
Qed.

Lemma add_element_stores_attributes_witness :
  exists d e,
    ExtractorSpec.level_at ["order"]
      (JDict [("order",
               JDict [("sku", JDict [("source_path", JStr "/order/sku");
                                     ("Source Occurs", JStr "1...1")])])])
    = Some d
    /\ Dict.get "sku" d = Some (JDict e)
    /\ (forall k v, Dict.get k [("Source Occurs", "1...1")] = Some v ->
        Dict.get k e = Some (JStr v))
    /\ (Dict.get "source_path" [("Source Occurs", "1...1")] = None ->
        Dict.get "source_path" e = Some (JStr "/order/sku")).
Proof.
  apply (add_element_stores_attributes {| Extractor.element_counter := [] |} (JDict [])
           ["order"] "sku" [("Source Occurs", "1...1")] "/order/sku"
           {| Extractor.element_counter := [("order/sku", 1%Z)] |}).
  - repeat constructor. intros H. inversion H.
  - reflexivity.
Defined.

(** X20. The occurrence counter is kept per hierarchy path and element name
    as long as no value holds a slash: adding an element leaves the count
    of every other path and name as it was, and raises its own by one. *)
Theorem counter_scoped_per_path_and_name (b : Extractor.HierarchyBuilder) (r : json)
  (path1 : list string) (name1 : string) (path2 : list string) (name2 : string)
  (attrs : list (string * string)) (source_path : string)
  (b' : Extractor.HierarchyBuilder) (r' : json) (name : string) :
  Forall (fun e => Py.contains "/" e = false) (path1 ++ [name1])%list ->
  Forall (fun e => Py.contains "/" e = false) (path2 ++ [name2])%list ->
  Extractor.add_element b r path2 name2 attrs source_path = Ok (b', r', name) ->
  Extractor.count_of b' (Extractor.unique_key path2 name2)
  = (Extractor.count_of b (Extractor.unique_key path2 name2) + 1)%Z
  /\ ((path1, name1) <> (path2, name2) ->
      Extractor.count_of b' (Extractor.unique_key path1 name1)
      = Extractor.count_of b (Extractor.unique_key path1 name1)).
Proof.
  intros H1 H2 H.
  apply ExtractorFacts.add_element_name in H as (_ & _ & Hc).
  split.
  - rewrite Hc, String.eqb_refl. reflexivity.
  - intros Hne. rewrite Hc.
    destruct (String.eqb_spec (Extractor.unique_key path1 name1)
                (Extractor.unique_key path2 name2)) as [E|_]; [|reflexivity].
    apply ExtractorFacts.unique_key_injective in E as [-> ->]; [|assumption..].
    congruence.
Qed.

Lemma counter_scoped_per_path_and_name_witness :
  Extractor.count_of {| Extractor.element_counter := [("order/sku", 1%Z)] |}
    (Extractor.unique_key ["order"] "sku")
  = (Extractor.count_of {| Extractor.element_counter := [] |}
       (Extractor.unique_key ["order"] "sku") + 1)%Z
  /\ ((["invoice"], "sku") <> (["order"], "sku") ->
      Extractor.count_of {| Extractor.element_counter := [("order/sku", 1%Z)] |}
        (Extractor.unique_key ["invoice"] "sku")
      = Extractor.count_of {| Extractor.element_counter := [] |}
          (Extractor.unique_key ["invoice"] "sku")).
Proof.
  apply (counter_scoped_per_path_and_name {| Extractor.element_counter := [] |} (JDict [])
           ["invoice"] "sku" ["order"] "sku" [("Source Occurs", "1...1")] "/order/sku"
           {| Extractor.element_counter := [("order/sku", 1%Z)] |}
           (JDict [("order",
                    JDict [("sku", JDict [("source_path", JStr "/order/sku");
                                          ("Source Occurs", JStr "1...1")])])])
           "sku").
  - repeat constructor.
  - repeat constructor.
  - reflexivity.
Defined.

(** ** Format detection and the sheet processor *)

Module DetectorFacts.
Import Detector.

Lemma one_of_In x l : Extractor.one_of x l = true <-> In x l.
Proof.
  unfold Extractor.one_of. rewrite existsb_exists. split.
  - intros (y & Hy & E). apply String.eqb_eq in E. subst. assumption.
  - intros H. exists x. split; [assumption|apply String.eqb_refl].
Qed.

Lemma In_unique x l : forall seen, In x (unique seen l) <-> In x l /\ ~ In x seen.
Proof.
  induction l as [|y t IH]; intros seen; simpl; [tauto|].
  destruct (Extractor.one_of y seen) eqn:E.
  - apply one_of_In in E. rewrite IH. split.
    + intros [H1 H2]. auto.
    + intros [[->|H1] H2]; [contradiction|auto].
  - assert (Hy : ~ In y seen).
    { intros H. apply one_of_In in H. congruence. }
    simpl. rewrite IH. simpl. split.
    + intros [->|[H1 H2]]; [auto|]. split; [auto|]. intros H. apply H2. auto.
    + intros [[->|H1] H2]; [auto|].
      destruct (String.eqb_spec y x) as [->|Hne]; [auto|]. right. split; [assumption|].
      intros [H|H]; [congruence|contradiction].
Qed.

Lemma one_of_ext x l l' :
  (forall v, In v l <-> In v l') -> Extractor.one_of x l = Extractor.one_of x l'.
Proof.
  intros H. apply eq_true_iff_eq. rewrite !one_of_In. apply H.
Qed.

Lemma any_in_ext fields l l' :
  (forall v, In v l <-> In v l') -> any_in fields l = any_in fields l'.
Proof.
  intros H. unfold any_in. induction fields as [|f t IH]; simpl; [reflexivity|].
  rewrite IH, (one_of_ext f l l' H). reflexivity.
Qed.

End DetectorFacts.

(** X21. Format detection of the sheet, when the configuration overrides
    nothing for the input path.  The answer is one of [EDI-X12], [EDIFACT],
    [IDOC] and [JSON]; it depends only on which values occur in the first
    ten cells of the rows that have no missing value among these cells, not
    on their order or number; and an indicator of EDI-X12 among these values
    decides for [EDI-X12] whatever else occurs. *)
Theorem detect_format_depends_on_complete_rows (d : list (string * json)) (df : dataframe)
  (input_path : string) :
  Dict.get input_path d = None ->
  (exists name,
      Detector.detect_format (JDict d) df input_path = Ok (JStr name)
      /\ In name ["EDI-X12"; "EDIFACT"; "IDOC"; "JSON"])
  /\ (forall df',
        (forall v, In v (DetectorSpec.complete_values df)
                   <-> In v (DetectorSpec.complete_values df')) ->
        Detector.detect_format (JDict d) df' input_path
        = Detector.detect_format (JDict d) df input_path)
  /\ (forall field,
        In field Detector.EDI_X12_FIELDS -> In field (DetectorSpec.complete_values df) ->
        Detector.detect_format (JDict d) df input_path = Ok (JStr "EDI-X12")).
Proof.
  intros Hd. unfold Detector.detect_format. rewrite Hd.
  assert (Hvalues : forall df0 v,
             In v (Detector.row_values df0) <-> In v (DetectorSpec.complete_values df0)).
  { intros df0 v. unfold Detector.row_values. rewrite DetectorFacts.In_unique.
    unfold DetectorSpec.complete_values. simpl. tauto. }
  split; [|split].
  - eexists. split; [reflexivity|]. unfold Detector.detection.
    destruct (Detector.any_in _ _); [simpl; tauto|].
    destruct (Detector.any_in _ _); [simpl; tauto|].
    destruct (Detector.any_in _ _); simpl; tauto.
  - intros df' H. unfold Detector.detection.
    assert (E : forall v, In v (Detector.row_values df') <-> In v (Detector.row_values df)).
    { intros v. rewrite !Hvalues. symmetry. apply H. }
    rewrite !(DetectorFacts.any_in_ext _ _ _ E). reflexivity.
  - intros field Hf Hv. unfold Detector.detection.
    replace (Detector.any_in Detector.EDI_X12_FIELDS (Detector.row_values df)) with true;
      [reflexivity|].
    symmetry. unfold Detector.any_in. apply existsb_exists.
    exists field. split; [assumption|].
    apply DetectorFacts.one_of_In, Hvalues. assumption.
Qed.

Lemma detect_format_depends_on_complete_rows_witness :
  (exists name,
      Detector.detect_format (JDict [])
        {| columns := ["Segment"; "Source Occurs"];
           rows := [[Some "ISA01"; Some "1...1"]; [Some "UNB01"; None]] |} "spec.xlsx"
      = Ok (JStr name)
      /\ In name ["EDI-X12"; "EDIFACT"; "IDOC"; "JSON"])
  /\ (forall df',
        (forall v,
            In v (DetectorSpec.complete_values
                    {| columns := ["Segment"; "Source Occurs"];
                       rows := [[Some "ISA01"; Some "1...1"]; [Some "UNB01"; None]] |})
            <-> In v (DetectorSpec.complete_values df')) ->
        Detector.detect_format (JDict []) df' "spec.xlsx"
        = Detector.detect_format (JDict [])
            {| columns := ["Segment"; "Source Occurs"];
               rows := [[Some "ISA01"; Some "1...1"]; [Some "UNB01"; None]] |} "spec.xlsx")
  /\ (forall field,
        In field Detector.EDI_X12_FIELDS ->
        In field (DetectorSpec.complete_values
                    {| columns := ["Segment"; "Source Occurs"];
                       rows := [[Some "ISA01"; Some "1...1"]; [Some "UNB01"; None]] |}) ->
        Detector.detect_format (JDict [])
          {| columns := ["Segment"; "Source Occurs"];
             rows := [[Some "ISA01"; Some "1...1"]; [Some "UNB01"; None]] |} "spec.xlsx"
        = Ok (JStr "EDI-X12")).
Proof.
  apply (detect_format_depends_on_complete_rows []). reflexivity.
Defined.

Module SheetFacts.
Import ProcessExcel.

Lemma find_row_Some rows :
  forall i k,
    find_row i rows = Some k ->
    exists row,
      i <= k /\ rows !! (k - i) = Some row /\ row_has_marker row = true
      /\ forall k' row', k' < k - i -> rows !! k' = Some row' -> row_has_marker row' = false.
Proof.
  induction rows as [|row rest IH]; intros i k H; simpl in H; [discriminate|].
  destruct (row_has_marker row) eqn:E.
  - inversion H; subst. exists row. rewrite Nat.sub_diag.
    split; [lia|]. split; [reflexivity|]. split; [assumption|]. intros k' row' Hk. lia.
  - destruct (IH _ _ H) as (r & Hle & Hr & Hm & Hbefore).
    exists r. split; [lia|].
    replace (k - i) with (S (k - S i)) by lia.
    split; [assumption|]. split; [assumption|].
    intros [|k'] row' Hk Hl; simpl in Hl.
    + inversion Hl; subst. assumption.
    + eapply (Hbefore k'); [lia|assumption].
Qed.

Lemma find_row_None rows :
  forall i, find_row i rows = None -> Forall (fun row => row_has_marker row = false) rows.
Proof.
  induction rows as [|row rest IH]; intros i H; simpl in H; [constructor|].
  destruct (row_has_marker row) eqn:E; [discriminate|].
  constructor; [assumption|eapply IH; eassumption].
Qed.

Lemma search_Some sheets name i :
  search sheets = Some (name, i) ->
  exists full_df, In (name, Ok full_df) sheets /\ find_row 0 full_df = Some i.
Proof.
  induction sheets as [|[n [full_df|e]] rest IH]; simpl; intros H; [discriminate| |].
  - destruct (find_row 0 full_df) as [k|] eqn:E.
    + inversion H; subst. exists full_df. auto.
    + destruct (IH H) as (f & Hin & Hf). exists f. auto.
  - destruct (IH H) as (f & Hin & Hf). exists f. auto.
Qed.

Lemma search_None sheets :
  search sheets = None ->
  forall name full_df, In (name, Ok full_df) sheets -> find_row 0 full_df = None.
Proof.
  induction sheets as [|[n [full_df|e]] rest IH]; simpl; intros H name f Hin; [contradiction| |].
  - destruct (find_row 0 full_df) as [k|] eqn:E; [discriminate|].
    destruct Hin as [Hin|Hin]; [inversion Hin; subst; assumption|eauto].
  - destruct Hin as [Hin|Hin]; [discriminate|eauto].
Qed.

(** The sheets that are searched: those whose name has a keyword, or all of
    them when no name has one. *)
Lemma searched_sheets (xls : workbook) sheet :
  In sheet
    (match List.filter (fun sheet => is_mapping_sheet (fst sheet)) xls with
     | [] => xls
     | _ :: _ => List.filter (fun sheet => is_mapping_sheet (fst sheet)) xls
     end)
  <-> In sheet xls
      /\ (is_mapping_sheet (fst sheet) = true
          \/ existsb (fun sheet => is_mapping_sheet (fst sheet)) xls = false).
Proof.
  destruct (List.filter (fun sheet => is_mapping_sheet (fst sheet)) xls) as [|s l] eqn:E.
  - assert (Hnone : existsb (fun sheet => is_mapping_sheet (fst sheet)) xls = false).
    { apply not_true_iff_false. intros H. apply existsb_exists in H as (x & Hx & Hm).
      assert (Hin : In x (List.filter (fun sheet => is_mapping_sheet (fst sheet)) xls))
        by (apply filter_In; auto).
      rewrite E in Hin. contradiction. }
    tauto.
  - rewrite <- E, filter_In. split; [tauto|].
    intros [Hin [Hm|Hnone]]; [tauto|].
    exfalso. apply not_true_iff_false in Hnone. apply Hnone.
    apply existsb_exists.
    assert (Hs : In s (List.filter (fun sheet => is_mapping_sheet (fst sheet)) xls))
      by (rewrite E; left; reflexivity).
    apply filter_In in Hs. exists s. assumption.
Qed.

End SheetFacts.

(** X22. Where [find_data_sheet_and_row] finds the data.  Only the sheets
    whose name holds one of the keywords are searched, or all sheets when
    no name holds one.  When a sheet and a row are answered, the sheet is
    one of those, it could be read, the row is its first row with a cell
    that contains [Source Occurs]; when none of the searched sheets that
    could be read has such a row, the answer is sheet 2 and row 13. *)
Theorem find_data_sheet_and_row_correct (xls : ProcessExcel.workbook) :
  match ProcessExcel.find_data_sheet_and_row xls with
  | (SheetName name, i) =>
      exists full_df row,
        In (name, Ok full_df) xls
        /\ (ProcessExcel.is_mapping_sheet name = true
            \/ existsb (fun sheet => ProcessExcel.is_mapping_sheet (fst sheet)) xls = false)
        /\ full_df !! i = Some row
        /\ ProcessExcel.row_has_marker row = true
        /\ forall k row', k < i -> full_df !! k = Some row' ->
                          ProcessExcel.row_has_marker row' = false
  | (SheetIndex s, i) =>
      s = 2 /\ i = 13
      /\ forall name full_df row,
           In (name, Ok full_df) xls ->
           ProcessExcel.is_mapping_sheet name = true
           \/ existsb (fun sheet => ProcessExcel.is_mapping_sheet (fst sheet)) xls = false ->
           In row full_df -> ProcessExcel.row_has_marker row = false
  end.
Proof.
  unfold ProcessExcel.find_data_sheet_and_row.
  destruct (ProcessExcel.search _) as [[name i]|] eqn:E.
  - apply SheetFacts.search_Some in E as (full_df & Hin & Hrow).
    apply SheetFacts.searched_sheets in Hin as [Hin Hm].
    apply SheetFacts.find_row_Some in Hrow as (row & _ & Hr & Hmark & Hbefore).
    rewrite Nat.sub_0_r in *. exists full_df, row.
    split; [assumption|]. split; [assumption|]. split; [assumption|].
    split; [assumption|]. exact Hbefore.
  - split; [reflexivity|]. split; [reflexivity|].
    intros name full_df row Hin Hm Hrow.
    assert (Hs : ProcessExcel.find_row 0 full_df = None).
    { apply (SheetFacts.search_None _ E name).
      apply SheetFacts.searched_sheets. split; [assumption|exact Hm]. }
    apply SheetFacts.find_row_None in Hs.
    rewrite List.Forall_forall in Hs. auto.
Qed.

(** ** The file written by the sheet processor, read by the generators *)

Module EnvelopeFacts.
Import Extractor ShapeSpec ShapeFacts EnvelopeSpec.

Lemma insert_at_dict hierarchy_path final attrs source_path r r' :
  insert_at hierarchy_path final attrs source_path r = Ok r' -> is_dict r' = true.
Proof.
  destruct r as [| | | | | |d]; try (destruct hierarchy_path; discriminate).
  destruct hierarchy_path as [|level rest]; cbn [insert_at].
  - destruct (default (JDict []) (Dict.get final d)); try discriminate.
    intros H. inversion H; reflexivity.
  - destruct (insert_at rest final attrs source_path _); [|discriminate].
    intros H. inversion H; reflexivity.
Qed.

Lemma insert_at_top_dicts hierarchy_path final attrs source_path r r' :
  insert_at hierarchy_path final attrs source_path r = Ok r' ->
  top_dicts r = true -> top_dicts r' = true.
Proof.
  destruct r as [| | | | | |d]; try discriminate.
  destruct hierarchy_path as [|level rest]; cbn [insert_at].
  - destruct (default (JDict []) (Dict.get final d)); try discriminate.
    intros H Hr. inversion H; subst. apply (forallb_set is_dict); [reflexivity|assumption].
  - destruct (insert_at rest final attrs source_path _) as [child'|] eqn:E; [|discriminate].
    intros H Hr. inversion H; subst.
    apply (forallb_set is_dict); [|assumption]. eapply insert_at_dict; eassumption.
Qed.

Lemma add_element_top_dicts b r hierarchy_path element_name attrs source_path b' r' n :
  add_element b r hierarchy_path element_name attrs source_path = Ok (b', r', n) ->
  top_dicts r = true -> top_dicts r' = true.
Proof.
  unfold add_element.
  destruct (insert_at _ _ _ _ _) as [r1|] eqn:E; [|discriminate].
  intros H. inversion H; subst. eapply insert_at_top_dicts; eassumption.
Qed.

Lemma json_row_top_dicts idx headers : keeps_top_dicts (json_row idx headers).
Proof.
  intros st row st'. unfold json_row.
  destruct (hierarchy_parts (take idx row)); [intros H; inversion H; auto|].
  destruct (add_element _ _ _ _ _ _) as [[[b1 r1] n1]|] eqn:E; [|discriminate].
  intros H. inversion H; subst. cbn [fst snd]. eapply add_element_top_dicts; eassumption.
Qed.

Lemma universal_row_top_dicts idx headers : keeps_top_dicts (universal_row idx headers).
Proof.
  intros st row st'. unfold universal_row.
  destruct (hierarchy_parts (take idx row)); [intros H; inversion H; auto|].
  destruct (extract_attributes _ _ _ _); [intros H; inversion H; auto|].
  destruct (add_element _ _ _ _ _ _) as [[[b1 r1] n1]|] eqn:E; [|discriminate].
  intros H. inversion H; subst. cbn [fst snd]. eapply add_element_top_dicts; eassumption.
Qed.

Lemma segment_row_top_dicts sep idx headers : keeps_top_dicts (segment_row sep idx headers).
Proof.
  intros st row st'. unfold segment_row.
  destruct (hierarchy_parts (take idx row)); [intros H; inversion H; auto|].
  destruct (add_element _ _ _ _ _ _) as [[[b1 r1] n1]|] eqn:E; [|discriminate].
  intros H. inversion H; subst. cbn [fst snd]. eapply add_element_top_dicts; eassumption.
Qed.

Lemma iterrows_top_dicts body rows :
  keeps_top_dicts body ->
  forall st st', iterrows body st rows = Ok st' -> top_dicts (snd st) = true ->
                 top_dicts (snd st') = true.
Proof.
  intros Hbody. induction rows as [|row rest IH]; intros st st' H Hst; cbn [iterrows] in H.
  - inversion H; subst. assumption.
  - destruct (body st row) as [st1|] eqn:E; [|discriminate]. cbn [rbind] in H.
    eapply IH; [eassumption|]. eapply Hbody; eassumption.
Qed.

Lemma extract_with_top_dicts body df r :
  (forall idx headers, keeps_top_dicts (body idx headers)) ->
  extract_with body df = Ok r -> top_dicts r = true.
Proof.
  intros Hbody. unfold extract_with.
  destruct (source_occurs_idx (columns df)) as [idx|];
    [|intros H; inversion H; reflexivity].
  destruct (iterrows _ _ _) as [st|] eqn:E; [|discriminate].
  intros H. inversion H; subst.
  eapply iterrows_top_dicts; [apply Hbody|eassumption|reflexivity].
Qed.

(** Whatever extractor gave the hierarchy, its values are dictionaries. *)
Lemma hierarchy_top_dicts detected_format df hierarchy :
  match ProcessExcel.specific_extractor detected_format df with
  | Ok hierarchy => Ok hierarchy
  | Raise _ => extract_universal_hierarchy df
  end = Ok hierarchy ->
  top_dicts hierarchy = true.
Proof.
  intros H.
  assert (Hu : forall r, extract_universal_hierarchy df = Ok r -> top_dicts r = true)
    by (intros r; apply extract_with_top_dicts; apply universal_row_top_dicts).
  assert (Hj : forall r, extract_json_hierarchy df = Ok r -> top_dicts r = true)
    by (intros r; apply extract_with_top_dicts; apply json_row_top_dicts).
  assert (Hs : forall sep r, extract_with (segment_row sep) df = Ok r -> top_dicts r = true)
    by (intros sep r; apply extract_with_top_dicts; intros; apply segment_row_top_dicts).
  destruct (ProcessExcel.specific_extractor detected_format df) as [h|e] eqn:E;
    [|auto].
  inversion H; subst. unfold ProcessExcel.specific_extractor in E.
  destruct detected_format as [| | | |name| |]; auto; try discriminate.
  destruct (String.eqb name "JSON"); [auto|].
  destruct (String.eqb name "EDI-X12"); [eapply Hs; eassumption|].
  destruct (String.eqb name "EDIFACT"); [eapply Hs; eassumption|].
  destruct (String.eqb name "IDOC"); [eapply Hs; eassumption|auto].
Qed.

Lemma top_dicts_no_occurrence key hierarchy class :
  top_dicts hierarchy = true -> Occurrence.has_class class (key, hierarchy) = false.
Proof.
  intros H. unfold Occurrence.has_class, Occurrence.occurrence_string. cbn [snd].
  destruct hierarchy as [| | | | | |d]; try reflexivity.
  destruct (Dict.get "Source Occurs" d) as [v|] eqn:E; [|reflexivity].
  pose proof (forallb_get is_dict _ _ _ H E) as Hv.
  destruct v; try discriminate; reflexivity.
Qed.

(** A legacy run on entries none of which is of its class writes nothing. *)
Lemma required_loop_nothing open_w mode prefix max_data items :
  Forall (fun item => Occurrence.has_class Occurrence.required_class item = false) items ->
  forall st,
    exists st', Required.loop open_w mode prefix max_data st items = Returns st'
                /\ files st' = files st /\ found st' = found st.
Proof.
  induction 1 as [|[key details] rest Hitem _ IH]; intros st; cbn [Required.loop].
  - eauto.
  - assert (Hstep : exists st1, Required.step open_w mode prefix max_data st (key, details) = Returns st1
                                /\ files st1 = files st /\ found st1 = found st).
    { cbn [Required.step]. destruct details as [| | | | | |details]; eauto.
      unfold Occurrence.required_class in Hitem.
      rewrite OccurrenceFacts.has_class_in_class in Hitem. rewrite Hitem. eauto. }
    destruct Hstep as (st1 & -> & Hf & Hfound). cbn [and_then].
    destruct (IH st1) as (st2 & -> & Hf2 & Hfound2).
    exists st2. split; [reflexivity|]. split; congruence.
Qed.

Lemma optional_loop_nothing open_w mode prefix max_data items :
  Forall (fun item => Occurrence.has_class Occurrence.optional_class item = false) items ->
  forall st,
    exists st', Optional2.loop open_w mode prefix max_data st items = Returns st'
                /\ files st' = files st /\ found st' = found st.
Proof.
  induction 1 as [|[key details] rest Hitem _ IH]; intros st; cbn [Optional2.loop].
  - eauto.
  - assert (Hstep : exists st1, Optional2.step open_w mode prefix max_data st (key, details) = Returns st1
                                /\ files st1 = files st /\ found st1 = found st).
    { cbn [Optional2.step]. destruct details as [| | | | | |details]; eauto.
      unfold Occurrence.optional_class in Hitem.
      rewrite OccurrenceFacts.has_class_in_class in Hitem. rewrite Hitem. eauto. }
    destruct Hstep as (st1 & -> & Hf & Hfound). cbn [and_then].
    destruct (IH st1) as (st2 & -> & Hf2 & Hfound2).
    exists st2. split; [reflexivity|]. split; congruence.
Qed.

End EnvelopeFacts.

(** X23. The file the sheet processor writes is not a specification for the
    generators.  With no format override for the input path, a run of
    [process_excel] that returns writes [<format>_structure.json] holding
    the three entries [format], [total_elements] and [hierarchy].  On that
    value [find_fields_by_occurrence] raises [AttributeError] (the entry
    [total_elements] is a number), and a run of [Required.py] or of
    [Optional2.py] returns without writing a file or a manifest. *)
Theorem process_excel_envelope_is_no_specification (d : list (string * json))
  (input_path : string) (df : dataframe) (file : string) (out : json) :
  Dict.get input_path d = None ->
  ProcessExcel.process_excel (JDict d) input_path df = Ok (file, out) ->
  exists name n hierarchy,
    In name ["EDI-X12"; "EDIFACT"; "IDOC"; "JSON"]
    /\ file = name ++ "_structure.json"
    /\ out = JDict [("format", JStr name); ("total_elements", JInt n);
                    ("hierarchy", hierarchy)]
    /\ (forall t,
          Generator.find_fields_by_occurrence out (Generator.target_occurrence_of t)
          = Raise AttributeError)
    /\ (forall open_w mode prefix max_json,
          exists st,
            Required.modify_json_and_generate_files open_w mode prefix
              [("format", JStr name); ("total_elements", JInt n); ("hierarchy", hierarchy)]
              max_json = Returns st
            /\ files st = [] /\ Required.manifest (Returns st) = None)
    /\ (forall open_w mode prefix max_json,
          exists st,
            Optional2.modify_json_and_generate_files open_w mode prefix
              [("format", JStr name); ("total_elements", JInt n); ("hierarchy", hierarchy)]
              max_json = Returns st
            /\ files st = [] /\ found st = false).
Proof.
  intros Hd. unfold ProcessExcel.process_excel, Detector.detect_format.
  rewrite Hd. cbn [rbind].
  set (df' := ProcessExcel.fillna df).
  destruct (match ProcessExcel.specific_extractor (JStr (Detector.detection df')) df' with
            | Ok hierarchy => Ok hierarchy
            | Raise _ => Extractor.extract_universal_hierarchy df'
            end) as [hierarchy|] eqn:Eh; [|discriminate].
  cbn [rbind].
  destruct (ProcessExcel.len_json hierarchy) as [n|]; [|discriminate].
  cbn [rbind PyStr.str]. intros H. inversion H; subst. clear H.
  pose proof (EnvelopeFacts.hierarchy_top_dicts _ _ _ Eh) as Htop.
  exists (Detector.detection df'), n, hierarchy.
  split.
  { unfold Detector.detection.
    destruct (Detector.any_in _ _); [simpl; tauto|].
    destruct (Detector.any_in _ _); [simpl; tauto|].
    destruct (Detector.any_in _ _); simpl; tauto. }
  split; [reflexivity|]. split; [reflexivity|].
  split; [intros t; reflexivity|].
  assert (Hnone : forall class,
             Forall (fun item => Occurrence.has_class class item = false)
               [("format", JStr (Detector.detection df')); ("total_elements", JInt n);
                ("hierarchy", hierarchy)]).
  { intros class. repeat constructor.
    apply EnvelopeFacts.top_dicts_no_occurrence. assumption. }
  split.
  - intros open_w mode prefix max_json. unfold Required.modify_json_and_generate_files.
    destruct (Heap.alloc max_json []) as [h0 max_data].
    destruct (EnvelopeFacts.required_loop_nothing open_w mode prefix max_data _
                (Hnone Occurrence.required_class)
                {| store := h0; modified_keys := []; found := false; files := [];
                   out := [] |}) as (st & -> & Hf & Hfound).
    cbn [files found] in Hf, Hfound.
    cbn [and_then]. unfold Required.finish. rewrite Hfound.
    eexists. split; [reflexivity|].
    unfold Required.manifest. cbn [files found]. rewrite Hf. split; reflexivity.
  - intros open_w mode prefix max_json. unfold Optional2.modify_json_and_generate_files.
    destruct (Heap.alloc max_json []) as [h0 max_data].
    destruct (EnvelopeFacts.optional_loop_nothing open_w mode prefix max_data _
                (Hnone Occurrence.optional_class)
                {| store := h0; modified_keys := []; found := false; files := [];
                   out := [] |}) as (st & -> & Hf & Hfound).
    cbn [files found] in Hf, Hfound.
    cbn [and_then]. unfold Optional2.finish. rewrite Hfound.
    eexists. split; [reflexivity|].
    cbn [files found]. rewrite Hf. split; reflexivity.
Qed.

Lemma process_excel_envelope_is_no_specification_witness :
  exists name n hierarchy,
    In name ["EDI-X12"; "EDIFACT"; "IDOC"; "JSON"]
    /\ "JSON_structure.json" = name ++ "_structure.json"
    /\ JDict [("format", JStr "JSON"); ("total_elements", JInt 2);
              ("hierarchy",
               JDict [("order", JDict [("source_path", JStr "/order");
                                       ("Source Occurs", JStr "1...1")]);
                      ("sku", JDict [("source_path", JStr "/sku")])])]
       = JDict [("format", JStr name); ("total_elements", JInt n);
                ("hierarchy", hierarchy)]
    /\ (forall t,
          Generator.find_fields_by_occurrence
            (JDict [("format", JStr "JSON"); ("total_elements", JInt 2);
                    ("hierarchy",
                     JDict [("order", JDict [("source_path", JStr "/order");
                                             ("Source Occurs", JStr "1...1")]);
                            ("sku", JDict [("source_path", JStr "/sku")])])])
            (Generator.target_occurrence_of t)
          = Raise AttributeError)
    /\ (forall open_w mode prefix max_json,
          exists st,
            Required.modify_json_and_generate_files open_w mode prefix
              [("format", JStr name); ("total_elements", JInt n); ("hierarchy", hierarchy)]
              max_json = Returns st
            /\ files st = [] /\ Required.manifest (Returns st) = None)
    /\ (forall open_w mode prefix max_json,
          exists st,
            Optional2.modify_json_and_generate_files open_w mode prefix
              [("format", JStr name); ("total_elements", JInt n); ("hierarchy", hierarchy)]
              max_json = Returns st
            /\ files st = [] /\ found st = false).
Proof.
  apply (process_excel_envelope_is_no_specification [] "spec.xlsx"
           {| columns := ["Level 1"; "Source Occurs"];
              rows := [[Some "order"; Some "1...1"]; [Some "sku"; None]] |}).
  - reflexivity.
  - vm_compute. reflexivity.
Defined.

(** ** [Optional2.py]: what the mutator records and what it leaves *)

Module OptionalKeys.
Import Heap HeapSpec HeapFacts Optional2 LegacySpec LegacyFacts.

Lemma each_nil rec :
  (forall h v h' evs, rec h v = Ok (h', [], evs) -> h' = h) ->
  forall vs h h' evs, each rec vs h = Ok (h', [], evs) -> h' = h.
Proof.
  intros Hrec. induction vs as [|v t IH]; intros h h' evs H; simpl in H.
  - inversion H; reflexivity.
  - destruct (rec h v) as [[[h1 ks1] evs1]|] eqn:Ev; [|discriminate]. cbn [rbind] in H.
    destruct (each rec t h1) as [[[h2 ks2] evs2]|] eqn:Et; [|discriminate].
    cbn [rbind] in H. inversion H; subst.
    match goal with E : (ks1 ++ ks2)%list = [] |- _ => apply app_eq_nil in E as [-> ->] end.
    apply Hrec in Ev. subst h1. eapply IH; eassumption.
Qed.

(** A call that records nothing has changed nothing. *)
Lemma find_nil key mode n :
  forall h v h' evs, find_and_modify_keys n key mode h v = Ok (h', [], evs) -> h' = h.
Proof.
  induction n as [|n IH]; intros h v h' evs H; destruct v;
    try (inversion H; reflexivity); try discriminate.
  cbn [find_and_modify_keys] in H.
  destruct (h !! l) as [[vs|d]|]; [| |discriminate].
  - eapply each_nil; eassumption.
  - destruct (Dict.has key d).
    + destruct (String.eqb mode "remove");
        [|destruct (String.eqb mode "comment")];
        (destruct (each _ _ _) as [[[h2 ks2] evs2]|]; [|discriminate]);
        cbn [rbind] in H; inversion H.
    + destruct (each _ _ _) as [[[h2 ks2] evs2]|] eqn:Et; [|discriminate].
      cbn [rbind] in H. inversion H; subst. eapply each_nil; eassumption.
Qed.

Lemma each_flag key n rec :
  (forall h v h' evs, rec h v = Ok (h', [], evs) -> h' = h) ->
  (forall h v h' ks evs j,
      rec h v = Ok (h', ks, evs) -> read n h v = Ok j ->
      not_empty ks = holds_key key j) ->
  forall vs h h' ks evs js,
    each rec vs h = Ok (h', ks, evs) ->
    read_list (read n h) vs = Ok js ->
    not_empty ks = existsb (holds_key key) js.
Proof.
  intros Hnil Hrec. induction vs as [|v t IH]; intros h h' ks evs js H Hr; simpl in *.
  - inversion H; inversion Hr; subst. reflexivity.
  - destruct (rec h v) as [[[h1 ks1] evs1]|] eqn:Ev; [|discriminate]. cbn [rbind] in H.
    destruct (each rec t h1) as [[[h2 ks2] evs2]|] eqn:Et; [|discriminate].
    cbn [rbind] in H. inversion H; subst. clear H.
    destruct (read n h v) as [j|] eqn:Ej; [|discriminate]. cbn [rbind] in Hr.
    destruct (read_list (read n h) t) as [js'|] eqn:Ejs; [|discriminate].
    cbn [rbind] in Hr. inversion Hr; subst js. simpl.
    rewrite <- (Hrec _ _ _ _ _ _ Ev Ej).
    destruct ks1 as [|k ks1]; [|reflexivity].
    apply Hnil in Ev. subst h1. simpl. eapply IH; eassumption.
Qed.

Lemma optional_find_flag key mode n :
  forall h v h' ks evs j,
    find_and_modify_keys n key mode h v = Ok (h', ks, evs) ->
    read n h v = Ok j ->
    not_empty ks = holds_key key j.
Proof.
  induction n as [|n IH]; intros h v h' ks evs j H Hr; destruct v;
    try (inversion H; inversion Hr; reflexivity); try discriminate.
  cbn [find_and_modify_keys] in H. cbn [read] in Hr.
  destruct (h !! l) as [[vs|d]|]; [| |discriminate].
  - apply rmap_inv in Hr as (js & Hjs & ->). simpl.
    eapply each_flag; [apply find_nil|apply IH|eassumption..].
  - apply rmap_inv in Hr as (items & Hitems & ->).
    apply read_items_inv in Hitems as [Hkeys Hvalues].
    cbn [holds_key]. rewrite (has_same_keys key items d Hkeys).
    destruct (Dict.has key d).
    + destruct (String.eqb mode "remove");
        [|destruct (String.eqb mode "comment")];
        (destruct (each _ _ _) as [[[h2 ks2] evs2]|]; [|discriminate]);
        cbn [rbind] in H; inversion H; reflexivity.
    + destruct (each _ _ _) as [[[h2 ks2] evs2]|] eqn:Et; [|discriminate].
      cbn [rbind] in H. inversion H; subst. rewrite existsb_values. simpl.
      eapply each_flag; [apply find_nil|apply IH|eassumption..].
Qed.

Lemma each_all (P : string -> Prop) rec :
  (forall h v h' ks evs, rec h v = Ok (h', ks, evs) -> Forall P ks) ->
  forall vs h h' ks evs, each rec vs h = Ok (h', ks, evs) -> Forall P ks.
Proof.
  intros Hrec. induction vs as [|v t IH]; intros h h' ks evs H; simpl in H.
  - inversion H; constructor.
  - destruct (rec h v) as [[[h1 ks1] evs1]|] eqn:Ev; [|discriminate]. cbn [rbind] in H.
    destruct (each rec t h1) as [[[h2 ks2] evs2]|] eqn:Et; [|discriminate].
    cbn [rbind] in H. inversion H; subst.
    apply Forall_app. split; [eapply Hrec|eapply IH]; eassumption.
Qed.

(** Only the key asked for is recorded. *)
Lemma find_records_key key mode n :
  forall h v h' ks evs,
    find_and_modify_keys n key mode h v = Ok (h', ks, evs) -> Forall (eq key) ks.
Proof.
  induction n as [|n IH]; intros h v h' ks evs H; destruct v;
    try (inversion H; constructor); try discriminate.
  cbn [find_and_modify_keys] in H.
  destruct (h !! l) as [[vs|d]|]; [| |discriminate].
  - eapply each_all; eassumption.
  - destruct (Dict.has key d).
    + destruct (String.eqb mode "remove");
        [|destruct (String.eqb mode "comment")];
        (destruct (each _ _ _) as [[[h2 ks2] evs2]|] eqn:Et; [|discriminate]);
        cbn [rbind] in H; inversion H; subst;
        (constructor; [reflexivity|eapply each_all; eassumption]).
    + destruct (each _ _ _) as [[[h2 ks2] evs2]|] eqn:Et; [|discriminate].
      cbn [rbind] in H. inversion H; subst. eapply each_all; eassumption.
Qed.

End OptionalKeys.

(** X24. What [find_and_modify_keys] of [Optional2.py] appends to
    [modified_keys]: on data that [json.dumps] can write, the call returns;
    it appends copies of the key it was asked for and nothing else, and at
    least one copy exactly when the key is a key of some dictionary of the
    data, at any depth. *)
Theorem optional_records_key_when_present (fuel : nat) (key mode : string)
  (h : list Heap.hobj) (data : Heap.hval) (j : json) :
  Heap.read fuel h data = Ok j ->
  exists h' ks evs,
    Optional2.find_and_modify_keys fuel key mode h data = Ok (h', ks, evs)
    /\ Forall (eq key) ks
    /\ LegacySpec.not_empty ks = LegacySpec.holds_key key j.
Proof.
  intros Hr.
  destruct (Optional2Facts.optional_find_ok key mode fuel h data (ex_intro _ j Hr))
    as (h' & ks & evs & Hf & _).
  exists h', ks, evs. split; [assumption|]. split.
  - eapply OptionalKeys.find_records_key; eassumption.
  - eapply OptionalKeys.optional_find_flag; eassumption.
Qed.

Lemma optional_records_key_when_present_witness :
  exists h' ks evs,
    Optional2.find_and_modify_keys 2 "sku" "comment"
      [Heap.HDict [("sku", Heap.HStr "X1")]; Heap.HDict [("sku", Heap.HRef 0)]]
      (Heap.HRef 1)
    = Ok (h', ks, evs)
    /\ Forall (eq "sku") ks
    /\ LegacySpec.not_empty ks
       = LegacySpec.holds_key "sku" (JDict [("sku", JDict [("sku", JStr "X1")])]).
Proof.
  apply (optional_records_key_when_present 2 "sku" "comment"
           [Heap.HDict [("sku", Heap.HStr "X1")]; Heap.HDict [("sku", Heap.HRef 0)]]
           (Heap.HRef 1)).
  reflexivity.
Defined.

Module KeyFacts.
Import Heap HeapSpec HeapFacts Optional2 LegacySpec LegacyFacts OptionalKeys KeySpec.

Lemma keys_del {A} k (d : list (string * A)) : map fst (Dict.del k d) `sublist_of` map fst d.
Proof.
  induction d as [|[k' v] t IH]; simpl; [constructor|].
  destruct (String.eqb k k'); [apply sublist_cons; reflexivity|].
  simpl. apply sublist_skip. assumption.
Qed.

Lemma NoDup_del {A} k (d : list (string * A)) :
  NoDup (map fst d) -> NoDup (map fst (Dict.del k d)).
Proof. intros H. eapply sublist_NoDup; [eassumption|apply keys_del]. Qed.

Lemma keys_set {A} k v (d : list (string * A)) :
  map fst (Dict.set k v d)
  = if Dict.has k d then map fst d else (map fst d ++ [k])%list.
Proof.
  unfold Dict.has. induction d as [|[k' v'] t IH]; simpl; [reflexivity|].
  destruct (String.eqb_spec k k') as [->|Hne]; [reflexivity|].
  simpl. rewrite IH. destruct (Dict.get k t); reflexivity.
Qed.

Lemma get_None_not_key {A} k (d : list (string * A)) :
  Dict.get k d = None -> k ∉ map fst d.
Proof.
  induction d as [|[k' v] t IH]; simpl; intros H Hin; [inversion Hin|].
  destruct (String.eqb_spec k k') as [->|Hne]; [discriminate|].
  apply elem_of_cons in Hin as [Hin|Hin]; [congruence|]. apply IH; assumption.
Qed.

Lemma NoDup_set {A} k v (d : list (string * A)) :
  NoDup (map fst d) -> NoDup (map fst (Dict.set k v d)).
Proof.
  intros H. rewrite keys_set. unfold Dict.has.
  destruct (Dict.get k d) eqn:E; [assumption|].
  apply NoDup_app. split; [assumption|]. split; [|apply NoDup_singleton].
  intros x Hx Hk. apply list_elem_of_singleton in Hk. subst.
  eapply get_None_not_key; eassumption.
Qed.

Lemma NoDup_key_op {A} mode k (d : list (string * A)) :
  NoDup (map fst d) -> NoDup (map fst (TreeSpec.key_op mode k d)).
Proof.
  intros H. unfold TreeSpec.key_op.
  destruct (String.eqb mode "remove"); [apply NoDup_del; assumption|].
  destruct (String.eqb mode "comment"); [|assumption].
  unfold Dict.comment_key. destruct (Dict.get k d); [|assumption].
  apply NoDup_set, NoDup_del. assumption.
Qed.

Lemma get_absent {A} k (d : list (string * A)) : k ∉ map fst d -> Dict.get k d = None.
Proof.
  induction d as [|[k' v] t IH]; simpl; intros H; [reflexivity|].
  destruct (String.eqb_spec k k') as [->|Hne].
  - exfalso. apply H. left.
  - apply IH. intros Hin. apply H. right. assumption.
Qed.

Lemma get_del_self {A} k (d : list (string * A)) :
  NoDup (map fst d) -> Dict.get k (Dict.del k d) = None.
Proof.
  induction d as [|[k' v] t IH]; simpl; intros H; [reflexivity|].
  apply NoDup_cons in H as [Hk' Ht].
  destruct (String.eqb_spec k k') as [->|Hne].
  - apply get_absent. assumption.
  - simpl. destruct (String.eqb_spec k k'); [congruence|]. apply IH. assumption.
Qed.

Lemma has_key_op mode k {A} (d : list (string * A)) :
  changes mode -> NoDup (map fst d) -> Dict.has k (TreeSpec.key_op mode k d) = false.
Proof.
  intros Hm Hd. unfold Dict.has, TreeSpec.key_op.
  destruct Hm as [-> | ->].
  - change (String.eqb "remove" "remove") with true. cbv iota.
    rewrite get_del_self by assumption. reflexivity.
  - change (String.eqb "comment" "remove") with false.
    change (String.eqb "comment" "comment") with true. cbv iota.
    unfold Dict.comment_key. destruct (Dict.get k d) as [v|] eqn:E; [|rewrite E; reflexivity].
    rewrite DictFacts.get_set_ne by (intros H; symmetry in H; revert H; apply DictFacts.commented_ne).
    rewrite get_del_self by assumption. reflexivity.
Qed.

Lemma kupd_wf key mode h h' : kupd key mode h h' -> heap_wf h -> heap_wf h'.
Proof.
  intros (l & d & Hl & _ & ->) H. unfold heap_wf in *.
  apply Forall_insert; [assumption|]. cbn [distinct_keys].
  apply NoDup_key_op. apply (Forall_lookup_1 _ _ _ _ H Hl).
Qed.

Lemma rtc_kupd_wf key mode h h' : rtc (kupd key mode) h h' -> heap_wf h -> heap_wf h'.
Proof. induction 1; [auto|]. intros Hw. apply IHrtc. eapply kupd_wf; eassumption. Qed.

(** A step is an update in the sense of [upd]: readable values stay
    readable. *)
Lemma kupd_upd key mode h h' : kupd key mode h h' -> upd h h'.
Proof.
  intros (l & d & Hl & _ & ->). econstructor; [eassumption|].
  unfold TreeSpec.key_op.
  destruct (String.eqb mode "remove"); [apply values_del|].
  destruct (String.eqb mode "comment"); [apply values_comment_key|auto].
Qed.

Lemma rtc_kupd_upd key mode h h' : rtc (kupd key mode) h h' -> rtc upd h h'.
Proof.
  induction 1; [constructor|]. eapply rtc_l; [eapply kupd_upd|]; eassumption.
Qed.

(** A step leaves the lists and the dictionaries without the key alone. *)
Lemma kupd_keeps key mode h h' l0 o :
  kupd key mode h h' ->
  h !! l0 = Some o ->
  match o with HDict e => Dict.has key e = false | HList _ => True end ->
  h' !! l0 = Some o.
Proof.
  intros (l & d & Hl & Hhas & ->) Ho Hfree.
  destruct (Nat.eq_dec l l0) as [->|Hne].
  - rewrite Hl in Ho. inversion Ho; subst. congruence.
  - rewrite list_lookup_insert_ne by assumption. assumption.
Qed.

Lemma rtc_kupd_keeps key mode h h' l0 o :
  rtc (kupd key mode) h h' ->
  h !! l0 = Some o ->
  match o with HDict e => Dict.has key e = false | HList _ => True end ->
  h' !! l0 = Some o.
Proof.
  induction 1; [auto|]. intros Ho Hfree. apply IHrtc; [|assumption].
  eapply kupd_keeps; eassumption.
Qed.

Lemma each_rtc key mode rec :
  (forall h v h' ks evs, rec h v = Ok (h', ks, evs) -> rtc (kupd key mode) h h') ->
  forall vs h h' ks evs, each rec vs h = Ok (h', ks, evs) -> rtc (kupd key mode) h h'.
Proof.
  intros Hrec. induction vs as [|v t IH]; intros h h' ks evs H; simpl in H.
  - inversion H; subst. constructor.
  - destruct (rec h v) as [[[h1 ks1] evs1]|] eqn:Ev; [|discriminate]. cbn [rbind] in H.
    destruct (each rec t h1) as [[[h2 ks2] evs2]|] eqn:Et; [|discriminate].
    cbn [rbind] in H. inversion H; subst.
    etransitivity; [eapply Hrec|eapply IH]; eassumption.
Qed.

(** All a call does to the store is a sequence of such steps. *)
Lemma find_rtc key mode n :
  forall h v h' ks evs,
    find_and_modify_keys n key mode h v = Ok (h', ks, evs) -> rtc (kupd key mode) h h'.
Proof.
  induction n as [|n IH]; intros h v h' ks evs H; destruct v;
    try (inversion H; subst; constructor); try discriminate.
  cbn [find_and_modify_keys] in H.
  destruct (h !! l) as [[vs|d]|] eqn:El; [| |discriminate].
  - eapply each_rtc; eassumption.
  - destruct (Dict.has key d) eqn:Ehas.
    + assert (Hstep : forall d1,
                 d1 = TreeSpec.key_op mode key d ->
                 kupd key mode h (<[l := HDict d1]> h)).
      { intros d1 ->. exists l, d. auto. }
      unfold TreeSpec.key_op in Hstep.
      destruct (String.eqb mode "remove");
        [|destruct (String.eqb mode "comment")];
        (destruct (each _ _ _) as [[[h2 ks2] evs2]|] eqn:Et; [|discriminate]);
        cbn [rbind] in H; inversion H; subst.
      * eapply rtc_l; [apply Hstep; reflexivity|]. eapply each_rtc; eassumption.
      * eapply rtc_l; [apply Hstep; reflexivity|]. eapply each_rtc; eassumption.
      * eapply each_rtc; eassumption.
    + destruct (each _ _ _) as [[[h2 ks2] evs2]|] eqn:Et; [|discriminate].
      cbn [rbind] in H. inversion H; subst. eapply each_rtc; eassumption.
Qed.

Lemma read_list_on (P : json -> Prop) (f g : hval -> result json) vs js :
  Forall P js ->
  (forall v j, f v = Ok j -> P j -> g v = Ok j) ->
  read_list f vs = Ok js -> read_list g vs = Ok js.
Proof.
  intros HP Hfg. revert js HP. induction vs as [|v t IH]; intros js HP H; simpl in *;
    [assumption|].
  destruct (f v) as [j|] eqn:Ev; [|discriminate]. cbn [rbind] in H.
  destruct (read_list f t) as [js'|] eqn:Et; [|discriminate]. cbn [rbind] in H.
  inversion H; subst. inversion HP; subst.
  rewrite (Hfg _ _ Ev), (IH js') by auto. reflexivity.
Qed.

Lemma read_items_on (P : json -> Prop) (f g : hval -> result json) d items :
  Forall (fun kv => P (snd kv)) items ->
  (forall v j, f v = Ok j -> P j -> g v = Ok j) ->
  read_items f d = Ok items -> read_items g d = Ok items.
Proof.
  intros HP Hfg. revert items HP. induction d as [|[k v] t IH]; intros items HP H;
    simpl in *; [assumption|].
  destruct (f v) as [j|] eqn:Ev; [|discriminate]. cbn [rbind] in H.
  destruct (read_items f t) as [js'|] eqn:Et; [|discriminate]. cbn [rbind] in H.
  inversion H; subst. inversion HP; subst.
  rewrite (Hfg _ _ Ev), (IH js') by auto. reflexivity.
Qed.

Lemma existsb_false_Forall {A} (p : A -> bool) l :
  existsb p l = false -> Forall (fun x => p x = false) l.
Proof.
  induction l as [|x t IH]; simpl; intros H; [constructor|].
  apply orb_false_iff in H as [Hx Ht]. constructor; auto.
Qed.

(** A value that reads as a document without the key reads the same after
    a step. *)
Lemma read_kupd key mode h h' :
  kupd key mode h h' ->
  forall n v j, read n h v = Ok j -> holds_key key j = false -> read n h' v = Ok j.
Proof.
  intros Hk. induction n as [|n IH]; intros v j Hr Hfree; destruct v;
    try assumption; try discriminate.
  cbn [read] in *.
  destruct (h !! l) as [[vs|d]|] eqn:El; [| |discriminate].
  - rewrite (kupd_keeps _ _ _ _ _ _ Hk El I).
    apply rmap_inv in Hr as (js & Hjs & ->). cbn [holds_key] in Hfree.
    rewrite (read_list_on (fun j => holds_key key j = false) (read n h) (read n h') vs js);
      [reflexivity|apply existsb_false_Forall; assumption|apply IH|assumption].
  - apply rmap_inv in Hr as (items & Hitems & ->). cbn [holds_key] in Hfree.
    apply orb_false_iff in Hfree as [Hhas Hvals].
    pose proof (read_items_inv _ _ _ Hitems) as [Hkeys _].
    rewrite (has_same_keys key items d Hkeys) in Hhas.
    rewrite (kupd_keeps _ _ _ _ _ _ Hk El Hhas).
    rewrite (read_items_on (fun j => holds_key key j = false) (read n h) (read n h') d items);
      [reflexivity| |apply IH|assumption].
    apply existsb_false_Forall in Hvals. assumption.
Qed.

Lemma read_rtc_kupd key mode h h' :
  rtc (kupd key mode) h h' ->
  forall n v j, read n h v = Ok j -> holds_key key j = false -> read n h' v = Ok j.
Proof.
  induction 1; [auto|]. intros n v j Hr Hfree.
  apply IHrtc; [|assumption]. eapply read_kupd; eassumption.
Qed.

Lemma clean_list key n h vs :
  Forall (clean key n h) vs ->
  exists js, read_list (read n h) vs = Ok js /\ existsb (holds_key key) js = false.
Proof.
  induction 1 as [|v t (j & Hj & Hfree) _ (js & Hjs & Hfrees)]; simpl.
  - exists []. auto.
  - rewrite Hj, Hjs. exists (j :: js). simpl. rewrite Hfree, Hfrees. auto.
Qed.

Lemma clean_items key n h d :
  Forall (clean key n h) (map snd d) ->
  exists items,
    read_items (read n h) d = Ok items /\ map fst items = map fst d
    /\ existsb (fun kv => holds_key key (snd kv)) items = false.
Proof.
  induction d as [|[k v] t IH]; simpl; intros H.
  - exists []. auto.
  - inversion H as [|? ? (j & Hj & Hfree) Ht]; subst.
    destruct (IH Ht) as (items & Hitems & Hkeys & Hfrees).
    rewrite Hj, Hitems. exists ((k, j) :: items). simpl.
    rewrite Hkeys, Hfree, Hfrees. auto.
Qed.

Lemma each_clean key mode m :
  (forall h v h' ks evs,
      find_and_modify_keys m key mode h v = Ok (h', ks, evs) ->
      heap_wf h -> readable m h v -> clean key m h' v) ->
  forall vs h h' ks evs,
    each (find_and_modify_keys m key mode) vs h = Ok (h', ks, evs) ->
    heap_wf h -> Forall (readable m h) vs -> Forall (clean key m h') vs.
Proof.
  intros Hrec. induction vs as [|v t IH]; intros h h' ks evs H Hwf Hr; [constructor|].
  simpl in H.
  destruct (find_and_modify_keys m key mode h v) as [[[h1 ks1] evs1]|] eqn:Ev;
    [|discriminate].
  cbn [rbind] in H.
  destruct (each _ t h1) as [[[h2 ks2] evs2]|] eqn:Et; [|discriminate].
  cbn [rbind] in H. inversion H; subst. clear H.
  inversion Hr as [|? ? Hv Ht]; subst.
  pose proof (find_rtc _ _ _ _ _ _ _ _ Ev) as H1.
  pose proof (each_rtc key mode _ (find_rtc key mode m) _ _ _ _ _ Et) as H2.
  constructor.
  - destruct (Hrec _ _ _ _ _ Ev Hwf Hv) as (j & Hj & Hfree).
    exists j. split; [|assumption]. eapply read_rtc_kupd; eassumption.
  - eapply IH; [eassumption|eapply rtc_kupd_wf; eassumption|].
    eapply Forall_impl; [eassumption|].
    intros w. apply Optional2Facts.read_rtc_upd. eapply rtc_kupd_upd; eassumption.
Qed.

(** After a call in remove or comment mode, no dictionary of the data holds
    the key. *)
Lemma find_clean key mode n :
  changes mode ->
  forall h v h' ks evs,
    find_and_modify_keys n key mode h v = Ok (h', ks, evs) ->
    heap_wf h -> readable n h v -> clean key n h' v.
Proof.
  intros Hm. induction n as [|n IH]; intros h v h' ks evs H Hwf Hr.
  - destruct v; try discriminate; inversion H; subst;
      destruct Hr as [j Hj]; exists j; (split; [assumption|]);
      inversion Hj; reflexivity.
  - destruct v;
      try (inversion H; subst; destruct Hr as [j Hj]; exists j; (split; [assumption|]);
           inversion Hj; reflexivity).
    apply readable_ref in Hr as (o & Ho & Hvs).
    cbn [find_and_modify_keys] in H. rewrite Ho in H. destruct o as [vs|d].
    + pose proof (each_rtc key mode _ (find_rtc key mode n) _ _ _ _ _ H) as Hrtc.
      pose proof (each_clean key mode n IH _ _ _ _ _ H Hwf Hvs) as Hclean.
      apply clean_list in Hclean as (js & Hjs & Hfree).
      exists (JList js). cbn [read].
      rewrite (rtc_kupd_keeps _ _ _ _ _ _ Hrtc Ho I), Hjs. auto.
    + assert (Hstep : forall h1 d1 ks0 evs0,
                 h1 = <[l := HDict d1]> h ->
                 rtc (kupd key mode) h h1 ->
                 Dict.has key d1 = false ->
                 (forall w, w ∈ map snd d1 -> w ∈ map snd d) ->
                 (do r <- each (find_and_modify_keys n key mode) (map snd d1) h1 ;;
                  let '(h2, ks2, evs2) := r in
                  Ok (h2, (ks0 ++ ks2)%list, (evs0 ++ evs2)%list)) = Ok (h', ks, evs) ->
                 clean key (S n) h' (HRef l)).
      { intros h1 d1 ks0 evs0 -> H1 Hhas Hsub Hrun.
        destruct (each _ _ _) as [[[h2 ks2] evs2]|] eqn:Et; [|discriminate].
        cbn [rbind] in Hrun. inversion Hrun; subst. clear Hrun.
        pose proof (each_rtc key mode _ (find_rtc key mode n) _ _ _ _ _ Et) as H2.
        assert (Hl : <[l := HDict d1]> h !! l = Some (HDict d1)).
        { apply list_lookup_insert_eq. eapply lookup_lt_Some; eassumption. }
        assert (Hclean : Forall (clean key n h') (map snd d1)).
        { eapply each_clean; [exact IH|eassumption|eapply rtc_kupd_wf; eassumption|].
          apply Forall_forall. intros w Hw.
          eapply Optional2Facts.read_rtc_upd; [eapply rtc_kupd_upd; eassumption|].
          rewrite Forall_forall in Hvs. apply Hvs, Hsub. assumption. }
        apply clean_items in Hclean as (items & Hitems & Hkeys & Hfree).
        exists (JDict items). cbn [read].
        rewrite (rtc_kupd_keeps _ _ _ _ _ _ H2 Hl Hhas), Hitems.
        split; [reflexivity|]. cbn [holds_key].
        rewrite (has_same_keys key items d1 Hkeys), Hhas, Hfree. reflexivity. }
      assert (Hd : NoDup (map fst d)) by apply (Forall_lookup_1 _ _ _ _ Hwf Ho).
      destruct (Dict.has key d) eqn:Ehas.
      * assert (Hk : kupd key mode h (<[l := HDict (TreeSpec.key_op mode key d)]> h))
          by (exists l, d; auto).
        pose proof (has_key_op mode key d Hm Hd) as Hop.
        unfold TreeSpec.key_op in Hk, Hop.
        destruct Hm as [-> | ->].
        -- change (String.eqb "remove" "remove") with true in *. cbv iota in *.
           eapply Hstep; [reflexivity|apply rtc_once; exact Hk|exact Hop|
                           apply values_del|exact H].
        -- change (String.eqb "comment" "remove") with false in *.
           change (String.eqb "comment" "comment") with true in *. cbv iota in *.
           eapply Hstep; [reflexivity|apply rtc_once; exact Hk|exact Hop|
                           apply values_comment_key|exact H].
      * eapply Hstep; [symmetry; apply list_insert_id; exact Ho|constructor|exact Ehas|
                        auto|exact H].
Qed.

End KeyFacts.

(** X25. [find_and_modify_keys] of [Optional2.py] reaches every occurrence:
    in remove or comment mode, on data that [json.dumps] can write and whose
    dictionaries have distinct keys, the call returns, the data can still
    be written, and in what is written no dictionary, at any depth, holds
    the key. *)
Theorem optional_leaves_no_key (fuel : nat) (key mode : string)
  (h : list Heap.hobj) (data : Heap.hval) (j : json) :
  mode = "remove" \/ mode = "comment" ->
  KeySpec.heap_wf h ->
  Heap.read fuel h data = Ok j ->
  exists h' ks evs j',
    Optional2.find_and_modify_keys fuel key mode h data = Ok (h', ks, evs)
    /\ Heap.read fuel h' data = Ok j'
    /\ LegacySpec.holds_key key j' = false.
Proof.
  intros Hm Hwf Hr.
  destruct (Optional2Facts.optional_find_ok key mode fuel h data (ex_intro _ j Hr))
    as (h' & ks & evs & Hf & _).
  destruct (KeyFacts.find_clean key mode fuel Hm _ _ _ _ _ Hf Hwf (ex_intro _ j Hr))
    as (j' & Hj' & Hfree).
  exists h', ks, evs, j'. auto.
Qed.

Lemma optional_leaves_no_key_witness :
  exists h' ks evs j',
    Optional2.find_and_modify_keys 2 "sku" "comment"
      [Heap.HDict [("sku", Heap.HStr "X1")];
       Heap.HDict [("order", Heap.HRef 0); ("sku", Heap.HInt 1)]]
      (Heap.HRef 1)
    = Ok (h', ks, evs)
    /\ Heap.read 2 h' (Heap.HRef 1) = Ok j'
    /\ LegacySpec.holds_key "sku" j' = false.
Proof.
  apply (optional_leaves_no_key 2 "sku" "comment"
           [Heap.HDict [("sku", Heap.HStr "X1")];
            Heap.HDict [("order", Heap.HRef 0); ("sku", Heap.HInt 1)]]
           (Heap.HRef 1)
           (JDict [("order", JDict [("sku", JStr "X1")]); ("sku", JInt 1)])).
  - right. reflexivity.
  - repeat constructor; intros Hin;
      repeat (apply elem_of_cons in Hin as [Hin|Hin]; [discriminate|]); inversion Hin.
  - reflexivity.
Defined.

(** ** [Optional2.py]: the files and the manifest of a run *)

Module OptionalFiles.
Import Heap HeapSpec HeapFacts Optional2 LegacySpec LegacyFacts OptionalKeys KeySpec KeyFacts.
Import OptionalSpec Occurrence OccurrenceFacts GeneratorSpec.

Lemma each_shift (h : heap) rec rec' :
  (forall g v, rec' (h ++ shift_heap (length h) g)%list (shift_val (length h) v)
               = olift h (rec g v)) ->
  forall vs g,
    each rec' (map (shift_val (length h)) vs) (h ++ shift_heap (length h) g)%list
    = olift h (each rec vs g).
Proof.
  intros Hrec. induction vs as [|v t IH]; intros g; simpl; [reflexivity|].
  rewrite Hrec. destruct (rec g v) as [[[g1 ks] evs]|]; simpl; [|reflexivity].
  rewrite IH. destruct (each rec t g1) as [[[g2 ks'] evs']|]; reflexivity.
Qed.

(** The mutator run on a moved block behind [h] does to the block what it
    does to the block alone, and does not touch [h]. *)
Lemma optional_find_shift key mode n (h : heap) :
  forall g v,
    find_and_modify_keys n key mode (h ++ shift_heap (length h) g)%list
      (shift_val (length h) v)
    = olift h (find_and_modify_keys n key mode g v).
Proof.
  induction n as [|n IH]; intros g v; destruct v; try reflexivity.
  cbn [find_and_modify_keys shift_val]. rewrite lookup_shifted.
  destruct (g !! l) as [[vs|d]|]; cbn [fmap option_fmap option_map shift_obj];
    [| |reflexivity].
  - apply each_shift. assumption.
  - rewrite has_on_values.
    assert (Hrun : forall (d1 : list (string * hval)) (g1 : heap) ks0 evs0,
               (do r <- each (find_and_modify_keys n key mode)
                          (map snd (map (fun kv : string * hval => (fst kv, shift_val (length h) (snd kv))) d1))
                          (h ++ shift_heap (length h) g1)%list ;;
                let '(h2, ks', evs') := r in
                Ok (h2, (ks0 ++ ks')%list, (evs0 ++ evs')%list))
               = olift h
                   (do r <- each (find_and_modify_keys n key mode) (map snd d1) g1 ;;
                    let '(h2, ks', evs') := r in
                    Ok (h2, (ks0 ++ ks')%list, (evs0 ++ evs')%list))).
    { intros d1 g1 ks0 evs0. rewrite values_on_values.
      rewrite (each_shift h _ _ IH).
      destruct (each _ (map snd d1) g1) as [[[g2 ks'] evs']|]; reflexivity. }
    destruct (Dict.has key d).
    + destruct (String.eqb mode "remove").
      { rewrite del_on_values.
        pose proof (insert_shifted h g l (HDict (Dict.del key d))) as Hi.
        cbn [shift_obj] in Hi. rewrite Hi. apply Hrun. }
      destruct (String.eqb mode "comment"); [|apply Hrun].
      rewrite comment_key_on_values.
      pose proof (insert_shifted h g l (HDict (Dict.comment_key key d))) as Hi.
      cbn [shift_obj] in Hi. rewrite Hi. apply Hrun.
    + apply Hrun.
Qed.

Lemma each_mono rec rec' :
  (forall h v r, rec h v = Ok r -> rec' h v = Ok r) ->
  forall vs h r, each rec vs h = Ok r -> each rec' vs h = Ok r.
Proof.
  intros Hrec. induction vs as [|v t IH]; intros h r H; simpl in *; [assumption|].
  destruct (rec h v) as [[[h1 ks] evs]|] eqn:Ev; [|discriminate].
  rewrite (Hrec _ _ _ Ev). cbn [rbind] in *.
  destruct (each rec t h1) as [r'|] eqn:Et; [|discriminate].
  rewrite (IH _ _ Et). assumption.
Qed.

(** More fuel does not change a result. *)
Lemma optional_find_fuel key mode n m :
  n <= m -> forall h v r,
    find_and_modify_keys n key mode h v = Ok r ->
    find_and_modify_keys m key mode h v = Ok r.
Proof.
  revert m. induction n as [|n IH]; intros m Hle h v r H.
  - destruct v; try discriminate; destruct m; assumption.
  - destruct v; try (destruct m; assumption).
    destruct m as [|m]; [lia|]. cbn [find_and_modify_keys] in *.
    destruct (h !! l) as [[vs|d]|]; [| |discriminate].
    + eapply each_mono; [|eassumption]. apply IH. lia.
    + destruct (if Dict.has key d then _ else _) as [[[h1 d1] ks] evs].
      destruct (each (find_and_modify_keys n key mode) (map snd d1) h1) as [r'|] eqn:Et;
        [|discriminate].
      rewrite (each_mono _ _ (IH m ltac:(lia)) _ _ _ Et). assumption.
Qed.

Lemma wf_list l : fold_right (fun x acc => wf_json x /\ acc) True l -> Forall wf_json l.
Proof. induction l as [|x t IH]; simpl; [constructor|]. intros [Hx Ht]. auto. Qed.

Lemma wf_items (d : list (string * json)) :
  fold_right (fun kv acc => wf_json (snd kv) /\ acc) True d ->
  Forall (fun kv => wf_json (snd kv)) d.
Proof. induction d as [|x t IH]; simpl; [constructor|]. intros [Hx Ht]. auto. Qed.

Lemma build_list_wf l :
  Forall (fun x => forall base, heap_wf (fst (build x base))) l ->
  forall base, heap_wf (fst (build_list build l base)).
Proof.
  induction 1 as [|x t Hx _ IH]; intros base; simpl; [constructor|].
  apply Forall_app. split; [apply Hx|apply IH].
Qed.

Lemma build_items_wf (d : list (string * json)) :
  Forall (fun kv => forall base, heap_wf (fst (build (snd kv) base))) d ->
  forall base,
    heap_wf (fst (build_items build d base))
    /\ map fst (snd (build_items build d base)) = map fst d.
Proof.
  induction 1 as [|[k x] t Hx _ IH]; intros base; simpl; [split; [constructor|reflexivity]|].
  destruct (IH (base + length (fst (build x base)))) as [H1 H2].
  split; [|rewrite H2; reflexivity].
  apply Forall_app. split; [apply Hx|assumption].
Qed.

(** The objects made for a document with distinct keys have distinct keys. *)
Lemma build_wf j : wf_json j -> forall base, heap_wf (fst (build j base)).
Proof.
  induction j as [j IH] using json_rect_sized. intros Hwf base.
  destruct j as [| | | | |l|d]; try constructor.
  - cbn [build fst]. apply Forall_app. split; [|repeat constructor].
    apply build_list_wf. apply wf_list in Hwf.
    rewrite Forall_forall in *. intros x Hx base'.
    apply IH; [apply TreeFacts.elem_size_list; assumption|auto].
  - cbn [build fst]. destruct Hwf as [Hkeys Hvals]. apply wf_items in Hvals.
    assert (Hd : Forall (fun kv => forall base, heap_wf (fst (build (snd kv) base))) d).
    { rewrite Forall_forall in *. intros kv Hkv base'.
      apply IH; [apply elem_size_dict; assumption|auto]. }
    destruct (build_items_wf d Hd base) as [H1 H2].
    apply Forall_app. split; [assumption|].
    constructor; [|constructor]. cbn [distinct_keys]. rewrite H2. assumption.
Qed.

Lemma mem_keys key (ks : list string) :
  Forall (eq key) ks -> mem key ks = not_empty ks.
Proof.
  intros H. destruct H as [|k t Hk _]; [reflexivity|].
  subst. unfold mem. simpl. rewrite String.eqb_refl. reflexivity.
Qed.

Lemma mem_absent key (l : list string) : key ∉ l -> mem key l = false.
Proof.
  unfold mem. induction l as [|k t IH]; simpl; intros H; [reflexivity|].
  apply not_elem_of_cons in H as [Hne Ht].
  apply String.eqb_neq in Hne. rewrite Hne. auto.
Qed.

Lemma mem_app key (l1 l2 : list string) : mem key (l1 ++ l2) = mem key l1 || mem key l2.
Proof. unfold mem. apply existsb_app. Qed.

Section Run.
Variable open_w : string -> result unit.
Variables (mode prefix : string) (max_json : json).

Let B : heap := fst (build max_json 0).
Let v0 : hval := snd (build max_json 0).
Local Abbreviation sample_intact := (RequiredSpec.sample_intact max_json).
Local Abbreviation fixture := (OptionalSpec.fixture open_w mode prefix max_json).
Local Abbreviation exception := (optional_exception open_w prefix max_json).
Local Abbreviation present := (optional_and_present max_json).

Local Abbreviation recorded_hold := (OptionalSpec.recorded_hold max_json).

(** The mutator on the copy of the sample: it returns, it records the key
    when the key occurs in the sample, and the copy can still be read. *)
Lemma optional_copy_flag key :
  exists B' ks evs content,
    find_and_modify_keys (length B) key mode B v0 = Ok (B', ks, evs)
    /\ Forall (eq key) ks
    /\ not_empty ks = holds_key key max_json
    /\ read (length B') B' v0 = Ok content
    /\ length B' = length B
    /\ found_keys evs = [].
Proof.
  pose proof (RequiredRun.sample_intact_start max_json) as Hread.
  unfold RequiredSpec.sample_intact, dumps in Hread. fold B v0 in Hread.
  destruct (Optional2Facts.optional_find_ok key mode (length B) B v0 (ex_intro _ _ Hread))
    as (B' & ks & evs & Hf & Hupd & Hev).
  pose proof (Optional2Facts.rtc_upd_length _ _ Hupd) as Hlen.
  destruct (Optional2Facts.read_rtc_upd _ _ Hupd _ _ (ex_intro _ _ Hread))
    as [content Hc].
  exists B', ks, evs, content.
  split; [assumption|]. split; [eapply find_records_key; eassumption|].
  split; [eapply optional_find_flag; eassumption|].
  split; [rewrite Hlen; assumption|]. split; assumption.
Qed.

(** The file written for an entry: none unless the entry is optional, its
    key is in the sample and the file is taken. *)
Lemma optional_fixture_shape item :
  exists content,
    fixture item
    = if present item
      then match open_w (output_file prefix (fst item)) with
           | Ok _ => [(output_file prefix (fst item), content)]
           | Raise _ => []
           end
      else [].
Proof.
  destruct item as [key details]. unfold OptionalSpec.fixture, optional_and_present.
  cbn [fst snd].
  destruct details as [| | | | | |details]; try (exists JNull; reflexivity).
  unfold optional_class. rewrite has_class_in_class.
  destruct (in_class _ _ _); [|exists JNull; reflexivity].
  destruct (optional_copy_flag key) as (B' & ks & evs & content & Hf & _ & Hflag & Hc & _).
  cbv zeta. fold B v0. rewrite Hf, Hc, Hflag. exists content. cbn [andb].
  destruct (holds_key key max_json); reflexivity.
Qed.

Lemma mem_recorded key st ks :
  recorded_hold st -> Forall (eq key) ks -> not_empty ks = holds_key key max_json ->
  mem key (modified_keys st ++ ks)%list = holds_key key max_json.
Proof.
  intros Hrec Hks Hflag. rewrite mem_app, (mem_keys key ks Hks), Hflag.
  destruct (holds_key key max_json) eqn:E; [apply orb_true_r|].
  rewrite orb_false_r. apply mem_absent. intros Hin.
  unfold OptionalSpec.recorded_hold in Hrec. rewrite Forall_forall in Hrec.
  specialize (Hrec _ Hin). congruence.
Qed.

(** One iteration, from a state in which the sample is intact. *)
Lemma optional_step_files st item :
  sample_intact (store st) -> recorded_hold st ->
  exists st',
    step open_w mode prefix v0 st item = ends (exception item) st'
    /\ (exists x, store st' = (store st ++ x)%list)
    /\ recorded_hold st'
    /\ files st' = (files st ++ fixture item)%list
    /\ (forall k, k ∈ modified_keys st'
                  <-> k ∈ modified_keys st \/ (present item = true /\ k = fst item))
    /\ found st' = found st || present item
    /\ found_keys (out st')
       = (found_keys (out st)
          ++ (if has_class optional_class item then [fst item] else []))%list.
Proof.
  intros Hinv Hrec. destruct item as [key details].
  unfold OptionalSpec.fixture, optional_exception, optional_and_present.
  cbv zeta. fold B v0. cbn [fst snd step].
  assert (Hsame : forall st0 : run_state,
             store st0 = store st -> files st0 = files st ->
             modified_keys st0 = modified_keys st -> found st0 = found st ->
             found_keys (out st0) = found_keys (out st) ->
             exists st',
               Returns st0 = ends None st'
               /\ (exists x, store st' = (store st ++ x)%list)
               /\ recorded_hold st'
               /\ files st' = (files st ++ [])%list
               /\ (forall k, k ∈ modified_keys st'
                             <-> k ∈ modified_keys st \/ (false = true /\ k = key))
               /\ found st' = found st || false
               /\ found_keys (out st') = (found_keys (out st) ++ [])%list).
  { intros st0 H1 H2 H3 H4 H5. exists st0. rewrite !app_nil_r, orb_false_r.
    split; [reflexivity|]. split; [exists []; rewrite app_nil_r; assumption|].
    split; [unfold OptionalSpec.recorded_hold; rewrite H3; assumption|].
    split; [assumption|]. split; [|split; assumption].
    intros k. rewrite H3. split; [auto|]. intros [H|[H _]]; [assumption|discriminate]. }
  destruct details as [| | | | | |details];
    try (apply Hsame; reflexivity).
  unfold optional_class. rewrite has_class_in_class.
  destruct (in_class _ _ _); cbn [andb].
  2:{ apply Hsame; try reflexivity. cbn [out]. rewrite found_keys_app.
      apply app_nil_r. }
  unfold RequiredSpec.sample_intact in Hinv. fold v0 in Hinv. rewrite Hinv.
  cbn [attempt]. rewrite alloc_shift. fold B v0.
  destruct (optional_copy_flag key)
    as (B' & ks & evs & content & Hf & Hks & Hflag & Hc & Hlen & Hev).
  rewrite optional_find_shift.
  assert (Hle : length B <= length (store st ++ shift_heap (length (store st)) B)%list)
    by (rewrite length_app, length_shift_heap; lia).
  rewrite (optional_find_fuel key mode (length B) _ Hle B v0 _ Hf).
  rewrite Hf, Hc. cbn [olift attempt].
  rewrite (mem_recorded key st ks Hrec Hks Hflag), Hflag.
  assert (Hrec' : Forall (fun k => holds_key k max_json = true)
                    (modified_keys st ++ ks)%list).
  { apply Forall_app. split; [exact Hrec|].
    destruct ks as [|k0 ks']; [constructor|].
    cbn [not_empty] in Hflag. eapply Forall_impl; [exact Hks|].
    intros k <-. cbv beta. symmetry. exact Hflag. }
  assert (Hmem : forall k, k ∈ (modified_keys st ++ ks)%list
                           <-> k ∈ modified_keys st
                               \/ (holds_key key max_json = true /\ k = key)).
  { intros k. rewrite elem_of_app. split.
    - intros [H|H]; [auto|]. right. rewrite Forall_forall in Hks.
      rewrite <- (Hks _ H). split; [|reflexivity].
      rewrite <- Hflag. destruct ks; [inversion H|reflexivity].
    - intros [H|[H ->]]; [auto|]. right. rewrite <- Hflag in H.
      destruct ks as [|k0 ks']; [discriminate|].
      inversion Hks; subst. left. }
  destruct (holds_key key max_json).
  - unfold refusal. destruct (open_w (output_file prefix key)) as [u|e]; cbn [attempt].
    + unfold dumps. rewrite read_shift.
      assert (Hle' : length B'
                     <= length (store st ++ shift_heap (length (store st)) B')%list)
        by (rewrite length_app, length_shift_heap; lia).
      rewrite (read_fuel (length B') _ B' v0 content Hle' Hc).
      cbn [attempt]. eexists. split; [reflexivity|].
      cbn [store files modified_keys found out].
      split; [eexists; reflexivity|]. split; [exact Hrec'|].
      split; [reflexivity|]. split; [exact Hmem|].
      split; [rewrite orb_true_r; reflexivity|].
      repeat (rewrite found_keys_app || rewrite found_keys_cons).
      rewrite Hev. change (found_keys []) with (@nil string).
      cbn [app]. rewrite ?app_nil_r. reflexivity.
    + eexists. split; [reflexivity|].
      cbn [store files modified_keys found out].
      split; [eexists; reflexivity|]. split; [exact Hrec'|].
      split; [rewrite app_nil_r; reflexivity|]. split; [exact Hmem|].
      split; [rewrite orb_true_r; reflexivity|].
      repeat (rewrite found_keys_app || rewrite found_keys_cons).
      rewrite Hev. change (found_keys []) with (@nil string).
      cbn [app]. rewrite ?app_nil_r. reflexivity.
  - eexists. split; [reflexivity|].
    cbn [store files modified_keys found out].
    split; [eexists; reflexivity|]. split; [exact Hrec'|].
    rewrite !app_nil_r, orb_false_r.
    split; [reflexivity|]. split; [exact Hmem|]. split; [reflexivity|].
    repeat (rewrite found_keys_app || rewrite found_keys_cons).
    rewrite Hev. change (found_keys []) with (@nil string).
    cbn [app]. rewrite ?app_nil_r. reflexivity.
Qed.

(** The loop over the entries. *)
Lemma optional_loop_files items :
  forall st,
    sample_intact (store st) -> recorded_hold st ->
    exists st',
      loop open_w mode prefix v0 st items = ends (first_exception exception items) st'
      /\ (exists x, store st' = (store st ++ x)%list)
      /\ files st' = (files st ++ flat_map fixture (reached exception items))%list
      /\ (forall k, k ∈ modified_keys st'
                    <-> k ∈ modified_keys st
                        \/ k ∈ map fst (select present (reached exception items)))
      /\ found st' = found st || not_empty (select present (reached exception items))
      /\ found_keys (out st')
         = (found_keys (out st)
            ++ map fst (select (has_class optional_class) (reached exception items)))%list.
Proof.
  induction items as [|item rest IH]; intros st Hinv Hrec.
  - exists st. cbn. rewrite !app_nil_r, orb_false_r.
    split; [reflexivity|]. split; [exists []; rewrite app_nil_r; reflexivity|].
    split; [reflexivity|]. split; [|split; reflexivity].
    intros k. split; [auto|]. intros [H|H]; [assumption|inversion H].
  - cbn [loop reached]. rewrite RequiredFiles.first_exception_cons.
    destruct (optional_step_files st item Hinv Hrec)
      as (st1 & -> & [x Hx] & Hrec1 & Hfiles & Hkeys & Hfound & Hout).
    destruct (exception item) as [e|] eqn:Ee; cbn [ends and_then].
    + exists st1. split; [reflexivity|]. split; [eauto|].
      cbn [flat_map select map]. rewrite app_nil_r.
      split; [assumption|].
      split.
      { intros k. rewrite Hkeys. destruct (present item); cbn [map].
        - rewrite list_elem_of_singleton. intuition.
        - split; [intros [H|[H _]]; [auto|discriminate]|].
          intros [H|H]; [auto|inversion H]. }
      split; [rewrite Hfound; destruct (present item); reflexivity|].
      rewrite Hout. destruct (has_class optional_class item); reflexivity.
    + destruct (IH st1) as (st2 & -> & [y Hy] & Hfiles2 & Hkeys2 & Hfound2 & Hout2).
      { rewrite Hx. apply RequiredRun.sample_intact_app. assumption. }
      { assumption. }
      exists st2. split; [reflexivity|].
      split; [exists (x ++ y)%list; rewrite Hy, Hx, app_assoc; reflexivity|].
      cbn [flat_map select].
      split; [rewrite Hfiles2, Hfiles, app_assoc; reflexivity|].
      split.
      { intros k. rewrite Hkeys2, Hkeys. destruct (present item); cbn [map].
        - rewrite elem_of_cons. intuition.
        - intuition; discriminate. }
      split.
      { rewrite Hfound2, Hfound, <- orb_assoc. destruct (present item); reflexivity. }
      rewrite Hout2, Hout, <- app_assoc.
      destruct (has_class optional_class item); reflexivity.
Qed.

(** The whole run. *)
Lemma optional_run_files spec_data :
  exists st,
    modify_json_and_generate_files open_w mode prefix spec_data max_json
    = ends (match first_exception exception spec_data with
            | Some e => Some e
            | None => if found st then refusal open_w "_optional_missing_keys.txt"
                      else None
            end) st
    /\ (exists x, store st = (B ++ x)%list)
    /\ files st = flat_map fixture (reached exception spec_data)
    /\ (forall k, k ∈ modified_keys st
                  <-> k ∈ map fst (select present (reached exception spec_data)))
    /\ found st = not_empty (select present (reached exception spec_data))
    /\ found_keys (out st)
       = map fst (select (has_class optional_class) (reached exception spec_data)).
Proof.
  unfold modify_json_and_generate_files, alloc. cbn [length app fst snd]. fold B v0.
  destruct (optional_loop_files spec_data
              {| store := B; modified_keys := []; found := false; files := []; out := [] |}
              (RequiredRun.sample_intact_start max_json))
    as (st & -> & Hx & Hfiles & Hkeys & Hfound & Hout).
  { constructor. }
  cbn [store files modified_keys found out app orb] in *.
  change (found_keys []) with (@nil string) in Hout. cbn [app] in Hout.
  assert (Hkeys' : forall k, k ∈ modified_keys st
                             <-> k ∈ map fst (select present (reached exception spec_data))).
  { intros k. rewrite Hkeys. split; [intros [H|H]; [inversion H|assumption]|auto]. }
  destruct (first_exception exception spec_data) as [e|]; cbn [ends and_then].
  - exists st. auto 10.
  - unfold finish, refusal. destruct (found st) eqn:Ef.
    + destruct (open_w "_optional_missing_keys.txt") as [u|e] eqn:Eo; cbn [attempt].
      * exists {| store := store st; modified_keys := modified_keys st; found := true;
                  files := files st;
                  out := (out st ++ [LogSaved "_optional_missing_keys.txt"])%list |}.
        cbn [store files modified_keys found out ends].
        split; [reflexivity|]. split; [assumption|]. split; [assumption|].
        split; [assumption|]. split; [assumption|].
        rewrite found_keys_app, Hout. apply app_nil_r.
      * exists st. rewrite Ef. cbn [ends]. auto 10.
    + exists {| store := store st; modified_keys := modified_keys st; found := false;
                files := files st; out := (out st ++ [NoModifications])%list |}.
      cbn [store files modified_keys found out ends].
      split; [reflexivity|]. split; [assumption|]. split; [assumption|].
      split; [assumption|]. split; [assumption|].
      rewrite found_keys_app, Hout. apply app_nil_r.
Qed.

(** No file of the entries is refused. *)
Lemma optional_accepted items :
  (forall item, In item items -> present item = true ->
                open_w (output_file prefix (fst item)) = Ok tt) ->
  Forall (fun item => exception item = None) items.
Proof.
  intros H. apply Forall_forall. intros item Hin.
  unfold optional_exception, refusal. destruct (present item) eqn:Ep; [|reflexivity].
  rewrite (H item); [reflexivity| |assumption].
  apply list_elem_of_In. assumption.
Qed.

(** In remove or comment mode, on a sample whose dictionaries have distinct
    keys, the file of an entry does not hold the key of the entry. *)
Lemma optional_fixture_clean items :
  changes mode -> wf_json max_json ->
  Forall (fun item => exception item = None) items ->
  Forall2 (file_of_entry prefix) (select present items) (flat_map fixture items).
Proof.
  intros Hm Hwf. induction 1 as [|item rest Hitem _ IH]; [constructor|].
  cbn [select flat_map].
  assert (Hone : Forall2 (file_of_entry prefix)
                   (if present item then [item] else []) (fixture item)).
  { clear IH. destruct item as [key details].
    unfold optional_exception, refusal in Hitem.
    unfold OptionalSpec.fixture, optional_and_present in *. cbn [fst snd] in *.
    destruct details as [| | | | | |details]; try constructor.
    unfold optional_class in *. rewrite has_class_in_class in *.
    destruct (in_class _ _ _); [|constructor]. cbn [andb] in *.
    destruct (optional_copy_flag key)
      as (B' & ks & evs & content & Hf & _ & Hflag & Hc & _).
    cbv zeta. fold B v0. rewrite Hf, Hc, Hflag.
    destruct (holds_key key max_json); [|constructor].
    destruct (open_w (output_file prefix key)); [|discriminate].
    constructor; [|constructor]. split; [reflexivity|]. cbn [fst snd].
    pose proof (RequiredRun.sample_intact_start max_json) as Hread.
    unfold RequiredSpec.sample_intact, dumps in Hread. fold B v0 in Hread.
    destruct (find_clean key mode (length B) Hm _ _ _ _ _ Hf
                (build_wf max_json Hwf 0) (ex_intro _ _ Hread))
      as (content' & Hc' & Hfree).
    destruct (optional_copy_flag key) as (B1 & ks1 & evs1 & c1 & Hf1 & _ & _ & _ & Hlen & _).
    rewrite Hf in Hf1. inversion Hf1; subst B1.
    rewrite Hlen in Hc. rewrite Hc in Hc'. inversion Hc'; subst. assumption. }
  destruct (present item).
  - inversion Hone as [|? ? ? ? Hfile Hnil]; subst. inversion Hnil; subst.
    cbn [app]. constructor; assumption.
  - inversion Hone; subst. assumption.
Qed.

End Run.

End OptionalFiles.

(** X26. A run of [Optional2.py], end to end, in remove or comment mode, on
    a sample whose dictionaries have distinct keys, in a file system that
    takes every file of the run.  The run returns; it writes one file
    [<prefix>MissOE-<key>.json] for each entry of the specification that is
    optional ([0...1] or [0...*]) and whose key occurs somewhere in the
    sample, in the order of the specification, and no other file; in the
    file written for a key no dictionary holds that key, at any depth; the
    keys recorded for the manifest are the keys of these entries; and the
    manifest is written when, and only when, a file was. *)
Theorem optional_run_files_and_manifest (open_w : string -> result unit)
  (mode prefix : string) (spec_data : list (string * json)) (max_json : json) :
  mode = "remove" \/ mode = "comment" ->
  OptionalSpec.wf_json max_json ->
  (forall item,
      In item spec_data -> OptionalSpec.optional_and_present max_json item = true ->
      open_w (Optional2.output_file prefix (fst item)) = Ok tt) ->
  open_w "_optional_missing_keys.txt" = Ok tt ->
  exists st,
    Optional2.modify_json_and_generate_files open_w mode prefix spec_data max_json
    = Returns st
    /\ Forall2 (OptionalSpec.file_of_entry prefix)
         (GeneratorSpec.select (OptionalSpec.optional_and_present max_json) spec_data)
         (files st)
    /\ (forall k,
          k ∈ modified_keys st
          <-> k ∈ map fst (GeneratorSpec.select
                             (OptionalSpec.optional_and_present max_json) spec_data))
    /\ Optional2.manifest (Returns st)
       = if LegacySpec.not_empty (files st) then Some (modified_keys st) else None.
Proof.
  intros Hm Hwf Hfiles Hmanifest.
  pose proof (OptionalFiles.optional_accepted open_w prefix max_json _ Hfiles) as Hnone.
  destruct (RequiredFiles.reached_all _ _ Hnone) as [Hfirst Hreached].
  destruct (OptionalFiles.optional_run_files open_w mode prefix max_json spec_data)
    as (st & Hrun & _ & Hf & Hkeys & Hfound & _).
  rewrite Hfirst in Hrun. rewrite Hreached in Hf, Hkeys, Hfound.
  unfold LegacySpec.refusal in Hrun. rewrite Hmanifest in Hrun.
  pose proof (OptionalFiles.optional_fixture_clean open_w mode prefix max_json
                spec_data Hm Hwf Hnone) as Hclean.
  rewrite <- Hf in Hclean.
  exists st. split; [destruct (found st); exact Hrun|].
  split; [assumption|]. split; [assumption|].
  unfold Optional2.manifest. rewrite Hfound.
  apply Forall2_length in Hclean.
  destruct (GeneratorSpec.select _ spec_data), (files st); try discriminate; reflexivity.
Qed.

Lemma optional_run_files_and_manifest_witness :
  exists st,
    Optional2.modify_json_and_generate_files LegacySpec.flat_directory "remove" "T_"
      [("sku", JDict [("Source Occurs", JStr "0...1")]);
       ("qty", JDict [("Source Occurs", JStr "1...1")]);
       ("note", JDict [("Source Occurs", JStr "0...*")])]
      (JDict [("order", JDict [("sku", JStr "A1"); ("qty", JInt 2)]);
              ("lines", JList [JDict [("sku", JStr "B2")]])]) = Returns st
    /\ Forall2 (OptionalSpec.file_of_entry "T_")
         (GeneratorSpec.select
            (OptionalSpec.optional_and_present
               (JDict [("order", JDict [("sku", JStr "A1"); ("qty", JInt 2)]);
                       ("lines", JList [JDict [("sku", JStr "B2")]])]))
            [("sku", JDict [("Source Occurs", JStr "0...1")]);
             ("qty", JDict [("Source Occurs", JStr "1...1")]);
             ("note", JDict [("Source Occurs", JStr "0...*")])])
         (files st)
    /\ (forall k,
          k ∈ modified_keys st
          <-> k ∈ map fst
                    (GeneratorSpec.select
                       (OptionalSpec.optional_and_present
                          (JDict [("order", JDict [("sku", JStr "A1"); ("qty", JInt 2)]);
                                  ("lines", JList [JDict [("sku", JStr "B2")]])]))
                       [("sku", JDict [("Source Occurs", JStr "0...1")]);
                        ("qty", JDict [("Source Occurs", JStr "1...1")]);
                        ("note", JDict [("Source Occurs", JStr "0...*")])]))
    /\ Optional2.manifest (Returns st)
       = if LegacySpec.not_empty (files st) then Some (modified_keys st) else None.
Proof.
  apply (optional_run_files_and_manifest LegacySpec.flat_directory "remove" "T_").
  - left. reflexivity.
  - cbn. repeat split;
      repeat constructor; intros Hin;
      repeat (apply elem_of_cons in Hin as [Hin|Hin]; [discriminate|]); inversion Hin.
  - intros item Hin _. repeat (destruct Hin as [<-|Hin]; [reflexivity|]). destruct Hin.
  - reflexivity.
Defined.

(** C3. Isolation.  Whatever the file system answers, a run of
    [Required.py] ends in a state in which the objects of the sample are in
    the store as [json.load] made them, so that the sample still reads as
    the value loaded; and the files written are, entry by entry of the
    specification the run got to, the files a run on that entry alone
    writes.  When the file system takes every file of the run, the run
    returns and this holds of every entry of the specification.  In the
    unified generator the sample is an immutable string parsed anew in each
    iteration, and the contents written for the fields are, field by field,
    the contents written when the field is processed alone. *)
Theorem sample_never_mutated (mode prefix : string) (spec_data : list (string * json))
  (max_json : json) :
  (forall open_w,
      let r := Required.modify_json_and_generate_files open_w mode prefix spec_data
                 max_json in
      take (length (fst (Heap.alloc max_json []))) (store (final r))
      = fst (Heap.alloc max_json [])
      /\ Heap.dumps (store (final r)) (snd (Heap.alloc max_json [])) = Ok max_json
      /\ files (final r)
         = flat_map
             (fun item =>
                files (final (Required.modify_json_and_generate_files open_w mode prefix
                                [item] max_json)))
             (LegacySpec.reached (LegacySpec.required_exception open_w prefix max_json)
                spec_data))
  /\ (forall open_w,
        (forall item,
            In item spec_data -> LegacySpec.required_and_present max_json item = true ->
            open_w (Required.output_file prefix (fst item)) = Ok tt) ->
        open_w "_modified_keys.txt" = Ok tt ->
        exists st,
          Required.modify_json_and_generate_files open_w mode prefix spec_data max_json
          = Returns st
          /\ take (length (fst (Heap.alloc max_json []))) (store st)
             = fst (Heap.alloc max_json [])
          /\ Heap.dumps (store st) (snd (Heap.alloc max_json [])) = Ok max_json
          /\ files st
             = flat_map
                 (fun item =>
                    files (final (Required.modify_json_and_generate_files open_w mode
                                    prefix [item] max_json)))
                 spec_data)
  /\ (forall ET json_loads json_dumps cfg file_format max_content i target_fields,
        map snd (Generator.generate_loop ET json_loads json_dumps cfg file_format mode
                   prefix max_content i target_fields)
        = flat_map
            (fun f => map snd (Generator.generate_loop ET json_loads json_dumps cfg
                                 file_format mode prefix max_content 1 [f]))
            target_fields).
Proof.
  assert (Hone : forall open_w item,
             files (final (Required.modify_json_and_generate_files open_w mode prefix
                             [item] max_json))
             = RequiredSpec.fixture open_w mode prefix max_json item).
  { intros open_w item.
    destruct (RequiredFiles.run_spec open_w mode prefix max_json [item])
      as (st1 & -> & _ & Hf1 & _).
    assert (Hfinal : forall e, final (LegacySpec.ends e st1) = st1)
      by (intros [e|]; reflexivity).
    rewrite Hfinal, Hf1. cbn [LegacySpec.reached].
    destruct (LegacySpec.required_exception _ _ _ item); cbn [flat_map];
      apply app_nil_r. }
  assert (Hgen : forall open_w,
             let r := Required.modify_json_and_generate_files open_w mode prefix spec_data
                        max_json in
             take (length (fst (Heap.alloc max_json []))) (store (final r))
             = fst (Heap.alloc max_json [])
             /\ Heap.dumps (store (final r)) (snd (Heap.alloc max_json [])) = Ok max_json
             /\ files (final r)
                = flat_map
                    (fun item =>
                       files (final (Required.modify_json_and_generate_files open_w mode
                                       prefix [item] max_json)))
                    (LegacySpec.reached
                       (LegacySpec.required_exception open_w prefix max_json) spec_data)).
  { intros open_w r. subst r.
    destruct (RequiredFiles.run_spec open_w mode prefix max_json spec_data)
      as (st & -> & [x Hx] & Hf & _).
    assert (Hfinal : forall e, final (LegacySpec.ends e st) = st)
      by (intros [e|]; reflexivity).
    rewrite Hfinal.
    change (fst (Heap.alloc max_json [])) with (fst (Heap.build max_json 0)).
    change (snd (Heap.alloc max_json [])) with (snd (Heap.build max_json 0)).
    split; [|split].
    - rewrite Hx. apply take_app_length.
    - rewrite Hx. apply RequiredRun.sample_intact_app, RequiredRun.sample_intact_start.
    - rewrite Hf. apply flat_map_ext. intros item. symmetry. apply Hone. }
  split; [exact Hgen|]. split; [|intros; apply generate_loop_contents].
  intros open_w Hfiles Hmanifest.
  pose proof (RequiredFiles.accepted_no_exception open_w prefix max_json _ Hfiles) as Hnone.
  destruct (RequiredFiles.reached_all _ _ Hnone) as [Hfirst Hreached].
  destruct (Hgen open_w) as (H1 & H2 & H3). rewrite Hreached in H3.
  destruct (RequiredFiles.run_spec open_w mode prefix max_json spec_data)
    as (st & Hrun & _).
  rewrite Hfirst in Hrun. unfold LegacySpec.refusal in Hrun. rewrite Hmanifest in Hrun.
  assert (Hret : Required.modify_json_and_generate_files open_w mode prefix spec_data
                   max_json = Returns st)
    by (destruct (found st); exact Hrun).
  rewrite Hret in H1, H2, H3. exists st. auto.
Qed.

Lemma sample_never_mutated_witness :
  exists st,
    Required.modify_json_and_generate_files LegacySpec.flat_directory "comment" "T_"
      [("sku", JDict [("Source Occurs", JStr "1...1")]);
       ("qty", JDict [("Source Occurs", JStr "1...*")])]
      (JDict [("order", JDict [("sku", JStr "X1"); ("qty", JInt 2)])])
    = Returns st
    /\ take (length (fst (Heap.alloc
                            (JDict [("order",
                                     JDict [("sku", JStr "X1"); ("qty", JInt 2)])]) [])))
         (store st)
       = fst (Heap.alloc
                (JDict [("order", JDict [("sku", JStr "X1"); ("qty", JInt 2)])]) [])
    /\ Heap.dumps (store st)
         (snd (Heap.alloc
                 (JDict [("order", JDict [("sku", JStr "X1"); ("qty", JInt 2)])]) []))
       = Ok (JDict [("order", JDict [("sku", JStr "X1"); ("qty", JInt 2)])])
    /\ files st
       = flat_map
           (fun item =>
              files (final (Required.modify_json_and_generate_files
                              LegacySpec.flat_directory "comment" "T_" [item]
                              (JDict [("order",
                                       JDict [("sku", JStr "X1"); ("qty", JInt 2)])]))))
           [("sku", JDict [("Source Occurs", JStr "1...1")]);
            ("qty", JDict [("Source Occurs", JStr "1...*")])].
Proof.
  apply (proj1 (proj2 (sample_never_mutated "comment" "T_"
                         [("sku", JDict [("Source Occurs", JStr "1...1")]);
                          ("qty", JDict [("Source Occurs", JStr "1...*")])]
                         (JDict [("order", JDict [("sku", JStr "X1"); ("qty", JInt 2)])])))
           LegacySpec.flat_directory).
  - intros item Hin _. repeat (destruct Hin as [<-|Hin]; [reflexivity|]). destruct Hin.
  - reflexivity.
Defined.

(** [Required.py] writes no file for an entry whose key the mutator does not
    find in the copy of the sample. *)
Lemma required_skips_absent_field open_w mode prefix max_json key details B' evs :
  Required.find_and_modify_keys (length (fst (Heap.build max_json 0))) key mode
    (fst (Heap.build max_json 0)) (snd (Heap.build max_json 0)) = Ok (B', false, evs) ->
  files (final (Required.modify_json_and_generate_files open_w mode prefix
                  [(key, details)] max_json))
  = [].
Proof.
  intros H.
  destruct (RequiredFiles.run_spec open_w mode prefix max_json [(key, details)])
    as (st1 & -> & _ & Hf1 & _).
  assert (Hfinal : forall e, final (LegacySpec.ends e st1) = st1)
    by (intros [e|]; reflexivity).
  rewrite Hfinal, Hf1.
  assert (Hfix : RequiredSpec.fixture open_w mode prefix max_json (key, details) = []).
  { unfold RequiredSpec.fixture. cbn [fst snd]. rewrite H.
    destruct details; try reflexivity. destruct (in_class _ _ _); reflexivity. }
  cbn [LegacySpec.reached].
  destruct (LegacySpec.required_exception _ _ _ _); cbn [flat_map];
    rewrite Hfix; reflexivity.
Qed.

Lemma find_fields_raises items target :
  GeneratorSpec.mappings_apart_from_format items = false ->
  Generator.find_fields_by_occurrence_items items target = Raise AttributeError.
Proof.
  induction items as [|[name attrs] rest IH]; [discriminate|].
  cbn [GeneratorSpec.mappings_apart_from_format forallb fst snd
       Generator.find_fields_by_occurrence_items].
  fold (GeneratorSpec.mappings_apart_from_format rest).
  destruct (String.eqb name "format"); cbn [orb andb]; [exact IH|].
  destruct attrs; try reflexivity.
  cbn [andb]. intros H. rewrite (IH H). reflexivity.
Qed.

Lemma mappings_apart_from_format_Forall items :
  GeneratorSpec.mappings_apart_from_format items = true ->
  Forall (fun item => String.eqb (fst item) "format" = true
                      \/ exists attrs, snd item = JDict attrs) items.
Proof.
  unfold GeneratorSpec.mappings_apart_from_format.
  induction items as [|item rest IH]; cbn [forallb]; intros H; [constructor|].
  apply andb_true_iff in H as [Hitem Hrest]. constructor; [|auto].
  apply orb_true_iff in Hitem as [Hitem|Hitem]; [auto|].
  right. destruct (snd item); try discriminate. eauto.
Qed.

(** C1, amended.  A run of [Required.py] processes, in the order of the
    specification, exactly the entries whose occurrence string is [1...1] or
    [1...*] among the entries it gets to, and a run of [Optional2.py]
    exactly those whose occurrence string is [0...1] or [0...*]; a run gets
    to every entry unless the file system refuses a fixture file, and then
    to the entries up to the one whose file is refused.  The unified
    generator, on a specification whose entries other than [format] are all
    mappings, selects exactly the entries other than [format] whose
    occurrence string is [1...1] in a required run and [0...1] in an
    optional run; on any other specification it raises [AttributeError]. *)
Theorem occurrence_filtering :
  (forall open_w mode prefix spec_data max_json,
      let r := Required.modify_json_and_generate_files open_w mode prefix spec_data
                 max_json in
      Occurrence.found_keys (out (final r))
      = map fst (GeneratorSpec.select
                   (Occurrence.has_class Occurrence.required_class)
                   (LegacySpec.reached
                      (LegacySpec.required_exception open_w prefix max_json) spec_data))
      /\ ((forall item,
              In item spec_data -> LegacySpec.required_and_present max_json item = true ->
              open_w (Required.output_file prefix (fst item)) = Ok tt) ->
          Occurrence.found_keys (out (final r))
          = map fst (GeneratorSpec.select
                       (Occurrence.has_class Occurrence.required_class) spec_data)))
  /\ (forall open_w mode prefix spec_data max_json,
      let r := Optional2.modify_json_and_generate_files open_w mode prefix spec_data
                 max_json in
      Occurrence.found_keys (out (final r))
      = map fst (GeneratorSpec.select
                   (Occurrence.has_class Occurrence.optional_class)
                   (LegacySpec.reached
                      (OptionalSpec.optional_exception open_w prefix max_json) spec_data))
      /\ ((forall item,
              In item spec_data -> OptionalSpec.optional_and_present max_json item = true ->
              open_w (Optional2.output_file prefix (fst item)) = Ok tt) ->
          Occurrence.found_keys (out (final r))
          = map fst (GeneratorSpec.select
                       (Occurrence.has_class Occurrence.optional_class) spec_data)))
  /\ (forall t items,
      if GeneratorSpec.mappings_apart_from_format items then
        exists fields,
          Generator.find_fields_by_occurrence (JDict items)
            (Generator.target_occurrence_of t)
          = Ok fields
          /\ map element fields
             = map fst
                 (GeneratorSpec.select
                    (fun item =>
                       negb (String.eqb (fst item) "format")
                       && Occurrence.has_class [Generator.target_occurrence_of t] item)
                    items)
      else
        Generator.find_fields_by_occurrence (JDict items) (Generator.target_occurrence_of t)
        = Raise AttributeError).
Proof.
  split; [|split].
  - intros open_w mode prefix spec_data max_json r. subst r.
    destruct (RequiredFiles.run_spec open_w mode prefix max_json spec_data)
      as (st & -> & _ & _ & _ & _ & Hout).
    assert (Hfinal : forall e, final (LegacySpec.ends e st) = st)
      by (intros [e|]; reflexivity).
    rewrite Hfinal. split; [exact Hout|].
    intros Hfiles.
    pose proof (RequiredFiles.accepted_no_exception open_w prefix max_json _ Hfiles) as Hnone.
    destruct (RequiredFiles.reached_all _ _ Hnone) as [_ Hreached].
    rewrite Hout, Hreached. reflexivity.
  - intros open_w mode prefix spec_data max_json r. subst r.
    destruct (OptionalFiles.optional_run_files open_w mode prefix max_json spec_data)
      as (st & -> & _ & _ & _ & _ & Hout).
    assert (Hfinal : forall e, final (LegacySpec.ends e st) = st)
      by (intros [e|]; reflexivity).
    rewrite Hfinal. split; [exact Hout|].
    intros Hfiles.
    pose proof (OptionalFiles.optional_accepted open_w prefix max_json _ Hfiles) as Hnone.
    destruct (RequiredFiles.reached_all _ _ Hnone) as [_ Hreached].
    rewrite Hout, Hreached. reflexivity.
  - intros t items.
    destruct (GeneratorSpec.mappings_apart_from_format items) eqn:Em.
    + apply mappings_apart_from_format_Forall in Em.
      destruct (GeneratorFacts.find_fields_total items (Generator.target_occurrence_of t) Em)
        as [fields Hf].
      exists fields. split; [assumption|].
      rewrite (GeneratorFacts.find_fields_elements _ _ _ Hf).
      f_equal. apply select_ext. intros item. apply selects_has_class.
    + apply find_fields_raises. assumption.
Qed.

Lemma occurrence_filtering_witness :
  Occurrence.found_keys
    (out (final (Required.modify_json_and_generate_files LegacySpec.flat_directory
                   "remove" "T_"
                   [("sku", JDict [("Source Occurs", JStr "1...1")]);
                    ("note", JDict [("Source Occurs", JStr "0...1")]);
                    ("qty", JDict [("Source Occurs", JStr "1...*")])]
                   (JDict [("order", JDict [("sku", JStr "X1"); ("qty", JInt 2)])]))))
  = map fst
      (GeneratorSpec.select (Occurrence.has_class Occurrence.required_class)
         [("sku", JDict [("Source Occurs", JStr "1...1")]);
          ("note", JDict [("Source Occurs", JStr "0...1")]);
          ("qty", JDict [("Source Occurs", JStr "1...*")])]).
Proof.
  apply (proj2 (proj1 occurrence_filtering LegacySpec.flat_directory "remove" "T_"
                  [("sku", JDict [("Source Occurs", JStr "1...1")]);
                   ("note", JDict [("Source Occurs", JStr "0...1")]);
                   ("qty", JDict [("Source Occurs", JStr "1...*")])]
                  (JDict [("order", JDict [("sku", JStr "X1"); ("qty", JInt 2)])]))).
  intros item Hin _. repeat (destruct Hin as [<-|Hin]; [reflexivity|]). destruct Hin.
Defined.

(** ** CommentOut on a mapping key *)

Module CommentFacts.
Import Heap HeapSpec HeapFacts KeySpec.





End CommentFacts.



(** ** The path of the XML strategy *)

Module XmlFacts.
Import Py.

Lemma split_app_sep sep p s :
  split sep (p ++ String sep s) = (split sep p ++ split sep s)%list.
Proof.
  induction p as [|c r IH]; simpl.
  - rewrite Ascii.eqb_refl. reflexivity.
  - rewrite IH. destruct (Ascii.eqb c sep); [reflexivity|].
    pose proof (PyFacts.split_not_nil sep r) as Hnil.
    destruct (split sep r); [congruence|reflexivity].
Qed.

Lemma last_component_app prefix name :
  Xml.last_component (prefix ++ "/" ++ name) = Xml.last_component name.
Proof.
  unfold Xml.last_component.
  change ("/" ++ name) with (String "/" name).
  rewrite split_app_sep.
  generalize (PyFacts.split_not_nil "/" name).
  generalize (split "/" name) as l'. generalize (split "/" prefix) as l.
  induction l as [|x l IH]; intros l' Hnil; [reflexivity|].
  specialize (IH l' Hnil). cbn [app List.last].
  destruct (l ++ l')%list eqn:E; [|assumption].
  apply app_eq_nil in E as [_ E]. congruence.
Qed.

End XmlFacts.

(** X27. The XML strategy looks the field up by the last component of its
    path only: whatever precedes the last [/] of the path has no effect on
    the result, so [order/item/sku] and [sku] select the same elements,
    whatever the document and the mode. *)
Theorem xml_reads_last_path_component (ET : ElementTree)
  (xml_content before name modification_mode : string) :
  Xml.process_xml_field_removal ET xml_content (before ++ "/" ++ name) modification_mode
  = Xml.process_xml_field_removal ET xml_content name modification_mode.
Proof.
  unfold Xml.process_xml_field_removal, Xml.try_block.
  rewrite XmlFacts.last_component_app. reflexivity.
Qed.

(** ** The flat extractor ([extractor2.py]) *)

Module FlatFacts.
Import FlatSpec.

Lemma Forall_set {A} (P : string * A -> Prop) k v (d : list (string * A)) :
  (forall k' v', P (k', v') -> P (k', v)) ->
  P (k, v) -> Forall P d -> Forall P (Dict.set k v d).
Proof.
  intros Hsame Hkv. induction 1 as [|[k' v'] t Hx Ht IH]; simpl.
  - repeat constructor. assumption.
  - destruct (String.eqb k k'); constructor; eauto.
Qed.

Lemma universal_row_flat idx headers result_ row :
  NoDup (map fst result_) /\ Forall attribute_entry result_ ->
  NoDup (map fst (Extractor2.universal_row idx headers result_ row))
  /\ Forall attribute_entry (Extractor2.universal_row idx headers result_ row).
Proof.
  intros [Hnd Hall]. unfold Extractor2.universal_row.
  destruct (omap Extractor2.element_value (take idx row)) as [|p ps]; [auto|].
  destruct (Extractor.extract_attributes _ _ _ _) as [|a attributes] eqn:E; [auto|].
  split; [apply KeyFacts.NoDup_set; assumption|].
  apply Forall_set; [| |assumption].
  - intros k' v' _. exists (a :: attributes). split; [discriminate|reflexivity].
  - exists (a :: attributes). split; [discriminate|reflexivity].
Qed.

Lemma rows_flat idx headers rows :
  forall result_,
    NoDup (map fst result_) /\ Forall attribute_entry result_ ->
    NoDup (map fst (fold_left (Extractor2.universal_row idx headers) rows result_))
    /\ Forall attribute_entry (fold_left (Extractor2.universal_row idx headers) rows result_).
Proof.
  induction rows as [|row rest IH]; intros result_ H; [assumption|].
  simpl. apply IH, universal_row_flat, H.
Qed.

End FlatFacts.

(** X28. What [extractor2.py] returns is a flat specification: its keys are
    pairwise distinct, and every entry is a dictionary of at least one
    attribute whose values are all strings, whatever the sheet holds.  So a
    row that repeats an element name adds no second entry. *)
Theorem flat_extractor_returns_flat_specification (df : dataframe) :
  NoDup (map fst (Extractor2.extract_universal_hierarchy df))
  /\ Forall FlatSpec.attribute_entry (Extractor2.extract_universal_hierarchy df).
Proof.
  unfold Extractor2.extract_universal_hierarchy.
  destruct (Extractor.source_occurs_idx (columns df)) as [idx|].
  - apply FlatFacts.rows_flat. split; constructor.
  - split; constructor.
Qed.
